(* ===== verification/_CoqProject ===== *)
-Q . S2P
Prelude.v
Bytes.v
Stdio.v
Checksum.v
SrState.v
SrIf.v
SrRt.v
SrPrint.v
SrDumper.v
VnsCommand.v
SrSend.v
SrArpcache.v
SrArpreq.v
SrPackets.v
SrArpFacts.v
SrRouter.v
SrRouterFacts.v
SrThreads.v
Sha1.v
Sha1Spec.v
Sha1Facts.v
SrVns.v
VnsFacts.v
SrDemo.v
SrBasicThms.v
SrForwardThms.v
SrArpThms.v
SrGiveUp.v
SrOverlap.v
SrSafety.v
SrMain.v
VnsThms.v
SrSession.v
ForkServer.v
FastCopy.v
Proxy.v
ProxyThms.v
ProxyMain.v
MysockHash.v
MysockState.v
PacketQueue.v
NetworkIoTcp.v
SocketFds.v
TcpSum.v
Mysock.v
ConnectionDemux.v
DemuxFacts.v
StcpApi.v
Transport.v
MysockApi.v
NetworkIoSocket.v
App.v
FtServer.v
FtClient.v
StcpFacts.v
TransportFacts.v
StcpSystem.v
StcpInvariant.v
StcpProgress.v
StcpHandshake.v
StcpSetup.v
StcpDemo.v
StcpUnreliable.v
MysockThms.v
NetworkThms.v
DemuxThms.v
StcpClose.v
CloseSystem.v
StcpThms.v
AppSystem.v
FtFacts.v
FtThms.v
Session.v
SessionThms.v
