(* ===== verification/Prelude.v ===== *)
(** * Verification of the EE323 networking projects

    The repository holds the programs of four assignments for a course on computer
    networks. This library models them and proves what makes them correct:
    - the router of assignment 3 (src/20180036_assign3), a user-level IP router
      that exchanges frames with a VNS server over a TCP connection;
    - STCP of assignment 4 (src/20180036_assign4), a TCP-like transport layer
      under a socket-like API, whose segments travel over real TCP;
    - the HTTP proxy of assignment 2 (src/20180036_assign2);
    - the two programs of assignment 1 (src/20180036_assign1), which copy lines
      over a socket.
    This file is the root: it holds what all of them share, and documents the
    rest.

    ** How C is modelled

    Code that changes state is a function in the monad [M S A]: from a state to
    a value and a new state, or to a [fault]. A fault is a way in which the run
    stops being defined or stops: [NullDeref], [OutOfBounds], [UseAfterFree],
    [Uninitialised], [AssertFailed] (the code's own assert), [Blocked] (the run
    waits for something that is not there) and [OutOfFuel]. Memory is a list of
    bytes with checked loads and stores at the offsets of the C structs
    (Bytes.v), in little-endian order as on the machines the code was built for;
    [htonl] and [ntohl] are the byte swaps. Integers are [Z], wrapped to their
    width by [u16], [u32], [s32], [u64] where the code computes in that width.
    Objects that are shared or freed (ARP requests, nodes of packet queues) live
    in explicit heaps, and a load from a freed one is a fault.

    Correctness is stated with [wlp F m Q s]: the run of [m] from [s] ends in
    [Q], or in a fault that [F] tolerates. With [F] false for every fault the
    run ends ([wlp_total]), so every theorem of that form, and every equation
    [m s = Ok (a, s')], is total correctness. [wgo] runs a handler up to its next
    branch, [wif] through a branch whose condition computes.

    Stdio.v has what the programs use of formatted input and output and of
    getopt: numbers printed and scanned, options permuted as in glibc.

    ** The router (assignment 3)

    - SrState.v: the structs of sr_protocol.h, sr_if.h, sr_rt.h, sr_arpcache.h,
      sr_router.h; [sr_instance] is the whole state, [sr_wire] what was written
      to the server. [env] is what the world answers: the clock, the content of
      fresh memory, the results of write, and how many bytes of a block from malloc
      are usable; [roomy] says that a block of 6 has 8, as with glibc.
    - Checksum.v: [cksum] of sr_utils.c against RFC 1071. SrIf.v: sr_if.c.
      SrRt.v: sr_rt.c, [sr_findLPMentry], [sr_verify_routing_table].
      SrPrint.v: the texts that the print functions of sr_utils.c, sr_if.c, sr_rt.c
      and the dump of the ARP cache write; the printed headers of a frame look at
      its bytes only, and a printed routing table loads back as it was.
      SrDumper.v: sr_dumper.c and [sr_log_packet]. VnsCommand.v: vnscommand.h, the
      structs of the messages as lists of fields, from which the sizes and offsets
      of the code come. SrSend.v: [sr_send_packet].
    - SrArpcache.v, SrArpreq.v: sr_arpcache.c. SrArpcache.v has the operations of
      table and queue, each one step under the lock; SrArpreq.v the handling of an
      outstanding request, the sweep and the cleanup round. An ARP request stores
      8 bytes into a block of 6 ([broadcast_mac]): where the allocator is not
      [roomy] that is a fault, and the theorems on branches that send one either
      assume [roomy] or state both outcomes.
    - SrRouter.v: [sr_handlepacket] of sr_router.c, one definition per branch.
      SrThreads.v: how the rounds of the cleanup thread come in.
    - SrVns.v: the session with the server, sr_vns_comm.c from the first recv to
      the dispatch of a command, and sr_main.c behind the option parsing, which
      SrMain.v adds: every setting of the command line gets where it belongs. A
      session is the router, the socket as a list of arrivals (bytes, a signal,
      an error) and the files of the working directory. The user name is the
      string that begins at [sr->user] and, when it fills that array, runs on over
      the fields behind it ([user_string]). Sha1.v: sha1.c.
    - SrPackets.v, SrArpFacts.v, SrRouterFacts.v, Sha1Spec.v, Sha1Facts.v,
      VnsFacts.v: specifications of what is built and sent, SHA-1 as FIPS 180
      has it, and the rules of the operations. SrDemo.v: a concrete router.
    - SrForwardThms.v: what happens to an IP packet on every branch of the handler
      (forwarded, queued, answered, reported, dropped). SrArpThms.v: ARP answered,
      learned from, retried, timed out. SrGiveUp.v: giving up a request, the
      whole cleanup round, and the recursion that does not end. SrBasicThms.v:
      longest-prefix match, checksum, packet log (a record is parsed back from the
      file). SrSafety.v: the invariant of
      all reachable states, freedom from faults under total routing, and the
      packets that crash the router. VnsThms.v: authentication, interfaces,
      the layout of what is sent, the main loop for every way the bytes can arrive, bad lengths.
    - SrSession.v: the program as a whole, from the command line over the
      authentication, the table in its file and the interfaces the server
      describes, to the packets delivered in order and the exit, while the clock
      goes on and the cleanup thread makes its rounds.

    The handler is called by the main loop, and there is a cleanup thread. A round
    of the thread has the cache's lock from beginning to end, and so has each
    operation of the cache that the handler calls; the handler itself has it
    only there. A [turn] says which rounds are made before a frame is handled and
    which between queueing a packet and handling its request, the one place where
    the handler depends on the state of a request that the lock no longer
    protects (sr_router.c 429-430 and the ends of the other branches): the
    entry that [sr_arpcache_lookup] returns is a copy, the request that
    [sr_arpcache_insert] returns is out of the queue, and a round between lookup
    and queueing does what it does before the frame. The theorems on single
    branches have no round inside; the invariant, the freedom from faults and
    the session have any, and [overtaken_use_after_free] the one that goes wrong.
    Handling a request, once begun, is one step.
    Fuel: [sr_arpcache_handle_arpreq] calls itself when a request is given up;
    [handlepacket_safe] shows that fuel 1 is enough where no request is given up
    and the allocator is [roomy],
    [arpreq_given_up] that it is enough for giving up where the gateways of the
    packets' sources are known, and [give_up_never_returns] that no fuel is when
    they are the one that is given up. The loops that
    read the socket need as much fuel as there are arrivals.

    ** STCP (assignment 4)

    - MysockState.v: the structs of mysock_impl.h, network_io.h, transport.c and
      connection_demux.c; [stack] is one process: the table of mysockets, the
      state of each transport thread, the queues of listening mysockets. A completed
      connection points to its request by the block and the index in it; realloc
      makes a new block, and a load through a pointer to an old one is a fault.
      [Kernel]
      is the class of the system calls' answers; [KernelOk] states what POSIX
      promises of them.
    - MysockHash.v: mysock_hash.h. PacketQueue.v: the packet queues, as linked
      nodes in a heap and as lists; the rest is written against the lists.
      TcpSum.v: tcp_sum.c and network_io.c. NetworkIoTcp.v: what the sockets of
      network_io_tcp.c carry. SocketFds.v: which descriptors network_io_tcp.c and
      network_io_socket.c have open, and that none is leaked or closed twice.
      NetworkIoSocket.v: the receive thread of network_io_socket.c around its
      rounds, and the interface's address. Mysock.v: mysock.c.
      ConnectionDemux.v: connection_demux.c. StcpApi.v: stcp_api.c and network.c
      (with its simulated loss). Transport.v: transport.c. MysockApi.v:
      mysock_api.c and the receive thread.
    - A thread is cut at its waits: [transport_start], [handshake],
      [establish_connection], [control_iteration] and [transport_thread_func] run
      from one wait to the next, and stop with [Blocked] where the code would
      wait on a condition variable. StcpSystem.v joins two such processes by a
      byte stream and lets applications, threads and the network take steps in
      any order.
    - MysockThms.v: hash table and linked queue implement map and list.
      NetworkThms.v: framing and checksum round trips. DemuxThms.v: the table of
      mysockets, the listen queues, the backlog, and the pointers that a second
      mylisten leaves dangling. StcpSetup.v, StcpHandshake.v: opening a connection.
      StcpInvariant.v, StcpProgress.v: the invariant of the two-host system (every
      byte that was written is read, waits in exactly one queue or segment, or
      is in flight) and its measure. StcpThms.v: stream integrity, delivery,
      absence of deadlock and faults, the window. StcpClose.v: the
      rounds that close a connection, and a server that closes first, which never
      does. CloseSystem.v: a client closes first and its server once it has read
      the end of the stream, with nothing else on its way; under every
      interleaving both get to the end, in at most 103 steps. DemuxFacts.v, StcpFacts.v,
      TransportFacts.v: the rules they use; StcpDemo.v a concrete system.

    - App.v: a program over the mysocket API as the tree of its calls; FtServer.v and
      FtClient.v: server.c and client.c, the file server and its client, from
      their command lines on. Loops
      without a bound of their own have fuel for the number of requests.
    - AppSystem.v: two such programs run on the two-host system. A script says
      which bytes they exchange in which order; programs that play the two roles
      of one script keep to it under every interleaving and can always finish.
      FtFacts.v shows that client and server do; FtThms.v has the result, the
      file transfer from end to end.
    - Session.v: the two applications from their first call to their last, with
      the waits of [myconnect] and [myclose], the threads of every mysocket of
      both hosts and the TCP connection being made; the opening, the conversation
      and the closing as parts of one such run. SessionThms.v: the file server
      serves its clients one after the other. The conversation in the middle may
      go any way; of opening and closing it is one order of the steps that is
      shown to lead on.

    - StcpUnreliable.v: a mysocket that is not reliable. What network.c makes of a
      packet, and that STCP neither notices a segment that comes twice nor sends
      one again that is lost.

    The theorems on established connections are, that file apart, for reliable
    mysockets and for fewer than 2^32 - 1 bytes in each direction: there the 32-bit sequence
    numbers on the wire and the 64-bit ones of the context agree.

    ** The proxy (assignment 2)

    - Proxy.v: the child that serves one client, with the sequence of results of
      recv as its input; the resolver and the connection are parameters.
      ProxyThms.v: what a request in any pieces leads to.
    - ProxyMain.v: the parent, over ForkServer.v: the blacklist it reads, its
      descriptors, and what its children keep open. What a child prints and the
      descriptor of its connection to the host are left out.

    ** Copying lines (assignment 1)

    - ForkServer.v: what the servers of assignments 1 and 2 have in common, and
      the connecting loop of the client. A process is its open descriptors, its
      standard output with what the library still holds back, and its dead
      children; [System] is what the system calls answer, [SystemOk] what POSIX
      promises of it. An accept loop runs over the sequence of what its accepts
      meet; children run on their own from the state that fork copied.
    - FastCopy.v: client.c and server.c, and that from the terminal of a client to
      that of the server what is typed is printed, up to an empty line, while the
      server keeps its descriptors and reaps its children.

    ** What is not modelled

    - Messages about errors, debug output, and what assignment 4's programs print.
      The text of sr_main.c's banner, of its debug output and [sr_destroy_instance],
      which closes the log at the end.
    - Locks, condition variables and thread creation: each operation under a lock
      is one step, each wait a [Blocked]. That the main thread of the router handles
      a request without the lock, so that a round could even come into the middle
      of it, is left out.
    - #sr_router.c# and sr_router.c~ are an editor's copies of sr_router.c. *)

From stdpp Require Export base tactics numbers list option decidable sets gmap.
From Stdlib Require Export ZArith Lia.

Open Scope Z_scope.

(* ------------------------------------------------------------------ *)
(** * Outcomes *)

(** How a run of the C code stops being defined (or stops running). *)
Inductive fault :=
  | NullDeref        (* load or store through a null pointer *)
  | OutOfBounds      (* access outside an object *)
  | UseAfterFree     (* access to, or free of, an object already freed *)
  | Uninitialised    (* use of a variable nothing was stored in *)
  | AssertFailed     (* assert() *)
  | Blocked          (* waits for input that is not there *)
  | OutOfFuel.       (* the recursion bound of the model ran out *)

#[export] Instance fault_eq_dec : EqDecision fault.
Proof. solve_decision. Defined.

Inductive res (A : Type) :=
  | Ok (a : A)
  | Err (f : fault).
Arguments Ok {A} a.
Arguments Err {A} f.

(** A handler: from a state to an outcome and a new state. *)
Definition M (S A : Type) : Type := S -> res (A * S).

#[export] Instance M_ret S : MRet (M S) := fun A (a : A) s => Ok (a, s).
#[export] Instance M_bind S : MBind (M S) := fun A B (k : A -> M S B) (m : M S A) s =>
  match m s with
  | Ok (a, s') => k a s'
  | Err f => Err f
  end.

Definition get {S} : M S S := fun s => Ok (s, s).
Definition put {S} (s' : S) : M S unit := fun _ => Ok (tt, s').
Definition modify {S} (f : S -> S) : M S unit := fun s => Ok (tt, f s).
Definition gets {S A} (f : S -> A) : M S A := fun s => Ok (f s, s).
Definition fail {S A} (f : fault) : M S A := fun _ => Err f.
Definition lift {S A} (r : res A) : M S A := fun s =>
  match r with Ok a => Ok (a, s) | Err f => Err f end.

(** [assert(c)] of the C code. *)
Definition massert {S} (c : bool) : M S unit := if c then mret tt else fail AssertFailed.

(** Dereference of a pointer that may be null. *)
Definition deref {S A} (p : option A) : M S A :=
  match p with Some a => mret a | None => fail NullDeref end.

(** Value of a local variable that may not have been set. *)
Definition initialised {S A} (p : option A) : M S A :=
  match p with Some a => mret a | None => fail Uninitialised end.

(** [for]-loop over the elements of a list. *)
Fixpoint mfor {S A} (l : list A) (body : A -> M S unit) : M S unit :=
  match l with
  | [] => mret tt
  | x :: l' => body x ≫= fun _ => mfor l' body
  end.

(* ------------------------------------------------------------------ *)
(** * Weakest preconditions *)

(** [wp m Q s]: run from [s], [m] is defined and ends with [Q]. *)
Definition wp {S A} (m : M S A) (Q : A -> S -> Prop) (s : S) : Prop :=
  match m s with Ok (a, s') => Q a s' | Err _ => False end.

(** [wlp F m Q s]: run from [s], [m] ends with [Q] or stops with a fault that
    [F] tolerates. *)
Definition wlp {S A} (F : fault -> Prop) (m : M S A) (Q : A -> S -> Prop) (s : S) : Prop :=
  match m s with Ok (a, s') => Q a s' | Err f => F f end.

Section wlp_rules.
Context {S : Type} (F : fault -> Prop).

Lemma wlp_ret {A} (a : A) (Q : A -> S -> Prop) (s : S) : Q a s -> wlp F (mret a) Q s.
Proof. done. Qed.

Lemma wlp_bind {A B} (m : M S A) (k : A -> M S B) Q s :
  wlp F m (fun a s' => wlp F (k a) Q s') s -> wlp F (m ≫= k) Q s.
Proof. unfold wlp, mbind, M_bind. by destruct (m s) as [[a s']|f]. Qed.
Lemma wlp_bind_inv {A B} (m : M S A) (k : A -> M S B) Q s :
  wlp F (m ≫= k) Q s -> wlp F m (fun a s' => wlp F (k a) Q s') s.
Proof. unfold wlp, mbind, M_bind. by destruct (m s) as [[a s']|f]. Qed.

Lemma wlp_mono {A} (m : M S A) (P Q : A -> S -> Prop) s :
  wlp F m P s -> (forall a s', P a s' -> Q a s') -> wlp F m Q s.
Proof. unfold wlp. destruct (m s) as [[a s']|f]; auto. Qed.

Lemma wlp_eq {A} (m m' : M S A) (Q : A -> S -> Prop) s : m s = m' s -> wlp F m' Q s -> wlp F m Q s.
Proof. unfold wlp. by intros ->. Qed.

Lemma wlp_get (Q : S -> S -> Prop) (s : S) : Q s s -> wlp F get Q s.
Proof. done. Qed.
Lemma wlp_put (s' : S) (Q : unit -> S -> Prop) s : Q tt s' -> wlp F (put s') Q s.
Proof. done. Qed.
Lemma wlp_modify (f : S -> S) (Q : unit -> S -> Prop) s : Q tt (f s) -> wlp F (modify f) Q s.
Proof. done. Qed.
Lemma wlp_gets {A} (f : S -> A) (Q : A -> S -> Prop) s : Q (f s) s -> wlp F (gets f) Q s.
Proof. done. Qed.
Lemma wlp_fail {A} f (Q : A -> S -> Prop) s : F f -> wlp F (fail f) Q s.
Proof. done. Qed.
Lemma wlp_lift {A} (r : res A) (Q : A -> S -> Prop) s :
  match r with Ok a => Q a s | Err f => F f end -> wlp F (lift r) Q s.
Proof. unfold wlp, lift. by destruct r. Qed.
Lemma wlp_deref {A} (p : option A) (Q : A -> S -> Prop) s :
  match p with Some a => Q a s | None => F NullDeref end -> wlp F (deref p) Q s.
Proof. by destruct p. Qed.
Lemma wlp_massert (c : bool) (Q : unit -> S -> Prop) s :
  (if c then Q tt s else F AssertFailed) -> wlp F (massert c) Q s.
Proof. by destruct c. Qed.

Lemma wlp_and {A} (m : M S A) (P R : A -> S -> Prop) s :
  wlp F m P s -> wlp F m R s -> wlp F m (fun a s' => P a s' /\ R a s') s.
Proof. unfold wlp. destruct (m s) as [[a s']|f]; auto. Qed.

(** The loop rule: an invariant over the elements not yet visited. *)
Lemma wlp_mfor {A} (l : list A) (body : A -> M S unit) (I : list A -> S -> Prop) s :
  I l s ->
  (forall x l' s, I (x :: l') s -> wlp F (body x) (fun _ s' => I l' s') s) ->
  wlp F (mfor l body) (fun _ s' => I [] s') s.
Proof.
  intros HI Hstep. revert s HI. induction l as [|x l IH]; intros s HI; simpl; [done|].
  apply wlp_bind. eapply wlp_mono; [by apply Hstep|]. intros a s' HI'. by apply IH.
Qed.
End wlp_rules.

(** Total runs are partial runs that tolerate no fault. *)
Lemma wp_wlp {S A} (m : M S A) Q s : wp m Q s <-> wlp (fun _ => False) m Q s.
Proof. done. Qed.

Lemma wp_ok {S A} (m : M S A) Q s :
  wp m Q s <-> exists a s', m s = Ok (a, s') /\ Q a s'.
Proof.
  unfold wp. destruct (m s) as [[a s']|f]; split; intros H; try done.
  - eauto.
  - by destruct H as (? & ? & [= <- <-] & ?).
  - by destruct H as (? & ? & ? & ?).
Qed.

(** A partial run that tolerates no fault ends. *)
Lemma wlp_total {S A} (m : M S A) Q s :
  wlp (fun _ => False) m Q s -> exists a s', m s = Ok (a, s') /\ Q a s'.
Proof. apply wp_ok. Qed.

Lemma bind_ok {S A B} (m : M S A) (k : A -> M S B) s a s' :
  m s = Ok (a, s') -> (m ≫= k) s = k a s'.
Proof. unfold mbind, M_bind. by intros ->. Qed.

Lemma bind_err {S A B} (m : M S A) (k : A -> M S B) s f :
  m s = Err f -> (m ≫= k) s = Err f.
Proof. unfold mbind, M_bind. by intros ->. Qed.

(** One step of weakest-precondition reasoning on the head of a handler. *)
Ltac wstep :=
  lazymatch goal with
  | |- wlp _ (mbind _ _) _ _ => apply wlp_bind
  | |- wlp _ (mret _) _ _ => apply wlp_ret
  | |- wlp _ get _ _ => apply wlp_get
  | |- wlp _ (put _) _ _ => apply wlp_put
  | |- wlp _ (modify _) _ _ => apply wlp_modify
  | |- wlp _ (gets _) _ _ => apply wlp_gets
  | |- wlp _ (fail _) _ _ => apply wlp_fail
  | |- wlp _ (lift _) _ _ => apply wlp_lift
  | |- wlp _ (deref _) _ _ => apply wlp_deref
  | |- wlp _ (massert _) _ _ => apply wlp_massert
  | |- wlp _ (if ?c then _ else _) _ _ => destruct c eqn:?
  | |- wlp _ (match ?c with _ => _ end) _ _ => destruct c eqn:?
  end.
Ltac wsteps := repeat (wstep; cbn beta).
(** The same up to the next branch. *)
Ltac wgo :=
  repeat (lazymatch goal with
          | |- wlp _ (if _ then _ else _) _ _ => fail
          | |- wlp _ (match _ with _ => _ end) _ _ => fail
          | |- wlp _ (massert true) _ _ => apply wlp_ret
          | |- wlp _ (massert _) _ _ => fail
          | |- _ => wstep
          end; cbn beta).

(** A branch whose condition computes. *)
Ltac wif :=
  lazymatch goal with
  | |- wlp _ (if ?c then _ else _) _ _ => first [change c with true | change c with false]; cbv iota; wgo
  | |- wlp _ (massert ?c) _ _ => change c with true; wgo
  end.

(* ------------------------------------------------------------------ *)
(** * C integers *)

Definition u8 (z : Z) : Z := z mod 2 ^ 8.
Definition u16 (z : Z) : Z := z mod 2 ^ 16.
Definition u32 (z : Z) : Z := z mod 2 ^ 32.
Definition u64 (z : Z) : Z := z mod 2 ^ 64.
(** Conversion to [int]: the representative of [z] in [[-2^31, 2^31)]. *)
Definition s32 (z : Z) : Z := (z + 2 ^ 31) mod 2 ^ 32 - 2 ^ 31.

Lemma u8_small z : 0 <= z < 256 -> u8 z = z.
Proof. apply Z.mod_small. Qed.
Lemma u16_small z : 0 <= z < 65536 -> u16 z = z.
Proof. apply Z.mod_small. Qed.
Lemma u32_small z : 0 <= z < 4294967296 -> u32 z = z.
Proof. apply Z.mod_small. Qed.
Lemma u64_small z : 0 <= z < 18446744073709551616 -> u64 z = z.
Proof. apply Z.mod_small. Qed.
Lemma u8_range z : 0 <= u8 z < 256.
Proof. by apply Z.mod_pos_bound. Qed.
Lemma u16_range z : 0 <= u16 z < 65536.
Proof. by apply Z.mod_pos_bound. Qed.
Lemma u32_range z : 0 <= u32 z < 4294967296.
Proof. by apply Z.mod_pos_bound. Qed.
Lemma u64_range z : 0 <= u64 z < 18446744073709551616.
Proof. by apply Z.mod_pos_bound. Qed.
Lemma s32_small z : -2147483648 <= z < 2147483648 -> s32 z = z.
Proof. intros. unfold s32. rewrite Z.mod_small; lia. Qed.

(** Truth value of a C condition. *)
Definition nz (z : Z) : bool := negb (z =? 0).

(* ------------------------------------------------------------------ *)
(** * Lists *)

(** A list is empty or has a last element. *)
Lemma list_snoc_or_nil {A} (l : list A) : l = [] \/ exists l' x, l = l' ++ [x].
Proof. induction l as [|x l _] using rev_ind; [by left|right; eauto]. Qed.
