(* ===== verification/Bytes.v ===== *)
(** Memory as the C code sees it: byte buffers ([list Z]) with bounds-checked
    loads and stores of 1, 2 and 4 bytes in the host's (little-endian) order,
    [memcpy], the byte-order conversions of <arpa/inet.h>, and the string
    functions of <string.h> on character arrays. *)

From S2P Require Import Prelude.
From Stdlib Require Import (notations) String.
From Stdlib Require Import Ascii.

Abbreviation bytes := (list Z).

Definition is_byte (z : Z) : Prop := 0 <= z < 256.
Definition wf_bytes (b : bytes) : Prop := Forall is_byte b.

(* ------------------------------------------------------------------ *)
(** * Raw accessors *)

Definition get8 (b : bytes) (o : nat) : Z := nth o b 0.
Definition get16 (b : bytes) (o : nat) : Z := get8 b o + 256 * get8 b (o + 1).
Definition get32 (b : bytes) (o : nat) : Z :=
  get16 b o + 65536 * get16 b (o + 2).

(** Bytes [o .. o+n) of a buffer. *)
Definition slice (b : bytes) (o n : nat) : bytes := take n (drop o b).

(** Overwrite the bytes from offset [o] on with [vs]. *)
Definition upd (b : bytes) (o : nat) (vs : bytes) : bytes :=
  take o b ++ vs ++ drop (o + length vs) b.

Definition le16 (v : Z) : bytes := [v mod 256; (v / 256) mod 256].
Definition le32 (v : Z) : bytes :=
  [v mod 256; (v / 256) mod 256; (v / 65536) mod 256; (v / 16777216) mod 256].

(** [sizeof]-style size of a buffer as a C integer. *)
Definition blen (b : bytes) : Z := Z.of_nat (length b).

(* ------------------------------------------------------------------ *)
(** * Checked loads and stores *)

Definition in_range (b : bytes) (o n : nat) : bool := (o + n <=? length b)%nat.

Definition check_range (b : bytes) (o n : nat) : res unit :=
  if in_range b o n then Ok tt else Err OutOfBounds.

Definition rd8 {S} (b : bytes) (o : nat) : M S Z :=
  lift (if in_range b o 1 then Ok (get8 b o) else Err OutOfBounds).
Definition rd16 {S} (b : bytes) (o : nat) : M S Z :=
  lift (if in_range b o 2 then Ok (get16 b o) else Err OutOfBounds).
Definition rd32 {S} (b : bytes) (o : nat) : M S Z :=
  lift (if in_range b o 4 then Ok (get32 b o) else Err OutOfBounds).
(** Load of [n] bytes, the source of a [memcpy]. *)
Definition rdn {S} (b : bytes) (o n : nat) : M S bytes :=
  lift (if in_range b o n then Ok (slice b o n) else Err OutOfBounds).

(** Store of the bytes [vs], the target of a [memcpy]. *)
Definition wrn {S} (b : bytes) (o : nat) (vs : bytes) : M S bytes :=
  lift (if in_range b o (length vs) then Ok (upd b o vs) else Err OutOfBounds).
Definition wr8 {S} (b : bytes) (o : nat) (v : Z) : M S bytes := wrn b o [u8 v].
Definition wr16 {S} (b : bytes) (o : nat) (v : Z) : M S bytes := wrn b o (le16 v).
Definition wr32 {S} (b : bytes) (o : nat) (v : Z) : M S bytes := wrn b o (le32 v).

(** [calloc(1, n)]. *)
Definition zeros (n : nat) : bytes := replicate n 0.

(* ------------------------------------------------------------------ *)
(** * Byte order *)

Definition htons (v : Z) : Z := (v mod 256) * 256 + (v / 256) mod 256.
Definition ntohs (v : Z) : Z := htons v.
Definition htonl (v : Z) : Z :=
  (v mod 256) * 16777216 + ((v / 256) mod 256) * 65536
  + ((v / 65536) mod 256) * 256 + (v / 16777216) mod 256.
Definition ntohl (v : Z) : Z := htonl v.

(* ------------------------------------------------------------------ *)
(** * Character arrays *)

(** The characters before the terminating NUL. *)
Fixpoint cstr (s : bytes) : bytes :=
  match s with
  | [] => []
  | c :: s' => if c =? 0 then [] else c :: cstr s'
  end.

Definition strlen (s : bytes) : nat := length (cstr s).

(** What [strncpy(dst, s, n)] leaves in [dst[0..n)]. *)
Definition strncpy (s : bytes) (n : nat) : bytes :=
  take n (cstr s) ++ replicate (n - length (cstr s)) 0.

(** [strncmp(a, b, n) == 0]. *)
Definition strncmp_eq (a b : bytes) (n : nat) : bool :=
  bool_decide (cstr (take n a) = cstr (take n b)).

(** [strlen(s) > 0]-style prefix test, [strncmp(a, lit, length lit) == 0]. *)
Definition has_prefix (lit s : bytes) : bool := strncmp_eq s lit (length lit).

(** [fgets(line, n, fp)] on the rest of the file: at most [n - 1] characters,
    up to and including a newline; [None] at the end of the file. *)
Fixpoint fgets_line (n : nat) (f : bytes) : bytes * bytes :=
  match n, f with
  | O, _ => ([], f)
  | _, [] => ([], [])
  | Datatypes.S n', c :: f' => if c =? 10 then ([c], f') else let '(l, r) := fgets_line n' f' in (c :: l, r)
  end.
Definition fgets (n : nat) (f : bytes) : option (bytes * bytes) :=
  match f with [] => None | _ => Some (fgets_line (n - 1) f) end.

(** The bytes of a string literal. *)
Definition str (s : String.string) : bytes := (fun c => Z.of_nat (nat_of_ascii c)) <$> String.list_ascii_of_string s.
Arguments str s%_string.
Definition crlf : bytes := [13; 10].
Definition SP : Z := 32.

(** [strchr(s, c)], as the string before the first [c]. *)
Fixpoint before (c : Z) (s : bytes) : bytes :=
  match s with
  | [] => []
  | x :: s' => if x =? c then [] else x :: before c s'
  end.

(** [isspace], C locale. *)
Definition isspace (c : Z) : bool := (c =? 32) || ((9 <=? c) && (c <=? 13)).

Definition isdigit (c : Z) : bool := (48 <=? c) && (c <=? 57).

(** White space at the start dropped. *)
Fixpoint skip_spaces (s : bytes) : bytes :=
  match s with c :: s' => if isspace c then skip_spaces s' else s | [] => [] end.

(* ------------------------------------------------------------------ *)
(** * Lemmas: ranges *)

Lemma is_byte_mod v : is_byte (v mod 256).
Proof. unfold is_byte. by apply Z.mod_pos_bound. Qed.

Lemma is_byte_u8 v : is_byte (u8 v).
Proof. apply u8_range. Qed.

Lemma wf_get8 b o : wf_bytes b -> is_byte (get8 b o).
Proof.
  intros Hb. unfold get8. destruct (decide (o < length b)%nat).
  - eapply Forall_forall in Hb; [exact Hb|]. apply list_elem_of_In, nth_In. lia.
  - rewrite nth_overflow by lia. unfold is_byte. lia.
Qed.

Lemma wf_get16 b o : wf_bytes b -> 0 <= get16 b o < 65536.
Proof.
  intros Hb. unfold get16.
  pose proof (wf_get8 b o Hb). pose proof (wf_get8 b (o + 1) Hb). unfold is_byte in *. lia.
Qed.

Lemma wf_get32 b o : wf_bytes b -> 0 <= get32 b o < 4294967296.
Proof.
  intros Hb. unfold get32. pose proof (wf_get16 b o Hb). pose proof (wf_get16 b (o + 2) Hb). lia.
Qed.

Lemma wf_le16 v : wf_bytes (le16 v).
Proof. repeat constructor; apply is_byte_mod. Qed.
Lemma wf_le32 v : wf_bytes (le32 v).
Proof. repeat constructor; apply is_byte_mod. Qed.
Lemma wf_u8 v : wf_bytes [u8 v].
Proof. repeat constructor; apply is_byte_u8. Qed.
Lemma wf_zeros n : wf_bytes (zeros n).
Proof. apply Forall_replicate. unfold is_byte. lia. Qed.
Lemma wf_slice b o n : wf_bytes b -> wf_bytes (slice b o n).
Proof. intros. by apply Forall_take, Forall_drop. Qed.
Lemma wf_upd b o vs : wf_bytes b -> wf_bytes vs -> wf_bytes (upd b o vs).
Proof.
  intros. unfold upd. apply Forall_app; split; [by apply Forall_take|].
  apply Forall_app; split; [done|by apply Forall_drop].
Qed.

(* ------------------------------------------------------------------ *)
(** * Lemmas: lengths and frame rules of [upd] *)

Lemma length_upd b o vs :
  (o + length vs <= length b)%nat -> length (upd b o vs) = length b.
Proof. intros. unfold upd. rewrite !length_app, length_take, length_drop. lia. Qed.

Lemma length_upd_n b o vs n : (o + length vs <= n)%nat -> length b = n -> length (upd b o vs) = n.
Proof. intros ? <-. by apply length_upd. Qed.

Lemma length_slice b o n : (o + n <= length b)%nat -> length (slice b o n) = n.
Proof. intros. unfold slice. rewrite length_take, length_drop. lia. Qed.

Lemma get8_upd_ne b o vs i :
  (o + length vs <= length b)%nat -> (i < o \/ o + length vs <= i)%nat ->
  get8 (upd b o vs) i = get8 b i.
Proof.
  intros Hb Hi. unfold get8, upd. destruct Hi.
  - rewrite app_nth1 by (rewrite length_take; lia).
    rewrite <- (firstn_skipn o b) at 2. rewrite app_nth1 by (rewrite length_firstn; lia). done.
  - rewrite app_nth2 by (rewrite length_take; lia).
    rewrite length_take, app_nth2 by lia.
    rewrite nth_skipn. f_equal. lia.
Qed.

Lemma get8_upd_eq b o vs i :
  (o + length vs <= length b)%nat -> (o <= i < o + length vs)%nat ->
  get8 (upd b o vs) i = get8 vs (i - o).
Proof.
  intros Hb Hi. unfold get8, upd.
  rewrite app_nth2 by (rewrite length_take; lia).
  rewrite length_take, app_nth1 by lia. f_equal. lia.
Qed.

Lemma get16_upd_ne b o vs i :
  (o + length vs <= length b)%nat -> (i + 2 <= o \/ o + length vs <= i)%nat ->
  get16 (upd b o vs) i = get16 b i.
Proof. intros. unfold get16. rewrite !get8_upd_ne by lia. done. Qed.

Lemma get32_upd_ne b o vs i :
  (o + length vs <= length b)%nat -> (i + 4 <= o \/ o + length vs <= i)%nat ->
  get32 (upd b o vs) i = get32 b i.
Proof. intros. unfold get32. rewrite !get16_upd_ne by lia. done. Qed.

Lemma get16_le16 v : 0 <= v < 65536 -> get16 (le16 v) 0 = v.
Proof.
  intros. unfold get16, le16, get8; simpl.
  rewrite (Z.mod_small (v / 256)) by (Z.div_mod_to_equations; lia).
  pose proof (Z.div_mod v 256). lia.
Qed.

Lemma le16_get16 a b : is_byte a -> is_byte b -> le16 (a + 256 * b) = [a; b].
Proof.
  unfold is_byte, le16. intros. f_equal; [|f_equal].
  - Z.div_mod_to_equations. lia.
  - f_equal. Z.div_mod_to_equations. lia.
Qed.

Lemma get16_upd_eq b o v :
  (o + 2 <= length b)%nat -> 0 <= v < 65536 -> get16 (upd b o (le16 v)) o = v.
Proof.
  intros. unfold get16. rewrite !get8_upd_eq by (simpl; lia).
  replace (o - o)%nat with 0%nat by lia. replace (o + 1 - o)%nat with 1%nat by lia.
  by apply get16_le16.
Qed.

Lemma get8_zeros n i : get8 (zeros n) i = 0.
Proof.
  unfold get8, zeros. revert i. induction n as [|n IH]; intros [|i]; simpl; auto.
Qed.

Lemma get16_zeros n i : get16 (zeros n) i = 0.
Proof. unfold get16. by rewrite !get8_zeros. Qed.

Lemma length_zeros n : length (zeros n) = n.
Proof. apply length_replicate. Qed.

Lemma get32_le32 v : 0 <= v < 4294967296 -> get32 (le32 v) 0 = v.
Proof.
  intros. unfold get32, get16, get8, le32; simpl. Z.div_mod_to_equations. lia.
Qed.

Lemma get32_upd_eq b o v :
  (o + 4 <= length b)%nat -> 0 <= v < 4294967296 -> get32 (upd b o (le32 v)) o = v.
Proof.
  intros. rewrite <- (get32_le32 v) at 2 by done. unfold get32, get16.
  rewrite !get8_upd_eq by (simpl; lia). by repeat (f_equal; try lia).
Qed.

Lemma get32_le32_mod v : get32 (le32 v) 0 = u32 v.
Proof. unfold get32, get16, get8, le32, u32; simpl. Z.div_mod_to_equations. lia. Qed.

Lemma get32_upd_mod b o v : (o + 4 <= length b)%nat -> get32 (upd b o (le32 v)) o = u32 v.
Proof.
  intros. rewrite <- get32_le32_mod. unfold get32, get16.
  rewrite !get8_upd_eq by (simpl; lia). by repeat (f_equal; try lia).
Qed.

Lemma upd_get16 b o : (o + 2 <= length b)%nat -> wf_bytes b -> upd b o (le16 (get16 b o)) = b.
Proof.
  intros Hl Hwf. unfold get16. rewrite le16_get16 by (apply wf_get8; done).
  unfold upd, get8; simpl.
  rewrite <- (firstn_skipn o b) at 5. f_equal.
  destruct (skipn o b) as [|x [|y r]] eqn:E.
  1,2: apply (f_equal length) in E; rewrite length_skipn in E; simpl in E; lia.
  assert (Hx : nth o b 0 = x).
  { replace o with (o + 0)%nat by lia. rewrite <- nth_skipn, E. done. }
  assert (Hy : nth (o + 1) b 0 = y) by (rewrite <- nth_skipn, E; done).
  assert (Hr : drop (o + 2) b = r).
  { rewrite <- drop_drop. change (drop 2 (skipn o b) = r). by rewrite E. }
  by rewrite Hx, Hy, Hr.
Qed.

Lemma slice_upd_ne b o vs i n :
  (o + length vs <= length b)%nat -> (i + n <= o \/ o + length vs <= i)%nat ->
  slice (upd b o vs) i n = slice b i n.
Proof.
  intros Hb Hi. unfold slice, upd. destruct Hi.
  - rewrite drop_app_le by (rewrite length_take; lia).
    rewrite take_app_le by (rewrite length_drop, length_take; lia).
    rewrite <- (take_drop o b) at 2.
    rewrite drop_app_le by (rewrite length_take; lia).
    rewrite take_app_le by (rewrite length_drop, length_take; lia). done.
  - rewrite drop_app_ge by (rewrite length_take; lia).
    rewrite drop_app_ge by (rewrite length_take; lia).
    rewrite drop_drop, length_take. do 2 f_equal. lia.
Qed.

Lemma slice_upd_eq b o vs :
  (o + length vs <= length b)%nat -> slice (upd b o vs) o (length vs) = vs.
Proof.
  intros. unfold slice, upd.
  rewrite drop_app_ge by (rewrite length_take; lia).
  replace (o - length (take o b))%nat with 0%nat by (rewrite length_take; lia).
  rewrite drop_0, take_app_le by lia. by rewrite take_ge.
Qed.

Lemma slice_upd_same b o n vs :
  length vs = n -> (o + n <= length b)%nat -> slice (upd b o vs) o n = vs.
Proof. intros <- ?. by apply slice_upd_eq. Qed.

Lemma get8_slice b o n i : (i < n)%nat -> get8 (slice b o n) i = get8 b (o + i).
Proof.
  intros Hi. unfold get8, slice. rewrite <- (nth_skipn o b).
  change (take n (drop o b)) with (firstn n (skipn o b)).
  rewrite nth_firstn. by rewrite (proj2 (Nat.ltb_lt i n) Hi).
Qed.

(** Buffers of one length are equal when their bytes are. *)
Lemma bytes_ext a b :
  length a = length b -> (forall i, (i < length a)%nat -> get8 a i = get8 b i) -> a = b.
Proof. intros Hl H. apply (nth_ext a b 0 0); [done|]. intros i Hi. by apply H. Qed.

Lemma slice_ext a b o p n :
  (o + n <= length a)%nat -> (p + n <= length b)%nat ->
  (forall i, (i < n)%nat -> get8 a (o + i) = get8 b (p + i)) -> slice a o n = slice b p n.
Proof.
  intros Ha Hb H. apply bytes_ext; [by rewrite !length_slice|].
  rewrite length_slice by done. intros i Hi. rewrite !get8_slice by done. auto.
Qed.

(** An update inside a slice updates the slice. *)
Lemma slice_upd_in b o vs i n :
  (i + n <= length b)%nat -> (i <= o)%nat -> (o + length vs <= i + n)%nat ->
  slice (upd b o vs) i n = upd (slice b i n) (o - i) vs.
Proof.
  intros Hl Hi Ho.
  assert (Hs : length (slice b i n) = n) by (by apply length_slice).
  apply bytes_ext.
  - rewrite length_upd by (rewrite Hs; lia). rewrite Hs. apply length_slice. rewrite length_upd; lia.
  - rewrite length_slice by (rewrite length_upd; lia). intros j Hj.
    rewrite get8_slice by done. destruct (decide (o <= i + j < o + length vs)%nat).
    + rewrite !get8_upd_eq by (rewrite ?Hs; lia). f_equal. lia.
    + rewrite !get8_upd_ne by (rewrite ?Hs; lia). by rewrite get8_slice.
Qed.

Lemma upd_upd b o x y :
  length x = length y -> (o + length x <= length b)%nat -> upd (upd b o x) o y = upd b o y.
Proof.
  intros Hxy Hl. apply bytes_ext; [by rewrite !length_upd by (rewrite ?length_upd; lia)|].
  rewrite !length_upd by (rewrite ?length_upd; lia). intros i Hi.
  destruct (decide (o <= i < o + length y)%nat).
  - by rewrite !get8_upd_eq by (rewrite ?length_upd; lia).
  - by rewrite !get8_upd_ne by (rewrite ?length_upd; lia).
Qed.

(* ------------------------------------------------------------------ *)
(** * Lemmas: byte order *)

Lemma htons_range v : 0 <= htons v < 65536.
Proof.
  unfold htons. pose proof (Z.mod_pos_bound v 256). pose proof (Z.mod_pos_bound (v / 256) 256). lia.
Qed.

Lemma htons_htons v : 0 <= v < 65536 -> htons (htons v) = v.
Proof.
  intros. unfold htons.
  pose proof (Z.mod_pos_bound v 256).
  rewrite (Z.mod_small (v / 256)) by (Z.div_mod_to_equations; lia).
  Z.div_mod_to_equations. lia.
Qed.

Lemma htonl_range v : 0 <= htonl v < 4294967296.
Proof.
  unfold htonl.
  pose proof (Z.mod_pos_bound v 256). pose proof (Z.mod_pos_bound (v / 256) 256).
  pose proof (Z.mod_pos_bound (v / 65536) 256). pose proof (Z.mod_pos_bound (v / 16777216) 256). lia.
Qed.

Lemma htonl_htonl v : 0 <= v < 4294967296 -> htonl (htonl v) = v.
Proof.
  intros. unfold htonl.
  set (a := v mod 256). set (b := (v / 256) mod 256).
  set (c := (v / 65536) mod 256). set (d := (v / 16777216) mod 256).
  assert (0 <= a < 256 /\ 0 <= b < 256 /\ 0 <= c < 256 /\ 0 <= d < 256) as (Ha & Hb & Hc & Hd)
    by (subst a b c d; repeat split; apply Z.mod_pos_bound; lia).
  assert (Hv : v = a + 256 * b + 65536 * c + 16777216 * d).
  { subst a b c d. Z.div_mod_to_equations. lia. }
  clearbody a b c d. subst v. Z.div_mod_to_equations. lia.
Qed.

(* ------------------------------------------------------------------ *)
(** * Weakest-precondition rules of the checked accesses *)

Lemma in_range_true b o n : in_range b o n = true <-> (o + n <= length b)%nat.
Proof. apply Nat.leb_le. Qed.

Section wlp_mem.
Context {S : Type} (F : fault -> Prop).

Lemma wlp_rd8 b o (Q : Z -> S -> Prop) s :
  (o + 1 <= length b)%nat -> Q (get8 b o) s -> wlp F (rd8 b o) Q s.
Proof. intros ?%in_range_true ?. apply wlp_lift. by rewrite H. Qed.
Lemma wlp_rd16 b o (Q : Z -> S -> Prop) s :
  (o + 2 <= length b)%nat -> Q (get16 b o) s -> wlp F (rd16 b o) Q s.
Proof. intros ?%in_range_true ?. apply wlp_lift. by rewrite H. Qed.
Lemma wlp_rd32 b o (Q : Z -> S -> Prop) s :
  (o + 4 <= length b)%nat -> Q (get32 b o) s -> wlp F (rd32 b o) Q s.
Proof. intros ?%in_range_true ?. apply wlp_lift. by rewrite H. Qed.
Lemma wlp_rdn b o n (Q : bytes -> S -> Prop) s :
  (o + n <= length b)%nat -> Q (slice b o n) s -> wlp F (rdn b o n) Q s.
Proof. intros ?%in_range_true ?. apply wlp_lift. by rewrite H. Qed.
Lemma wlp_wrn b o vs (Q : bytes -> S -> Prop) s :
  (o + length vs <= length b)%nat -> Q (upd b o vs) s -> wlp F (wrn b o vs) Q s.
Proof. intros ?%in_range_true ?. apply wlp_lift. by rewrite H. Qed.

(** The store rule used in long sequences of stores: the new buffer gets a
    name, its length and its defining equation. *)
Lemma wlp_wrn_named b o vs (Q : bytes -> S -> Prop) s :
  (o + length vs <= length b)%nat ->
  (forall b', b' = upd b o vs -> length b' = length b -> (wf_bytes b -> wf_bytes vs -> wf_bytes b') -> Q b' s) ->
  wlp F (wrn b o vs) Q s.
Proof.
  intros Hl HQ. apply wlp_wrn; [done|]. apply HQ; [done|by apply length_upd|].
  intros. by apply wf_upd.
Qed.
End wlp_mem.

(* ------------------------------------------------------------------ *)
(** * Lemmas: strings *)

Lemma cstr_app_nul s t : Forall (fun c => c <> 0) s -> cstr (s ++ 0 :: t) = s.
Proof. induction 1 as [|c s Hc Hs IH]; simpl; [done|]. rewrite (proj2 (Z.eqb_neq _ _)) by done. by f_equal. Qed.

Lemma cstr_no_nul s : Forall (fun c => c <> 0) (cstr s).
Proof.
  induction s as [|c s IH]; simpl; [constructor|]. destruct (Z.eqb_spec c 0); by constructor.
Qed.

Lemma cstr_id s : Forall (fun c => c <> 0) s -> cstr s = s.
Proof. induction 1 as [|c s Hc Hs IH]; simpl; [done|]. rewrite (proj2 (Z.eqb_neq _ _)) by done. by f_equal. Qed.

Lemma cstr_take n s : cstr (take n s) = take n (cstr s).
Proof.
  revert n. induction s as [|c s IH]; intros [|n]; simpl; try done.
  destruct (c =? 0); simpl; [done|]. by rewrite IH.
Qed.

Lemma length_strncpy s n : length (strncpy s n) = n.
Proof. unfold strncpy. rewrite length_app, length_take, length_replicate. lia. Qed.

(** A copied name compares equal to its source on the copied width. *)
Lemma cstr_strncpy s n : cstr (strncpy s n) = take n (cstr s).
Proof.
  unfold strncpy. destruct (n - length (cstr s))%nat eqn:E; simpl.
  - rewrite app_nil_r. apply cstr_id, Forall_take, cstr_no_nul.
  - apply cstr_app_nul, Forall_take, cstr_no_nul.
Qed.

Lemma strncmp_eq_true a b n : strncmp_eq a b n = true <-> take n (cstr a) = take n (cstr b).
Proof. unfold strncmp_eq. rewrite bool_decide_eq_true, !cstr_take. done. Qed.

Lemma strncmp_refl a n : strncmp_eq a a n = true.
Proof. by apply strncmp_eq_true. Qed.

Lemma strncmp_strncpy a n : strncmp_eq (strncpy a n) a n = true.
Proof. apply strncmp_eq_true. rewrite cstr_strncpy, take_take. f_equal. lia. Qed.

Lemma fgets_line_whole n l rest :
  Forall (fun c => c <> 10) l -> (length l < n)%nat -> fgets_line n (l ++ 10 :: rest) = (l ++ [10], rest).
Proof.
  intros Hl. revert n. induction Hl as [|c l Hc _ IH]; intros n Hn; (destruct n as [|n]; [simpl in Hn; lia|]); cbn [fgets_line app]; [done|].
  rewrite (proj2 (Z.eqb_neq _ _)), IH by (done || simpl in Hn; lia). done.
Qed.

(** [fgets] returns a line that fits. *)
Lemma fgets_whole n l rest :
  Forall (fun c => c <> 10) l -> (length l + 1 < n)%nat -> fgets n (l ++ 10 :: rest) = Some (l ++ [10], rest).
Proof. intros Hl Hn. unfold fgets. rewrite fgets_line_whole by (done || lia). by destruct l. Qed.

(* ------------------------------------------------------------------ *)
(** * Automation *)

Create HintDb bytes.
#[export] Hint Resolve wf_le16 wf_le32 wf_zeros wf_slice wf_upd is_byte_mod is_byte_u8 wf_u8 : bytes.
#[export] Hint Resolve Forall_nil_2 Forall_cons_2 : bytes.

(** The length of a buffer after updates inside it. *)
Ltac upd_len := repeat (apply length_upd_n; [cbn [length le16 le32]; lia|]); try reflexivity.

(** One step through a checked access, leaving its bound to [lia]. *)
Ltac mstep :=
  lazymatch goal with
  | |- wlp _ (rd8 _ _) _ _ => apply wlp_rd8
  | |- wlp _ (rd16 _ _) _ _ => apply wlp_rd16
  | |- wlp _ (rd32 _ _) _ _ => apply wlp_rd32
  | |- wlp _ (rdn _ _ _) _ _ => apply wlp_rdn
  | |- wlp _ (wrn _ _ _) _ _ => apply wlp_wrn
  | |- wlp _ (wr8 _ _ _) _ _ => apply wlp_wrn
  | |- wlp _ (wr16 _ _ _) _ _ => apply wlp_wrn
  | |- wlp _ (wr32 _ _ _) _ _ => apply wlp_wrn
  | |- _ => wstep
  end.
