(* ===== verification/Stdio.v ===== *)
(** What the programs use of the C library for text: numbers printed and scanned,
    addresses in dotted-quad form, the options of a command line. *)

From S2P Require Import Prelude.
From S2P Require Import Bytes.

(* ------------------------------------------------------------------ *)
(** * Formatted numbers *)

Fixpoint digits (fuel : nat) (n : Z) : bytes :=
  match fuel with
  | O => []
  | Datatypes.S fuel' => if n <? 10 then [48 + n] else digits fuel' (n / 10) ++ [48 + n mod 10]
  end.

(** [%lu] and [%u]; 64 bits are at most 20 digits. *)
Definition print_u (n : Z) : bytes := digits 20 n.

Fixpoint scan_digits (acc : Z) (s : bytes) : Z :=
  match s with
  | [] => acc
  | c :: s' => if isdigit c then scan_digits (acc * 10 + (c - 48)) s' else acc
  end.

(** The number an [%d] or [%u] conversion finds; [None]: no match. *)
Definition scan_int (s : bytes) : option Z :=
  let '(sign, s) :=
    match skip_spaces s with
    | c :: s' => if c =? 45 then (-1, s') else if c =? 43 then (1, s') else (1, c :: s')
    | [] => (1, [])
    end in
  match s with
  | c :: _ => if isdigit c then Some (sign * scan_digits 0 s) else None
  | [] => None
  end.

(** [%d] of an int. *)
Definition print_d (n : Z) : bytes := if n <? 0 then 45 :: print_u (- n) else print_u n.

Definition hex_digit (upper : bool) (n : Z) : Z := if n <? 10 then 48 + n else (if upper then 55 else 87) + n.
Fixpoint hex_digits (upper : bool) (fuel : nat) (n : Z) : bytes :=
  match fuel with
  | O => []
  | Datatypes.S fuel' =>
      if n <? 16 then [hex_digit upper n] else hex_digits upper fuel' (n / 16) ++ [hex_digit upper (n mod 16)]
  end.
(** [%x] and [%X] of an unsigned int with at least [w] digits. *)
Definition print_x (upper : bool) (w : nat) (n : Z) : bytes :=
  let d := hex_digits upper 8 n in replicate (w - length d) 48 ++ d.

(** [inet_ntoa] and [inet_ntop(AF_INET, ...)]: the bytes of an address in memory
    order. *)
Definition inet_ntoa (a : Z) : bytes :=
  print_u (get8 (le32 a) 0) ++ 46 :: print_u (get8 (le32 a) 1) ++ 46 :: print_u (get8 (le32 a) 2) ++ 46 :: print_u (get8 (le32 a) 3).

(** [atoi(s)]; a number out of the range of [int] is undefined. *)
Definition atoi {S} (s : bytes) : M S Z :=
  let n := default 0 (scan_int s) in
  if (- 2 ^ 31 <=? n) && (n <? 2 ^ 31) then mret n else fail Uninitialised.

(* ------------------------------------------------------------------ *)
(** * Options *)

(** Whether an option of [optstring] takes an argument; [None]: there is no such
    option. *)
Fixpoint option_kind (optstring : bytes) (c : Z) : option bool :=
  match optstring with
  | [] => None
  | x :: o => if (x =? c) && negb (c =? 58) then Some (match o with y :: _ => y =? 58 | [] => false end) else option_kind o c
  end.

(** The characters [cl] behind a dash, [next] being the argument that follows:
    what [getopt] returns for them, and whether it took [next]. *)
Fixpoint cluster (optstring cl : bytes) (next : option bytes) : list (Z * option bytes) * bool :=
  match cl with
  | [] => ([], false)
  | c :: cl' =>
      match option_kind optstring c with
      | None => let '(r, used) := cluster optstring cl' next in ((63, None) :: r, used)
      | Some false => let '(r, used) := cluster optstring cl' next in ((c, None) :: r, used)
      | Some true =>
          match cl', next with
          | _ :: _, _ => ([(c, Some cl')], false)
          | [], Some a => ([(c, Some a)], true)
          | [], None => ([(63, None)], false)
          end
      end
  end.

(** The characters of an argument that holds options. *)
Definition dashed (a : bytes) : option bytes :=
  match a with
  | x :: ((_ :: _) as cl) => if x =? 45 then Some cl else None
  | _ => None
  end.

(** What the calls of [getopt(argc, argv, optstring)] return with [optarg], one
    after the other, and what is in [argv] from [optind] on at the end. As in
    glibc, arguments that are no options are moved behind those that are. *)
Fixpoint getopt (optstring : bytes) (args : list bytes) : list (Z * option bytes) * list bytes :=
  match args with
  | [] => ([], [])
  | a :: rest =>
      if bool_decide (a = [45; 45]) then ([], rest)
      else
        match dashed a with
        | Some cl =>
            let '(r, used) := cluster optstring cl (head rest) in
            let '(r', operands) :=
              match used, rest with
              | true, _ :: rest' => getopt optstring rest'
              | _, _ => getopt optstring rest
              end in
            (r ++ r', operands)
        | None => let '(r, operands) := getopt optstring rest in (r, a :: operands)
        end
  end.

(* ------------------------------------------------------------------ *)
(** * Numbers read back *)

Lemma scan_digits_app acc s t :
  Forall (fun c => isdigit c = true) s -> scan_digits acc (s ++ t) = scan_digits (scan_digits acc s) t.
Proof. intros H. revert acc. induction H as [|c s Hc _ IH]; intros acc; [done|]. cbn [scan_digits app]. rewrite Hc. apply IH. Qed.

Lemma isdigit_digit n : 0 <= n < 10 -> isdigit (48 + n) = true.
Proof. intros Hn. unfold isdigit. apply andb_true_iff. rewrite !Z.leb_le. lia. Qed.

Lemma digits_ok fuel n : 0 <= n < 10 ^ Z.of_nat fuel ->
  Forall (fun c => isdigit c = true) (digits fuel n) /\ scan_digits 0 (digits fuel n) = n
  /\ (0 < fuel -> digits fuel n <> [])%nat /\ (length (digits fuel n) <= fuel)%nat.
Proof.
  revert n. induction fuel as [|fuel IH]; intros n Hn; [change (10 ^ Z.of_nat 0) with 1 in Hn; simpl; repeat split; [done|lia|lia|lia]|].
  rewrite Nat2Z.inj_succ, Z.pow_succ_r in Hn by lia. cbn [digits]. destruct (Z.ltb_spec n 10).
  - repeat split; [|cbn [scan_digits]; rewrite isdigit_digit by lia; lia|done|simpl; lia].
    constructor; [apply isdigit_digit; lia|done].
  - destruct (IH (n / 10)) as (H1 & H2 & _ & H3); [pose proof (Z.div_pos n 10); pose proof (Z.div_lt_upper_bound n 10 (10 ^ Z.of_nat fuel)); lia|].
    pose proof (Z.mod_pos_bound n 10). split; [|split; [|split]].
    + apply Forall_app. split; [done|]. constructor; [apply isdigit_digit; lia|done].
    + rewrite scan_digits_app, H2 by done. cbn [scan_digits]. rewrite isdigit_digit by lia. pose proof (Z.div_mod n 10). lia.
    + intros _. by destruct (digits fuel (n / 10)).
    + rewrite length_app. simpl. lia.
Qed.

Lemma isdigit_plain c : isdigit c = true -> isspace c = false /\ c <> 45 /\ c <> 43 /\ c <> 44 /\ c <> 0 /\ c <> 13 /\ is_byte c.
Proof. unfold isdigit, isspace, is_byte. rewrite andb_true_iff, !Z.leb_le, orb_false_iff, andb_false_iff, Z.eqb_neq, !Z.leb_gt. lia. Qed.

(** A printed number is read back. *)
Lemma scan_print n : 0 <= n < 2 ^ 64 -> scan_int (print_u n) = Some n.
Proof.
  intros Hn. destruct (digits_ok 20 n ltac:(lia)) as (H1 & H2 & H3 & _). specialize (H3 ltac:(lia)). unfold scan_int, print_u.
  destruct (digits 20 n) as [|c s] eqn:E; [done|]. pose proof (Forall_inv H1) as Hc. pose proof (isdigit_plain _ Hc) as (Hs & N1 & N2 & _).
  cbn [skip_spaces]. rewrite Hs.
  rewrite (proj2 (Z.eqb_neq c 45)), (proj2 (Z.eqb_neq c 43)) by done.
  cbv beta iota zeta. rewrite Hc, H2. f_equal. lia.
Qed.


(** A conversion of a printed number leaves it in the range of [int]. *)
Lemma digits_fuel a b n : 0 <= n < 10 ^ Z.of_nat a -> (a <= b)%nat -> (0 < a)%nat -> digits b n = digits a n.
Proof.
  revert b n. induction a as [|a IH]; intros b n Hn Hab H0; [lia|]. destruct b as [|b]; [lia|]. cbn [digits].
  destruct (Z.ltb_spec n 10); [done|]. rewrite Nat2Z.inj_succ, Z.pow_succ_r in Hn by lia.
  destruct a as [|a]; [change (10 ^ Z.of_nat 0) with 1 in Hn; lia|]. f_equal. apply IH; [|lia|lia].
  pose proof (Z.div_pos n 10). pose proof (Z.div_lt_upper_bound n 10 (10 ^ Z.of_nat (Datatypes.S a))). lia.
Qed.

Lemma atoi_print {S} n (st : S) : 0 <= n < 2 ^ 31 -> atoi (print_u n) st = Ok (n, st).
Proof.
  intros Hn. unfold atoi. rewrite scan_print by lia. cbn [default id].
  rewrite (proj2 (Z.leb_le _ _)), (proj2 (Z.ltb_lt _ _)) by lia. done.
Qed.

(** A byte is printed with at most three digits, an address with at most fifteen
    characters, none of them a space. *)
Lemma print_byte b : is_byte b -> Forall (fun c => isdigit c = true) (print_u b) /\ (0 < length (print_u b) <= 3)%nat.
Proof.
  intros Hb. unfold is_byte in Hb. unfold print_u. rewrite (digits_fuel 3 20) by lia. destruct (digits_ok 3 b ltac:(lia)) as (H1 & _ & H2 & H3).
  split; [done|]. specialize (H2 ltac:(lia)). destruct (digits 3 b); [done|simpl in *; lia].
Qed.

Lemma inet_ntoa_ok a :
  Forall (fun c => isdigit c = true \/ c = 46) (inet_ntoa a) /\ (7 <= length (inet_ntoa a) <= 15)%nat.
Proof.
  assert (Hb : forall i, is_byte (get8 (le32 a) i)) by (intros i; apply wf_get8, wf_le32). unfold inet_ntoa.
  assert (H : forall i, Forall (fun c => isdigit c = true \/ c = 46) (print_u (get8 (le32 a) i)) /\ (0 < length (print_u (get8 (le32 a) i)) <= 3)%nat).
  { intros i. destruct (print_byte _ (Hb i)) as [H1 H2]. split; [|done]. eapply Forall_impl; [exact H1|]. by left. }
  destruct (H 0%nat) as [A0 L0], (H 1%nat) as [A1 L1], (H 2%nat) as [A2 L2], (H 3%nat) as [A3 L3].
  split; [repeat (apply Forall_app; split; [done|]; constructor; [by right|]); done|].
  rewrite length_app. cbn [length]. rewrite length_app. cbn [length]. rewrite length_app. cbn [length]. lia.
Qed.

(** An argument that is no option is left for the end. *)
Lemma getopt_operand optstring a rest : head a <> Some 45 ->
  getopt optstring (a :: rest) = let '(r, operands) := getopt optstring rest in (r, a :: operands).
Proof.
  intros Ha. cbn [getopt]. rewrite bool_decide_eq_false_2 by (by intros ->).
  assert (Hd : dashed a = None).
  { destruct a as [|x [|y w]]; [done..|]. cbn [dashed]. rewrite (proj2 (Z.eqb_neq _ _)); [done|]. by intros ->. }
  by rewrite Hd.
Qed.

(** An option by itself, without an argument and with one. *)
Lemma getopt_flag optstring c rest : c <> 45 -> option_kind optstring c = Some false ->
  getopt optstring ([45; c] :: rest) = let '(r, operands) := getopt optstring rest in ((c, None) :: r, operands).
Proof.
  intros Hc Hk. cbn [getopt head]. rewrite bool_decide_eq_false_2 by congruence. cbn [dashed]. rewrite Z.eqb_refl.
  cbn [cluster]. rewrite Hk. by destruct (getopt optstring rest).
Qed.
Lemma getopt_arg optstring c a rest : c <> 45 -> option_kind optstring c = Some true ->
  getopt optstring ([45; c] :: a :: rest) = let '(r, operands) := getopt optstring rest in ((c, Some a) :: r, operands).
Proof.
  intros Hc Hk. cbn [getopt head]. rewrite bool_decide_eq_false_2 by congruence. cbn [dashed]. rewrite Z.eqb_refl.
  cbn [cluster]. rewrite Hk. by destruct (getopt optstring rest).
Qed.
