(* ===== verification/Checksum.v ===== *)
(** The Internet checksum of sr_utils.c ([cksum]), its RFC 1071 meaning, and
    the header accessors [ethertype] and [ip_protocol] of the same file. *)

From S2P Require Import Prelude Bytes.

(* ------------------------------------------------------------------ *)
(** * The code *)

(** [for (sum = 0; len >= 2; data += 2, len -= 2) sum += data[0] << 8 | data[1];
     if (len > 0) sum += data[0] << 8;]  with a 32-bit [sum]. *)
Fixpoint cksum_sum (data : bytes) (sum : Z) : Z :=
  match data with
  | a :: b :: r => cksum_sum r (u32 (sum + Z.lor (Z.shiftl a 8) b))
  | [a] => u32 (sum + Z.shiftl a 8)
  | [] => sum
  end.

(** [while (sum > 0xffff) sum = (sum >> 16) + (sum & 0xffff);] *)
Fixpoint cksum_fold (fuel : nat) (sum : Z) : Z :=
  match fuel with
  | O => sum
  | S fuel' =>
      if 0xffff <? sum then cksum_fold fuel' (u32 (Z.shiftr sum 16 + Z.land sum 0xffff)) else sum
  end.

(** [uint16_t cksum(const void *_data, int len)] on the [len] bytes [data]. *)
Definition cksum (data : bytes) : Z :=
  let sum := cksum_fold 3 (cksum_sum data 0) in
  let sum := htons (u16 (Z.lnot sum)) in
  if sum =? 0 then 0xffff else sum.

(** [cksum(p + o, n)]: reads the [n] bytes at offset [o] of the object. *)
Definition cksum_at {S} (b : bytes) (o n : nat) : M S Z :=
  d ← rdn b o n; mret (cksum d).

(** [uint16_t ethertype(uint8_t *buf)] *)
Definition ethertype {S} (buf : bytes) : M S Z := t ← rd16 buf 12; mret (ntohs t).

(** [uint8_t ip_protocol(uint8_t *buf)], [buf] at offset [o] of its object. *)
Definition ip_protocol {S} (buf : bytes) (o : nat) : M S Z := rd8 buf (o + 9).

(* ------------------------------------------------------------------ *)
(** * Specification: RFC 1071 *)

(** Sum of the big-endian 16-bit words, an odd last byte padded with zero. *)
Fixpoint be_sum (data : bytes) : Z :=
  match data with
  | a :: b :: r => 256 * a + b + be_sum r
  | [a] => 256 * a
  | [] => 0
  end.

(** The one's-complement sum: the representative of [s] modulo [65535] that
    end-around carries produce. *)
Definition ones_sum (s : Z) : Z := if s =? 0 then 0 else (s - 1) mod 65535 + 1.

(** A receiver accepts when the one's-complement sum of the data, checksum
    included, is all ones. *)
Definition cksum_accepts (data : bytes) : Prop := ones_sum (be_sum data) = 65535.

(* ------------------------------------------------------------------ *)
(** * The loop computes the sum *)

Lemma land_bytes a b : is_byte b -> Z.land (a * 256) b = 0.
Proof.
  intros Hb. apply Z.bits_inj'. intros n Hn. rewrite Z.land_spec, Z.bits_0.
  change 256 with (2 ^ 8). destruct (Z.lt_ge_cases n 8).
  - by rewrite Z.mul_pow2_bits_low by lia.
  - rewrite <- (Z.mod_small b (2 ^ 8)) by (unfold is_byte in Hb; lia).
    rewrite Z.mod_pow2_bits_high by lia. by rewrite andb_false_r.
Qed.

Lemma lor_bytes a b : is_byte b -> Z.lor (Z.shiftl a 8) b = 256 * a + b.
Proof.
  intros Hb. rewrite Z.shiftl_mul_pow2 by lia. change (2 ^ 8) with 256.
  rewrite <- Z.lxor_lor by (by apply land_bytes).
  rewrite <- Z.add_nocarry_lxor by (by apply land_bytes). lia.
Qed.

(** Induction on a byte list two elements at a time, as the loop runs. *)
Lemma pair_ind (P : bytes -> Prop) :
  P [] -> (forall a, P [a]) -> (forall a b r, P r -> P (a :: b :: r)) -> forall l, P l.
Proof.
  intros H0 H1 H2. fix IH 1. intros [|a [|b r]]; [done|apply H1|apply H2, IH].
Qed.

Lemma be_sum_bound data : wf_bytes data -> 0 <= be_sum data <= 65535 * ((blen data + 1) / 2).
Proof.
  unfold blen. induction data as [|a|a b r IH] using pair_ind; intros Hwf.
  - by vm_compute.
  - apply Forall_inv in Hwf. unfold is_byte in Hwf. simpl. Z.div_mod_to_equations. lia.
  - pose proof (Forall_inv Hwf) as Ha. pose proof (Forall_inv (Forall_inv_tail Hwf)) as Hb.
    specialize (IH (Forall_inv_tail (Forall_inv_tail Hwf))). unfold is_byte in *.
    cbn [be_sum length]. revert IH.
    replace (Z.of_nat (S (S (length r))) + 1) with (Z.of_nat (length r) + 1 + 1 * 2) by lia.
    rewrite Z.div_add by lia. lia.
Qed.

Lemma cksum_sum_spec data s :
  wf_bytes data -> 0 <= s -> s + be_sum data < 2 ^ 32 -> cksum_sum data s = s + be_sum data.
Proof.
  revert s. induction data as [|a|a b r IH] using pair_ind; intros s Hwf Hs Hlt.
  - simpl. lia.
  - pose proof (Forall_inv Hwf) as Ha. unfold is_byte in Ha. cbn [cksum_sum be_sum] in *.
    rewrite Z.shiftl_mul_pow2 by lia. rewrite u32_small; change (2 ^ 8) with 256; lia.
  - pose proof (Forall_inv Hwf) as Ha. pose proof (Forall_inv (Forall_inv_tail Hwf)) as Hb.
    assert (Hr : wf_bytes r) by (by apply Forall_inv_tail, Forall_inv_tail in Hwf).
    pose proof (be_sum_bound r Hr) as [Hpos _].
    cbn [cksum_sum be_sum] in *. rewrite lor_bytes by done. unfold is_byte in *.
    rewrite u32_small by lia. rewrite IH by (done || lia). lia.
Qed.

(* ------------------------------------------------------------------ *)
(** * The fold *)

Lemma fold_step s : 0 <= s < 2 ^ 32 -> Z.shiftr s 16 + Z.land s 0xffff = s / 65536 + s mod 65536.
Proof.
  intros. rewrite Z.shiftr_div_pow2 by lia. change 0xffff with (Z.ones 16).
  rewrite Z.land_ones by lia. done.
Qed.

Lemma ones_sum_small s : 0 <= s <= 65535 -> ones_sum s = s.
Proof.
  intros. unfold ones_sum. destruct (Z.eqb_spec s 0); [lia|]. rewrite Z.mod_small; lia.
Qed.

Lemma ones_sum_step s : 65535 < s -> ones_sum (s / 65536 + s mod 65536) = ones_sum s.
Proof.
  intros. unfold ones_sum.
  destruct (Z.eqb_spec s 0); [lia|].
  destruct (Z.eqb_spec (s / 65536 + s mod 65536) 0); [Z.div_mod_to_equations; lia|].
  f_equal. pose proof (Z.div_mod s 65536).
  replace (s - 1) with (s / 65536 + s mod 65536 - 1 + (s / 65536) * 65535) by lia.
  by rewrite Z.mod_add by lia.
Qed.

Lemma ones_sum_range s : 0 <= s -> 0 <= ones_sum s <= 65535.
Proof.
  intros. unfold ones_sum. destruct (Z.eqb_spec s 0); [lia|].
  pose proof (Z.mod_pos_bound (s - 1) 65535). lia.
Qed.

Lemma ones_sum_mod s : 0 <= s -> ones_sum s mod 65535 = s mod 65535.
Proof.
  intros. unfold ones_sum. destruct (Z.eqb_spec s 0); [by subst|].
  rewrite Zplus_mod_idemp_l. f_equal. lia.
Qed.

(** Three iterations end the [while] loop for every 32-bit sum, with the
    one's-complement sum. *)
Lemma cksum_fold_spec s : 0 <= s < 2 ^ 32 -> cksum_fold 3 s = ones_sum s.
Proof.
  intros Hs. cbn [cksum_fold].
  destruct (Z.ltb_spec 0xffff s); [|by rewrite ones_sum_small by lia].
  rewrite fold_step by done. rewrite <- (ones_sum_step s) by lia.
  set (s1 := s / 65536 + s mod 65536).
  assert (0 <= s1 <= 131070) by (subst s1; Z.div_mod_to_equations; lia).
  rewrite u32_small by lia.
  destruct (Z.ltb_spec 0xffff s1); [|by rewrite ones_sum_small by lia].
  rewrite fold_step by lia. rewrite <- (ones_sum_step s1) by lia.
  set (s2 := s1 / 65536 + s1 mod 65536).
  assert (0 <= s2 <= 65535) by (subst s2; Z.div_mod_to_equations; lia).
  rewrite u32_small by lia.
  destruct (Z.ltb_spec 0xffff s2); [lia|]. by rewrite ones_sum_small by lia.
Qed.

(** Data short enough for the 32-bit sum not to wrap: up to 128 KiB. *)
Definition cksum_fits (data : bytes) : Prop := wf_bytes data /\ blen data <= 131072.

Lemma cksum_sum_fits data : cksum_fits data -> cksum_sum data 0 = be_sum data /\ 0 <= be_sum data < 2 ^ 32.
Proof.
  intros [Hwf Hlen]. pose proof (be_sum_bound data Hwf) as [H1 H2].
  assert (0 <= be_sum data < 2 ^ 32) as Hb.
  { split; [done|]. eapply Z.le_lt_trans; [exact H2|].
    assert ((blen data + 1) / 2 <= 65536) by (Z.div_mod_to_equations; lia). lia. }
  split; [|done]. rewrite cksum_sum_spec by (done || lia). lia.
Qed.

Lemma lnot_u16 s : 0 <= s <= 65535 -> u16 (Z.lnot s) = 65535 - s.
Proof.
  intros. unfold u16, Z.lnot. rewrite <- Z.sub_1_r.
  replace (- s - 1) with (65535 - s + (-1) * 65536) by lia.
  change (2 ^ 16) with 65536. rewrite Z.mod_add by lia. apply Z.mod_small. lia.
Qed.

(** Closed form of [cksum]. *)
Lemma cksum_closed data :
  cksum_fits data ->
  cksum data = htons (if ones_sum (be_sum data) =? 65535 then 65535 else 65535 - ones_sum (be_sum data)).
Proof.
  intros Hf. destruct (cksum_sum_fits data Hf) as [Hs Hb].
  unfold cksum. rewrite Hs, cksum_fold_spec by done.
  pose proof (ones_sum_range (be_sum data)) as Ho. set (v := ones_sum (be_sum data)) in *.
  rewrite lnot_u16 by lia.
  destruct (Z.eqb_spec v 65535) as [->|Hv]; [done|].
  destruct (Z.eqb_spec (htons (65535 - v)) 0) as [H0|]; [|done].
  exfalso. apply (f_equal htons) in H0. rewrite (htons_htons (65535 - v)) in H0 by lia.
  change (htons 0) with 0 in H0. lia.
Qed.

Lemma cksum_range data : 0 <= cksum data < 65536.
Proof.
  unfold cksum. destruct (_ =? 0); [lia|]. apply htons_range.
Qed.

Lemma cksum_nonzero data : cksum data <> 0.
Proof. unfold cksum. by destruct (Z.eqb_spec (htons (u16 (Z.lnot (cksum_fold 3 (cksum_sum data 0))))) 0). Qed.

(* ------------------------------------------------------------------ *)
(** * Storing the checksum makes the data acceptable *)

Lemma be_sum_app a b : Nat.even (length a) = true -> be_sum (a ++ b) = be_sum a + be_sum b.
Proof.
  induction a as [|x|x y r IH] using pair_ind; intros He; [done|done|].
  cbn [app be_sum]. rewrite IH by exact He. lia.
Qed.

(** [data] with its 16-bit word at the even offset [o] replaced. *)
Lemma be_sum_upd data o x y :
  Nat.even o = true -> (o + 2 <= length data)%nat ->
  be_sum (upd data o [x; y]) = be_sum data + (256 * x + y) - (256 * get8 data o + get8 data (o + 1)).
Proof.
  intros He Hl. unfold upd, get8. simpl.
  assert (Hlo : length (take o data) = o) by (rewrite length_take; lia).
  rewrite be_sum_app by (by rewrite Hlo). cbn [be_sum].
  rewrite <- (take_drop o data) at 3 4 5.
  rewrite be_sum_app by (by rewrite Hlo).
  rewrite !app_nth2 by lia. rewrite Hlo.
  replace (o - o)%nat with 0%nat by lia. replace (o + 1 - o)%nat with 1%nat by lia.
  rewrite <- drop_drop.
  destruct (drop o data) as [|p [|q r]] eqn:E.
  1,2: apply (f_equal length) in E; rewrite length_drop in E; simpl in E; lia.
  cbn [be_sum nth drop]. rewrite drop_0. lia.
Qed.

Lemma le16_htons v : 0 <= v < 65536 -> le16 (htons v) = [v / 256; v mod 256].
Proof.
  intros. unfold le16, htons. f_equal; [|f_equal]; Z.div_mod_to_equations; lia.
Qed.

Lemma cksum_fits_upd data o v :
  cksum_fits data -> (o + 2 <= length data)%nat -> cksum_fits (upd data o (le16 v)).
Proof.
  intros [Hwf Hlen] Ho. split; [auto with bytes|].
  unfold blen in *. by rewrite length_upd by (simpl; lia).
Qed.

(** The sender's side: zero the field, store [cksum] in it; the receiver's
    one's-complement sum is then all ones. *)
Lemma cksum_store_accepts data o :
  cksum_fits data -> Nat.even o = true -> (o + 2 <= length data)%nat ->
  get16 data o = 0 -> cksum_accepts (upd data o (le16 (cksum data))).
Proof.
  intros Hf He Ho Hz. destruct (cksum_sum_fits data Hf) as [_ Hb].
  assert (Hz' : get8 data o = 0 /\ get8 data (o + 1) = 0).
  { unfold get16 in Hz. pose proof (wf_get8 data o (proj1 Hf)). pose proof (wf_get8 data (o + 1) (proj1 Hf)).
    unfold is_byte in *. lia. }
  destruct Hz' as [Hz1 Hz2].
  rewrite cksum_closed by done. set (v := ones_sum (be_sum data)).
  assert (Hv : 0 <= v <= 65535) by (apply ones_sum_range; lia).
  set (c := if v =? 65535 then 65535 else 65535 - v).
  assert (Hc : 0 <= c < 65536) by (subst c; destruct (v =? 65535); lia).
  rewrite le16_htons by done. unfold cksum_accepts.
  rewrite be_sum_upd by done. rewrite Hz1, Hz2.
  replace (256 * (c / 256) + c mod 256) with c by (pose proof (Z.div_mod c 256); lia).
  replace (be_sum data + c - (256 * 0 + 0)) with (be_sum data + c) by lia.
  unfold ones_sum. destruct (Z.eqb_spec (be_sum data + c) 0) as [H0|H0].
  - assert (c = 0) by lia. assert (Hb0 : be_sum data = 0) by lia.
    subst c v. rewrite Hb0 in *. vm_compute in H. lia.
  - assert (Hmod : (be_sum data + c) mod 65535 = 0).
    { rewrite <- Z.add_mod_idemp_l by lia. rewrite <- (ones_sum_mod (be_sum data)) by lia.
      fold v. rewrite Z.add_mod_idemp_l by lia. subst c.
      destruct (Z.eqb_spec v 65535) as [->|]; [done|].
      replace (v + (65535 - v)) with 65535 by lia. done. }
    replace (be_sum data + c - 1) with (65534 + (((be_sum data + c) / 65535) - 1) * 65535).
    + rewrite Z.mod_add by lia. done.
    + pose proof (Z.div_mod (be_sum data + c) 65535). lia.
Qed.

(** The receiver's side as the code does it: zero the field, recompute, compare.
    Data whose field was filled in this way passes. *)
Lemma cksum_recheck data o c :
  wf_bytes data -> (o + 2 <= length data)%nat -> get16 data o = 0 ->
  upd (upd data o (le16 c)) o (le16 0) = data.
Proof.
  intros Hwf Ho Hz. unfold upd. cbn [length le16 app].
  assert (Hlo : length (take o data) = o) by (rewrite length_take; lia).
  rewrite take_app_le by lia. rewrite take_take. replace (o `min` o)%nat with o by lia.
  rewrite drop_app_ge by lia. rewrite Hlo. replace (o + 2 - o)%nat with 2%nat by lia.
  cbn [drop]. pose proof (upd_get16 data o Ho Hwf) as Hu. rewrite Hz in Hu.
  unfold upd in Hu. cbn [length le16 app] in Hu. exact Hu.
Qed.

(** The receiver's comparison succeeds on exactly the data whose
    one's-complement sum is all ones and whose field is not [0x0000]. *)
Lemma cksum_verify_iff data o :
  cksum_fits data -> Nat.even o = true -> (o + 2 <= length data)%nat ->
  cksum (upd data o (le16 0)) = get16 data o <-> cksum_accepts data /\ get16 data o <> 0.
Proof.
  intros Hf He Ho. destruct (cksum_sum_fits data Hf) as [_ Hb].
  pose proof (cksum_fits_upd data o 0 Hf Ho) as Hf'. destruct (cksum_sum_fits _ Hf') as [_ Hb'].
  pose proof (wf_get8 data o (proj1 Hf)) as Hx. pose proof (wf_get8 data (o + 1) (proj1 Hf)) as Hy.
  unfold is_byte in *. rewrite cksum_closed by done.
  assert (Hw : get16 data o = htons (256 * get8 data o + get8 data (o + 1))).
  { unfold get16, htons. Z.div_mod_to_equations. lia. }
  change (le16 0) with [0; 0] in *. rewrite be_sum_upd in * by done.
  unfold cksum_accepts. rewrite Hw.
  set (w := 256 * get8 data o + get8 data (o + 1)) in *.
  assert (Hwr : 0 <= w < 65536) by lia. set (S := be_sum data) in *. clearbody w S.
  replace (S + (256 * 0 + 0) - w) with (S - w) in * by lia.
  pose proof (ones_sum_mod (S - w)) as Hm. pose proof (ones_sum_range (S - w)) as Hr.
  pose proof (ones_sum_mod S) as Hm'. pose proof (ones_sum_range S) as Hr'.
  assert (Hz : forall z, ones_sum z = 0 -> 0 <= z -> z = 0).
  { intros z. unfold ones_sum. destruct (Z.eqb_spec z 0); [lia|].
    pose proof (Z.mod_pos_bound (z - 1) 65535). lia. }
  pose proof (Hz (S - w)) as Hz1. pose proof (Hz S) as Hz2. 
  assert (HS : S = 0 -> ones_sum S = 0) by (by intros ->).
  set (v := ones_sum (S - w)) in *. set (u := ones_sum S) in *. clearbody u v.
  assert (Hh : htons w = 0 <-> w = 0).
  { split; [|by intros ->]. intros H0%(f_equal htons). rewrite htons_htons in H0 by lia. done. }
  rewrite Hh.
  transitivity ((if v =? 65535 then 65535 else 65535 - v) = w).
  - split; [|by intros ->]. intros H%(f_equal htons).
    by rewrite !htons_htons in H by (destruct (Z.eqb_spec v 65535); lia).
  - destruct (Z.eqb_spec v 65535); Z.div_mod_to_equations; lia.
Qed.

(** The two words that the one's-complement sum cannot tell apart. *)
Definition ones_equal (v w : Z) : Prop := v mod 65535 = w mod 65535.

Lemma field_inj v w :
  0 <= v <= 65535 -> 0 <= w <= 65535 ->
  htons (if v =? 65535 then 65535 else 65535 - v) = htons (if w =? 65535 then 65535 else 65535 - w) ->
  v mod 65535 = w mod 65535.
Proof.
  intros Hv Hw Heq. apply (f_equal htons) in Heq.
  rewrite !htons_htons in Heq by (destruct (Z.eqb_spec v 65535), (Z.eqb_spec w 65535); lia).
  destruct (Z.eqb_spec v 65535), (Z.eqb_spec w 65535); subst; try done.
  - assert (w = 0) as -> by lia. done.
  - assert (v = 0) as -> by lia. done.
  - f_equal. lia.
Qed.

(** A change of one 16-bit word is noticed, unless it turns [0x0000] into
    [0xffff] or back. *)
Lemma cksum_detects data o x y :
  cksum_fits data -> Nat.even o = true -> (o + 2 <= length data)%nat ->
  is_byte x -> is_byte y -> 
  ~ ones_equal (256 * x + y) (256 * get8 data o + get8 data (o + 1)) ->
  cksum (upd data o [x; y]) <> cksum data.
Proof.
  intros Hf He Ho Hx Hy Hne Heq.
  assert (Hf' : cksum_fits (upd data o [x; y])).
  { destruct Hf as [Hwf Hl]. split; [apply wf_upd; [done|constructor; [done|constructor; [done|constructor]]]|].
    unfold blen in *. by rewrite length_upd by (simpl; lia). }
  destruct (cksum_sum_fits _ Hf) as [_ Hb]. destruct (cksum_sum_fits _ Hf') as [_ Hb'].
  rewrite !cksum_closed in Heq by done.
  apply field_inj in Heq as Hmm; [|apply ones_sum_range; lia..].
  apply Hne. unfold ones_equal.
  rewrite !ones_sum_mod in Hmm by lia.
  rewrite be_sum_upd in Hmm by done.
  set (d := be_sum data) in *. set (w := 256 * x + y) in *.
  set (u := 256 * get8 data o + get8 data (o + 1)) in *.
  clearbody d w u. clear -Hmm.
  Z.div_mod_to_equations. lia.
Qed.

(* ------------------------------------------------------------------ *)
(** * Rule for the store of a checksum *)

(** [b'] is [b] but for the two bytes at [o]. *)
Definition same_but (o : nat) (b b' : bytes) : Prop :=
  length b' = length b /\ forall i, (i < o \/ o + 2 <= i)%nat -> get8 b' i = get8 b i.

Lemma wlp_cksum_store {S} F b o base n (Q : bytes -> S -> Prop) s :
  wf_bytes b -> (base + n <= length b)%nat -> (base <= o)%nat -> (o + 2 <= base + n)%nat ->
  Nat.even (o - base) = true -> Z.of_nat n <= 131072 -> get16 b o = 0 ->
  (forall b', wf_bytes b' -> same_but o b b' -> cksum_accepts (slice b' base n) -> Q b' s) ->
  wlp F (c ← cksum_at b base n; wr16 b o c) Q s.
Proof.
  intros Hwf Hl Hbo Hon He Hn Hz HQ.
  assert (Hsl : length (slice b base n) = n) by (by apply length_slice).
  unfold cksum_at. wsteps. apply wlp_rdn; [lia|]. wsteps. apply wlp_wrn; [simpl; lia|].
  apply HQ.
  - auto with bytes.
  - split; [by rewrite length_upd by (simpl; lia)|]. intros i Hi. rewrite get8_upd_ne; simpl; lia || done.
  - rewrite slice_upd_in by (simpl; lia). apply cksum_store_accepts; try done.
    + split; [auto with bytes|]. unfold blen. lia.
    + lia.
    + unfold get16 in *. rewrite !get8_slice by lia.
      by replace (base + (o - base))%nat with o by lia; replace (base + (o - base + 1))%nat with (o + 1)%nat by lia.
Qed.
