(* ===== verification/SrState.v ===== *)
(** The router's data: the structs of sr_protocol.h, sr_if.h, sr_rt.h,
    sr_arpcache.h and sr_router.h, the layout of the packed headers, and the
    environment a handler reads (clock, fresh memory, socket). *)

From S2P Require Import Prelude Bytes.

(* ------------------------------------------------------------------ *)
(** * Header layouts (sr_protocol.h) *)

Definition ICMP_DATA_SIZE : nat := 28.
Definition ETHER_ADDR_LEN : nat := 6.
Definition sr_IFACE_NAMELEN : nat := 32.
Definition INIT_TTL : Z := 255.

(** struct sr_ethernet_hdr *)
Module Eth.
Definition dhost : nat := 0.
Definition shost : nat := 6.
Definition type : nat := 12.
Definition size : nat := 14.
End Eth.

(** struct sr_ip_hdr; [ip_hl] and [ip_v] are the low and high nibble of byte 0. *)
Module Ip.
Definition vhl : nat := 0.
Definition tos : nat := 1.
Definition len : nat := 2.
Definition id : nat := 4.
Definition off : nat := 6.
Definition ttl : nat := 8.
Definition p : nat := 9.
Definition sum : nat := 10.
Definition src : nat := 12.
Definition dst : nat := 16.
Definition size : nat := 20.
End Ip.

(** struct sr_icmp_hdr and struct sr_icmp_t3_hdr *)
Module Icmp.
Definition type : nat := 0.
Definition code : nat := 1.
Definition sum : nat := 2.
Definition size : nat := 4.
Definition unused : nat := 4.
Definition next_mtu : nat := 6.
Definition data : nat := 8.
Definition t3_size : nat := 36.
End Icmp.

(** struct sr_arp_hdr *)
Module Arp.
Definition hrd : nat := 0.
Definition pro : nat := 2.
Definition hln : nat := 4.
Definition pln : nat := 5.
Definition op : nat := 6.
Definition sha : nat := 8.
Definition sip : nat := 14.
Definition tha : nat := 18.
Definition tip : nat := 24.
Definition size : nat := 28.
End Arp.

(** enum sr_ip_protocol, sr_ethertype, sr_arp_opcode *)
Definition ip_protocol_icmp : Z := 0x0001.
Definition ip_protocol_tcp : Z := 0x06.
Definition ip_protocol_udp : Z := 0x11.
Definition ethertype_arp : Z := 0x0806.
Definition ethertype_ip : Z := 0x0800.
Definition arp_op_request : Z := 0x0001.
Definition arp_op_reply : Z := 0x0002.

(** Reads of the bit-fields [ip_v] and [ip_hl], and the stores to them. *)
Definition rd_ip_v {S} (b : bytes) (o : nat) : M S Z :=
  v ← rd8 b (o + Ip.vhl); mret (Z.shiftr v 4).
Definition wr_ip_v {S} (b : bytes) (o : nat) (v : Z) : M S bytes :=
  x ← rd8 b (o + Ip.vhl);
  wr8 b (o + Ip.vhl) (Z.lor (Z.land x 0x0f) (Z.shiftl (Z.land v 0x0f) 4)).
Definition wr_ip_hl {S} (b : bytes) (o : nat) (v : Z) : M S bytes :=
  x ← rd8 b (o + Ip.vhl);
  wr8 b (o + Ip.vhl) (Z.lor (Z.land x 0xf0) (Z.land v 0x0f)).

(** A dotted-quad address as [inet_addr] returns it: the four bytes in memory
    order, loaded by the host. *)
Definition ipv4 (a b c d : Z) : Z := get32 [a; b; c; d] 0.

(* ------------------------------------------------------------------ *)
(** * Tables *)

(** struct sr_if (without [next]: the list is a Rocq list) *)
Record sr_if := mk_if {
  if_name : bytes;      (* char name[32] *)
  if_addr : bytes;      (* unsigned char addr[6] *)
  if_ip : Z;            (* network byte order *)
  if_speed : Z;
}.

(** struct sr_rt *)
Record sr_rt := mk_rt {
  rt_dest : Z;
  rt_gw : Z;
  rt_mask : Z;
  rt_interface : bytes; (* char interface[32] *)
}.

(** struct sr_packet *)
Record sr_packet := mk_packet {
  pk_buf : bytes;
  pk_len : Z;
  pk_iface : bytes;
}.

(** struct sr_arpentry *)
Record sr_arpentry := mk_arpentry {
  ae_mac : bytes;
  ae_ip : Z;
  ae_added : Z;
  ae_valid : Z;
}.

(** struct sr_arpreq (its [next] field is its position in [ac_requests]) *)
Record sr_arpreq := mk_arpreq {
  aq_ip : Z;
  aq_sent : Z;
  aq_times_sent : Z;
  aq_packets : list sr_packet;
}.

(** struct sr_arpcache: the table, the queue of requests as the addresses of
    its nodes from the head on, the live nodes by address, and the next unused
    address. *)
Record sr_arpcache := mk_arpcache {
  ac_entries : list sr_arpentry;
  ac_requests : list nat;
  ac_heap : gmap nat sr_arpreq;
  ac_next : nat;
}.

(** struct sr_instance; [sr_wire] is what was written to [sockfd] so far, one
    element per [write]/[send]; [sr_logfile] the bytes of the open log file. *)
Record sr_instance := mk_sr {
  sr_user : bytes;
  sr_host : bytes;
  sr_template : bytes;
  sr_topo_id : Z;
  sr_if_list : list sr_if;
  sr_routing_table : list sr_rt;
  sr_cache : sr_arpcache;
  sr_logfile : option bytes;
  sr_wire : list bytes;
}.

(** What the code reads from outside while it handles one event: the clock
    ([time], [gettimeofday]), the contents of a fresh [malloc] block, how many
    bytes a write to the socket accepts, and how many bytes can be used of the
    block the allocator gives for a request of some size
    ([malloc_usable_size]: at least that size). *)
Record env := mk_env {
  env_time : Z;
  env_usec : Z;
  env_fresh_if : sr_if;
  env_write : bytes -> Z;
  env_usable : nat -> nat;
}.

(** The block given for the six bytes of the broadcast address has room for the
    eight that [sr_arpcache_handle_arpreq] stores there. *)
Definition roomy (e : env) : Prop := (8 <= env_usable e 6)%nat.
#[export] Instance roomy_dec e : Decision (roomy e).
Proof. unfold roomy. apply _. Defined.

(* ------------------------------------------------------------------ *)
(** * Field updates *)

Definition set_if_list (l : list sr_if) (sr : sr_instance) : sr_instance :=
  mk_sr (sr_user sr) (sr_host sr) (sr_template sr) (sr_topo_id sr) l (sr_routing_table sr)
    (sr_cache sr) (sr_logfile sr) (sr_wire sr).
Definition set_routing_table (l : list sr_rt) (sr : sr_instance) : sr_instance :=
  mk_sr (sr_user sr) (sr_host sr) (sr_template sr) (sr_topo_id sr) (sr_if_list sr) l
    (sr_cache sr) (sr_logfile sr) (sr_wire sr).
Definition set_cache (c : sr_arpcache) (sr : sr_instance) : sr_instance :=
  mk_sr (sr_user sr) (sr_host sr) (sr_template sr) (sr_topo_id sr) (sr_if_list sr)
    (sr_routing_table sr) c (sr_logfile sr) (sr_wire sr).
Definition set_logfile (l : option bytes) (sr : sr_instance) : sr_instance :=
  mk_sr (sr_user sr) (sr_host sr) (sr_template sr) (sr_topo_id sr) (sr_if_list sr)
    (sr_routing_table sr) (sr_cache sr) l (sr_wire sr).
Definition add_wire (m : bytes) (sr : sr_instance) : sr_instance :=
  mk_sr (sr_user sr) (sr_host sr) (sr_template sr) (sr_topo_id sr) (sr_if_list sr)
    (sr_routing_table sr) (sr_cache sr) (sr_logfile sr) (sr_wire sr ++ [m]).

Definition set_entries (l : list sr_arpentry) (c : sr_arpcache) : sr_arpcache :=
  mk_arpcache l (ac_requests c) (ac_heap c) (ac_next c).
Definition set_requests (l : list nat) (c : sr_arpcache) : sr_arpcache :=
  mk_arpcache (ac_entries c) l (ac_heap c) (ac_next c).
Definition set_heap (h : gmap nat sr_arpreq) (c : sr_arpcache) : sr_arpcache :=
  mk_arpcache (ac_entries c) (ac_requests c) h (ac_next c).

(* ------------------------------------------------------------------ *)
(** * Automation *)

(** Offsets and sizes, for arithmetic side conditions. *)
Create HintDb offsets.
#[export] Hint Unfold Eth.dhost Eth.shost Eth.type Eth.size Ip.vhl Ip.tos Ip.len Ip.id Ip.off
  Ip.ttl Ip.p Ip.sum Ip.src Ip.dst Ip.size Icmp.type Icmp.code Icmp.sum Icmp.size Icmp.unused
  Icmp.next_mtu Icmp.data Icmp.t3_size Arp.hrd Arp.pro Arp.hln Arp.pln Arp.op Arp.sha Arp.sip
  Arp.tha Arp.tip Arp.size ICMP_DATA_SIZE ETHER_ADDR_LEN : offsets.
Ltac off_lia := autounfold with offsets in *; unfold blen in *; simpl length in *; lia.
