(* ===== verification/SrIf.v ===== *)
(** The interface list: sr_if.c. *)

From S2P Require Import Prelude Bytes SrState.

(* ------------------------------------------------------------------ *)
(** * Operations *)

(** The walk of [sr_get_interface]. *)
Fixpoint find_interface (l : list sr_if) (name : bytes) : option sr_if :=
  match l with
  | [] => None
  | i :: l' => if strncmp_eq (if_name i) name sr_IFACE_NAMELEN then Some i else find_interface l' name
  end.

(** [struct sr_if* sr_get_interface(sr, name)] *)
Definition sr_get_interface (name : bytes) : M sr_instance (option sr_if) :=
  gets (fun sr => find_interface (sr_if_list sr) name).

(** [sr_add_interface(sr, name)]: a fresh block at the end of the list, only
    its name set. *)
Definition sr_add_interface (e : env) (name : bytes) : M sr_instance unit :=
  modify (fun sr =>
    set_if_list (sr_if_list sr ++
      [mk_if (strncpy name sr_IFACE_NAMELEN) (if_addr (env_fresh_if e)) (if_ip (env_fresh_if e))
         (if_speed (env_fresh_if e))]) sr).

(** Apply [f] to the last element: [while (if_walker->next) if_walker = if_walker->next]. *)
Fixpoint alter_last {A} (f : A -> A) (l : list A) : list A :=
  match l with
  | [] => []
  | [x] => [f x]
  | x :: l' => x :: alter_last f l'
  end.

(** [sr_set_ether_addr(sr, addr)]; [addr] is the memory the pointer points to. *)
Definition sr_set_ether_addr (addr : bytes) : M sr_instance unit :=
  sr ← get;
  _ ← massert (negb (bool_decide (sr_if_list sr = [])));
  a ← rdn addr 0 6;
  put (set_if_list (alter_last (fun i => mk_if (if_name i) a (if_ip i) (if_speed i)) (sr_if_list sr)) sr).

(** [sr_set_ether_ip(sr, ip_nbo)] *)
Definition sr_set_ether_ip (ip_nbo : Z) : M sr_instance unit :=
  sr ← get;
  _ ← massert (negb (bool_decide (sr_if_list sr = [])));
  put (set_if_list (alter_last (fun i => mk_if (if_name i) (if_addr i) ip_nbo (if_speed i)) (sr_if_list sr)) sr).

(* ------------------------------------------------------------------ *)
(** * Lemmas *)

(** The first interface of that name, or none when there is no such name. *)
Lemma find_interface_spec l name :
  match find_interface l name with
  | Some i => exists l1 l2, l = l1 ++ i :: l2
      /\ strncmp_eq (if_name i) name sr_IFACE_NAMELEN = true
      /\ Forall (fun j => strncmp_eq (if_name j) name sr_IFACE_NAMELEN = false) l1
  | None => Forall (fun j => strncmp_eq (if_name j) name sr_IFACE_NAMELEN = false) l
  end.
Proof.
  induction l as [|i l IH]; simpl; [constructor|].
  destruct (strncmp_eq _ _ _) eqn:E.
  - exists [], l. by repeat split.
  - destruct (find_interface l name) as [j|].
    + destruct IH as (l1 & l2 & -> & Hj & Hl1). exists (i :: l1), l2. by repeat constructor.
    + by constructor.
Qed.

Lemma alter_last_snoc {A} (f : A -> A) l x : alter_last f (l ++ [x]) = l ++ [f x].
Proof.
  induction l as [|y l IH]; [done|]. simpl. rewrite IH. by destruct l.
Qed.

Lemma find_interface_in l name i : find_interface l name = Some i -> i ∈ l.
Proof.
  intros H. pose proof (find_interface_spec l name) as Hs. rewrite H in Hs.
  destruct Hs as (l1 & l2 & -> & _). set_solver.
Qed.

(** Looking up the copy of a name finds what the name finds. *)
Lemma find_interface_strncpy l name :
  find_interface l (strncpy name sr_IFACE_NAMELEN) = find_interface l name.
Proof.
  induction l as [|i l IH]; simpl; [done|].
  replace (strncmp_eq (if_name i) (strncpy name sr_IFACE_NAMELEN) sr_IFACE_NAMELEN)
    with (strncmp_eq (if_name i) name sr_IFACE_NAMELEN); [by rewrite IH|].
  unfold strncmp_eq. rewrite !cstr_take, cstr_strncpy, take_take. by rewrite Nat.min_id.
Qed.
