(* ===== verification/SrRt.v ===== *)
(** The routing table: sr_rt.c, longest-prefix match ([sr_findLPMentry] of
    sr_router.c) and the consistency check [sr_verify_routing_table] of
    sr_main.c. *)

From S2P Require Import Prelude Bytes SrState SrIf.

(* ------------------------------------------------------------------ *)
(** * Longest-prefix match *)

(** The loop of [sr_findLPMentry]; [ip_dst] is already in host order. *)
Fixpoint lpm_scan (rtable : list sr_rt) (ip_dst : Z) (lpmentry : option sr_rt) (lpmmask : Z)
  : option sr_rt :=
  match rtable with
  | [] => lpmentry
  | entry :: rest =>
      let mask := ntohl (rt_mask entry) in
      if (Z.land ip_dst mask =? Z.land (ntohl (rt_dest entry)) mask) && (lpmmask <? mask)
      then lpm_scan rest ip_dst (Some entry) mask
      else lpm_scan rest ip_dst lpmentry lpmmask
  end.

(** [struct sr_rt *sr_findLPMentry(struct sr_rt *rtable, uint32_t ip_dst)] *)
Definition sr_findLPMentry (rtable : list sr_rt) (ip_dst : Z) : option sr_rt :=
  lpm_scan rtable (ntohl ip_dst) None 0.

(* ------------------------------------------------------------------ *)
(** * Building the table *)

(** [sr_add_rt_entry(sr, dest, gw, mask, if_name)] *)
Definition sr_add_rt_entry (dest gw mask : Z) (if_name : bytes) : M sr_instance unit :=
  modify (fun sr =>
    set_routing_table (sr_routing_table sr ++ [mk_rt dest gw mask (strncpy if_name sr_IFACE_NAMELEN)]) sr).

Definition BUFSIZ : nat := Z.to_nat 8192.

(** One [%s] conversion: skip white space, take the next word. [None]: input
    failure, nothing is stored. *)
Fixpoint take_word (s : bytes) : bytes * bytes :=
  match s with
  | c :: s' => if isspace c then ([], s) else let '(w, r) := take_word s' in (c :: w, r)
  | [] => ([], [])
  end.
Definition scan_word (s : bytes) : option (bytes * bytes) :=
  match skip_spaces s with [] => None | s' => Some (take_word s') end.

(** [sscanf(line, "%s %s ... ", v1, v2, ...)] into character arrays of [n]
    bytes: words are stored in order while there are any; the remaining
    arrays keep what they held. A word of [n] or more characters overruns. *)
Fixpoint sscanf_words (n : nat) (s : bytes) (vars : list (option bytes)) : res (list (option bytes)) :=
  match vars with
  | [] => Ok []
  | v :: vars' =>
      match scan_word s with
      | None => Ok (v :: vars')
      | Some (w, r) =>
          if (n <=? length w)%nat then Err OutOfBounds
          else match sscanf_words n r vars' with
               | Ok l => Ok (Some w :: l)
               | Err f => Err f
               end
      end
  end.

Section load.
(** [inet_aton] of the C library, on the characters of a string: the address
    in network byte order, or failure. *)
Variable inet_aton : bytes -> option Z.

(** The [while (fgets(...))] loop of [sr_load_rt]: [vars] are the arrays
    dest, gw, mask and iface, uninitialised ([None]) at first. Returns the
    code's return value. *)
Fixpoint load_rt_loop (fuel : nat) (f : bytes) (vars : list (option bytes)) (cleared : bool)
  : M sr_instance Z :=
  match fuel with
  | O => fail OutOfFuel
  | S fuel' =>
      match fgets BUFSIZ f with
      | None => mret 0
      | Some (line, f') =>
          vs ← lift (sscanf_words 32 (cstr line) vars);
          match vs with
          | [dest; gw; mask; iface] =>
              dest ← initialised dest;
              match inet_aton dest with
              | None => mret (-1)
              | Some dest_addr =>
                  gw' ← initialised gw;
                  match inet_aton gw' with
                  | None => mret (-1)
                  | Some gw_addr =>
                      mask' ← initialised mask;
                      match inet_aton mask' with
                      | None => mret (-1)
                      | Some mask_addr =>
                          _ ← (if cleared then mret tt else modify (set_routing_table []));
                          iface' ← initialised iface;
                          _ ← sr_add_rt_entry dest_addr gw_addr mask_addr iface';
                          load_rt_loop fuel' f' vs true
                      end
                  end
              end
          | _ => fail OutOfBounds
          end
      end
  end.

(** [int sr_load_rt(sr, filename)]; [file] is the readable file's contents,
    [None] when [access] fails. One line per iteration: a file of [n] bytes has
    at most [n] lines. *)
Definition sr_load_rt (file : option bytes) : M sr_instance Z :=
  match file with
  | None => mret (-1)
  | Some f => load_rt_loop (S (length f)) f [None; None; None; None] false
  end.
End load.

(* ------------------------------------------------------------------ *)
(** * Consistency with the interfaces *)

(** Entries whose interface is not in the list. *)
Fixpoint count_missing (l : list sr_if) (rt : list sr_rt) : Z :=
  match rt with
  | [] => 0
  | r :: rt' =>
      (match find_interface l (rt_interface r) with Some _ => 0 | None => 1 end) + count_missing l rt'
  end.

(** [int sr_verify_routing_table(sr)] *)
Definition sr_verify_routing_table (sr : sr_instance) : Z :=
  if bool_decide (sr_if_list sr = []) || bool_decide (sr_routing_table sr = []) then 999
  else count_missing (sr_if_list sr) (sr_routing_table sr).

(* ------------------------------------------------------------------ *)
(** * Specification of the match *)

(** [e] matches the address (host order). *)
Definition rt_matches (ip : Z) (e : sr_rt) : Prop :=
  Z.land ip (ntohl (rt_mask e)) = Z.land (ntohl (rt_dest e)) (ntohl (rt_mask e)).
#[export] Instance rt_matches_dec ip e : Decision (rt_matches ip e).
Proof. unfold rt_matches. apply _. Defined.

(** [e] is what a longest-prefix match on [ip] must return: an entry with a
    non-zero mask that matches, no matching entry has a larger mask, and it
    is the first of those with its mask. *)
Definition is_lpm (rt : list sr_rt) (ip : Z) (e : sr_rt) : Prop :=
  exists l1 l2, rt = l1 ++ e :: l2
    /\ rt_matches ip e /\ 0 < ntohl (rt_mask e)
    /\ Forall (fun r => rt_matches ip r -> ntohl (rt_mask r) < ntohl (rt_mask e)) l1
    /\ Forall (fun r => rt_matches ip r -> ntohl (rt_mask r) <= ntohl (rt_mask e)) l2.

Lemma lpm_scan_spec rt ip best bm :
  match lpm_scan rt ip best bm with
  | Some e => (best = Some e /\ Forall (fun r => rt_matches ip r -> ntohl (rt_mask r) <= bm) rt)
      \/ (exists l1 l2, rt = l1 ++ e :: l2 /\ rt_matches ip e /\ bm < ntohl (rt_mask e)
          /\ Forall (fun r => rt_matches ip r -> ntohl (rt_mask r) < ntohl (rt_mask e)) l1
          /\ Forall (fun r => rt_matches ip r -> ntohl (rt_mask r) <= ntohl (rt_mask e)) l2)
  | None => best = None /\ Forall (fun r => rt_matches ip r -> ntohl (rt_mask r) <= bm) rt
  end.
Proof.
  revert best bm. induction rt as [|r rt IH]; intros best bm; simpl.
  - destruct best; [left|]; by split.
  - destruct (Z.eqb_spec (Z.land ip (ntohl (rt_mask r))) (Z.land (ntohl (rt_dest r)) (ntohl (rt_mask r)))) as [Hm|Hm];
      [destruct (Z.ltb_spec bm (ntohl (rt_mask r))) as [Hlt|Hge]|]; simpl.
    + specialize (IH (Some r) (ntohl (rt_mask r))). destruct lpm_scan as [e|].
      * right. destruct IH as [[[= ->] Hall]|(l1 & l2 & -> & He & Hlt' & H1 & H2)].
        { exists [], rt. by repeat split. }
        exists (r :: l1), l2. repeat split; try done; [lia|]. by constructor.
      * by destruct IH.
    + specialize (IH best bm). destruct lpm_scan as [e|].
      * destruct IH as [[-> Hall]|(l1 & l2 & -> & He & Hlt' & H1 & H2)].
        { left. split; [done|]. by constructor. }
        right. exists (r :: l1), l2. repeat split; try done. constructor; [lia|done].
      * destruct IH as [-> Hall]. split; [done|]. by constructor.
    + specialize (IH best bm). destruct lpm_scan as [e|].
      * destruct IH as [[-> Hall]|(l1 & l2 & -> & He & Hlt' & H1 & H2)].
        { left. split; [done|]. by constructor. }
        right. exists (r :: l1), l2. repeat split; try done. by constructor.
      * destruct IH as [-> Hall]. split; [done|]. by constructor.
Qed.

Lemma findLPM_spec rt ip :
  match sr_findLPMentry rt ip with
  | Some e => is_lpm rt (ntohl ip) e
  | None => Forall (fun r => rt_matches (ntohl ip) r -> ntohl (rt_mask r) <= 0) rt
  end.
Proof.
  unfold sr_findLPMentry. pose proof (lpm_scan_spec rt (ntohl ip) None 0) as H.
  destruct lpm_scan as [e|].
  - destruct H as [[? _]|(l1 & l2 & ? & ? & ? & ? & ?)]; [done|]. exists l1, l2. by repeat split.
  - by destruct H.
Qed.

Lemma findLPM_in rt ip e : sr_findLPMentry rt ip = Some e -> e ∈ rt.
Proof.
  intros H. pose proof (findLPM_spec rt ip) as Hs. rewrite H in Hs.
  destruct Hs as (l1 & l2 & -> & _). set_solver.
Qed.

(** ** Masks as prefix lengths *)

(** The mask of a prefix of [n] bits. *)
Definition prefix_mask (n : Z) : Z := 2 ^ 32 - 2 ^ (32 - n).

Lemma prefix_mask_lt a b : 0 <= a <= 32 -> 0 <= b <= 32 -> prefix_mask a <= prefix_mask b -> a <= b.
Proof.
  unfold prefix_mask. intros Ha Hb H. apply Z.nlt_ge. intros Hlt.
  pose proof (Z.pow_lt_mono_r 2 (32 - a) (32 - b)). lia.
Qed.

(* ------------------------------------------------------------------ *)
(** * The check *)

Lemma count_missing_nonneg l rt : 0 <= count_missing l rt.
Proof. induction rt as [|r rt IH]; simpl; [lia|]. destruct find_interface; lia. Qed.

Lemma count_missing_0 l rt :
  count_missing l rt = 0 <-> Forall (fun r => is_Some (find_interface l (rt_interface r))) rt.
Proof.
  induction rt as [|r rt IH]; simpl; [done|].
  pose proof (count_missing_nonneg l rt). rewrite Forall_cons.
  destruct (find_interface l (rt_interface r)) as [i|].
  - rewrite Z.add_0_l, IH. naive_solver.
  - split; [lia|]. by intros [[? [=]] _].
Qed.

(** A table that passes the check has an interface behind every entry. *)
Lemma verify_rt_interfaces sr r :
  sr_verify_routing_table sr = 0 -> r ∈ sr_routing_table sr ->
  exists i, find_interface (sr_if_list sr) (rt_interface r) = Some i.
Proof.
  unfold sr_verify_routing_table. destruct (_ || _); [done|].
  rewrite count_missing_0, Forall_forall. intros H Hr. by apply H.
Qed.
