(* ===== verification/SrPrint.v ===== *)
(** What assignment 3 prints: the headers of a packet (sr_utils.c), interfaces
    (sr_if.c), the routing table (sr_rt.c) and the ARP cache (sr_arpcache.c).
    Each function is the bytes it writes to its stream. *)

From S2P Require Import Prelude.
From S2P Require Import Bytes.
From S2P Require Import Stdio.
From S2P Require Import SrState.
From S2P Require Import Checksum.
From S2P Require Import SrRt.
From Stdlib Require Import (notations) String.

(* ------------------------------------------------------------------ *)
(** * Headers *)

Definition TAB : Z := 9.
Definition LF : Z := 10.

(** [fprintf(stderr, "\t<label>: %d\n", n)] *)
Definition field (label : bytes) (n : Z) : bytes := TAB :: label ++ str ": " ++ print_d n ++ [LF].

(** [print_addr_eth(addr)], [addr] pointing to offset [o] of [b]. *)
Fixpoint eth_loop {S} (b : bytes) (o : nat) (pos left : nat) : M S bytes :=
  match left with
  | O => mret []
  | Datatypes.S left' =>
      cur ← rd8 b (o + pos);
      rest ← eth_loop b o (pos + 1) left';
      mret ((if (0 <? pos)%nat then [58] else []) ++ print_x true 2 cur ++ rest)
  end.
Definition print_addr_eth {S} (b : bytes) (o : nat) : M S bytes :=
  a ← eth_loop b o 0 6; mret (a ++ [LF]).

(** [print_addr_ip(address)], with its buffer of INET_ADDRSTRLEN characters. *)
Definition print_addr_ip {S} (address : Z) : M S bytes :=
  if (16 <=? length (inet_ntoa address))%nat then fail OutOfBounds else mret (inet_ntoa address ++ [LF]).

(** [print_addr_ip_int(ip)], [ip] in host order. *)
Definition print_addr_ip_int (ip : Z) : bytes :=
  print_d (Z.shiftr ip 24) ++ str "." ++ print_d (Z.shiftr (u32 (Z.shiftl ip 8)) 24) ++ str "."
  ++ print_d (Z.shiftr (u32 (Z.shiftl ip 16)) 24) ++ str "." ++ print_d (Z.shiftr (u32 (Z.shiftl ip 24)) 24) ++ [LF].

(** [print_hdr_eth(buf)] *)
Definition print_hdr_eth {S} (b : bytes) (o : nat) : M S bytes :=
  d ← print_addr_eth b (o + Eth.dhost);
  s ← print_addr_eth b (o + Eth.shost);
  t ← rd16 b (o + Eth.type);
  mret (str "ETHERNET header:" ++ LF :: TAB :: str "destination: " ++ d ++ TAB :: str "source: " ++ s ++ field (str "type") (ntohs t)).

Definition IP_RF : Z := 0x8000.
Definition IP_DF : Z := 0x4000.
Definition IP_MF : Z := 0x2000.
Definition IP_OFFMASK : Z := 0x1fff.

(** The one flag that is printed. *)
Definition fragment_flag (off : Z) : bytes :=
  if negb (Z.land off IP_DF =? 0) then TAB :: str "fragment flag: DF" ++ [LF]
  else if negb (Z.land off IP_MF =? 0) then TAB :: str "fragment flag: MF" ++ [LF]
  else if negb (Z.land off IP_RF =? 0) then TAB :: str "fragment flag: R" ++ [LF]
  else [].

(** [print_hdr_ip(buf)] *)
Definition print_hdr_ip {S} (b : bytes) (o : nat) : M S bytes :=
  vhl ← rd8 b (o + Ip.vhl);
  tos ← rd8 b (o + Ip.tos);
  len ← rd16 b (o + Ip.len);
  id ← rd16 b (o + Ip.id);
  off ← rd16 b (o + Ip.off);
  ttl ← rd8 b (o + Ip.ttl);
  p ← rd8 b (o + Ip.p);
  sum ← rd16 b (o + Ip.sum);
  src ← rd32 b (o + Ip.src);
  dst ← rd32 b (o + Ip.dst);
  mret (str "IP header:" ++ LF :: field (str "version") (Z.shiftr vhl 4) ++ field (str "header length") (Z.land vhl 0x0f)
        ++ field (str "type of service") tos ++ field (str "length") (ntohs len) ++ field (str "id") (ntohs id)
        ++ fragment_flag (ntohs off) ++ field (str "fragment offset") (Z.land (ntohs off) IP_OFFMASK)
        ++ field (str "TTL") ttl ++ field (str "protocol") p ++ field (str "checksum") sum
        ++ TAB :: str "source: " ++ print_addr_ip_int (ntohl src) ++ TAB :: str "destination: " ++ print_addr_ip_int (ntohl dst)).

(** [print_hdr_icmp(buf)] *)
Definition print_hdr_icmp {S} (b : bytes) (o : nat) : M S bytes :=
  type ← rd8 b (o + Icmp.type);
  code ← rd8 b (o + Icmp.code);
  sum ← rd16 b (o + Icmp.sum);
  mret (str "ICMP header:" ++ LF :: field (str "type") type ++ field (str "code") code ++ field (str "checksum") sum).

(** [print_hdr_arp(buf)] *)
Definition print_hdr_arp {S} (b : bytes) (o : nat) : M S bytes :=
  hrd ← rd16 b (o + Arp.hrd);
  pro ← rd16 b (o + Arp.pro);
  hln ← rd8 b (o + Arp.hln);
  pln ← rd8 b (o + Arp.pln);
  op ← rd16 b (o + Arp.op);
  sha ← print_addr_eth b (o + Arp.sha);
  sip ← rd32 b (o + Arp.sip);
  tha ← print_addr_eth b (o + Arp.tha);
  tip ← rd32 b (o + Arp.tip);
  mret (str "ARP header" ++ LF :: field (str "hardware type") (ntohs hrd) ++ field (str "protocol type") (ntohs pro)
        ++ field (str "hardware address length") hln ++ field (str "protocol address length") pln ++ field (str "opcode") (ntohs op)
        ++ TAB :: str "sender hardware address: " ++ sha ++ TAB :: str "sender ip address: " ++ print_addr_ip_int (ntohl sip)
        ++ TAB :: str "target hardware address: " ++ tha ++ TAB :: str "target ip address: " ++ print_addr_ip_int (ntohl tip)).

Definition too_short (header : bytes) : bytes := str "Failed to print " ++ header ++ str " header, insufficient length" ++ [LF].

(** [print_hdrs(buf, length)] *)
Definition print_hdrs {S} (buf : bytes) (length : Z) : M S bytes :=
  let minlength := Z.of_nat Eth.size in
  if length <? minlength then mret (too_short (str "ETHERNET"))
  else
    ethtype ← ethertype buf;
    eth ← print_hdr_eth buf 0;
    if ethtype =? ethertype_ip then
      let minlength := minlength + Z.of_nat Ip.size in
      if length <? minlength then mret (eth ++ too_short (str "IP"))
      else
        ip ← print_hdr_ip buf Eth.size;
        ip_proto ← ip_protocol buf Eth.size;
        if ip_proto =? ip_protocol_icmp then
          let minlength := minlength + Z.of_nat Icmp.size in
          if length <? minlength then mret (eth ++ ip ++ too_short (str "ICMP"))
          else icmp ← print_hdr_icmp buf (Eth.size + Ip.size); mret (eth ++ ip ++ icmp)
        else mret (eth ++ ip)
    else if ethtype =? ethertype_arp then
      let minlength := minlength + Z.of_nat Arp.size in
      if length <? minlength then mret (eth ++ too_short (str "ARP"))
      else arp ← print_hdr_arp buf Eth.size; mret (eth ++ arp)
    else mret (eth ++ str "Unrecognized Ethernet Type: " ++ print_d ethtype ++ [LF]).

(* ------------------------------------------------------------------ *)
(** * Tables *)

(** [DebugMAC(x)] *)
Definition DebugMAC (x : bytes) : bytes :=
  mjoin ((fun c => print_x false 2 c ++ [58]) <$> take 5 x) ++ print_x false 2 (get8 x 5).

(** [sr_print_if(iface)] and [sr_print_if_list(sr)] *)
Definition sr_print_if (iface : sr_if) : bytes :=
  cstr (if_name iface) ++ TAB :: str "HWaddr" ++ DebugMAC (if_addr iface) ++ LF
  :: TAB :: str "inet addr " ++ inet_ntoa (if_ip iface) ++ [LF].
Definition sr_print_if_list (if_list : list sr_if) : bytes :=
  match if_list with
  | [] => str " Interface list empty " ++ [LF]
  | _ => mjoin (sr_print_if <$> if_list)
  end.

(** [sr_print_routing_entry(entry)] and [sr_print_routing_table(sr)] *)
Definition sr_print_routing_entry (entry : sr_rt) : bytes :=
  inet_ntoa (rt_dest entry) ++ TAB :: TAB :: inet_ntoa (rt_gw entry) ++ TAB :: inet_ntoa (rt_mask entry) ++ TAB
  :: cstr (rt_interface entry) ++ [LF].
Definition table_header : bytes := str "Destination" ++ TAB :: str "Gateway" ++ TAB :: TAB :: str "Mask" ++ TAB :: str "Iface" ++ [LF].
Definition sr_print_routing_table (rt : list sr_rt) : bytes :=
  match rt with
  | [] => str " *warning* Routing table empty " ++ [LF]
  | _ => table_header ++ mjoin (sr_print_routing_entry <$> rt)
  end.

(** [sr_arpcache_dump(cache)], [ctime] being the library's. *)
Definition dump_entry (ctime : Z -> bytes) (cur : sr_arpentry) : bytes :=
  mjoin ((fun c => print_x false 1 c) <$> take 6 (ae_mac cur)) ++ str "   " ++ print_x false 8 (ntohl (ae_ip cur)) ++ str "   "
  ++ take 24 (cstr (ctime (ae_added cur))) ++ str "   " ++ print_d (ae_valid cur) ++ [LF].
Definition sr_arpcache_dump (ctime : Z -> bytes) (cache : sr_arpcache) : bytes :=
  LF :: str "MAC            IP         ADDED                      VALID" ++ LF
  :: str "-----------------------------------------------------------" ++ LF
  :: mjoin (dump_entry ctime <$> ac_entries cache) ++ [LF].

(* ------------------------------------------------------------------ *)
(** * What is printed of a packet *)

Section headers.
Context {S : Type}.

(** [m] only looks at the first [n] bytes of what it is given, and ends. *)
Definition looks_at (n : nat) (m : bytes -> M S bytes) : Prop :=
  forall b st, (n <= length b)%nat -> (exists out, m b st = Ok (out, st)) /\ m (take n b) st = m b st.

Lemma get8_take n b i : (i < n)%nat -> get8 (take n b) i = get8 b i.
Proof.
  intros Hi. unfold get8. destruct (decide (i < length b)%nat) as [Hl|Hl].
  - rewrite <- (take_drop n b) at 2. rewrite app_nth1; [done|]. rewrite length_take. lia.
  - rewrite !nth_overflow; rewrite ?length_take; lia || done.
Qed.

(** A load at a fixed place within the first [n] bytes. *)
Lemma looks_load n (r : bytes -> M S Z) (g : bytes -> Z) (k : Z -> bytes -> M S bytes) :
  (forall b st, (n <= length b)%nat -> r b st = Ok (g b, st)) -> (forall b, (n <= length b)%nat -> g (take n b) = g b) ->
  (forall v, looks_at n (k v)) -> looks_at n (fun b => v ← r b; k v b).
Proof.
  intros Hr Hg Hk b st Hb.
  rewrite (bind_ok _ _ _ _ _ (Hr b st Hb)), (bind_ok _ _ _ _ _ (Hr (take n b) st ltac:(rewrite length_take; lia))), Hg by done. by apply Hk.
Qed.
Lemma looks_rd8 n o (k : Z -> bytes -> M S bytes) :
  (o + 1 <= n)%nat -> (forall v, looks_at n (k v)) -> looks_at n (fun b => v ← rd8 b o; k v b).
Proof.
  intros Ho. apply (looks_load n _ (fun b => get8 b o)); intros b.
  - intros st Hb. unfold rd8, lift, in_range. by rewrite (proj2 (Nat.leb_le _ _)) by lia.
  - intros Hb. apply get8_take. lia.
Qed.
Lemma looks_rd16 n o (k : Z -> bytes -> M S bytes) :
  (o + 2 <= n)%nat -> (forall v, looks_at n (k v)) -> looks_at n (fun b => v ← rd16 b o; k v b).
Proof.
  intros Ho. apply (looks_load n _ (fun b => get16 b o)); intros b.
  - intros st Hb. unfold rd16, lift, in_range. by rewrite (proj2 (Nat.leb_le _ _)) by lia.
  - intros Hb. cbv beta. unfold get16. rewrite !get8_take by lia. done.
Qed.
Lemma looks_rd32 n o (k : Z -> bytes -> M S bytes) :
  (o + 4 <= n)%nat -> (forall v, looks_at n (k v)) -> looks_at n (fun b => v ← rd32 b o; k v b).
Proof.
  intros Ho. apply (looks_load n _ (fun b => get32 b o)); intros b.
  - intros st Hb. unfold rd32, lift, in_range. by rewrite (proj2 (Nat.leb_le _ _)) by lia.
  - intros Hb. cbv beta. unfold get32, get16. rewrite !get8_take by lia. done.
Qed.
Lemma looks_ret n (out : bytes) : looks_at n (fun _ => mret out).
Proof. intros b st _. split; [by exists out|done]. Qed.
Lemma looks_bind n (m : bytes -> M S bytes) (k : bytes -> bytes -> M S bytes) :
  looks_at n m -> (forall v, looks_at n (k v)) -> looks_at n (fun b => v ← m b; k v b).
Proof.
  intros Hm Hk b st Hb. destruct (Hm b st Hb) as [(out & He) Ht]. destruct (Hk out b st Hb) as [(out' & He') Ht'].
  unfold mbind, M_bind. rewrite Ht, He. split; [by exists out'|done].
Qed.
Lemma looks_if n (c : bool) (m1 m2 : bytes -> M S bytes) :
  (c = true -> looks_at n m1) -> (c = false -> looks_at n m2) -> looks_at n (fun b => if c then m1 b else m2 b).
Proof. intros H1 H2. destruct c; auto. Qed.

Lemma looks_eth_loop n o pos left : (o + pos + left <= n)%nat -> looks_at n (fun b => eth_loop b o pos left).
Proof.
  revert pos. induction left as [|left IH]; intros pos Hn; cbn [eth_loop]; [apply looks_ret|].
  apply (looks_rd8 n (o + pos)); [lia|]. intros v. apply (looks_bind n (fun b => eth_loop b o (pos + 1) left)); [apply IH; lia|].
  intros v'. apply looks_ret.
Qed.
Lemma looks_addr_eth n o (k : bytes -> bytes -> M S bytes) :
  (o + 6 <= n)%nat -> (forall v, looks_at n (k v)) -> looks_at n (fun b => v ← print_addr_eth b o; k v b).
Proof.
  intros Ho Hk. apply looks_bind; [|done]. apply (looks_bind n (fun b => eth_loop b o 0 6)); [apply looks_eth_loop; lia|].
  intros v. apply looks_ret.
Qed.

Lemma looks_ethertype n (k : Z -> bytes -> M S bytes) :
  (14 <= n)%nat -> (forall v, looks_at n (k v)) -> looks_at n (fun b => v ← ethertype b; k v b).
Proof.
  intros Hn. apply (looks_load n _ (fun b => ntohs (get16 b 12))).
  - intros b st Hb. unfold ethertype, rd16, mbind, M_bind, lift, in_range. by rewrite (proj2 (Nat.leb_le _ _)) by lia.
  - intros b Hb. unfold get16. rewrite !get8_take by lia. done.
Qed.

Ltac looks :=
  repeat first
    [ apply looks_ret | apply looks_rd8; [lia|intros ?] | apply looks_rd16; [lia|intros ?] | apply looks_rd32; [lia|intros ?]
    | apply looks_addr_eth; [lia|intros ?] ].

Lemma looks_hdr_eth n o : (o + 14 <= n)%nat -> looks_at n (fun b => print_hdr_eth b o).
Proof. intros Ho. unfold print_hdr_eth, Eth.dhost, Eth.shost, Eth.type. looks. Qed.
Lemma looks_hdr_ip n o : (o + 20 <= n)%nat -> looks_at n (fun b => print_hdr_ip b o).
Proof. intros Ho. unfold print_hdr_ip, Ip.vhl, Ip.tos, Ip.len, Ip.id, Ip.off, Ip.ttl, Ip.p, Ip.sum, Ip.src, Ip.dst. looks. Qed.
Lemma looks_hdr_icmp n o : (o + 4 <= n)%nat -> looks_at n (fun b => print_hdr_icmp b o).
Proof. intros Ho. unfold print_hdr_icmp, Icmp.type, Icmp.code, Icmp.sum. looks. Qed.
Lemma looks_hdr_arp n o : (o + 28 <= n)%nat -> looks_at n (fun b => print_hdr_arp b o).
Proof. intros Ho. unfold print_hdr_arp, Arp.hrd, Arp.pro, Arp.hln, Arp.pln, Arp.op, Arp.sha, Arp.sip, Arp.tha, Arp.tip. looks. Qed.

(** [print_hdrs] is safe on what was received of any packet: it ends, and reads
    nothing behind the length it is given, whatever the bytes say. *)
Theorem print_hdrs_safe (buf : bytes) (len : Z) (st : S) :
  0 <= len <= blen buf ->
  (exists out, print_hdrs buf len st = Ok (out, st)) /\ print_hdrs (take (Z.to_nat len) buf) len st = print_hdrs buf len st.
Proof.
  intros Hl. cut (looks_at (Z.to_nat len) (fun b => print_hdrs b len)); [intros H; apply H; unfold blen in Hl; lia|].
  unfold print_hdrs, Eth.size, Ip.size, Icmp.size, Arp.size. apply looks_if; [intros _; apply looks_ret|].
  intros H1%Z.ltb_ge. apply looks_ethertype; [lia|]. intros t.
  apply (looks_bind _ (fun b => print_hdr_eth b 0)); [apply looks_hdr_eth; lia|]. intros eth.
  apply looks_if; intros _; [apply looks_if; [intros _; apply looks_ret|intros H2%Z.ltb_ge]|].
  - apply (looks_bind _ (fun b => print_hdr_ip b 14)); [apply looks_hdr_ip; lia|]. intros ip. unfold ip_protocol.
    apply (looks_rd8 _ (14 + 9)); [lia|]. intros p. apply looks_if; intros _; [|apply looks_ret].
    apply looks_if; [intros _; apply looks_ret|intros H3%Z.ltb_ge].
    apply (looks_bind _ (fun b => print_hdr_icmp b 34)); [apply looks_hdr_icmp; lia|]. intros v. apply looks_ret.
  - apply looks_if; intros _; [|apply looks_ret]. apply looks_if; [intros _; apply looks_ret|intros H3%Z.ltb_ge].
    apply (looks_bind _ (fun b => print_hdr_arp b 14)); [apply looks_hdr_arp; lia|]. intros v. apply looks_ret.
Qed.
End headers.

(* ------------------------------------------------------------------ *)
(** * A routing table printed and loaded again *)

(** No white space and no end of string. *)
Definition word (w : bytes) : Prop := w <> [] /\ Forall (fun c => isspace c = false /\ c <> 0) w.

Lemma take_word_ok w c r : Forall (fun c => isspace c = false /\ c <> 0) w -> isspace c = true -> take_word (w ++ c :: r) = (w, c :: r).
Proof. intros Hw Hc. induction Hw as [|x w [Hx _] _ IH]; cbn [take_word app]; [by rewrite Hc|]. by rewrite Hx, IH. Qed.

Lemma scan_word_space x s : isspace x = true -> scan_word (x :: s) = scan_word s.
Proof. intros Hx. unfold scan_word. cbn [skip_spaces]. by rewrite Hx. Qed.
Lemma scan_word_ok w c r : word w -> isspace c = true -> scan_word (w ++ c :: r) = Some (w, c :: r).
Proof.
  intros [Hne Hw] Hc. unfold scan_word.
  assert (H : skip_spaces (w ++ c :: r) = w ++ c :: r).
  { destruct w as [|x w]; [done|]. apply Forall_inv in Hw as [Hx _]. cbn [app skip_spaces]. by rewrite Hx. }
  rewrite H. rewrite <- (take_word_ok w c r Hw Hc). destruct (w ++ c :: r) eqn:E; [by destruct w|done].
Qed.

Lemma inet_ntoa_word a : word (inet_ntoa a).
Proof.
  destruct (inet_ntoa_ok a) as [H1 H2]. split; [by destruct (inet_ntoa a); [simpl in H2; lia|]|].
  eapply Forall_impl; [exact H1|]. intros c [Hc| ->]; [|done]. destruct (isdigit_plain _ Hc) as (H & _ & _ & _ & H0 & _). done.
Qed.

(** A row as [sr_load_rt] makes them: the name of the interface fits its array. *)
Definition row_ok (e : sr_rt) : Prop :=
  (0 <= rt_dest e < 2 ^ 32 /\ 0 <= rt_gw e < 2 ^ 32 /\ 0 <= rt_mask e < 2 ^ 32)
  /\ word (cstr (rt_interface e)) /\ (length (cstr (rt_interface e)) < 32)%nat /\ rt_interface e = strncpy (cstr (rt_interface e)) 32.

Section reload.
Context (inet_aton : bytes -> option Z) (aton_ntoa : forall a, 0 <= a < 2 ^ 32 -> inet_aton (inet_ntoa a) = Some a).

Lemma scan_row e vars : row_ok e -> length vars = 4%nat ->
  sscanf_words 32 (sr_print_routing_entry e) vars
  = Ok [Some (inet_ntoa (rt_dest e)); Some (inet_ntoa (rt_gw e)); Some (inet_ntoa (rt_mask e)); Some (cstr (rt_interface e))].
Proof.
  intros (_ & Hw & Hl & _) Hv. destruct vars as [|v1 [|v2 [|v3 [|v4 [|]]]]]; try done. unfold sr_print_routing_entry.
  assert (Hlen : forall a, (32 <=? length (inet_ntoa a))%nat = false).
  { intros a. apply Nat.leb_gt. destruct (inet_ntoa_ok a). lia. }
  cbn [sscanf_words]. rewrite scan_word_ok, Hlen, 2!scan_word_space by (done || apply inet_ntoa_word).
  rewrite scan_word_ok, Hlen, scan_word_space by (done || apply inet_ntoa_word).
  rewrite scan_word_ok, Hlen, scan_word_space by (done || apply inet_ntoa_word).
  rewrite scan_word_ok by done. by rewrite (proj2 (Nat.leb_gt _ _)).
Qed.

(** A row printed is a line of text. *)
Lemma row_line e rest : row_ok e ->
  fgets BUFSIZ (sr_print_routing_entry e ++ rest) = Some (sr_print_routing_entry e, rest) /\ cstr (sr_print_routing_entry e) = sr_print_routing_entry e.
Proof.
  intros (_ & [_ Hw] & Hl & _).
  set (l := inet_ntoa (rt_dest e) ++ TAB :: TAB :: inet_ntoa (rt_gw e) ++ TAB :: inet_ntoa (rt_mask e) ++ TAB :: cstr (rt_interface e)).
  assert (El : sr_print_routing_entry e = l ++ [10]).
  { subst l. unfold sr_print_routing_entry. rewrite <- app_assoc. cbn [app]. do 3 f_equal. rewrite <- app_assoc. cbn [app]. do 2 f_equal.
    rewrite <- app_assoc. done. }
  assert (Hc : Forall (fun c => c <> 0 /\ c <> 10) l).
  { assert (H : forall w, Forall (fun c => isspace c = false /\ c <> 0) w -> Forall (fun c => c <> 0 /\ c <> 10) w).
    { intros w Hww. eapply Forall_impl; [exact Hww|]. intros c [H1 H2]. split; [done|]. by intros ->. }
    subst l. repeat (apply Forall_app; split; [apply H, inet_ntoa_word|]; repeat (constructor; [by unfold TAB|])). by apply H. }
  assert (Hlen : (length l < 100)%nat).
  { subst l. pose proof (proj2 (inet_ntoa_ok (rt_dest e))). pose proof (proj2 (inet_ntoa_ok (rt_gw e))). pose proof (proj2 (inet_ntoa_ok (rt_mask e))).
    repeat (rewrite length_app; cbn [length]). lia. }
  rewrite El. split.
  - rewrite <- app_assoc. apply fgets_whole; [eapply Forall_impl; [exact Hc|]; by intros c [_ ?]|]. unfold BUFSIZ. lia.
  - apply cstr_id, Forall_app. split; [eapply Forall_impl; [exact Hc|]; by intros c [? _]|by constructor].
Qed.

Lemma load_rows F rt fuel vars cleared sr : Forall row_ok rt -> (length rt < fuel)%nat -> length vars = 4%nat ->
  wlp F (load_rt_loop inet_aton fuel (mjoin (sr_print_routing_entry <$> rt)) vars cleared)
    (fun r sr' => r = 0 /\ sr' = match rt with [] => sr | _ => set_routing_table ((if cleared then sr_routing_table sr else []) ++ rt) sr end) sr.
Proof.
  intros Hrt. revert fuel vars cleared sr. induction Hrt as [|e rt He _ IH]; intros fuel vars cleared sr Hf Hv;
    (destruct fuel as [|fuel]; [simpl in Hf; lia|]); cbn [load_rt_loop]; [by wgo|].
  change (mjoin (sr_print_routing_entry <$> e :: rt)) with (sr_print_routing_entry e ++ mjoin (sr_print_routing_entry <$> rt)).
  destruct (row_line e (mjoin (sr_print_routing_entry <$> rt)) He) as [-> ->].
  pose proof He as ((A1 & A2 & A3) & _ & _ & Hi). wgo. rewrite scan_row by done. unfold initialised. wgo.
  rewrite !aton_ntoa by done. wgo. rewrite aton_ntoa by done. wgo. rewrite aton_ntoa by done. wgo.
  assert (Hrow : mk_rt (rt_dest e) (rt_gw e) (rt_mask e) (strncpy (cstr (rt_interface e)) sr_IFACE_NAMELEN) = e).
  { unfold sr_IFACE_NAMELEN. rewrite <- Hi. by destruct e. }
  destruct cleared; wgo; unfold sr_add_rt_entry; wgo; rewrite Hrow; (eapply wlp_mono; [apply IH; [simpl in Hf; lia|done]|]);
    intros r sr' [-> ->]; (split; [done|]); destruct sr, rt; cbn; by rewrite <- ?app_assoc.
Qed.

(** Below its heading, what [sr_print_routing_table] prints of a table is a file
    that [sr_load_rt] loads as that table. *)
Theorem routing_table_roundtrip rt sr : rt <> [] -> Forall row_ok rt ->
  exists file, sr_print_routing_table rt = table_header ++ file
    /\ sr_load_rt inet_aton (Some file) sr = Ok (0, set_routing_table rt sr).
Proof.
  intros Hne Hrt. exists (mjoin (sr_print_routing_entry <$> rt)). split; [by destruct rt|]. unfold sr_load_rt.
  set (file := mjoin (sr_print_routing_entry <$> rt)).
  assert (Hlen : (length rt <= length file)%nat).
  { subst file. clear. induction rt as [|e rt IH]; [done|]. change (mjoin _) with (sr_print_routing_entry e ++ mjoin (sr_print_routing_entry <$> rt)).
    rewrite length_app. unfold sr_print_routing_entry at 1. rewrite length_app. cbn [length]. lia. }
  destruct (wlp_total _ _ _ (load_rows (fun _ => False) rt (Datatypes.S (length file)) [None; None; None; None] false sr Hrt ltac:(lia) eq_refl))
    as (r & sr' & He & -> & ->).
  fold file in He. rewrite He. by destruct rt.
Qed.
End reload.
