(* ===== verification/SrDumper.v ===== *)
(** The pcap writer of sr_dumper.c and [sr_log_packet] of sr_vns_comm.c. *)

From S2P Require Import Prelude Bytes SrState.

Definition TCPDUMP_MAGIC : Z := 0xa1b2c3d4.
Definition PCAP_VERSION_MAJOR : Z := 2.
Definition PCAP_VERSION_MINOR : Z := 4.
Definition LINKTYPE_ETHERNET : Z := 1.
Definition PACKET_DUMP_SIZE : Z := 1024.

(** [sf_write_header(fp, linktype, thiszone, snaplen)]: the bytes appended to the file. *)
Definition sf_write_header (linktype thiszone snaplen : Z) : bytes :=
  le32 TCPDUMP_MAGIC ++ le16 PCAP_VERSION_MAJOR ++ le16 PCAP_VERSION_MINOR
  ++ le32 thiszone ++ le32 0 ++ le32 snaplen ++ le32 linktype.

(** [sr_dump_open(fname, thiszone, snaplen)] once the file is open (or is
    standard output): its initial contents; [None] when [fopen] fails. *)
Definition sr_dump_open (fopen_ok : bool) (thiszone snaplen : Z) : option bytes :=
  if fopen_ok then Some (sf_write_header LINKTYPE_ETHERNET thiszone snaplen) else None.

(** struct pcap_pkthdr *)
Record pcap_pkthdr := mk_pkthdr {
  ph_sec : Z; ph_usec : Z; ph_caplen : Z; ph_len : Z
}.

(** [sr_dump(fp, h, sp)]: the record appended to the file; reads [caplen]
    bytes behind [sp]. *)
Definition sr_dump {S} (h : pcap_pkthdr) (sp : bytes) : M S bytes :=
  d ← rdn sp 0 (Z.to_nat (ph_caplen h));
  mret (le32 (ph_sec h) ++ le32 (ph_usec h) ++ le32 (ph_caplen h) ++ le32 (ph_len h) ++ d).

(** [sr_log_packet(sr, buf, len)] *)
Definition sr_log_packet (e : env) (buf : bytes) (len : Z) : M sr_instance unit :=
  sr ← get;
  match sr_logfile sr with
  | None => mret tt
  | Some log =>
      let size := if PACKET_DUMP_SIZE <? len then PACKET_DUMP_SIZE else len in
      let h := mk_pkthdr (env_time e) (env_usec e) (u32 size)
                 (if size <? PACKET_DUMP_SIZE then u32 size else PACKET_DUMP_SIZE) in
      rec ← sr_dump h buf;
      put (set_logfile (Some (log ++ rec)) sr)
  end.

(** ** Reading a log back *)

(** The capture file's global header, as a pcap reader checks it. *)
Definition pcap_header_ok (f : bytes) : Prop :=
  (24 <= length f)%nat /\ get32 f 0 = TCPDUMP_MAGIC /\ get16 f 4 = 2 /\ get16 f 6 = 4.

(** The records behind the header: captured length, claimed length, data. *)
Fixpoint pcap_records (fuel : nat) (f : bytes) : option (list (Z * Z * bytes)) :=
  match f with
  | [] => Some []
  | _ =>
      match fuel with
      | O => None
      | S fuel' =>
          if (length f <? 16)%nat then None
          else
            let n := Z.to_nat (get32 f 8) in
            if (length f <? 16 + n)%nat then None
            else r ← pcap_records fuel' (drop (16 + n) f);
                 Some ((get32 f 8, get32 f 12, slice f 16 n) :: r)
      end
  end.
