(* ===== verification/VnsCommand.v ===== *)
(** vnscommand.h: the messages between the router and the VNS server as they lie
    in memory, and what the layouts are for: finding the fields of a message. *)

From S2P Require Import Prelude Bytes.
From Stdlib Require Import (notations) String.
From stdpp Require Import strings.

(** A packed struct: its fields in order, each with its size in bytes. *)
Definition layout : Type := list (String.string * nat).

(** [sizeof] *)
Definition sizeof (l : layout) : nat := list_sum (snd <$> l).

(** [offsetof]; the end of the struct for a name that is not in it. *)
Fixpoint offsetof (l : layout) (f : String.string) : nat :=
  match l with
  | [] => 0
  | (g, n) :: l' => if decide (f = g) then 0 else n + offsetof l' f
  end.

(** The size of the field [f]. *)
Fixpoint widthof (l : layout) (f : String.string) : nat :=
  match l with
  | [] => 0
  | (g, n) :: l' => if decide (f = g) then n else widthof l' f
  end.

(** The bytes of the field [f] of the struct at the beginning of [b]. *)
Definition field (l : layout) (f : String.string) (b : bytes) : bytes := slice b (offsetof l f) (widthof l f).
Arguments field l f%_string b.

(* ------------------------------------------------------------------ *)
(** * The header file *)

Definition VNSOPEN : Z := 1.
Definition VNSCLOSE : Z := 2.
Definition VNSPACKET : Z := 4.
Definition VNSBANNER : Z := 8.
Definition VNSHWINFO : Z := 16.

Definition IDSIZE : nat := 32.

Local Open Scope string_scope.
Local Open Scope list_scope.

(** What every message begins with. *)
Definition c_base : layout := [("mLen", 4%nat); ("mType", 4%nat)].
Definition c_open : layout :=
  c_base ++ [("topoID", 2%nat); ("pad", 2%nat); ("mVirtualHostID", IDSIZE); ("mUID", IDSIZE); ("mPass", IDSIZE)].
Definition c_close : layout := c_base ++ [("mErrorMessage", 256%nat)].
Definition c_hwrequest : layout := c_base.
Definition c_banner : layout := c_base ++ [("mBannerMessage", 256%nat)].
Definition c_packet_header : layout := c_base ++ [("mInterfaceName", 16%nat)].
Definition c_packet_ethernet_header : layout :=
  c_packet_header ++ [("ether_dhost", 6%nat); ("ether_shost", 6%nat); ("ether_type", 2%nat)].

Definition HWINTERFACE : Z := 1.
Definition HWSPEED : Z := 2.
Definition HWSUBNET : Z := 4.
Definition HWINUSE : Z := 8.
Definition HWFIXEDIP : Z := 16.
Definition HWETHER : Z := 32.
Definition HWETHIP : Z := 64.
Definition HWMASK : Z := 128.

Definition c_hw_entry : layout := [("mKey", 4%nat); ("value", 32%nat)].
Definition MAXHWENTRIES : nat := 256.
Definition c_hwinfo : layout := c_base ++ [("mHWInfo", (MAXHWENTRIES * sizeof c_hw_entry)%nat)].

Definition VNS_RTABLE : Z := 32.
Definition VNS_OPEN_TEMPLATE : Z := 64.
Definition VNS_AUTH_REQUEST : Z := 128.
Definition VNS_AUTH_REPLY : Z := 256.
Definition VNS_AUTH_STATUS : Z := 512.

(** The arrays of no elements at the end: the rest of the message. *)
Definition c_rtable : layout := c_base ++ [("mVirtualHostID", IDSIZE); ("rtable", 0%nat)].
Definition c_src_filter : layout := [("ip", 4%nat); ("num_masked_bits", 1%nat)].
Definition c_open_template : layout :=
  c_base ++ [("templateName", 30%nat); ("mVirtualHostID", IDSIZE); ("srcFilters", 0%nat)].
Definition c_auth_request : layout := c_base ++ [("salt", 0%nat)].
Definition c_auth_reply : layout := c_base ++ [("usernameLen", 4%nat); ("username", 0%nat)].
Definition c_auth_status : layout := c_base ++ [("auth_ok", 1%nat); ("msg", 0%nat)].

Local Close Scope string_scope.

(* ------------------------------------------------------------------ *)
(** * Fields of a message *)

(** The values of the fields of [l], one after the other. *)
Inductive laid_out : layout -> list bytes -> Prop :=
  | laid_out_nil : laid_out [] []
  | laid_out_cons f n l v vs : length v = n -> laid_out l vs -> laid_out ((f, n) :: l) (v :: vs).

Lemma laid_out_length l vs : laid_out l vs -> length (mjoin vs) = sizeof l.
Proof.
  induction 1 as [|f n l v vs Hv _ IH]; [done|]. change (mjoin (v :: vs)) with (v ++ mjoin vs).
  rewrite length_app, IH, Hv. done.
Qed.

(** Every field of a struct whose fields lie one behind the other is at its offset. *)
Lemma field_laid_out l vs f rest i : laid_out l vs -> NoDup l.*1 -> l.*1 !! i = Some f ->
  vs !! i = Some (field l f (mjoin vs ++ rest)).
Proof.
  intros H. revert i. induction H as [|g n l v vs Hv Hl IH]; intros i Hnd Hi; [done|].
  apply NoDup_cons in Hnd as [Hg Hnd]. change (mjoin (v :: vs)) with (v ++ mjoin vs). rewrite <- app_assoc.
  unfold field. cbn [offsetof widthof]. destruct i as [|i].
  - injection Hi as <-. destruct (decide (g = g)); [|done]. clear e. cbn [lookup list_lookup]. f_equal. unfold slice. by rewrite drop_0, <- Hv, take_app_length.
  - change (l.*1 !! i = Some f) in Hi. assert (Hne : f <> g) by (intros ->; apply Hg; by eapply list_elem_of_lookup_2).
    rewrite !decide_False by done. etransitivity; [exact (IH i Hnd Hi)|]. unfold field, slice.
    rewrite (drop_app_ge v) by (rewrite Hv; apply Nat.le_add_r). by rewrite Hv, (Nat.add_comm n), Nat.add_sub.
Qed.

Lemma field_value l vs rest f v i :
  laid_out l vs -> NoDup l.*1 -> l.*1 !! i = Some f -> vs !! i = Some v -> field l f (mjoin vs ++ rest) = v.
Proof. intros H Hnd Hf Hv. rewrite (field_laid_out l vs f rest i H Hnd Hf) in Hv. by injection Hv. Qed.

Lemma after_laid_out l vs rest : laid_out l vs -> drop (sizeof l) (mjoin vs ++ rest) = rest.
Proof. intros H. rewrite <- (laid_out_length l vs H). apply drop_app_length. Qed.

(** No struct of a message has two fields of the same name. *)
Lemma fields_distinct l : l ∈ [c_base; c_open; c_open_template; c_auth_reply; c_packet_header] -> NoDup l.*1.
Proof.
  assert (H : forallb (fun l => bool_decide (NoDup (l.*1))) [c_base; c_open; c_open_template; c_auth_reply; c_packet_header] = true).
  { by vm_compute. }
  rewrite forallb_forall in H. intros Hl%list_elem_of_In%H. by apply bool_decide_eq_true in Hl.
Qed.
