(* ===== verification/SrSend.v ===== *)
(** Sending a frame to the VNS server: [sr_send_packet] and
    [sr_ether_addrs_match_interface] of sr_vns_comm.c. *)

From S2P Require Import Prelude Bytes SrState SrIf SrDumper VnsCommand.

(** sizeof(c_packet_header) *)
Definition c_packet_header_size : Z := Eval cbv in Z.of_nat (sizeof c_packet_header).

(** [sr_ether_addrs_match_interface(sr, buf, name)] *)
Definition sr_ether_addrs_match_interface (buf name : bytes) : M sr_instance bool :=
  iface ← sr_get_interface name;
  match iface with
  | None => mret false
  | Some i =>
      shost ← rdn buf Eth.shost ETHER_ADDR_LEN;
      mret (bool_decide (shost = if_addr i))
  end.

(** The message written to the server: c_packet_header, then the frame. *)
Definition vns_packet (total_len : Z) (iface frame : bytes) : bytes :=
  le32 (htonl total_len) ++ le32 (htonl VNSPACKET) ++ strncpy iface 16 ++ frame.

(** [int sr_send_packet(sr, buf, len, iface)] *)
Definition sr_send_packet (e : env) (buf : bytes) (len : Z) (iface : bytes) : M sr_instance Z :=
  let total_len := u32 (len + c_packet_header_size) in
  if len <? Z.of_nat Eth.size then mret (-1)
  else
    frame ← rdn buf 0 (Z.to_nat len);
    let sr_pkt := vns_packet total_len iface frame in
    _ ← sr_log_packet e buf (s32 len);
    ok ← sr_ether_addrs_match_interface buf iface;
    if negb ok then mret (-1)
    else
      _ ← modify (add_wire sr_pkt);
      if env_write e sr_pkt <? total_len then mret (-1) else mret 0.

(* ------------------------------------------------------------------ *)
(** * What sending changes *)

(** The state with everything but the socket and the log of [sr]. *)
Definition same_tables (sr sr' : sr_instance) : Prop :=
  sr_if_list sr' = sr_if_list sr /\ sr_routing_table sr' = sr_routing_table sr
  /\ sr_cache sr' = sr_cache sr /\ sr_user sr' = sr_user sr /\ sr_host sr' = sr_host sr.

Lemma same_tables_refl sr : same_tables sr sr.
Proof. by repeat split. Qed.

Lemma same_tables_trans a b c : same_tables a b -> same_tables b c -> same_tables a c.
Proof. unfold same_tables. intuition congruence. Qed.

Section send.
Context (F : fault -> Prop).

Lemma wlp_sr_dump {S} h sp (Q : bytes -> S -> Prop) s :
  (Z.to_nat (ph_caplen h) <= length sp)%nat -> (forall r, Q r s) -> wlp F (sr_dump h sp) Q s.
Proof. intros Hl HQ. unfold sr_dump. wsteps. apply wlp_rdn; [lia|]. wsteps. apply HQ. Qed.

Lemma wlp_sr_log_packet e buf len (Q : unit -> sr_instance -> Prop) s :
  0 <= len <= blen buf ->
  (forall l, Q tt (set_logfile l s)) -> wlp F (sr_log_packet e buf len) Q s.
Proof.
  intros Hl HQ. unfold sr_log_packet. wsteps.
  - eapply wlp_sr_dump.
    + simpl. unfold blen, PACKET_DUMP_SIZE in *.
      destruct (Z.ltb_spec 1024 len); rewrite u32_small by lia || idtac; lia.
    + intros r. wsteps. apply HQ.
  - specialize (HQ None). by replace (set_logfile None s) with s in HQ by (destruct s; simpl in *; by subst).
Qed.
End send.

(** [s'] is [s] after [frame] went out on [iface]. *)
Definition sent (s : sr_instance) (iface frame : bytes) (s' : sr_instance) : Prop :=
  same_tables s s' /\ sr_wire s' = sr_wire s ++ [vns_packet (blen frame + 24) iface frame].

(** What a call of [sr_send_packet] writes to the socket: the frame, unless its
    source address is not the interface's. *)
Definition outgoing (s : sr_instance) (iface frame : bytes) : list bytes :=
  match find_interface (sr_if_list s) iface with
  | Some i => if bool_decide (slice frame 6 6 = if_addr i) then [vns_packet (blen frame + 24) iface frame] else []
  | None => []
  end.

(** [s'] is [s] after a call of [sr_send_packet]. *)
Definition transmitted (s : sr_instance) (iface frame : bytes) (s' : sr_instance) : Prop :=
  same_tables s s' /\ sr_wire s' = sr_wire s ++ outgoing s iface frame.

Lemma transmitted_tables s iface b s' : transmitted s iface b s' -> same_tables s s'.
Proof. by intros [? _]. Qed.

(** A frame that carries the address of the interface it leaves by is sent. *)
Lemma transmitted_own s iface frame s' i :
  transmitted s iface frame s' -> find_interface (sr_if_list s) iface = Some i -> slice frame 6 6 = if_addr i ->
  sent s iface frame s'.
Proof. unfold transmitted, outgoing. intros [Ht Hw] Hi Ha. rewrite Hi, bool_decide_eq_true_2 in Hw by done. by split. Qed.

Lemma slice_all b : slice b 0 (Z.to_nat (blen b)) = b.
Proof. unfold slice, blen. rewrite drop_0. apply take_ge. lia. Qed.

Lemma wlp_transmit (F : fault -> Prop) e buf iface (Q : Z -> sr_instance -> Prop) s :
  14 <= blen buf < 2 ^ 31 ->
  (forall r s', transmitted s iface buf s' -> Q r s') ->
  wlp F (sr_send_packet e buf (blen buf) iface) Q s.
Proof.
  intros Hl HQ. unfold sr_send_packet. rewrite (proj2 (Z.ltb_ge _ _)) by (change (Z.of_nat Eth.size) with 14; lia).
  wstep. apply wlp_rdn; [unfold blen; lia|]. rewrite slice_all. wstep.
  apply wlp_sr_log_packet; [rewrite s32_small; lia|]. intros l.
  unfold sr_ether_addrs_match_interface, sr_get_interface. do 3 wstep. simpl.
  assert (Ht : forall w, w = outgoing s iface buf -> forall r s', same_tables s s' -> sr_wire s' = sr_wire s ++ w -> Q r s').
  { intros w -> r s' Hs Hw. by apply HQ. }
  unfold outgoing in Ht. destruct (find_interface (sr_if_list s) iface) as [i|].
  - wstep. apply wlp_rdn; [off_lia|]. wstep. change Eth.shost with 6%nat. change ETHER_ADDR_LEN with 6%nat.
    destruct (bool_decide (slice buf 6 6 = if_addr i)); cbn [negb]; wsteps.
    all: apply (Ht _ eq_refl); [by repeat split|]; cbn [sr_wire set_logfile add_wire]; rewrite ?app_nil_r;
      rewrite ?u32_small by (unfold c_packet_header_size; lia); done.
  - wstep. cbn [negb]. wstep. apply (Ht _ eq_refl); [by repeat split|]. cbn. by rewrite app_nil_r.
Qed.
