(* ===== verification/SrArpcache.v ===== *)
(** The ARP cache's own operations (sr_arpcache.c, lookup to init): the table
    of learned mappings and the queue of outstanding requests with the packets
    that wait for them. The cache's lock is held for each operation, so each
    is one atomic step here. *)

From S2P Require Import Prelude Bytes SrState.

Definition SR_ARPCACHE_SZ : nat := 100.
Definition SR_ARPCACHE_TO : Z := 15.

(* ------------------------------------------------------------------ *)
(** * The table *)

(** The loop of [sr_arpcache_lookup]: it does not stop at a hit, so the last
    matching slot wins. *)
Fixpoint lookup_scan (l : list sr_arpentry) (ip : Z) (entry : option sr_arpentry) : option sr_arpentry :=
  match l with
  | [] => entry
  | a :: l' =>
      lookup_scan l' ip (if nz (ae_valid a) && (ae_ip a =? ip) then Some a else entry)
  end.

(** [sr_arpcache_lookup(cache, ip)]: a copy of the entry, or null. *)
Definition sr_arpcache_lookup (c : sr_arpcache) (ip : Z) : option sr_arpentry :=
  lookup_scan (ac_entries c) ip None.

(** The first slot with [valid == 0] gets the mapping; nothing when the table is full. *)
Fixpoint insert_slot (l : list sr_arpentry) (ent : sr_arpentry) : list sr_arpentry :=
  match l with
  | [] => []
  | a :: l' => if nz (ae_valid a) then a :: insert_slot l' ent else ent :: l'
  end.

(** The first loop of the cleanup thread: drop what was added more than 15 s ago. *)
Definition expire (now : Z) (l : list sr_arpentry) : list sr_arpentry :=
  map (fun a =>
    if nz (ae_valid a) && (SR_ARPCACHE_TO <? now - ae_added a)
    then mk_arpentry (ae_mac a) (ae_ip a) (ae_added a) 0 else a) l.

(** [sr_arpcache_init(cache)]: every slot zero, no requests. *)
Definition sr_arpcache_init : sr_arpcache :=
  mk_arpcache (replicate SR_ARPCACHE_SZ (mk_arpentry (zeros 6) 0 0 0)) [] ∅ 0.

(* ------------------------------------------------------------------ *)
(** * The request queue *)

(** Load of the node at [r]; freed nodes are not in the heap. *)
Definition load_req {S} (c : sr_arpcache) (r : nat) : M S sr_arpreq :=
  match ac_heap c !! r with Some q => mret q | None => fail UseAfterFree end.

(** [for (req = cache->requests; req; req = req->next) if (req->ip == ip) break;] *)
Fixpoint find_req {S} (c : sr_arpcache) (l : list nat) (ip : Z) : M S (option nat) :=
  match l with
  | [] => mret None
  | r :: l' => q ← load_req c r; if aq_ip q =? ip then mret (Some r) else find_req c l' ip
  end.

Definition add_packet (p : sr_packet) (q : sr_arpreq) : sr_arpreq :=
  mk_arpreq (aq_ip q) (aq_sent q) (aq_times_sent q) (p :: aq_packets q).

(** [sr_arpcache_queuereq(cache, ip, packet, packet_len, iface)]: the address
    of the request for [ip], new at the head of the queue if there was none,
    with a copy of the packet in front of its list. *)
Definition sr_arpcache_queuereq (ip : Z) (packet : option bytes) (packet_len : Z)
    (iface : option bytes) : M sr_instance nat :=
  sr ← get;
  let c := sr_cache sr in
  found ← find_req c (ac_requests c) ip;
  let '(r, c1) :=
    match found with
    | Some r => (r, c)
    | None => (ac_next c,
        mk_arpcache (ac_entries c) (ac_next c :: ac_requests c)
          (<[ac_next c := mk_arpreq ip 0 0 []]> (ac_heap c)) (S (ac_next c)))
    end in
  c2 ← match packet, iface with
       | Some p, Some i =>
           if nz packet_len then
             buf ← rdn p 0 (Z.to_nat packet_len);
             mret (set_heap (alter (add_packet (mk_packet buf packet_len (strncpy i sr_IFACE_NAMELEN)))
                                r (ac_heap c1)) c1)
           else mret c1
       | _, _ => mret c1
       end;
  _ ← put (set_cache c2 sr);
  mret r.

(** Unlink the node [r] from the queue: [prev->next = req->next], or the head. *)
Fixpoint unlink (r : nat) (l : list nat) : list nat :=
  match l with
  | [] => []
  | x :: l' => if decide (x = r) then l' else x :: unlink r l'
  end.

(** [sr_arpcache_insert(cache, mac, ip)]: unlinks the request for [ip] and
    returns its address (null if there is none), and stores the mapping. *)
Definition sr_arpcache_insert (e : env) (mac : bytes) (ip : Z) : M sr_instance (option nat) :=
  sr ← get;
  let c := sr_cache sr in
  req ← find_req c (ac_requests c) ip;
  let c1 := match req with Some r => set_requests (unlink r (ac_requests c)) c | None => c end in
  c2 ← (if forallb (fun a => nz (ae_valid a)) (ac_entries c1) then mret c1
        else m ← rdn mac 0 6;
             mret (set_entries (insert_slot (ac_entries c1) (mk_arpentry m ip (env_time e) 1)) c1));
  _ ← put (set_cache c2 sr);
  mret req.

(** [sr_arpreq_destroy(cache, entry)]: unlink if queued, free the packets and the node. *)
Definition sr_arpreq_destroy (entry : option nat) : M sr_instance unit :=
  match entry with
  | None => mret tt
  | Some r =>
      sr ← get;
      let c := sr_cache sr in
      _ ← load_req c r;
      put (set_cache (set_heap (delete r (ac_heap c)) (set_requests (unlink r (ac_requests c)) c)) sr)
  end.

(* ------------------------------------------------------------------ *)
(** * Table lemmas *)

Definition entry_for (ip : Z) (a : sr_arpentry) : bool := nz (ae_valid a) && (ae_ip a =? ip).

Lemma lookup_scan_spec l ip d :
  match lookup_scan l ip d with
  | Some a => (d = Some a /\ Forall (fun x => entry_for ip x = false) l)
      \/ (exists l1 l2, l = l1 ++ a :: l2 /\ entry_for ip a = true
            /\ Forall (fun x => entry_for ip x = false) l2)
  | None => d = None /\ Forall (fun x => entry_for ip x = false) l
  end.
Proof.
  revert d. induction l as [|a l IH]; intros d; simpl.
  - destruct d; [left|]; by split.
  - destruct (nz (ae_valid a) && (ae_ip a =? ip)) eqn:E.
    + specialize (IH (Some a)). destruct lookup_scan as [x|].
      * right. destruct IH as [[[= ->] Hl]|(l1 & l2 & -> & Hx & Hl2)].
        { by exists [], l. }
        by exists (a :: l1), l2.
      * by destruct IH.
    + specialize (IH d). destruct lookup_scan as [x|].
      * destruct IH as [[-> Hl]|(l1 & l2 & -> & Hx & Hl2)].
        { left. split; [done|by constructor]. }
        right. by exists (a :: l1), l2.
      * destruct IH as [-> Hl]. split; [done|by constructor].
Qed.

(** A hit is a valid slot for that address, and no later slot is. *)
Lemma arpcache_lookup_spec c ip :
  match sr_arpcache_lookup c ip with
  | Some a => exists l1 l2, ac_entries c = l1 ++ a :: l2 /\ entry_for ip a = true
      /\ Forall (fun x => entry_for ip x = false) l2
  | None => Forall (fun x => entry_for ip x = false) (ac_entries c)
  end.
Proof.
  unfold sr_arpcache_lookup. pose proof (lookup_scan_spec (ac_entries c) ip None) as H.
  destruct lookup_scan; [destruct H as [[? ?]|?]; done|by destruct H].
Qed.

Lemma lookup_scan_app l1 l2 ip d : lookup_scan (l1 ++ l2) ip d = lookup_scan l2 ip (lookup_scan l1 ip d).
Proof. revert d. induction l1; intros d; simpl; auto. Qed.

Lemma insert_slot_cases l ent :
  (exists l1 a l2, l = l1 ++ a :: l2 /\ nz (ae_valid a) = false /\ Forall (fun x => nz (ae_valid x) = true) l1
      /\ insert_slot l ent = l1 ++ ent :: l2)
  \/ (Forall (fun x => nz (ae_valid x) = true) l /\ insert_slot l ent = l).
Proof.
  induction l as [|a l IH]; simpl; [right; by split|].
  destruct (nz (ae_valid a)) eqn:E.
  - destruct IH as [(l1 & x & l2 & -> & Hx & H1 & ->)|[Hl ->]].
    + left. exists (a :: l1), x, l2. by repeat constructor.
    + right. split; [by constructor|done].
  - left. by exists [], a, l.
Qed.

Lemma length_insert_slot l ent : length (insert_slot l ent) = length l.
Proof. induction l as [|a l IH]; simpl; [done|]. destruct (nz _); simpl; auto. Qed.

Lemma length_expire now l : length (expire now l) = length l.
Proof. apply length_map. Qed.

(** After the cleanup no valid entry is older than the timeout. *)
Lemma expire_fresh now l :
  Forall (fun a => nz (ae_valid a) = true -> now - ae_added a <= SR_ARPCACHE_TO) (expire now l).
Proof.
  apply Forall_map, Forall_true. intros a.
  destruct (nz (ae_valid a)) eqn:Ev; simpl; [|congruence].
  destruct (Z.ltb_spec SR_ARPCACHE_TO (now - ae_added a)); simpl; [done|lia].
Qed.

(** The cleanup removes mappings only by age. *)
Lemma expire_keeps now l ip :
  Forall (fun a => now - ae_added a <= SR_ARPCACHE_TO) l ->
  lookup_scan (expire now l) ip None = lookup_scan l ip None.
Proof.
  intros H. f_equal. induction H as [|a l Ha Hl IH]; simpl; [done|]. rewrite IH. f_equal.
  destruct (Z.ltb_spec SR_ARPCACHE_TO (now - ae_added a)); [lia|]. by rewrite andb_false_r.
Qed.

(* ------------------------------------------------------------------ *)
(** * Invariant of the queue *)

(** What every packet of the queue satisfies: its recorded length is that of
    its buffer, which holds at least an Ethernet and an IP header. *)
Definition packet_ok (p : sr_packet) : Prop :=
  pk_len p = blen (pk_buf p) /\ 34 <= blen (pk_buf p) < 2 ^ 31 /\ wf_bytes (pk_buf p)
  /\ length (pk_iface p) = sr_IFACE_NAMELEN.

(** A hardware address: six bytes. *)
Definition mac_ok (m : bytes) : Prop := length m = 6%nat /\ wf_bytes m.

(** The shape of a consistent cache: a table of the declared size with 6-byte
    addresses, a queue whose nodes are live, distinct and below the allocation
    pointer, one request per address, every live node queued, every request with
    at least one packet waiting and sent at most five times. *)
Record cache_ok (c : sr_arpcache) : Prop := {
  co_size : length (ac_entries c) = SR_ARPCACHE_SZ;
  co_macs : Forall (fun a => mac_ok (ae_mac a)) (ac_entries c);
  co_nodup : NoDup (ac_requests c);
  co_live : forall r, r ∈ ac_requests c <-> is_Some (ac_heap c !! r);
  co_fresh : forall r, r ∈ ac_requests c -> (r < ac_next c)%nat;
  co_ips : forall r1 r2 q1 q2, ac_heap c !! r1 = Some q1 -> ac_heap c !! r2 = Some q2 ->
    aq_ip q1 = aq_ip q2 -> r1 = r2;
  co_packets : forall r q, ac_heap c !! r = Some q -> aq_packets q <> [] /\ Forall packet_ok (aq_packets q);
  co_tries : forall r q, ac_heap c !! r = Some q -> 0 <= aq_times_sent q <= 5;
}.

Lemma arpcache_init_ok : cache_ok sr_arpcache_init.
Proof.
  split; unfold sr_arpcache_init; cbn [ac_entries ac_requests ac_heap ac_next].
  - by rewrite length_replicate.
  - apply Forall_replicate. split; [done|apply wf_zeros].
  - constructor.
  - intros r. rewrite lookup_empty. split; [by intros ?%elem_of_nil|by intros [? [=]]].
  - intros r H. by apply elem_of_nil in H.
  - intros r1 r2 q1 q2. by rewrite lookup_empty.
  - intros r q. by rewrite lookup_empty.
  - intros r q. by rewrite lookup_empty.
Qed.

Lemma elem_of_unlink r x l : NoDup l -> x ∈ unlink r l <-> x ∈ l /\ x <> r.
Proof.
  induction l as [|y l IH]; simpl; [set_solver|]. intros [Hy Hl]%NoDup_cons.
  destruct (decide (y = r)) as [->|Hne]; set_solver.
Qed.

Lemma NoDup_unlink r l : NoDup l -> NoDup (unlink r l).
Proof.
  induction l as [|y l IH]; simpl; [done|]. intros [Hy Hl]%NoDup_cons.
  destruct (decide (y = r)); [done|]. apply NoDup_cons. split; [|auto].
  rewrite elem_of_unlink by done. naive_solver.
Qed.

(** ** The search for a request *)

(** What [find_req] finds in the queue [l]. *)
Definition req_found (c : sr_arpcache) (l : list nat) (ip : Z) (o : option nat) : Prop :=
  match o with
  | Some r => r ∈ l /\ exists q, ac_heap c !! r = Some q /\ aq_ip q = ip
  | None => forall r q, r ∈ l -> ac_heap c !! r = Some q -> aq_ip q <> ip
  end.

Lemma find_req_spec {S} F c l ip (s : S) (Q : option nat -> S -> Prop) :
  (forall r, r ∈ l -> is_Some (ac_heap c !! r)) ->
  (forall o, req_found c l ip o -> Q o s) ->
  wlp F (find_req c l ip) Q s.
Proof.
  intros Hlive. revert Q. induction l as [|r l IH]; intros Q HQ; simpl.
  - apply wlp_ret, HQ. intros r q Hr. by apply elem_of_nil in Hr.
  - destruct (Hlive r) as [q Hq]; [set_solver|].
    unfold load_req. rewrite Hq. wsteps.
    + apply HQ. split; [set_solver|]. exists q. split; [done|]. by apply Z.eqb_eq.
    + apply IH; [set_solver|]. intros o Ho. apply HQ. destruct o as [r'|].
      * destruct Ho as [? ?]. split; [set_solver|done].
      * intros r' q' [->|Hr']%elem_of_cons Hq'; [|by eapply Ho].
        simplify_eq. by apply Z.eqb_neq.
Qed.

(** ** Queueing *)

(** The cache after [sr_arpcache_queuereq] with a packet: same table, and the
    packet in front of the request [r] for [ip], which is an old one or a
    fresh one at the head of the queue. *)
Definition queued (c : sr_arpcache) (ip : Z) (p : sr_packet) (r : nat) (c' : sr_arpcache) : Prop :=
  ac_entries c' = ac_entries c
  /\ ((exists q, r ∈ ac_requests c /\ ac_heap c !! r = Some q /\ aq_ip q = ip
        /\ ac_requests c' = ac_requests c /\ ac_next c' = ac_next c
        /\ ac_heap c' = <[r := add_packet p q]> (ac_heap c))
      \/ ((forall r' q', r' ∈ ac_requests c -> ac_heap c !! r' = Some q' -> aq_ip q' <> ip)
        /\ r = ac_next c /\ ac_requests c' = r :: ac_requests c /\ ac_next c' = S (ac_next c)
        /\ ac_heap c' = <[r := mk_arpreq ip 0 0 [p]]> (ac_heap c))).

Lemma wlp_queuereq F ip buf iface (Q : nat -> sr_instance -> Prop) s :
  cache_ok (sr_cache s) -> 0 < blen buf ->
  (forall r c', queued (sr_cache s) ip (mk_packet buf (blen buf) (strncpy iface sr_IFACE_NAMELEN)) r c' ->
     Q r (set_cache c' s)) ->
  wlp F (sr_arpcache_queuereq ip (Some buf) (blen buf) (Some iface)) Q s.
Proof.
  intros Hok Hl HQ. unfold sr_arpcache_queuereq. wsteps.
  apply find_req_spec; [by intros r; apply (co_live _ Hok)|]. intros o Ho.
  destruct o as [r|].
  - destruct Ho as [Hr (q & Hq & Hip)].
    unfold nz. rewrite (proj2 (Z.eqb_neq _ _)) by lia. simpl. wsteps.
    apply wlp_rdn; [unfold blen; lia|]. unfold slice. rewrite drop_0, take_ge by (unfold blen; lia). wsteps.
    apply HQ. split; [done|]. left. exists q. repeat split; try done. simpl.
    apply map_eq. intros k. destruct (decide (k = r)) as [->|Hne].
    + by rewrite lookup_alter_eq, lookup_insert_eq, Hq.
    + by rewrite lookup_alter_ne, lookup_insert_ne by done.
  - unfold nz. rewrite (proj2 (Z.eqb_neq _ _)) by lia. simpl. wsteps.
    apply wlp_rdn; [unfold blen; lia|]. unfold slice. rewrite drop_0, take_ge by (unfold blen; lia). wsteps.
    apply HQ. split; [done|]. right. repeat split; try done. simpl.
    apply map_eq. intros k. destruct (decide (k = ac_next (sr_cache s))) as [->|Hne].
    + by rewrite lookup_alter_eq, !lookup_insert_eq.
    + by rewrite lookup_alter_ne, !lookup_insert_ne by done.
Qed.

Lemma queued_heap c ip p r c' : queued c ip p r c' -> exists q, ac_heap c' !! r = Some q /\ aq_ip q = ip
  /\ (exists l, aq_packets q = p :: l).
Proof.
  intros [_ [(q & _ & Hq & Hip & _ & _ & ->)|(_ & _ & _ & _ & ->)]];
    (eexists; split; [apply lookup_insert_eq|]); simpl; eauto.
Qed.

Lemma queued_ok c ip p r c' : cache_ok c -> packet_ok p -> queued c ip p r c' -> cache_ok c'.
Proof.
  intros Hok Hp [Hent [(q & Hr & Hq & Hip & Hreq & Hnext & Hheap)|(Hno & -> & Hreq & Hnext & Hheap)]].
  - split; rewrite ?Hent, ?Hreq, ?Hnext, ?Hheap; try apply Hok.
    + intros r'. rewrite (co_live _ Hok), lookup_insert_is_Some. split; [|naive_solver].
      destruct (decide (r = r')); naive_solver.
    + intros r1 r2 q1 q2. rewrite !lookup_insert_Some. pose proof (co_ips _ Hok) as Hu. naive_solver.
    + intros r' q'. rewrite lookup_insert_Some.
      intros [[<- <-]|[_ H]]; [|by eapply co_packets]. simpl.
      split; [done|]. constructor; [done|]. by eapply co_packets.
    + intros r' q'. rewrite lookup_insert_Some. intros [[<- <-]|[_ H]]; [simpl|]; by eapply co_tries.
  - assert (Hfr : ac_heap c !! ac_next c = None).
    { destruct (ac_heap c !! ac_next c) eqn:E; [|done].
      assert (ac_next c ∈ ac_requests c) as Hin by (apply (co_live _ Hok); eauto).
      apply (co_fresh _ Hok) in Hin. lia. }
    split; rewrite ?Hent, ?Hreq, ?Hnext, ?Hheap; try apply Hok.
    + apply NoDup_cons. split; [|apply Hok]. intros Hin%(co_fresh _ Hok). lia.
    + intros r'. rewrite elem_of_cons, (co_live _ Hok), lookup_insert_is_Some.
      destruct (decide (ac_next c = r')); naive_solver.
    + intros r' [->|Hin%(co_fresh _ Hok)]%elem_of_cons; lia.
    + intros r1 r2 q1 q2. rewrite !lookup_insert_Some. pose proof (co_ips _ Hok) as Hu.
      assert (Hlive : forall r q, ac_heap c !! r = Some q -> r ∈ ac_requests c)
        by (intros; apply (co_live _ Hok); eauto).
      intros [[<- <-]|[_ H1]] [[<- <-]|[_ H2]] Heq; simpl in *; try done.
      * by destruct (Hno r2 q2); eauto.
      * by destruct (Hno r1 q1); eauto.
      * eauto.
    + intros r' q'. rewrite lookup_insert_Some.
      intros [[<- <-]|[_ H]]; [|by eapply co_packets]. simpl.
      split; [done|]. constructor; [done|constructor].
    + intros r' q'. rewrite lookup_insert_Some. intros [[<- <-]|[_ H]]; [simpl; lia|by eapply co_tries].
Qed.

(** ** Removing a request *)

Lemma destroy_ok c r :
  cache_ok c -> cache_ok (set_heap (delete r (ac_heap c)) (set_requests (unlink r (ac_requests c)) c)).
Proof.
  intros Hok. split; simpl; try apply Hok.
  - apply NoDup_unlink, Hok.
  - intros r'. rewrite elem_of_unlink, (co_live _ Hok), lookup_delete_is_Some by apply Hok. naive_solver.
  - intros r'. rewrite elem_of_unlink by apply Hok. intros [? _]. by apply (co_fresh _ Hok).
  - intros r1 r2 q1 q2. rewrite !lookup_delete_Some. pose proof (co_ips _ Hok). naive_solver.
  - intros r' q. rewrite lookup_delete_Some. intros [_ H]. by eapply co_packets.
  - intros r' q. rewrite lookup_delete_Some. intros [_ H]. by eapply co_tries.
Qed.

Lemma entries_ok c l :
  cache_ok c -> length l = SR_ARPCACHE_SZ -> Forall (fun a => mac_ok (ae_mac a)) l ->
  cache_ok (set_entries l c).
Proof. intros Hok ??. split; simpl; try done; apply Hok. Qed.

Lemma expire_ok c now : cache_ok c -> cache_ok (set_entries (expire now (ac_entries c)) c).
Proof.
  intros Hok. apply entries_ok; [done| |].
  - rewrite length_expire. apply Hok.
  - apply Forall_map. eapply Forall_impl; [apply Hok|]. intros a Ha. simpl. by destruct (_ && _).
Qed.

Lemma lookup_mac_ok c ip a : cache_ok c -> sr_arpcache_lookup c ip = Some a -> mac_ok (ae_mac a).
Proof.
  intros Hok H. pose proof (arpcache_lookup_spec c ip) as Hs. rewrite H in Hs.
  destruct Hs as (l1 & l2 & He & _). pose proof (co_macs _ Hok) as Hm. rewrite He in Hm.
  by apply Forall_app in Hm as [_ [Hm _]%Forall_cons].
Qed.

(** Every request has been sent less than [n] times. *)
Definition tries_below (n : Z) (c : sr_arpcache) : Prop :=
  forall r q, ac_heap c !! r = Some q -> aq_times_sent q < n.

(** No request has used up its five transmissions. *)
Definition young : sr_arpcache -> Prop := tries_below 5.

Lemma queued_below n c ip p r c' : 0 < n -> queued c ip p r c' -> tries_below n c -> tries_below n c'.
Proof.
  intros Hn [_ [(q & _ & Hq & _ & _ & _ & Hh)|(_ & _ & _ & _ & Hh)]] Hy r' q'; rewrite Hh, lookup_insert_Some;
    intros [[<- <-]|[_ H]]; simpl; try lia; by eapply Hy.
Qed.

Lemma queued_in c ip p r c' : queued c ip p r c' -> r ∈ ac_requests c'.
Proof.
  intros [_ [(q & Hr & _ & _ & -> & _)|(_ & _ & -> & _)]]; [done|apply list_elem_of_here].
Qed.

(** ** Learning a mapping *)

(** The cache after [sr_arpcache_insert]: the request found for the address
    is unlinked (its node lives on), the mapping takes a free slot if there is one. *)
Definition learned (e : env) (mac : bytes) (ip : Z) (o : option nat) (c : sr_arpcache) : sr_arpcache :=
  mk_arpcache (insert_slot (ac_entries c) (mk_arpentry mac ip (env_time e) 1))
    (match o with Some r => unlink r (ac_requests c) | None => ac_requests c end) (ac_heap c) (ac_next c).

Lemma insert_slot_full l ent : forallb (fun a => nz (ae_valid a)) l = true -> insert_slot l ent = l.
Proof.
  induction l as [|a l IH]; simpl; [done|]. intros [-> H]%andb_true_iff. by rewrite IH.
Qed.

Lemma wlp_arpcache_insert F e mac ip (Q : option nat -> sr_instance -> Prop) s :
  cache_ok (sr_cache s) -> (6 <= length mac)%nat ->
  (forall o, req_found (sr_cache s) (ac_requests (sr_cache s)) ip o ->
     Q o (set_cache (learned e (slice mac 0 6) ip o (sr_cache s)) s)) ->
  wlp F (sr_arpcache_insert e mac ip) Q s.
Proof.
  intros Hok Hm HQ. unfold sr_arpcache_insert. wsteps.
  apply find_req_spec; [by intros r; apply (co_live _ Hok)|]. intros o Ho. apply HQ in Ho.
  destruct s as [? ? ? ? ? ? c ? ?]. wstep. wstep.
  - wsteps. destruct o; simpl in *; unfold learned in Ho; rewrite insert_slot_full in Ho by done;
      destruct c; exact Ho.
  - wsteps. apply wlp_rdn; [simpl; lia|]. wsteps. destruct o; exact Ho.
Qed.

Lemma unlink_notin r l : r ∉ l -> unlink r l = l.
Proof.
  induction l as [|x l IH]; simpl; [done|]. intros [Hne Hl]%not_elem_of_cons.
  rewrite decide_False by congruence. by rewrite IH.
Qed.

Lemma insert_slot_macs l ent :
  Forall (fun a => mac_ok (ae_mac a)) l -> mac_ok (ae_mac ent) ->
  Forall (fun a => mac_ok (ae_mac a)) (insert_slot l ent).
Proof.
  intros Hl He. induction Hl as [|a l Ha Hl IH]; simpl; [constructor|].
  destruct (nz _); by constructor.
Qed.

(** The cache once the request found has been destroyed too. *)
Definition learned_done (e : env) (mac : bytes) (ip : Z) (o : option nat) (c : sr_arpcache) : sr_arpcache :=
  match o with
  | Some r => set_heap (delete r (ac_heap c)) (learned e mac ip o c)
  | None => learned e mac ip o c
  end.

Lemma learned_done_ok e mac ip o c : cache_ok c -> mac_ok mac -> cache_ok (learned_done e mac ip o c).
Proof.
  intros Hok Hm.
  assert (He : cache_ok (set_entries (insert_slot (ac_entries c) (mk_arpentry mac ip (env_time e) 1)) c)).
  { apply entries_ok; [done| |apply insert_slot_macs; [apply Hok|done]].
    rewrite length_insert_slot. apply Hok. }
  destruct o as [r|]; [exact (destroy_ok _ r He)|exact He].
Qed.

Lemma lookup_scan_none l ip d : Forall (fun x => entry_for ip x = false) l -> lookup_scan l ip d = d.
Proof.
  intros H. revert d. induction H as [|a l Ha Hl IH]; intros d; simpl; [done|].
  fold (entry_for ip a). rewrite Ha. apply IH.
Qed.

Lemma expire_none now ip l :
  Forall (fun x => entry_for ip x = false) l -> Forall (fun x => entry_for ip x = false) (expire now l).
Proof.
  intros H. apply Forall_map. eapply Forall_impl; [exact H|]. intros a Ha. simpl.
  by destruct (_ && _).
Qed.

Lemma lookup_single l1 l2 ent ip :
  Forall (fun x => entry_for ip x = false) l1 -> Forall (fun x => entry_for ip x = false) l2 ->
  lookup_scan (l1 ++ ent :: l2) ip None = if entry_for ip ent then Some ent else None.
Proof.
  intros H1 H2. rewrite lookup_scan_app. rewrite (lookup_scan_none l1) by done. simpl.
  by rewrite lookup_scan_none.
Qed.
