(* ===== verification/SrArpreq.v ===== *)
(** Outstanding ARP requests: sending and giving up on them
    ([sr_arpcache_handle_arpreq], [sr_arpcache_sweepreqs]) and the cleanup
    thread ([sr_arpcache_timeout]) of sr_arpcache.c, with the construction of
    ICMP errors they share with sr_router.c. *)

From S2P Require Import Prelude Bytes Checksum SrState SrIf SrRt SrDumper SrSend SrArpcache.

(* ------------------------------------------------------------------ *)
(** * Lookups as the handlers make them *)

Definition find_route (ip : Z) : M sr_instance (option sr_rt) :=
  gets (fun sr => sr_findLPMentry (sr_routing_table sr) ip).
Definition cache_lookup (ip : Z) : M sr_instance (option sr_arpentry) :=
  gets (fun sr => sr_arpcache_lookup (sr_cache sr) ip).
Definition load_cur (r : nat) : M sr_instance sr_arpreq :=
  sr ← get; load_req (sr_cache sr) r.

(* ------------------------------------------------------------------ *)
(** * Building an ICMP error *)

(** The IP header of a generated error (at offset 14 of [b]), answering the
    packet [p0]: the stores of "ip header" in sr_router.c, with the header
    checksum last. *)
Definition put_ip_header {S} (b p0 : bytes) (ip_src ip_len : Z) : M S bytes :=
  b ← wr8 b (Eth.size + Ip.ttl) INIT_TTL;
  b ← wr_ip_v b Eth.size 0x04;
  b ← wr_ip_hl b Eth.size (Z.of_nat Ip.size / 4);
  b ← wr8 b (Eth.size + Ip.p) ip_protocol_icmp;
  id0 ← rd16 p0 (Eth.size + Ip.id);
  b ← wr16 b (Eth.size + Ip.id) id0;
  b ← wr16 b (Eth.size + Ip.len) (htons (u16 ip_len));
  b ← wr32 b (Eth.size + Ip.src) ip_src;
  src0 ← rd32 p0 (Eth.size + Ip.src);
  b ← wr32 b (Eth.size + Ip.dst) src0;
  tos0 ← rd8 p0 (Eth.size + Ip.tos);
  b ← wr8 b (Eth.size + Ip.tos) tos0;
  off0 ← rd16 p0 (Eth.size + Ip.off);
  b ← wr16 b (Eth.size + Ip.off) off0;
  b ← wr16 b (Eth.size + Ip.sum) 0;
  c ← cksum_at b Eth.size Ip.size;
  wr16 b (Eth.size + Ip.sum) c.

(** The ICMP type-3 style header and data (at offset 34 of [b]), checksum last. *)
Definition put_icmp_t3 {S} (b p0 : bytes) (type code : Z) : M S bytes :=
  let o := (Eth.size + Ip.size)%nat in
  b ← wr8 b (o + Icmp.type) type;
  b ← wr8 b (o + Icmp.code) code;
  b ← wr16 b (o + Icmp.sum) 0;
  b ← wr16 b (o + Icmp.next_mtu) (htons 0xFF);
  b ← wr16 b (o + Icmp.unused) (htons 0x00);
  data ← rdn p0 Eth.size ICMP_DATA_SIZE;
  b ← wrn b (o + Icmp.data) data;
  c ← cksum_at b o (length b - Eth.size - Ip.size);
  wr16 b (o + Icmp.sum) c.

(** An error packet of [new_len] bytes, everything but its Ethernet addresses. *)
Definition icmp_error {S} (new_len : nat) (p0 : bytes) (ip_src type code : Z) : M S bytes :=
  b ← put_ip_header (zeros new_len) p0 ip_src (Z.of_nat new_len - Z.of_nat Eth.size);
  b ← put_icmp_t3 b p0 type code;
  wr16 b Eth.type (htons ethertype_ip).

(** sizeof(eth) + sizeof(ip) + sizeof(icmp_t3) + ICMP_DATA_SIZE *)
Definition icmp_error_len : nat := Eth.size + Ip.size + Icmp.t3_size + ICMP_DATA_SIZE.

(* ------------------------------------------------------------------ *)
(** * Handling one request *)

Section arpreq.
Context (e : env).

(** The last steps of every generated packet: source MAC, then send if the
    gateway's MAC is cached, else queue for it and handle that request. *)
Definition resolve_and_send (handle : nat -> M sr_instance unit) (b : bytes) (len : Z)
    (rt : sr_rt) (ifc : sr_if) : M sr_instance unit :=
  b ← wrn b Eth.shost (if_addr ifc);
  entry ← cache_lookup (rt_gw rt);
  match entry with
  | Some a =>
      b ← wrn b Eth.dhost (ae_mac a);
      _ ← sr_send_packet e b len (rt_interface rt);
      mret tt
  | None =>
      r ← sr_arpcache_queuereq (rt_gw rt) (Some b) len (Some (rt_interface rt));
      handle r
  end.

(** Body of the loop over the packets of a request given up: an ICMP host
    unreachable to the packet's source. *)
Definition host_unreachable (handle : nat -> M sr_instance unit) (r : nat) (walk : sr_packet)
  : M sr_instance unit :=
  req ← load_cur r;
  rt0 ← find_route (aq_ip req);
  rt0 ← deref rt0;
  ifc0 ← sr_get_interface (rt_interface rt0);
  ifc0 ← deref ifc0;
  src0 ← rd32 (pk_buf walk) (Eth.size + Ip.src);
  rt ← find_route src0;
  rt ← deref rt;
  ifc ← sr_get_interface (rt_interface rt);
  b ← icmp_error icmp_error_len (pk_buf walk) (if_ip ifc0) 0x03 0x01;
  ifc ← deref ifc;
  resolve_and_send handle b (Z.of_nat icmp_error_len) rt ifc.

(** The broadcast address: a 64-bit integer stored into the block of
    [calloc(1, 6)], as much of which as the allocator lets the program use; the
    first six bytes of it copied. *)
Definition broadcast_mac : M sr_instance bytes :=
  b ← wrn (zeros (env_usable e 6)) 0 (le32 0xffffffff ++ le32 0x0000ffff);
  rdn b 0 ETHER_ADDR_LEN.

(** The "try again" branch: broadcast an ARP request. *)
Definition send_arp_request (r : nat) (req : sr_arpreq) : M sr_instance unit :=
  pk ← deref (head (aq_packets req));
  dst ← rd32 (pk_buf pk) (Eth.size + Ip.dst);
  rt ← find_route dst;
  ifc ← sr_get_interface (pk_iface pk);
  let b := zeros (Eth.size + Arp.size) in
  b ← wr16 b (Eth.size + Arp.op) (htons arp_op_request);
  b ← wr8 b (Eth.size + Arp.hln) 0x06;
  b ← wr16 b (Eth.size + Arp.hrd) (htons 0x0001);
  b ← wr8 b (Eth.size + Arp.pln) 0x04;
  b ← wr16 b (Eth.size + Arp.pro) (htons ethertype_ip);
  sha ← rdn (pk_buf pk) Eth.shost ETHER_ADDR_LEN;
  b ← wrn b (Eth.size + Arp.sha) sha;
  ifc ← deref ifc;
  b ← wr32 b (Eth.size + Arp.sip) (if_ip ifc);
  b ← wr32 b (Eth.size + Arp.tip) dst;
  b ← wrn b Eth.shost (if_addr ifc);
  bc ← broadcast_mac;
  b ← wrn b Eth.dhost bc;
  b ← wr16 b Eth.type (htons ethertype_arp);
  rt ← deref rt;
  _ ← sr_send_packet e b (Z.of_nat (Eth.size + Arp.size)) (rt_interface rt);
  modify (fun sr =>
    set_cache (set_heap (alter (fun q =>
      mk_arpreq (aq_ip q) (env_time e) (u32 (aq_times_sent q + 1)) (aq_packets q)) r
      (ac_heap (sr_cache sr))) (sr_cache sr)) sr).

(** [sr_arpcache_handle_arpreq(sr, req)]; [fuel] bounds the nesting of the
    recursive calls. *)
Fixpoint sr_arpcache_handle_arpreq (fuel : nat) (r : nat) : M sr_instance unit :=
  match fuel with
  | O => fail OutOfFuel
  | S fuel' =>
      req ← load_cur r;
      if 1 <? env_time e - aq_sent req then
        if 5 <=? aq_times_sent req then
          _ ← mfor (aq_packets req) (fun walk =>
                _ ← host_unreachable (sr_arpcache_handle_arpreq fuel') r walk;
                _ ← load_cur r;        (* nxt = walk->next *)
                mret tt);
          sr_arpreq_destroy (Some r)
        else send_arp_request r req
      else mret tt
  end.

(* ------------------------------------------------------------------ *)
(** * The sweep *)

(** [req->next]: the node after [r] in the queue. *)
Fixpoint succ_of (r : nat) (l : list nat) : option nat :=
  match l with
  | [] => None
  | x :: l' => if decide (x = r) then head l' else succ_of r l'
  end.

(** The loop of [sr_arpcache_sweepreqs], [cur] being [req]; [n] bounds the
    number of nodes visited. *)
Fixpoint sweep_loop (n fuel : nat) (cur : option nat) : M sr_instance unit :=
  match cur with
  | None => mret tt
  | Some r =>
      match n with
      | O => fail OutOfFuel
      | S n' =>
          _ ← load_cur r;
          next ← gets (fun sr => succ_of r (ac_requests (sr_cache sr)));
          _ ← sr_arpcache_handle_arpreq fuel r;
          sweep_loop n' fuel next
      end
  end.

(** [sr_arpcache_sweepreqs(sr)] *)
Definition sr_arpcache_sweepreqs (fuel : nat) : M sr_instance unit :=
  sr ← get;
  sweep_loop (length (ac_requests (sr_cache sr))) fuel (head (ac_requests (sr_cache sr))).

(** One round of [sr_arpcache_timeout], run every second with the lock held. *)
Definition sr_arpcache_timeout (fuel : nat) : M sr_instance unit :=
  _ ← modify (fun sr =>
        set_cache (set_entries (expire (env_time e) (ac_entries (sr_cache sr))) (sr_cache sr)) sr);
  sr_arpcache_sweepreqs fuel.
End arpreq.
