(* ===== verification/SrPackets.v ===== *)
(** What the generated packets contain: the specification of the ICMP errors
    and ARP frames the router builds field by field, and the rules that the
    builders of sr_router.c and sr_arpcache.c meet it. *)

From S2P Require Import Prelude Bytes Checksum SrState SrArpreq.

(* ------------------------------------------------------------------ *)
(** * Automation for long sequences of stores *)

(** A store: name the new buffer, keep its length and well-formedness. *)
Ltac store :=
  lazymatch goal with
  | |- wlp _ (?w ?b _ _) _ _ =>
      apply wlp_wrn_named;
      [ cbn [length le16 le32]; lia
      | let b' := fresh "b" in let E := fresh "E" in let L := fresh "L" in let W := fresh "W" in
        intros b' E L W;
        lazymatch goal with H : length b = _ |- _ => rewrite H in L end;
        specialize (W ltac:(auto with bytes) ltac:(auto with bytes)) ]
  end.

(** The broadcast address. *)
Abbreviation bcast := [255; 255; 255; 255; 255; 255].
Lemma wf_bcast : wf_bytes bcast.
Proof. by repeat constructor. Qed.
#[export] Hint Resolve wf_bcast : bytes.

(** The broadcast address comes out as six [0xff] bytes from a block with room
    for the eight bytes that are stored; a smaller block is overrun. *)
Lemma wlp_broadcast (F : fault -> Prop) e (Q : bytes -> sr_instance -> Prop) s :
  (~ roomy e -> F OutOfBounds) -> (roomy e -> Q bcast s) -> wlp F (broadcast_mac e) Q s.
Proof.
  intros HF HQ. unfold broadcast_mac, roomy in *. destruct (decide (8 <= env_usable e 6)%nat) as [Hr|Hr].
  - wstep. apply wlp_wrn; [rewrite length_zeros; cbn [length app le32]; lia|].
    apply wlp_rdn; [rewrite length_upd; rewrite length_zeros; cbn [length app le32]; unfold ETHER_ADDR_LEN; lia|].
    exact (HQ Hr).
  - wstep. unfold wrn. apply wlp_lift. unfold in_range.
    rewrite (proj2 (Nat.leb_gt _ _)); [by apply HF|rewrite length_zeros; cbn [length app le32]; lia].
Qed.

(** Steps through straight-line packet code with literal offsets. *)
Ltac pstep :=
  lazymatch goal with
  | |- wlp _ (wrn _ _ _) _ _ => store
  | |- wlp _ (wr8 _ _ _) _ _ => store
  | |- wlp _ (wr16 _ _ _) _ _ => store
  | |- wlp _ (wr32 _ _ _) _ _ => store
  | |- wlp _ (rd8 _ _) _ _ => apply wlp_rd8; [lia|]
  | |- wlp _ (rd16 _ _) _ _ => apply wlp_rd16; [lia|]
  | |- wlp _ (rd32 _ _) _ _ => apply wlp_rd32; [lia|]
  | |- wlp _ (rdn _ _ _) _ _ => apply wlp_rdn; [lia|]
  | |- wlp _ (mbind _ (cksum_at _ _ _)) _ _ => fail
  | |- wlp _ (mbind _ _) _ _ => apply wlp_bind
  | |- wlp _ (mret _) _ _ => apply wlp_ret
  | |- wlp _ (deref (Some _)) _ _ => apply wlp_deref
  end; cbn beta iota.

(** Look through the last store of a named buffer. *)
Ltac bl := cbn [length le16 le32]; lia.
Ltac peel :=
  match goal with
  | H : ?b = upd _ _ _ |- context [get8 ?b _] =>
      rewrite H; first [rewrite get8_upd_ne by bl | rewrite get8_upd_eq by bl; cbn [get8 nth Nat.sub le16 le32]]
  | H : ?b = upd _ _ _ |- context [get16 ?b _] =>
      rewrite H; first [rewrite get16_upd_ne by bl | rewrite get16_upd_eq by first [bl | apply htons_range | done]]
  | H : ?b = upd _ _ _ |- context [get32 ?b _] =>
      rewrite H; first [rewrite get32_upd_ne by bl | rewrite get32_upd_eq by first [bl | done]]
  | H : ?b = upd _ _ _ |- context [slice ?b _ _] =>
      rewrite H; first [rewrite slice_upd_ne by bl | rewrite slice_upd_same by bl]
  end.
Ltac peels := repeat peel; rewrite ?get8_zeros, ?get16_zeros.

(** Frames of a stored checksum. *)
Lemma same_but_get16 o b b' i :
  same_but o b b' -> (i + 2 <= o \/ o + 2 <= i)%nat -> get16 b' i = get16 b i.
Proof. intros [_ H] Hi. unfold get16. rewrite !H by lia. done. Qed.

Lemma same_but_get32 o b b' i :
  same_but o b b' -> (i + 4 <= o \/ o + 2 <= i)%nat -> get32 b' i = get32 b i.
Proof. intros H Hi. unfold get32. rewrite !(same_but_get16 _ _ _ _ H) by lia. done. Qed.

Lemma same_but_slice o b b' i n :
  same_but o b b' -> (i + n <= length b)%nat -> (i + n <= o \/ o + 2 <= i)%nat -> slice b' i n = slice b i n.
Proof.
  intros [Hl H] Hb Hi. apply slice_ext; [lia..|]. intros j Hj. apply H. lia.
Qed.

(** Read a field of the buffer that a checksum was stored in last. *)
Ltac fields H :=
  first [ rewrite (proj2 H) by lia | rewrite (same_but_get16 _ _ _ _ H) by lia
        | rewrite (same_but_get32 _ _ _ _ H) by lia | rewrite (same_but_slice _ _ _ _ _ H) by lia ];
  peels; try done.

(* ------------------------------------------------------------------ *)
(** * ICMP errors *)

(** [b] is an ICMP error of the given type and code from the address [ip_src]
    that answers the packet [p0], complete up to its Ethernet addresses. *)
Record icmp_error_for (p0 b : bytes) (ip_src type code : Z) : Prop := {
  ie_ethertype : get16 b 12 = htons ethertype_ip;
  ie_vhl : get8 b 14 = 0x45;
  ie_tos : get8 b 15 = get8 p0 15;
  ie_len : get16 b 16 = htons (blen b - 14);
  ie_id : get16 b 18 = get16 p0 18;
  ie_off : get16 b 20 = get16 p0 20;
  ie_ttl : get8 b 22 = 255;
  ie_proto : get8 b 23 = ip_protocol_icmp;
  ie_src : get32 b 26 = ip_src;
  ie_dst : get32 b 30 = get32 p0 26;
  ie_ip_cksum : cksum_accepts (slice b 14 20);
  ie_icmp_type : get8 b 34 = type;
  ie_icmp_code : get8 b 35 = code;
  ie_unused : get16 b 38 = 0;
  ie_mtu : get16 b 40 = htons 0xff;
  ie_data : slice b 42 28 = slice p0 14 28;
  ie_icmp_cksum : cksum_accepts (slice b 34 (length b - 34));
}.

Section rules.
Context {S : Type} (F : fault -> Prop).

(** Invariant of the IP header stores: what the fields hold when the header is done. *)
Lemma wlp_put_ip_header n p0 ip_src ip_len (Q : bytes -> S -> Prop) s :
  wf_bytes p0 -> (34 <= length p0)%nat -> (34 <= n)%nat -> 0 <= ip_src < 4294967296 ->
  0 <= ip_len < 65536 ->
  (forall b, wf_bytes b -> length b = n ->
     get8 b 14 = 0x45 -> get8 b 15 = get8 p0 15 -> get16 b 16 = htons ip_len ->
     get16 b 18 = get16 p0 18 -> get16 b 20 = get16 p0 20 -> get8 b 22 = 255 ->
     get8 b 23 = ip_protocol_icmp -> get32 b 26 = ip_src -> get32 b 30 = get32 p0 26 ->
     cksum_accepts (slice b 14 20) ->
     Q b s) ->
  wlp F (put_ip_header (zeros n) p0 ip_src ip_len) Q s.
Proof.
  intros Hwf Hp Hn Hsrc Hlen HQ.
  pose proof (wf_get16 p0 18 Hwf) as Hr1. pose proof (wf_get32 p0 26 Hwf) as Hr2.
  pose proof (wf_get16 p0 20 Hwf) as Hr3. pose proof (wf_get8 p0 15 Hwf) as Hr4. unfold is_byte in Hr4.
  pose proof (wf_zeros n) as Wz. pose proof (length_zeros n) as Lz.
  unfold put_ip_header, wr_ip_v, wr_ip_hl. autounfold with offsets. cbn [Nat.add].
  repeat pstep.
  apply wlp_cksum_store with (1 := W9); try lia; [done|by peels|].
  intros b' Wb' Hb Hck. pose proof (proj1 Hb) as Lb'.
  apply HQ; try done; [lia|..]; fields Hb.
  all: try (rewrite u8_small by lia; done).
  by rewrite u16_small.
Qed.

Lemma wlp_icmp_error n p0 ip_src type code (Q : bytes -> S -> Prop) s :
  wf_bytes p0 -> (42 <= length p0)%nat -> (70 <= n <= 1500)%nat -> 0 <= ip_src < 4294967296 ->
  is_byte type -> is_byte code ->
  (forall b, wf_bytes b -> length b = n -> icmp_error_for p0 b ip_src type code -> Q b s) ->
  wlp F (icmp_error n p0 ip_src type code) Q s.
Proof.
  intros Hwf Hp Hn Hsrc Ht Hc HQ. unfold icmp_error. apply wlp_bind.
  change (Z.of_nat Eth.size) with 14.
  apply wlp_put_ip_header; try lia; [done|].
  intros b W L Hvhl Htos Hlen Hid Hoff Httl Hpr Hs Hd Hck.
  pose proof (length_slice p0 14 28 ltac:(lia)) as Ld.
  unfold put_icmp_t3. autounfold with offsets. cbn [Nat.add].
  repeat pstep.
  rewrite L5. change (14 + 20)%nat with 34%nat. rewrite <- !Nat.sub_add_distr. cbn [Nat.add].
  apply wlp_cksum_store with (1 := W5); try lia; [done|by peels|].
  intros b' Wb' Hb Hck'. pose proof (proj1 Hb) as Lb'. 
  pstep. apply HQ; [done|lia|].
  rewrite L5 in Lb', L6.
  assert (Hbl : blen b6 = Z.of_nat n) by (unfold blen; by rewrite L6).
  split; rewrite ?L6, ?Hbl; peels; try done; try fields Hb.
  all: by apply u8_small.
Qed.

(** A packet too short for the quoted data: the copy runs out of its buffer. *)
Lemma wlp_icmp_error_short n p0 ip_src type code (Q : bytes -> S -> Prop) s :
  wf_bytes p0 -> (34 <= length p0 < 42)%nat -> (70 <= n <= 1500)%nat -> 0 <= ip_src < 4294967296 ->
  F OutOfBounds -> wlp F (icmp_error n p0 ip_src type code) Q s.
Proof.
  intros Hwf Hp Hn Hsrc HF. unfold icmp_error. apply wlp_bind.
  change (Z.of_nat Eth.size) with 14.
  apply wlp_put_ip_header; try lia; [done|]. intros b W L _ _ _ _ _ _ _ _ _ _.
  unfold put_icmp_t3. autounfold with offsets. cbn [Nat.add].
  repeat pstep. apply wlp_lift. unfold in_range.
  by rewrite (proj2 (Nat.leb_gt _ _)) by lia.
Qed.

(* ------------------------------------------------------------------ *)
(** * ARP frames *)

(** [b] is a complete ARP frame with these addresses. *)
Record arp_frame_for (b dhost shost : bytes) (op : Z) (sha : bytes) (sip : Z) (tha : bytes) (tip : Z)
  : Prop := {
  af_len : length b = 42%nat;
  af_dhost : slice b 0 6 = dhost;
  af_shost : slice b 6 6 = shost;
  af_type : get16 b 12 = htons ethertype_arp;
  af_hrd : get16 b 14 = htons 1;
  af_pro : get16 b 16 = htons ethertype_ip;
  af_hln : get8 b 18 = 6;
  af_pln : get8 b 19 = 4;
  af_op : get16 b 20 = htons op;
  af_sha : slice b 22 6 = sha;
  af_sip : get32 b 28 = sip;
  af_tha : slice b 32 6 = tha;
  af_tip : get32 b 38 = tip;
}.

End rules.
