(* ===== verification/SrArpFacts.v ===== *)
(** What handling an outstanding ARP request does: the frame it broadcasts,
    the hit and miss cases of [resolve_and_send], and that every run keeps the
    router's invariant. *)

From S2P Require Import Prelude Bytes Checksum SrState SrIf SrRt SrDumper SrSend SrArpcache SrArpreq.
From S2P Require Import SrPackets.

(* ------------------------------------------------------------------ *)
(** * Well-formed tables *)

Record iface_ok (i : sr_if) : Prop := {
  io_addr : mac_ok (if_addr i);
  io_ip : 0 <= if_ip i < 4294967296;
}.

Lemma find_interface_ok l name i :
  Forall iface_ok l -> find_interface l name = Some i -> iface_ok i.
Proof. intros Hl Hi%find_interface_in. by eapply Forall_forall in Hl. Qed.

(** The cache after one more transmission for [r]. *)
Definition retried (e : env) (r : nat) (c : sr_arpcache) : sr_arpcache :=
  set_heap (alter (fun q => mk_arpreq (aq_ip q) (env_time e) (u32 (aq_times_sent q + 1)) (aq_packets q)) r
    (ac_heap c)) c.

(** Whose tries are not used up. *)
Definition may_retry (r : nat) (c : sr_arpcache) : Prop := forall q, ac_heap c !! r = Some q -> aq_times_sent q < 5.

Lemma retried_ok e r c : cache_ok c -> may_retry r c -> cache_ok (retried e r c).
Proof.
  intros Hok Hr. unfold retried. destruct (ac_heap c !! r) as [q|] eqn:Eq.
  - split; simpl; try apply Hok.
    + intros r'. rewrite (co_live _ Hok). destruct (decide (r' = r)) as [->|Hne].
      * rewrite lookup_alter_eq, Eq. split; eauto.
      * by rewrite lookup_alter_ne.
    + intros r1 r2 q1 q2. rewrite !lookup_alter_Some. pose proof (co_ips _ Hok). naive_solver.
    + intros r' q'. rewrite lookup_alter_Some. intros [(-> & q0 & H & ->)|[_ H]]; simpl;
        by eapply co_packets.
    + intros r' q'. rewrite lookup_alter_Some. intros [(-> & q0 & H & ->)|[_ H]]; [|by eapply co_tries].
      pose proof (co_tries _ Hok _ _ H). specialize (Hr _ H). cbn [aq_times_sent]. rewrite u32_small; lia.
  - rewrite alter_id by (intros; congruence). by destruct c.
Qed.

Section facts.
Context (F : fault -> Prop) (e : env).

(* ------------------------------------------------------------------ *)
(** * Sending an ARP request *)

(** The broadcast goes out on the interface of the route to the waiting
    packet's destination; it asks for that destination, in the name of the
    interface the packet waits for. *)
Lemma wlp_send_arp_request r req pk dst ifc (Q : unit -> sr_instance -> Prop) s :
  head (aq_packets req) = Some pk -> packet_ok pk -> dst = get32 (pk_buf pk) 30 ->
  find_interface (sr_if_list s) (pk_iface pk) = Some ifc -> iface_ok ifc ->
  (~ roomy e -> F OutOfBounds) ->
  (roomy e -> sr_findLPMentry (sr_routing_table s) dst = None -> F NullDeref) ->
  (forall rt b s1, roomy e -> sr_findLPMentry (sr_routing_table s) dst = Some rt ->
     arp_frame_for b bcast (if_addr ifc) arp_op_request
        (slice (pk_buf pk) 6 6) (if_ip ifc) (zeros 6) dst ->
     transmitted s (rt_interface rt) b s1 -> Q tt (set_cache (retried e r (sr_cache s1)) s1)) ->
  wlp F (send_arp_request e r req) Q s.
Proof.
  intros Hpk (Hlen & Hsz & Hwf & _) Hdst Hifc [[Hal Haw] Hip] Hroom Hnone HQ.
  assert (Hl : (34 <= length (pk_buf pk))%nat) by (unfold blen in Hsz; lia).
  unfold send_arp_request, find_route, sr_get_interface. rewrite Hpk.
  autounfold with offsets. cbn [Nat.add]. 
  repeat pstep. do 2 (wstep; wstep). rewrite Hifc.
  pose proof (wf_zeros 42) as Wz. pose proof (length_zeros 42) as Lz. 
  pose proof (length_slice (pk_buf pk) 6 6 ltac:(lia)) as Ls.
  pose proof (wf_get32 (pk_buf pk) 30 Hwf) as Hr.
  rewrite <- Hdst in *.
  repeat pstep. apply wlp_broadcast; [done|]. intros Hr8. repeat pstep. wstep.
  destruct (sr_findLPMentry (sr_routing_table s) dst) as [rt|] eqn:Hrt; [|auto]. wstep.
  replace (Z.of_nat 42) with (blen b9) by (unfold blen; lia).
  apply wlp_transmit; [unfold blen; lia|]. intros x s1 Hs. wstep. apply (HQ rt b9); [done|done| |done].
  split; [done|..]; by peels.
Qed.

(* ------------------------------------------------------------------ *)
(** * Sending now or queueing *)

Section resolve.
Context (handle : nat -> M sr_instance unit) (b : bytes) (rt : sr_rt) (ifc : sr_if).
Context (Hb : 34 <= blen b < 2 ^ 31) (Hifc : iface_ok ifc).

Let b1 := upd b 6 (if_addr ifc).

Lemma resolve_len : length b1 = length b.
Proof. destruct Hifc as [[Hl _] _]. apply length_upd. unfold blen in Hb. lia. Qed.

(** The gateway's address is known: the frame is sent to it. *)
Lemma wlp_resolve_hit a (Q : unit -> sr_instance -> Prop) s :
  sr_arpcache_lookup (sr_cache s) (rt_gw rt) = Some a -> mac_ok (ae_mac a) ->
  (forall s', transmitted s (rt_interface rt) (upd b1 0 (ae_mac a)) s' -> Q tt s') ->
  wlp F (resolve_and_send e handle b (blen b) rt ifc) Q s.
Proof.
  intros Ha [Hm _] HQ. pose proof resolve_len as Hl. pose proof (io_addr _ Hifc) as [Hi _].
  unfold blen in Hb. unfold resolve_and_send, cache_lookup.
  change Eth.shost with 6%nat. change Eth.dhost with 0%nat. wstep.
  apply wlp_wrn; [lia|]. do 2 wstep. rewrite Ha. wstep.
  apply wlp_wrn; [fold b1; lia|]. wstep. fold b1.
  assert (Hl2 : blen (upd b1 0 (ae_mac a)) = blen b) by (unfold blen; rewrite length_upd; lia).
  rewrite <- Hl2. apply wlp_transmit; [rewrite Hl2; unfold blen; lia|].
  intros x s' Hs. wstep. by apply HQ.
Qed.

(** It is not known: the frame waits for it, and its request is handled. *)
Lemma wlp_resolve_miss (Q : unit -> sr_instance -> Prop) s :
  sr_arpcache_lookup (sr_cache s) (rt_gw rt) = None -> cache_ok (sr_cache s) ->
  (forall r c', queued (sr_cache s) (rt_gw rt)
       (mk_packet b1 (blen b1) (strncpy (rt_interface rt) sr_IFACE_NAMELEN)) r c' ->
     wlp F (handle r) Q (set_cache c' s)) ->
  wlp F (resolve_and_send e handle b (blen b) rt ifc) Q s.
Proof.
  intros Ha Hok HQ. pose proof resolve_len as Hl. pose proof (io_addr _ Hifc) as [Hi _].
  unfold blen in Hb. unfold resolve_and_send, cache_lookup.
  change Eth.shost with 6%nat. change Eth.dhost with 0%nat. wstep.
  apply wlp_wrn; [lia|]. do 2 wstep. rewrite Ha. wstep.
  fold b1. replace (blen b) with (blen b1) by (unfold blen; lia).
  apply wlp_queuereq; [done|unfold blen; lia|]. exact HQ.
Qed.
End resolve.

(* ------------------------------------------------------------------ *)
(** * The router's invariant *)

Section invariant.
Context (ifs : list sr_if) (rts : list sr_rt) (Hifs : Forall iface_ok ifs).

Definition known_iface (name : bytes) : Prop := is_Some (find_interface ifs name).

(** The packet's source address is that of the interface it waits for. *)
Definition addressed (p : sr_packet) : Prop :=
  exists i, find_interface ifs (pk_iface p) = Some i /\ slice (pk_buf p) 6 6 = if_addr i.

(** The tables are these, the cache is consistent, and every waiting packet
    carries the address of the interface it waits for. *)
Record rinv (s : sr_instance) : Prop := {
  ri_ifs : sr_if_list s = ifs;
  ri_rts : sr_routing_table s = rts;
  ri_cache : cache_ok (sr_cache s);
  ri_known : forall r q, ac_heap (sr_cache s) !! r = Some q -> Forall addressed (aq_packets q);
}.

(** Every address is routed, to an existing interface. *)
Definition routes_total : Prop :=
  forall ip, exists rt, sr_findLPMentry rts ip = Some rt /\ known_iface (rt_interface rt).

(** Either every fault is tolerated, or routing is total and every request is
    at least as far from being given up as [limit] says. *)
Definition lenient : Prop := forall f, F f.
Context (Htot : lenient \/ routes_total) (Hroom : ~ roomy e -> F OutOfBounds) (limit : Z) (Hlimit : 0 < limit <= 5).
Definition calm (s : sr_instance) : Prop := lenient \/ tries_below limit (sr_cache s).

Lemma route_null s ip : rinv s -> sr_findLPMentry (sr_routing_table s) ip = None -> F NullDeref.
Proof.
  intros Hs H. rewrite (ri_rts _ Hs) in H. destruct Htot as [?|Ht]; [auto|].
  destruct (Ht ip) as (? & ? & _). congruence.
Qed.

Lemma iface_null s ip rt :
  rinv s -> sr_findLPMentry (sr_routing_table s) ip = Some rt ->
  find_interface (sr_if_list s) (rt_interface rt) = None -> F NullDeref.
Proof.
  intros Hs H Hn. rewrite (ri_rts _ Hs) in H. rewrite (ri_ifs _ Hs) in Hn.
  destruct Htot as [?|Ht]; [auto|]. destruct (Ht ip) as (? & ? & [? ?]). congruence.
Qed.

Lemma rinv_tables s s' : rinv s -> same_tables s s' -> rinv s'.
Proof.
  intros [H1 H2 H3 H4] (E1 & E2 & E3 & _).
  split; rewrite ?E1, ?E2, ?E3; done.
Qed.

Lemma rinv_retried r s : rinv s -> may_retry r (sr_cache s) -> rinv (set_cache (retried e r (sr_cache s)) s).
Proof.
  intros [H1 H2 H3 H4] Hr. split; simpl; try done; [by apply retried_ok|].
  intros r' q'. rewrite lookup_alter_Some. intros [(-> & q0 & H & ->)|[_ H]]; simpl; eauto.
Qed.

Lemma rinv_queued s ip p r c' :
  rinv s -> packet_ok p -> addressed p -> queued (sr_cache s) ip p r c' -> rinv (set_cache c' s).
Proof.
  intros [H1 H2 H3 H4] Hp Hk Hq. split; simpl; try done; [by eapply queued_ok|].
  destruct Hq as [_ [(q & _ & Hq & _ & _ & _ & Hh)|(_ & _ & _ & _ & Hh)]];
    intros r' q'; rewrite Hh, lookup_insert_Some; intros [[<- <-]|[_ H]]; simpl; eauto.
Qed.

Lemma send_arp_request_inv r req s :
  rinv s -> ac_heap (sr_cache s) !! r = Some req -> aq_times_sent req < 5 ->
  wlp F (send_arp_request e r req) (fun _ s' => rinv s') s.
Proof.
  intros Hs Hr Ht. destruct (co_packets _ (ri_cache _ Hs) _ _ Hr) as [Hne Hpk].
  pose proof (ri_known _ Hs _ _ Hr) as Hkn.
  destruct (aq_packets req) as [|pk l] eqn:Hl; [done|].
  apply Forall_cons in Hpk as [Hpk _]. apply Forall_cons in Hkn as [(ifc & Hifc & _) _].
  eapply wlp_send_arp_request; [by rewrite Hl|done|done| | |done|intros _; by eapply route_null|].
  - by rewrite (ri_ifs _ Hs).
  - by eapply find_interface_ok.
  - intros rt b s1 _ _ _ Htr%transmitted_tables. apply rinv_retried; [by eapply rinv_tables|].
    destruct Htr as (_ & _ & -> & _). intros q Hq. by simplify_eq.
Qed.

(** [resolve_and_send] keeps the invariant when handling the request does. *)
Lemma resolve_and_send_inv handle b rt ifc s :
  rinv s -> calm s -> 34 <= blen b < 2 ^ 31 -> wf_bytes b -> iface_ok ifc ->
  find_interface ifs (rt_interface rt) = Some ifc ->
  (forall r s', rinv s' -> calm s' -> r ∈ ac_requests (sr_cache s') -> wlp F (handle r) (fun _ s'' => rinv s'') s') ->
  wlp F (resolve_and_send e handle b (blen b) rt ifc) (fun _ s' => rinv s') s.
Proof.
  intros Hs Hc Hb Hwf Hi Hk Hh.
  destruct (sr_arpcache_lookup (sr_cache s) (rt_gw rt)) as [a|] eqn:Ha.
  - eapply wlp_resolve_hit; try done; [eapply lookup_mac_ok; [apply Hs|done]|].
    intros s' Ht%transmitted_tables. by eapply rinv_tables.
  - eapply wlp_resolve_miss; try done; [apply Hs|].
    intros r c' Hq. pose proof (resolve_len b ifc Hb Hi) as Hl. apply Hh.
    + pose proof (io_addr _ Hi) as [Hi1 Hi2]. unfold blen in *.
      eapply rinv_queued; [done| | |done]; simpl.
      * unfold packet_ok, blen; simpl. rewrite Hl. repeat split; try lia; [by apply wf_upd|apply length_strncpy].
      * exists ifc. simpl. rewrite find_interface_strncpy. split; [done|]. apply slice_upd_same; lia.
    + destruct Hc as [?|?]; [by left|right; by eapply queued_below; [lia|..]].
    + by eapply queued_in.
Qed.

Lemma wlp_load_cur r (Q : sr_arpreq -> sr_instance -> Prop) s :
  match ac_heap (sr_cache s) !! r with Some q => Q q s | None => F UseAfterFree end ->
  wlp F (load_cur r) Q s.
Proof. intros HQ. unfold load_cur, load_req. wsteps; by simplify_option_eq. Qed.

(** The types and codes the code uses fit their fields. *)
Lemma wlp_icmp_error_any n p0 ip_src type code (Q : bytes -> sr_instance -> Prop) s :
  wf_bytes p0 -> 34 <= blen p0 -> (70 <= n <= 1500)%nat -> 0 <= ip_src < 4294967296 ->
  is_byte type -> is_byte code -> (blen p0 < 42 -> F OutOfBounds) ->
  (forall b, wf_bytes b -> length b = n -> icmp_error_for p0 b ip_src type code -> Q b s) ->
  wlp F (icmp_error n p0 ip_src type code) Q s.
Proof.
  unfold blen. intros. destruct (decide (42 <= length p0)%nat).
  - by apply wlp_icmp_error.
  - apply wlp_icmp_error_short; try done; [lia|]. apply H5. lia.
Qed.

Lemma host_unreachable_inv handle r walk s :
  lenient -> rinv s -> packet_ok walk ->
  (forall r s', rinv s' -> calm s' -> r ∈ ac_requests (sr_cache s') -> wlp F (handle r) (fun _ s'' => rinv s'') s') ->
  wlp F (host_unreachable e handle r walk) (fun _ s' => rinv s') s.
Proof.
  intros Hlen Hs (_ & Hsz & Hwf & _) Hh. unfold host_unreachable, find_route, sr_get_interface.
  wstep. apply wlp_load_cur. destruct (ac_heap _ !! r) as [q|]; [|apply Hlen].
  do 3 wstep. wstep. destruct (sr_findLPMentry _ _) as [rt0|]; [|apply Hlen].
  do 2 wstep. wstep. wstep. destruct (find_interface _ (rt_interface rt0)) as [ifc0|] eqn:E0; [|apply Hlen].
  wstep. apply wlp_rd32; [change (Eth.size + Ip.src)%nat with 26%nat; unfold blen in Hsz; lia|].
  do 2 wstep. wstep. wstep. destruct (sr_findLPMentry _ _) as [rt|]; [|apply Hlen].
  do 2 wstep. wstep.
  rewrite (ri_ifs _ Hs) in *. pose proof (find_interface_ok _ _ _ Hifs E0) as [_ Hip].
  apply wlp_icmp_error_any; try done; [lia|vm_compute; lia|apply Hlen||done..|].
  intros b Wb Lb _. wstep. wstep. destruct (find_interface ifs (rt_interface rt)) as [ifc|] eqn:E1; [|apply Hlen].
  replace (Z.of_nat icmp_error_len) with (blen b) by (unfold blen; by rewrite Lb).
  apply resolve_and_send_inv; try done.
  - by left.
  - unfold blen. rewrite Lb. vm_compute. split; [discriminate|done].
  - by eapply find_interface_ok.
Qed.

(** Handling a request, however deep the handling of errors about it nests,
    keeps the invariant. *)
Lemma handle_arpreq_inv fuel r s :
  rinv s -> calm s -> (lenient \/ (0 < fuel)%nat) -> (lenient \/ r ∈ ac_requests (sr_cache s)) ->
  wlp F (sr_arpcache_handle_arpreq e fuel r) (fun _ s' => rinv s') s.
Proof.
  revert r s. induction fuel as [|fuel IH]; intros r s Hs Hc Hfuel Hr; simpl.
  { destruct Hfuel as [Hl|]; [apply Hl|lia]. }
  wstep. apply wlp_load_cur. destruct (ac_heap (sr_cache s) !! r) as [q|] eqn:Hq.
  2:{ destruct Hr as [Hl|Hr]; [apply Hl|]. apply (co_live _ (ri_cache _ Hs)) in Hr as [? ?]. congruence. }
  wstep; [|by wstep]. wstep; [|apply send_arp_request_inv; [done|done|lia]].
  apply Z.leb_le in Heqb0. destruct Hc as [Hl|Hy]; [|apply Hy in Hq; lia].
  wstep. eapply wlp_mono.
  - apply (wlp_mfor F _ _ (fun l s => rinv s /\ Forall packet_ok l)).
    + split; [done|]. by eapply co_packets; [apply Hs|].
    + intros x l' s1 [Hs1 [Hx Hl']%Forall_cons]. wstep.
      eapply wlp_mono; [apply host_unreachable_inv; try done|].
      * intros r' s' Hs' Hc' _. apply IH; try done; by left.
      * cbn beta. intros _ s2 Hs2. wstep. apply wlp_load_cur. destruct (ac_heap (sr_cache s2) !! r); [|apply Hl]. by wstep.
  - cbn beta. intros _ s1 [Hs1 _]. unfold sr_arpreq_destroy, load_req. wsteps; [|apply Hl].
    destruct Hs1 as [H1 H2 H3 H4]. split; simpl; try done; [by apply destroy_ok|].
    intros r' q'. rewrite lookup_delete_Some. intros [_ H]. eauto.
Qed.

Lemma sweep_loop_inv n fuel cur s :
  lenient -> rinv s -> wlp F (sweep_loop e n fuel cur) (fun _ s' => rinv s') s.
Proof.
  intros Hl. revert cur s. induction n as [|n IH]; intros [r|] s Hs; simpl; try by wsteps.
  wstep. apply wlp_load_cur. destruct (ac_heap (sr_cache s) !! r); [|apply Hl]. wstep. wstep. wstep.
  eapply wlp_mono; [apply handle_arpreq_inv; try done; by left|]. cbn beta.
  intros _ s2 Hs2. by apply IH.
Qed.

(** One round of the cleanup thread. *)
Lemma timeout_inv fuel s :
  lenient -> rinv s -> wlp F (sr_arpcache_timeout e fuel) (fun _ s' => rinv s') s.
Proof.
  intros Hl [H1 H2 H3 H4]. unfold sr_arpcache_timeout, sr_arpcache_sweepreqs. wstep. wstep. wstep. wstep.
  apply sweep_loop_inv; [done|]. split; simpl; try done. by apply expire_ok.
Qed.
End invariant.
End facts.
