(* ===== verification/SrRouter.v ===== *)
(** The packet handler of sr_router.c: [ip_black_list] and [sr_handlepacket],
    one definition per branch. *)

From S2P Require Import Prelude Bytes Checksum SrState SrIf SrRt SrDumper SrSend SrArpcache SrArpreq.

(** [int ip_black_list(struct sr_ip_hdr *iph)], the source address given. *)
Definition ip_black_list (ip_src : Z) : bool :=
  let black_addr := ipv4 10 0 2 0 in
  let masking := ipv4 255 255 255 0 in
  black_addr =? Z.land masking ip_src.

(** [for (ifc = sr->if_list; ifc; ifc = ifc->next) if (ip_dst == ifc->ip) break;] *)
Fixpoint find_own_ip (l : list sr_if) (ip_dst : Z) : option sr_if :=
  match l with
  | [] => None
  | i :: l' => if ip_dst =? if_ip i then Some i else find_own_ip l' ip_dst
  end.

(** Offsets of the IP and ICMP headers in a frame. *)
Definition ip_at : nat := Eth.size.
Definition l4_at : nat := Eth.size + Ip.size.

(** [handle] is the call of [sr_arpcache_handle_arpreq] that ends a branch which
    queued a packet. The code makes it without the cache's lock, so what it meets
    may not be what the branch left; [sr_handlepacket] below is the frame handled
    without another thread in between. *)
Section router.
Context (e : env) (handle : nat -> M sr_instance unit).

(** Zero the checksum field at [o], recompute it over [n] bytes from [base],
    and restore it; [None] when it differs from the stored one. *)
Definition verify_cksum {S} (packet : bytes) (o base n : nat) : M S (option bytes) :=
  checksum ← rd16 packet o;
  packet ← wr16 packet o 0;
  c ← cksum_at packet base n;
  if negb (checksum =? c) then mret None
  else packet ← wr16 packet o checksum; mret (Some packet).

(** Zero the checksum field at [o] and store the checksum of [n] bytes from [base]. *)
Definition renew_cksum {S} (packet : bytes) (o base n : nat) : M S bytes :=
  packet ← wr16 packet o 0;
  c ← cksum_at packet base n;
  wr16 packet o c.

(* ------------------------------------------------------------------ *)
(** * IP packets for the router *)

(** "modify to echo reply": TTL, addresses, type and both checksums. *)
Definition make_echo_reply {S} (packet : bytes) (len : Z) : M S bytes :=
  packet ← wr8 packet (ip_at + Ip.ttl) INIT_TTL;
  ipaddr ← rd32 packet (ip_at + Ip.src);
  dst ← rd32 packet (ip_at + Ip.dst);
  packet ← wr32 packet (ip_at + Ip.src) dst;
  packet ← wr32 packet (ip_at + Ip.dst) ipaddr;
  packet ← renew_cksum packet (ip_at + Ip.sum) ip_at Ip.size;
  packet ← wr8 packet (l4_at + Icmp.type) 0x00;
  renew_cksum packet (l4_at + Icmp.sum) l4_at (Z.to_nat (len - 34)).

(** ICMP to one of the router's addresses. *)
Definition handle_icmp (packet : bytes) (len : Z) : M sr_instance unit :=
  let len_r := len - 34 in
  if len_r <? Z.of_nat Icmp.size then mret tt
  else
    type ← rd8 packet (l4_at + Icmp.type);
    if type =? 0x08 then
      ok ← verify_cksum packet (l4_at + Icmp.sum) l4_at (Z.to_nat (len - 34));
      match ok with
      | None => mret tt
      | Some packet =>
          packet ← make_echo_reply packet len;
          dst ← rd32 packet (ip_at + Ip.dst);
          rt ← find_route dst;
          match rt with
          | None => mret tt
          | Some rt =>
              ifc ← sr_get_interface (rt_interface rt);
              ifc ← deref ifc;
              resolve_and_send e handle packet len rt ifc
          end
      end
    else mret tt.

(** An ICMP error of [new_len] bytes to the source of [packet]: the route to
    the source is dereferenced without a test. *)
Definition send_icmp_error (new_len : nat) (packet : bytes) (type code : Z) : M sr_instance unit :=
  src ← rd32 packet (ip_at + Ip.src);
  rt ← find_route src;
  rt ← deref rt;
  ifc ← sr_get_interface (rt_interface rt);
  ifc ← deref ifc;
  b ← icmp_error new_len packet (if_ip ifc) type code;
  resolve_and_send e handle b (Z.of_nat new_len) rt ifc.

(** TCP or UDP to one of the router's addresses: port unreachable. *)
Definition handle_tcp_udp (packet : bytes) (len : Z) : M sr_instance unit :=
  let len_r := len - 34 in
  if len_r + Z.of_nat Ip.size <? Z.of_nat ICMP_DATA_SIZE then mret tt
  else send_icmp_error icmp_error_len packet 0x03 0x03.

(* ------------------------------------------------------------------ *)
(** * IP packets to forward *)

(** "check TTL expiration": time exceeded. *)
Definition handle_ttl_expired (packet : bytes) (len : Z) : M sr_instance unit :=
  let len_r := len - 34 in
  if len_r + Z.of_nat Ip.size <? Z.of_nat ICMP_DATA_SIZE then mret tt
  else send_icmp_error icmp_error_len packet 0x0B 0x00.

(** No route to the destination: net unreachable, if the word after the IP
    header passes as an ICMP checksum. *)
Definition handle_no_route (packet : bytes) (len : Z) : M sr_instance unit :=
  let len_r := len - 34 in
  if len_r + Z.of_nat Ip.size <? Z.of_nat ICMP_DATA_SIZE then mret tt
  else
    ok ← verify_cksum packet (l4_at + Icmp.sum) l4_at (Z.to_nat (len - 34));
    match ok with
    | None => mret tt
    | Some packet => send_icmp_error (Eth.size + Ip.size + Icmp.t3_size) packet 0x03 0x00
    end.

(** Forward along [rt]: rewrite the MAC addresses, decrement the TTL. *)
Definition forward_packet (packet : bytes) (len : Z) (rt : sr_rt) : M sr_instance unit :=
  ifc ← sr_get_interface (rt_interface rt);
  ifc ← deref ifc;
  packet ← wrn packet Eth.shost (if_addr ifc);
  entry ← cache_lookup (rt_gw rt);
  match entry with
  | Some a =>
      packet ← wrn packet Eth.dhost (ae_mac a);
      ttl ← rd8 packet (ip_at + Ip.ttl);
      packet ← wr8 packet (ip_at + Ip.ttl) (ttl - 1);
      packet ← renew_cksum packet (ip_at + Ip.sum) ip_at Ip.size;
      _ ← sr_send_packet e packet len (rt_interface rt);
      mret tt
  | None =>
      r ← sr_arpcache_queuereq (rt_gw rt) (Some packet) len (Some (rt_interface rt));
      handle r
  end.

(** An IP packet arrived. *)
Definition handle_ip (packet : bytes) (len : Z) : M sr_instance unit :=
  let len_r := len - Z.of_nat Eth.size in
  if len_r <? Z.of_nat Ip.size then mret tt
  else
    v ← rd_ip_v packet ip_at;
    if negb (v =? 0x4) then mret tt
    else
      ok ← verify_cksum packet (ip_at + Ip.sum) ip_at Ip.size;
      match ok with
      | None => mret tt
      | Some packet =>
          dst ← rd32 packet (ip_at + Ip.dst);
          ifc ← gets (fun sr => find_own_ip (sr_if_list sr) dst);
          src ← rd32 packet (ip_at + Ip.src);
          if ip_black_list src then mret tt
          else
            match ifc with
            | Some _ =>
                p ← rd8 packet (ip_at + Ip.p);
                if p =? ip_protocol_icmp then handle_icmp packet len
                else if (p =? ip_protocol_tcp) || (p =? ip_protocol_udp) then handle_tcp_udp packet len
                else mret tt
            | None =>
                rt ← find_route dst;
                match rt with
                | Some rt =>
                    ttl ← rd8 packet (ip_at + Ip.ttl);
                    if ttl =? 1 then handle_ttl_expired packet len
                    else forward_packet packet len rt
                | None => handle_no_route packet len
                end
            end
      end.

(* ------------------------------------------------------------------ *)
(** * ARP packets *)

(** A request for the address of [ifc]: reply to its sender. *)
Definition handle_arp_request (packet : bytes) (rt : sr_rt) (ifc : sr_if) : M sr_instance unit :=
  let new_len := (Eth.size + Arp.size)%nat in
  let b := zeros new_len in
  b ← wr16 b (Eth.size + Arp.hrd) (htons 0x0001);
  b ← wr16 b (Eth.size + Arp.pro) (htons ethertype_ip);
  b ← wr8 b (Eth.size + Arp.hln) 0x06;
  b ← wr8 b (Eth.size + Arp.pln) 0x04;
  b ← wr16 b (Eth.size + Arp.op) (htons arp_op_reply);
  b ← wrn b (Eth.size + Arp.sha) (if_addr ifc);
  tip0 ← rd32 packet (Eth.size + Arp.tip);
  b ← wr32 b (Eth.size + Arp.sip) tip0;
  sha0 ← rdn packet (Eth.size + Arp.sha) ETHER_ADDR_LEN;
  b ← wrn b (Eth.size + Arp.tha) sha0;
  sip0 ← rd32 packet (Eth.size + Arp.sip);
  b ← wr32 b (Eth.size + Arp.tip) sip0;
  s ← rdn b (Eth.size + Arp.sha) ETHER_ADDR_LEN;
  b ← wrn b Eth.shost s;
  d ← rdn b (Eth.size + Arp.tha) ETHER_ADDR_LEN;
  b ← wrn b Eth.dhost d;
  b ← wr16 b Eth.type (htons ethertype_arp);
  _ ← sr_send_packet e b (Z.of_nat new_len) (rt_interface rt);
  mret tt.

(** One packet that waited for the reply: destination MAC, TTL unless the
    packet is the router's own, send. *)
Definition send_waiting (sha0 : bytes) (walk : sr_packet) : M sr_instance unit :=
  b ← wrn (pk_buf walk) Eth.dhost sha0;
  dst ← rd32 b (ip_at + Ip.dst);
  rt ← find_route dst;
  rt ← deref rt;
  _ ← sr_get_interface (rt_interface rt);
  ttl ← rd8 b (ip_at + Ip.ttl);
  b ← (if negb (ttl =? INIT_TTL) then
         b ← wr8 b (ip_at + Ip.ttl) (ttl - 1);
         renew_cksum b (ip_at + Ip.sum) ip_at Ip.size
       else mret b);
  _ ← sr_send_packet e b (pk_len walk) (pk_iface walk);
  mret tt.

(** A reply: learn the mapping, send what waited for it. *)
Definition handle_arp_reply (packet : bytes) : M sr_instance unit :=
  sip0 ← rd32 packet (Eth.size + Arp.sip);
  req ← sr_arpcache_insert e (drop (Eth.size + Arp.sha) packet) sip0;
  match req with
  | Some r =>
      q ← load_cur r;
      _ ← mfor (aq_packets q) (fun walk =>
            sha0 ← rdn packet (Eth.size + Arp.sha) ETHER_ADDR_LEN;
            send_waiting sha0 walk);
      sr_arpreq_destroy (Some r)
  | None => mret tt
  end.

(** An ARP packet arrived: the route to the target address is dereferenced
    without a test. *)
Definition handle_arp (packet : bytes) (len : Z) : M sr_instance unit :=
  let len_r := len - Z.of_nat Eth.size in
  if len_r <? Z.of_nat Arp.size then mret tt
  else
    tip ← rd32 packet (Eth.size + Arp.tip);
    rt ← find_route tip;
    rt ← deref rt;
    ifc ← sr_get_interface (rt_interface rt);
    ifc ← deref ifc;
    if tip =? if_ip ifc then
      op ← rd16 packet (Eth.size + Arp.op);
      if op =? htons arp_op_request then handle_arp_request packet rt ifc
      else if op =? htons arp_op_reply then handle_arp_reply packet
      else mret tt
    else mret tt.

(** [void sr_handlepacket(sr, packet, len, interface)] *)
Definition handle_frame (packet : bytes) (len : Z) (interface : bytes) : M sr_instance unit :=
  if len <? Z.of_nat Eth.size then mret tt
  else
    ty ← rd16 packet Eth.type;
    if ty =? htons ethertype_ip then handle_ip packet len
    else if ty =? htons ethertype_arp then handle_arp packet len
    else mret tt.
End router.

(** Nothing happens between queueing a packet and handling its request. *)
Definition sr_handlepacket (e : env) (fuel : nat) (packet : bytes) (len : Z) (interface : bytes) : M sr_instance unit :=
  handle_frame e (sr_arpcache_handle_arpreq e fuel) packet len interface.
