(* ===== verification/SrRouterFacts.v ===== *)
(** Rules for the branches of [sr_handlepacket], the specification of what
    they send, and the invariant of the whole packet handler. *)

From S2P Require Import Prelude Bytes Checksum SrState SrIf SrRt SrDumper SrSend SrArpcache SrArpreq.
From S2P Require Import SrPackets SrArpFacts SrRouter.

(** A frame as it comes from the VNS client, which bounds its length. *)
Definition frame_ok (p : bytes) : Prop := wf_bytes p /\ blen p <= 10000.

(* ------------------------------------------------------------------ *)
(** * Checksum steps *)

(** The code accepts the checksum at [o] over the [n] bytes from [base]. *)
Definition verified (b : bytes) (o base n : nat) : Prop :=
  cksum_accepts (slice b base n) /\ get16 b o <> 0.

Section rules.
Context {S : Type} (F : fault -> Prop).

Lemma get16_slice b o base n :
  (base <= o)%nat -> (o + 2 <= base + n)%nat -> get16 (slice b base n) (o - base) = get16 b o.
Proof.
  intros. unfold get16. rewrite !get8_slice by lia.
  by replace (base + (o - base))%nat with o by lia; replace (base + (o - base + 1))%nat with (o + 1)%nat by lia.
Qed.

Lemma wlp_verify_cksum b o base n (Q : option bytes -> S -> Prop) s :
  wf_bytes b -> (base + n <= length b)%nat -> (base <= o)%nat -> (o + 2 <= base + n)%nat ->
  Nat.even (o - base) = true -> Z.of_nat n <= 131072 ->
  (verified b o base n -> Q (Some b) s) -> (~ verified b o base n -> Q None s) ->
  wlp F (verify_cksum b o base n) Q s.
Proof.
  intros Hwf Hl Hbo Hon He Hn Hy Hno.
  assert (Hsl : length (slice b base n) = n) by (by apply length_slice).
  unfold verify_cksum, cksum_at. wstep. apply wlp_rd16; [lia|]. wstep.
  apply wlp_wrn; [simpl; lia|]. do 2 wstep. apply wlp_rdn; [rewrite length_upd; simpl; lia|]. wstep.
  rewrite slice_upd_in by (simpl; lia).
  pose proof (cksum_verify_iff (slice b base n) (o - base)) as Hv.
  rewrite get16_slice in Hv by lia.
  destruct Hv as [Hv1 Hv2]; [split; [auto with bytes|unfold blen; lia]|done|lia|].
  destruct (Z.eqb_spec (get16 b o) (cksum (upd (slice b base n) (o - base) (le16 0)))) as [Heq|Hne]; simpl.
  - wstep. apply wlp_wrn; [rewrite length_upd; simpl; lia|]. wstep.
    rewrite upd_upd by (simpl; lia). rewrite upd_get16 by (done || lia). apply Hy, Hv1. by symmetry.
  - wstep. apply Hno. intros H%Hv2. congruence.
Qed.

Lemma wlp_renew_cksum b o base n (Q : bytes -> S -> Prop) s :
  wf_bytes b -> (base + n <= length b)%nat -> (base <= o)%nat -> (o + 2 <= base + n)%nat ->
  Nat.even (o - base) = true -> Z.of_nat n <= 131072 ->
  (forall b', wf_bytes b' -> same_but o b b' -> cksum_accepts (slice b' base n) -> Q b' s) ->
  wlp F (renew_cksum b o base n) Q s.
Proof.
  intros Hwf Hl Hbo Hon He Hn HQ. unfold renew_cksum. wstep.
  apply wlp_wrn; [simpl; lia|].
  assert (Hu : length (upd b o (le16 0)) = length b) by (apply length_upd; simpl; lia).
  apply wlp_cksum_store; [auto with bytes|lia|done|done|done|done|apply get16_upd_eq; lia|].
  intros b' Hwf' [Hlen Hsame] Hck. apply HQ; [done| |done].
  split; [lia|]. intros i Hi. rewrite Hsame by done. apply get8_upd_ne; simpl; lia.
Qed.
End rules.

(* ------------------------------------------------------------------ *)
(** * Forwarding a packet that waited *)

(** [f] is the packet [b] as it is sent to [mac]: only the destination address
    changes, and the TTL and header checksum unless the TTL is 255. *)
Record released (mac b f : bytes) : Prop := {
  rl_len : length f = length b;
  rl_dhost : slice f 0 6 = mac;
  rl_rest : forall i, (6 <= i)%nat -> (i <> 22 /\ i <> 24 /\ i <> 25)%nat -> get8 f i = get8 b i;
  rl_own : get8 b 22 = 255 -> get8 f 22 = 255 /\ get16 f 24 = get16 b 24;
  rl_ttl : get8 b 22 <> 255 -> get8 f 22 = u8 (get8 b 22 - 1) /\ cksum_accepts (slice f 14 20);
}.

(** The packets leave one after the other, each on the interface it waits for. *)
Inductive flushed (mac : bytes) : list sr_packet -> sr_instance -> sr_instance -> Prop :=
  | flushed_nil s : flushed mac [] s s
  | flushed_cons p l f s1 s2 s3 :
      released mac (pk_buf p) f -> sent s1 (pk_iface p) f s2 -> flushed mac l s2 s3 ->
      flushed mac (p :: l) s1 s3.

Lemma flushed_tables mac l s s' : flushed mac l s s' -> same_tables s s'.
Proof.
  induction 1 as [|p l f s1 s2 s3 _ [Ht _] _ IH]; [apply same_tables_refl|].
  by eapply same_tables_trans.
Qed.

(** [f] is the packet [p] as forwarded between these two addresses. *)
Record forwarded (dmac smac p f : bytes) : Prop := {
  fw_len : length f = length p;
  fw_dhost : slice f 0 6 = dmac;
  fw_shost : slice f 6 6 = smac;
  fw_ttl : get8 f 22 = u8 (get8 p 22 - 1);
  fw_rest : forall i, (12 <= i)%nat -> (i <> 22 /\ i <> 24 /\ i <> 25)%nat -> get8 f i = get8 p i;
  fw_cksum : cksum_accepts (slice f 14 20);
}.

(** [f] is the echo reply to the echo request [p], up to its Ethernet addresses. *)
Record echo_reply (p f : bytes) : Prop := {
  er_len : length f = length p;
  er_ttl : get8 f 22 = 255;
  er_src : get32 f 26 = get32 p 30;
  er_dst : get32 f 30 = get32 p 26;
  er_type : get8 f 34 = 0;
  er_ip_cksum : cksum_accepts (slice f 14 20);
  er_icmp_cksum : cksum_accepts (slice f 34 (length f - 34));
  er_rest : forall i, (12 <= i < 22 \/ i = 23 \/ i = 35 \/ 38 <= i)%nat -> get8 f i = get8 p i;
}.

(** [f] is [b] with its Ethernet addresses filled in. *)
Record framed (dmac smac b f : bytes) : Prop := {
  fr_len : length f = length b;
  fr_dhost : slice f 0 6 = dmac;
  fr_shost : slice f 6 6 = smac;
  fr_rest : forall i, (12 <= i)%nat -> get8 f i = get8 b i;
}.

Section framed.
Context (dmac smac b f : bytes) (H : framed dmac smac b f).

Lemma framed_get16 i : (12 <= i)%nat -> get16 f i = get16 b i.
Proof. intros. unfold get16. by rewrite !(fr_rest _ _ _ _ H) by lia. Qed.
Lemma framed_get32 i : (12 <= i)%nat -> get32 f i = get32 b i.
Proof. intros. unfold get32. by rewrite !framed_get16 by lia. Qed.
Lemma framed_slice i n : (12 <= i)%nat -> (i + n <= length b)%nat -> slice f i n = slice b i n.
Proof.
  intros. apply slice_ext; rewrite ?(fr_len _ _ _ _ H); try done.
  intros j Hj. apply (fr_rest _ _ _ _ H). lia.
Qed.

Lemma framed_icmp_error p src type code :
  (70 <= length b)%nat -> icmp_error_for p b src type code -> icmp_error_for p f src type code.
Proof.
  intros Hl [].
  assert (Hb : blen f = blen b) by (unfold blen; by rewrite (fr_len _ _ _ _ H)).
  split; rewrite ?(fr_len _ _ _ _ H), ?(fr_rest _ _ _ _ H), ?framed_get16, ?framed_get32, ?framed_slice by lia;
    rewrite ?Hb; done.
Qed.

Lemma framed_echo_reply p : (38 <= length b)%nat -> echo_reply p b -> echo_reply p f.
Proof.
  intros Hl []. split; rewrite ?(fr_len _ _ _ _ H), ?(fr_rest _ _ _ _ H), ?framed_get16, ?framed_get32, ?framed_slice by lia;
    try done.
  intros i Hi. rewrite (fr_rest _ _ _ _ H) by lia. auto.
Qed.
End framed.

Section handlers.
Context (F : fault -> Prop) (e : env) (handle : nat -> M sr_instance unit).
Context (ifs : list sr_if) (rts : list sr_rt) (Hifs : Forall iface_ok ifs).
Abbreviation rinv := (rinv ifs rts).
Abbreviation lenient := (lenient F).

Lemma wlp_send_waiting mac p s (Q : unit -> sr_instance -> Prop) :
  mac_ok mac -> packet_ok p -> addressed ifs p -> sr_if_list s = ifs ->
  (sr_findLPMentry (sr_routing_table s) (get32 (pk_buf p) 30) = None -> F NullDeref) ->
  (forall f s', released mac (pk_buf p) f -> sent s (pk_iface p) f s' -> Q tt s') ->
  wlp F (send_waiting e mac p) Q s.
Proof.
  intros [Hm Hmw] (Hlen & Hsz & Hwf & _) (i & Hi & Hsrc) Hs Hnull HQ.
  assert (L : (34 <= length (pk_buf p))%nat) by (unfold blen in Hsz; lia).
  set (n := length (pk_buf p)) in *. assert (L0 : length (pk_buf p) = n) by done. clearbody n.
  assert (Hsend : forall f r s', released mac (pk_buf p) f -> transmitted s (pk_iface p) f s' -> Q r s').
  { intros f [] s' Hf Ht. apply (HQ f); [done|]. eapply transmitted_own; [exact Ht|by rewrite Hs|].
    rewrite <- Hsrc. apply slice_ext; rewrite ?(rl_len _ _ _ Hf); try lia.
    intros j Hj. apply (rl_rest _ _ _ Hf); lia. }
  unfold send_waiting, find_route, sr_get_interface. autounfold with offsets. unfold ip_at, Eth.size, Ip.size. cbn [Nat.add].
  do 2 pstep. pstep. pstep. do 2 wstep. wstep. wstep.
  replace (get32 b 30) with (get32 (pk_buf p) 30) by (by peels).
  destruct (sr_findLPMentry _ _) as [rt|]; [|auto]. wstep. wstep. pstep. pstep.
  pose proof (wf_get8 (pk_buf p) 22 Hwf) as Hb22. unfold is_byte in Hb22.
  assert (H22 : get8 b 22 = get8 (pk_buf p) 22) by (by peels). rewrite H22.
  rewrite Hlen. unfold INIT_TTL.
  destruct (Z.eqb_spec (get8 (pk_buf p) 22) 255) as [Httl|Httl]; simpl negb; cbn iota.
  - pstep. pstep. pstep. replace (blen (pk_buf p)) with (blen b) by (unfold blen; lia).
    apply wlp_transmit; [unfold blen in *; lia|]. intros x s' Ht. wstep.
    eapply Hsend; [|done]. split; [lia|by peels|..].
    + intros j Hj _. by peels.
    + intros _. split; [lia|by peels].
    + done.
  - pstep. pstep. pstep. apply wlp_renew_cksum; try lia; [done|done|].
    intros b' Wb' Hb' Hck. pose proof (proj1 Hb') as Lb'.
    pstep. replace (blen (pk_buf p)) with (blen b') by (unfold blen; lia).
    apply wlp_transmit; [unfold blen in *; lia|]. intros x s' Ht. wstep.
    eapply Hsend; [|done]. split; [lia|by fields Hb'|..].
    + intros j Hj1 Hj2. rewrite (proj2 Hb') by lia. by peels.
    + done.
    + intros _. split; [|done]. by fields Hb'.
Qed.

(** Everything that waited for a mapping is sent when it arrives. *)
Lemma wlp_flush packet q s (Q : unit -> sr_instance -> Prop) :
  mac_ok (slice packet 22 6) -> (28 <= length packet)%nat ->
  Forall packet_ok (aq_packets q) -> Forall (addressed ifs) (aq_packets q) ->
  sr_if_list s = ifs -> sr_routing_table s = rts ->
  Forall (fun p => sr_findLPMentry rts (get32 (pk_buf p) 30) = None -> F NullDeref) (aq_packets q) ->
  (forall s', flushed (slice packet 22 6) (aq_packets q) s s' -> Q tt s') ->
  wlp F (mfor (aq_packets q) (fun walk =>
            sha0 ← rdn packet (Eth.size + Arp.sha) ETHER_ADDR_LEN;
            send_waiting e sha0 walk)) Q s.
Proof.
  change (Eth.size + Arp.sha)%nat with 22%nat. change ETHER_ADDR_LEN with 6%nat.
  intros Hm Hl Hok Had. revert s. induction (aq_packets q) as [|p l IH]; intros s Hs Hr Hnull HQ; cbn [mfor].
  - wstep. apply HQ. constructor.
  - apply Forall_cons in Hok as [Hp Hok]. apply Forall_cons in Had as [Ha Had].
    apply Forall_cons in Hnull as [Hn Hnull].
    wstep. wstep. apply wlp_rdn; [lia|].
    apply wlp_send_waiting; try done; [by rewrite Hr|].
    intros f s' Hf Hs'. pose proof Hs' as [(E1 & E2 & _) _]. apply IH; [done|done|congruence|congruence|done|].
    intros s'' Hfl. apply HQ. by econstructor.
Qed.

(* ------------------------------------------------------------------ *)
(** * Dispatch *)

(** An IPv4 frame the router goes on with: long enough, header checksum
    right, source not blacklisted. *)
Record ip_frame (p : bytes) : Prop := {
  if_frame : frame_ok p;
  if_size : 34 <= blen p;
  if_type : get16 p 12 = htons ethertype_ip;
  if_v4 : Z.shiftr (get8 p 14) 4 = 4;
  if_cksum : verified p 24 14 20;
  if_source : ip_black_list (get32 p 26) = false;
}.

Lemma wlp_handle_ip p iface (Q : unit -> sr_instance -> Prop) s :
  ip_frame p ->
  wlp F (match find_own_ip (sr_if_list s) (get32 p 30) with
         | Some _ =>
             if get8 p 23 =? ip_protocol_icmp then handle_icmp e handle p (blen p)
             else if (get8 p 23 =? ip_protocol_tcp) || (get8 p 23 =? ip_protocol_udp)
                  then handle_tcp_udp e handle p (blen p) else mret tt
         | None =>
             match sr_findLPMentry (sr_routing_table s) (get32 p 30) with
             | Some rt =>
                 if get8 p 22 =? 1 then handle_ttl_expired e handle p (blen p)
                 else forward_packet e handle p (blen p) rt
             | None => handle_no_route e handle p (blen p)
             end
         end) Q s ->
  wlp F (handle_frame e handle p (blen p) iface) Q s.
Proof.
  intros [[Hwf Hmax] Hsz Hty Hv Hck Hbl] HQ. unfold handle_frame, handle_ip, rd_ip_v, find_route.
  unfold ip_at. autounfold with offsets. cbn [Nat.add].
  assert (L : (34 <= length p)%nat) by (unfold blen in Hsz; lia).
  destruct (Z.ltb_spec (blen p) (Z.of_nat 14)); [lia|]. do 2 pstep. rewrite Hty, Z.eqb_refl.
  destruct (Z.ltb_spec (blen p - Z.of_nat 14) (Z.of_nat 20)); [lia|].
  wstep. do 3 pstep. rewrite Hv. simpl negb. cbn iota. wstep.
  apply wlp_verify_cksum; try done; try lia. intros _. repeat pstep.
  wstep. wstep. repeat pstep. rewrite Hbl.
  destruct (find_own_ip _ _); [do 2 pstep; exact HQ|]. wstep. wstep.
  destruct (sr_findLPMentry _ _); [|exact HQ]. do 2 pstep. exact HQ.
Qed.

(* ------------------------------------------------------------------ *)
(** * Branches *)

(** Forwarding to a known gateway. *)
Lemma wlp_forward_hit p rt i a s (Q : unit -> sr_instance -> Prop) :
  wf_bytes p -> 34 <= blen p <= 10000 ->
  find_interface (sr_if_list s) (rt_interface rt) = Some i -> iface_ok i ->
  sr_arpcache_lookup (sr_cache s) (rt_gw rt) = Some a -> mac_ok (ae_mac a) ->
  (forall f s', forwarded (ae_mac a) (if_addr i) p f -> sent s (rt_interface rt) f s' -> Q tt s') ->
  wlp F (forward_packet e handle p (blen p) rt) Q s.
Proof.
  intros Wf Hsz Hi [[Hal Haw] _] Ha [Hml Hmw] HQ.
  unfold forward_packet, sr_get_interface, cache_lookup. unfold ip_at. autounfold with offsets. cbn [Nat.add].
  unfold blen in Hsz. set (n := length p) in *. assert (Ln : length p = n) by done.
  replace (blen p) with (Z.of_nat n) by done. clearbody n.
  do 2 wstep. rewrite Hi. repeat pstep. wstep. rewrite Ha. repeat pstep.
  apply wlp_renew_cksum; try lia; [done|done|]. intros f Wff Hf Hck. pose proof (proj1 Hf) as Lf.
  pstep. replace (Z.of_nat n) with (blen f) by (unfold blen; lia).
  apply wlp_transmit; [unfold blen; lia|]. intros x s' Ht. wstep. 
  assert (Hsh : slice f 6 6 = if_addr i) by (by fields Hf).
  apply (HQ f).
  - split; [lia|by fields Hf|done|by fields Hf| |done].
    intros j Hj1 Hj2. rewrite (proj2 Hf) by lia. by peels.
  - by eapply transmitted_own.
Qed.

(** Forwarding to a gateway whose address must be asked for. *)
Lemma wlp_forward_miss p rt i s (Q : unit -> sr_instance -> Prop) :
  wf_bytes p -> 34 <= blen p <= 10000 ->
  find_interface (sr_if_list s) (rt_interface rt) = Some i -> iface_ok i ->
  sr_arpcache_lookup (sr_cache s) (rt_gw rt) = None -> cache_ok (sr_cache s) ->
  (forall r c', queued (sr_cache s) (rt_gw rt)
       (mk_packet (upd p 6 (if_addr i)) (blen p) (strncpy (rt_interface rt) sr_IFACE_NAMELEN)) r c' ->
     wlp F (handle r) Q (set_cache c' s)) ->
  wlp F (forward_packet e handle p (blen p) rt) Q s.
Proof.
  intros Wf Hsz Hi [[Hal Haw] _] Ha Hok HQ.
  unfold forward_packet, sr_get_interface, cache_lookup. change Eth.shost with 6%nat.
  do 2 wstep. rewrite Hi. wstep. wstep. wstep. apply wlp_wrn; [unfold blen in Hsz; lia|].
  do 2 wstep. rewrite Ha. wstep.
  assert (Hl : blen (upd p 6 (if_addr i)) = blen p).
  { unfold blen in *. rewrite length_upd; lia. }
  rewrite <- Hl in *. apply wlp_queuereq; [done|lia|]. exact HQ.
Qed.

(** Building an echo reply. *)
Lemma wlp_make_echo_reply {S} p (Q : bytes -> S -> Prop) s :
  wf_bytes p -> 38 <= blen p <= 10000 ->
  (forall f, wf_bytes f -> echo_reply p f -> Q f s) ->
  wlp F (make_echo_reply p (blen p)) Q s.
Proof.
  intros Wf Hsz HQ. unfold make_echo_reply. unfold ip_at, l4_at. autounfold with offsets. cbn [Nat.add].
  unfold blen in *. set (n := length p) in *. assert (Ln : length p = n) by done. clearbody n.
  replace (Z.to_nat (Z.of_nat n - 34)) with (n - 34)%nat by lia.
  pose proof (wf_get32 p 26 Wf) as R1. pose proof (wf_get32 p 30 Wf) as R2.
  repeat pstep.
  assert (H26 : get32 b 26 = get32 p 26) by (by peels). assert (H30 : get32 b 30 = get32 p 30) by (by peels).
  rewrite H26, H30 in *.
  apply wlp_renew_cksum; try lia; [done|done|]. intros f1 Wf1 Hf1 Hck1. pose proof (proj1 Hf1) as Lf1.
  rewrite L1 in Lf1. repeat pstep.
  apply wlp_renew_cksum; try lia; [done|done|]. intros f2 Wf2 Hf2 Hck2. pose proof (proj1 Hf2) as Lf2.
  apply HQ; [done|]. split.
  - lia.
  - fields Hf2. fields Hf1.
  - fields Hf2. by fields Hf1.
  - fields Hf2. by fields Hf1.
  - by fields Hf2.
  - by fields Hf2.
  - by rewrite Lf2, L2.
  - intros j Hj. rewrite (proj2 Hf2) by lia. peel. rewrite (proj2 Hf1) by lia. by peels.
Qed.

(** An answer whose gateway's address is known goes out at once. *)
Lemma wlp_answer_hit b rt ifc a s (Q : unit -> sr_instance -> Prop) :
  34 <= blen b < 2 ^ 31 -> iface_ok ifc -> mac_ok (ae_mac a) ->
  find_interface (sr_if_list s) (rt_interface rt) = Some ifc ->
  sr_arpcache_lookup (sr_cache s) (rt_gw rt) = Some a ->
  (forall f s', framed (ae_mac a) (if_addr ifc) b f -> sent s (rt_interface rt) f s' -> Q tt s') ->
  wlp F (resolve_and_send e handle b (blen b) rt ifc) Q s.
Proof.
  intros Hb Hi Hm Hfi Ha HQ. apply wlp_resolve_hit with (a := a); try done.
  intros s' Ht. pose proof (resolve_len b ifc Hb Hi) as Hl. destruct Hi as [[Hal Haw] _].
  destruct Hm as [Hml _]. unfold blen in Hb.
  eapply HQ; [split|eapply transmitted_own; [exact Ht|done|]].
  - rewrite length_upd; lia.
  - apply slice_upd_same; lia.
  - rewrite slice_upd_ne by lia. apply slice_upd_same; lia.
  - intros i Hi. by rewrite !get8_upd_ne by lia.
  - rewrite slice_upd_ne by lia. apply slice_upd_same; lia.
Qed.

(** The route to the source decides where an ICMP error goes. *)
Lemma wlp_send_icmp_error n p type code s (Q : unit -> sr_instance -> Prop) :
  wf_bytes p -> 42 <= blen p -> (70 <= n <= 1500)%nat -> is_byte type -> is_byte code ->
  Forall iface_ok (sr_if_list s) ->
  (sr_findLPMentry (sr_routing_table s) (get32 p 26) = None -> F NullDeref) ->
  (forall rt, sr_findLPMentry (sr_routing_table s) (get32 p 26) = Some rt ->
     find_interface (sr_if_list s) (rt_interface rt) = None -> F NullDeref) ->
  (forall rt ifc b, sr_findLPMentry (sr_routing_table s) (get32 p 26) = Some rt ->
     find_interface (sr_if_list s) (rt_interface rt) = Some ifc -> iface_ok ifc ->
     wf_bytes b -> length b = n -> icmp_error_for p b (if_ip ifc) type code ->
     wlp F (resolve_and_send e handle b (blen b) rt ifc) Q s) ->
  wlp F (send_icmp_error e handle n p type code) Q s.
Proof.
  intros Wf Hsz Hn Ht Hc Hio Hnr Hni HQ. unfold send_icmp_error, find_route, sr_get_interface.
  change (ip_at + Ip.src)%nat with 26%nat. unfold blen in Hsz. pstep. pstep. wstep. wstep. wstep. wstep.
  destruct (sr_findLPMentry _ _) as [rt|] eqn:Ert; [|auto]. wstep. wstep. wstep. wstep.
  destruct (find_interface _ _) as [ifc|] eqn:Ei; [|eauto]. wstep.
  pose proof (find_interface_ok _ _ _ Hio Ei) as Hif.
  apply wlp_icmp_error; try done; [lia|apply Hif|].
  intros b Wb Lb Hie. rewrite <- Lb. by eapply HQ.
Qed.

(** An ARP reply: learn, send what waited, drop the request. *)
Lemma wlp_handle_arp_reply p s (Q : unit -> sr_instance -> Prop) :
  rinv s -> wf_bytes p -> 42 <= blen p ->
  (forall r q, ac_heap (sr_cache s) !! r = Some q -> aq_ip q = get32 p 28 ->
     Forall (fun w => sr_findLPMentry rts (get32 (pk_buf w) 30) = None -> F NullDeref) (aq_packets q)) ->
  (forall o s', req_found (sr_cache s) (ac_requests (sr_cache s)) (get32 p 28) o ->
     flushed (slice p 22 6) (match o ≫= (fun r => ac_heap (sr_cache s) !! r) with
                             | Some q => aq_packets q | None => [] end)
       (set_cache (learned e (slice p 22 6) (get32 p 28) o (sr_cache s)) s) s' ->
     Q tt (set_cache (learned_done e (slice p 22 6) (get32 p 28) o (sr_cache s)) s')) ->
  wlp F (handle_arp_reply e p) Q s.
Proof.
  clear handle. intros Hs Wp Hsz Hnull HQ. unfold handle_arp_reply. change (Eth.size + Arp.sha)%nat with 22%nat.
  change (Eth.size + Arp.sip)%nat with 28%nat. change ETHER_ADDR_LEN with 6%nat.
  assert (L : (42 <= length p)%nat) by (unfold blen in Hsz; lia).
  pstep. pstep. wstep. apply wlp_arpcache_insert; [apply Hs|rewrite length_drop; lia|].
  replace (slice (drop 22 p) 0 6) with (slice p 22 6) by done.
  assert (Hm : mac_ok (slice p 22 6)) by (split; [apply length_slice; lia|auto with bytes]).
  destruct Hs as [H1 H2 H3 H4]. intros o Ho. specialize (HQ o).
  destruct o as [r|].
  2:{ wstep. specialize (HQ (set_cache (learned e (slice p 22 6) (get32 p 28) None (sr_cache s)) s)).
      apply HQ; [done|constructor]. }
  destruct Ho as [Hr (q & Hq & Hip)]. simpl in HQ. rewrite Hq in HQ.
  wstep. apply wlp_load_cur. simpl. rewrite Hq.
  pose proof (co_packets _ H3 _ _ Hq) as [_ Hpk]. wstep.
  apply (wlp_flush p q); try done; [lia|by eapply H4|by eapply Hnull|].
  intros s1 Hfl. pose proof (flushed_tables _ _ _ _ Hfl) as (E1 & E2 & E3 & _). simpl in E1, E2, E3.
  unfold sr_arpreq_destroy, load_req. wstep. wstep. rewrite E3. simpl. rewrite Hq. do 2 wstep. wstep.
  rewrite unlink_notin.
  2:{ rewrite elem_of_unlink by apply H3. naive_solver. }
  apply HQ; [|done]. split; [done|]. eauto.
Qed.

Lemma wlp_handle_arp_request p rt ifc s (Q : unit -> sr_instance -> Prop) :
  wf_bytes p -> 42 <= blen p -> iface_ok ifc ->
  (forall b s', arp_frame_for b (slice p 22 6) (if_addr ifc) arp_op_reply (if_addr ifc) (get32 p 38)
       (slice p 22 6) (get32 p 28) -> transmitted s (rt_interface rt) b s' -> Q tt s') ->
  wlp F (handle_arp_request e p rt ifc) Q s.
Proof.
  intros Wp Hsz [[Hal Haw] _] HQ. unfold handle_arp_request. autounfold with offsets. cbn [Nat.add].
  assert (L : (42 <= length p)%nat) by (unfold blen in Hsz; lia).
  pose proof (wf_zeros 42) as Wz. pose proof (length_zeros 42) as Lz.
  pose proof (length_slice p 22 6 ltac:(lia)) as Ls.
  pose proof (wf_get32 p 38 Wp) as R1. pose proof (wf_get32 p 28 Wp) as R2.
  repeat pstep.
  assert (Hs1 : slice b7 22 6 = if_addr ifc) by (by peels). rewrite Hs1.
  repeat pstep.
  assert (Hs2 : slice b8 32 6 = slice p 22 6) by (by peels). rewrite Hs2.
  repeat pstep. replace (Z.of_nat 42) with (blen b10) by (unfold blen; lia).
  apply wlp_transmit; [unfold blen; lia|]. intros x s' Ht. wstep. apply (HQ b10); [|done].
  split; [done|..]; by peels.
Qed.

(* ------------------------------------------------------------------ *)
(** * The invariant of the packet handler *)

Section invariant.
Context (Htot : lenient \/ routes_total ifs rts) (limit : Z) (Hlimit : 0 < limit <= 5).
Abbreviation calm := (calm F limit).
Abbreviation keeps m s := (wlp F m (fun _ s' => rinv s') s).
(** The call that ends a branch keeps the invariant for a request in the queue. *)
Context (Hhandle : forall r s, rinv s -> calm s -> r ∈ ac_requests (sr_cache s) -> keeps (handle r) s).

Lemma answer_keeps b rt ifc s :
  rinv s -> calm s -> 34 <= blen b < 2 ^ 31 -> wf_bytes b -> iface_ok ifc ->
  find_interface (sr_if_list s) (rt_interface rt) = Some ifc ->
  keeps (resolve_and_send e handle b (blen b) rt ifc) s.
Proof.
  intros Hs Hc Hb Wb Hi Hf. eapply resolve_and_send_inv; try done. by rewrite <- (ri_ifs _ _ _ Hs).
Qed.

Lemma send_icmp_error_keeps n p type code s :
  rinv s -> calm s -> wf_bytes p -> 42 <= blen p -> (70 <= n <= 1500)%nat -> is_byte type -> is_byte code ->
  keeps (send_icmp_error e handle n p type code) s.
Proof.
  intros Hs Hc Wp Hsz Hn Ht Hcd. apply wlp_send_icmp_error; try done.
  - by rewrite (ri_ifs _ _ _ Hs).
  - by eapply route_null.
  - intros rt Hrt. by eapply iface_null.
  - intros rt ifc b _ Hf Hi Wb Lb _. apply answer_keeps; try done. unfold blen. rewrite Lb. lia.
Qed.

Lemma handle_icmp_keeps p s :
  rinv s -> calm s -> frame_ok p -> 34 <= blen p -> keeps (handle_icmp e handle p (blen p)) s.
Proof.
  intros Hs Hc [Wp Hmax] Hsz. unfold handle_icmp, find_route, sr_get_interface.
  destruct (Z.ltb_spec (blen p - 34) (Z.of_nat Icmp.size)) as [|Hge]; [by wstep|].
  change (Z.of_nat Icmp.size) with 4 in Hge. unfold ip_at, l4_at. autounfold with offsets. cbn [Nat.add].
  assert (L : (38 <= length p)%nat) by (unfold blen in Hge; lia).
  repeat pstep. wstep; [|by wstep]. wstep.
  apply wlp_verify_cksum; unfold blen in *; try done; try lia.
  intros _. wstep. apply wlp_make_echo_reply; [done|unfold blen; lia|]. intros f Wf Hf.
  pose proof (er_len _ _ Hf) as Lf. pstep. pstep. wstep. wstep.
  wstep; [|by wstep]. do 4 wstep. destruct (find_interface _ _) as [ifc|] eqn:Ei; [|by eapply iface_null].
  rewrite <- Lf. apply answer_keeps; try done; [unfold blen; lia|].
  rewrite (ri_ifs _ _ _ Hs) in Ei. by eapply find_interface_ok.
Qed.

Lemma forward_keeps p rt s :
  rinv s -> calm s -> frame_ok p -> 34 <= blen p ->
  sr_findLPMentry (sr_routing_table s) (get32 p 30) = Some rt ->
  keeps (forward_packet e handle p (blen p) rt) s.
Proof.
  intros Hs Hc [Wp Hmax] Hsz Hrt.
  destruct (find_interface (sr_if_list s) (rt_interface rt)) as [i|] eqn:Ei.
  2:{ unfold forward_packet, sr_get_interface. wstep. wstep. wstep. wstep. rewrite Ei. by eapply iface_null. }
  pose proof (ri_ifs _ _ _ Hs) as HI. assert (Hi : iface_ok i) by (rewrite HI in Ei; by eapply find_interface_ok).
  destruct (sr_arpcache_lookup (sr_cache s) (rt_gw rt)) as [a|] eqn:Ea.
  - eapply wlp_forward_hit; try done; [eapply lookup_mac_ok; [apply Hs|done]|].
    intros f s' _ [Ht _]. by eapply rinv_tables.
  - eapply wlp_forward_miss; try done; [apply Hs|]. intros r c' Hq.
    pose proof (io_addr _ Hi) as [Hil Hiw].
    assert (Hl : length (upd p 6 (if_addr i)) = length p) by (apply length_upd; unfold blen in Hsz; lia).
    apply Hhandle.
    + eapply rinv_queued; [done| | |done]; simpl.
      * unfold packet_ok, blen in *; simpl. rewrite Hl. repeat split; try lia; [by apply wf_upd|apply length_strncpy].
      * exists i. simpl. rewrite find_interface_strncpy, <- HI. split; [done|].
        apply slice_upd_same; [done|unfold blen in Hsz; lia].
    + destruct Hc as [?|?]; [by left|right; by eapply queued_below; [lia|..]].
    + by eapply queued_in.
Qed.

Lemma handle_no_route_keeps p s :
  rinv s -> calm s -> frame_ok p -> 34 <= blen p -> keeps (handle_no_route e handle p (blen p)) s.
Proof.
  intros Hs Hc [Wp Hmax] Hsz. unfold handle_no_route.
  destruct (Z.ltb_spec (blen p - 34 + Z.of_nat Ip.size) (Z.of_nat ICMP_DATA_SIZE)) as [|Hge]; [by wstep|].
  change (Z.of_nat Ip.size) with 20 in Hge. change (Z.of_nat ICMP_DATA_SIZE) with 28 in Hge.
  unfold ip_at, l4_at. autounfold with offsets. cbn [Nat.add]. wstep.
  apply wlp_verify_cksum; unfold blen in *; try done; try lia.
  intros _. apply send_icmp_error_keeps; try done; unfold blen; lia.
Qed.

(** Both guards that compare with ICMP_DATA_SIZE. *)
Lemma guarded_error_keeps p type code s :
  rinv s -> calm s -> frame_ok p -> 34 <= blen p -> is_byte type -> is_byte code ->
  keeps (let len_r := blen p - 34 in
         if len_r + Z.of_nat Ip.size <? Z.of_nat ICMP_DATA_SIZE then mret tt
         else send_icmp_error e handle icmp_error_len p type code) s.
Proof.
  intros Hs Hc [Wp Hmax] Hsz Ht Hcd. cbv zeta. destruct (Z.ltb_spec (blen p - 34 + Z.of_nat Ip.size) (Z.of_nat ICMP_DATA_SIZE)) as [|Hge]; [by wstep|].
  change (Z.of_nat Ip.size) with 20 in Hge. change (Z.of_nat ICMP_DATA_SIZE) with 28 in Hge.
  apply send_icmp_error_keeps; try done; [lia|vm_compute; lia].
Qed.

Lemma find_own_ip_spec l ip i : find_own_ip l ip = Some i -> if_ip i = ip.
Proof. induction l as [|j l IH]; simpl; [done|]. destruct (Z.eqb_spec ip (if_ip j)); naive_solver. Qed.

Lemma ip_branches_keep p s :
  rinv s -> calm s -> frame_ok p -> 34 <= blen p ->
  keeps (match find_own_ip (sr_if_list s) (get32 p 30) with
         | Some _ =>
             if get8 p 23 =? ip_protocol_icmp then handle_icmp e handle p (blen p)
             else if (get8 p 23 =? ip_protocol_tcp) || (get8 p 23 =? ip_protocol_udp)
                  then handle_tcp_udp e handle p (blen p) else mret tt
         | None =>
             match sr_findLPMentry (sr_routing_table s) (get32 p 30) with
             | Some rt =>
                 if get8 p 22 =? 1 then handle_ttl_expired e handle p (blen p)
                 else forward_packet e handle p (blen p) rt
             | None => handle_no_route e handle p (blen p)
             end
         end) s.
Proof.
  intros Hs Hc Hp Hsz.
  destruct (find_own_ip _ _).
  - destruct (_ =? _); [by apply handle_icmp_keeps|]. destruct (_ || _); [|by wstep].
    by apply guarded_error_keeps.
  - destruct (sr_findLPMentry _ _) as [rt|] eqn:Er; [|by apply handle_no_route_keeps].
    destruct (_ =? _); [by apply guarded_error_keeps|by apply forward_keeps].
Qed.

Lemma handle_ip_keeps p s :
  rinv s -> calm s -> frame_ok p -> 14 <= blen p -> keeps (handle_ip e handle p (blen p)) s.
Proof.
  intros Hs Hc Hp Hsz. pose proof Hp as [Wp Hmax]. unfold handle_ip, rd_ip_v, find_route.
  destruct (Z.ltb_spec (blen p - Z.of_nat Eth.size) (Z.of_nat Ip.size)) as [|Hge]; [by wstep|].
  change (Z.of_nat Ip.size) with 20 in Hge. change (Z.of_nat Eth.size) with 14 in Hge.
  unfold ip_at. autounfold with offsets. cbn [Nat.add].
  assert (L : (34 <= length p)%nat) by (unfold blen in Hge; lia).
  wstep. do 3 pstep. wstep; [by wstep|]. wstep.
  apply wlp_verify_cksum; try done; try lia. intros _. repeat pstep. wstep. wstep. repeat pstep.
  wstep; [by wstep|]. pose proof (ip_branches_keep p s Hs Hc Hp ltac:(lia)) as Hk.
  destruct (find_own_ip _ _); [do 2 pstep; exact Hk|]. wstep. wstep.
  destruct (sr_findLPMentry _ _); [|exact Hk]. do 2 pstep. exact Hk.
Qed.

Lemma handle_arp_reply_keeps p s :
  rinv s -> wf_bytes p -> 42 <= blen p -> keeps (handle_arp_reply e p) s.
Proof.
  intros Hs Wp Hsz. apply wlp_handle_arp_reply; try done.
  - intros r q _ _. apply Forall_true. intros x Hn. destruct Htot as [Hl|Ht]; [apply Hl|].
    destruct (Ht (get32 (pk_buf x) 30)) as (? & ? & _). congruence.
  - intros o s1 _ (E1 & E2 & _)%flushed_tables. destruct Hs as [H1 H2 H3 H4]. simpl in *.
    assert (Hm : mac_ok (slice p 22 6)).
    { split; [apply length_slice; unfold blen in Hsz; lia|auto with bytes]. }
    split; simpl; try congruence; [by apply learned_done_ok|].
    intros r' q'. destruct o as [r|]; simpl; [rewrite lookup_delete_Some; intros [_ H]|intros H]; eauto.
Qed.

Lemma handle_arp_keeps p s :
  rinv s -> frame_ok p -> 14 <= blen p -> keeps (handle_arp e p (blen p)) s.
Proof.
  intros Hs [Wp Hmax] Hsz. unfold handle_arp, find_route, sr_get_interface.
  destruct (Z.ltb_spec (blen p - Z.of_nat Eth.size) (Z.of_nat Arp.size)) as [|Hge]; [by wstep|].
  change (Z.of_nat Arp.size) with 28 in Hge. change (Z.of_nat Eth.size) with 14 in Hge.
  autounfold with offsets. cbn [Nat.add]. assert (L : (42 <= length p)%nat) by (unfold blen in Hge; lia).
  repeat pstep. wstep. wstep. wstep. destruct (sr_findLPMentry _ _) as [rt|] eqn:Er; [|by eapply route_null].
  do 4 wstep. destruct (find_interface _ _) as [ifc|] eqn:Ei; [|by eapply iface_null].
  wstep; [|by wstep]. repeat pstep. wstep; [|wstep; [|by wstep]].
  - apply wlp_handle_arp_request; try done; [lia| |].
    + rewrite (ri_ifs _ _ _ Hs) in Ei. by eapply find_interface_ok.
    + intros b s' _ Ht%transmitted_tables. by eapply rinv_tables.
  - apply handle_arp_reply_keeps; try done. lia.
Qed.

(** Any frame. *)
Lemma frame_keeps p iface s :
  rinv s -> calm s -> frame_ok p -> keeps (handle_frame e handle p (blen p) iface) s.
Proof.
  intros Hs Hc Hp. unfold handle_frame.
  destruct (Z.ltb_spec (blen p) (Z.of_nat Eth.size)) as [|Hge]; [by wstep|].
  change (Z.of_nat Eth.size) with 14 in Hge. wstep. apply wlp_rd16; [change Eth.type with 12%nat; unfold blen in Hge; lia|].
  wstep; [by apply handle_ip_keeps|]. wstep; [by apply handle_arp_keeps|by wstep].
Qed.
End invariant.
End handlers.

(** [sr_handlepacket] on any frame. *)
Lemma handlepacket_keeps F e fuel ifs rts (Hifs : Forall iface_ok ifs) (Htot : lenient F \/ routes_total ifs rts)
    (Hroom : ~ roomy e -> F OutOfBounds) (Hfuel : lenient F \/ (0 < fuel)%nat) p iface s :
  rinv ifs rts s -> calm F 5 s -> frame_ok p ->
  wlp F (sr_handlepacket e fuel p (blen p) iface) (fun _ s' => rinv ifs rts s') s.
Proof.
  apply frame_keeps; [done|done|lia|]. intros r s0 Hs Hc Hr. apply handle_arpreq_inv with (limit := 5); try done. by right.
Qed.
