(* ===== verification/SrThreads.v ===== *)
(** The two threads of the router: the rounds the cleanup thread makes while
    the main thread waits for the server, and those it makes between the two
    calls with which the main thread queues a packet and handles its request
    (sr_arpcache.c, sr_router.c). *)

From S2P Require Import Prelude Bytes SrState SrArpcache SrArpreq SrRouter.

(** [while (1) { sleep(1.0); ... }] of the cleanup thread, for as many rounds as
    there are moments in [rounds]. A round has the lock from its beginning to its
    end, so that a call of the main thread that takes the lock comes before it or
    after it. *)
Definition cleanup_rounds (fuel : nat) (rounds : list env) : M sr_instance unit :=
  mfor rounds (fun e => sr_arpcache_timeout e fuel).

(** [sr_arpcache_handle_arpreq(sr, arpreq)] as the main thread calls it after
    [sr_arpcache_queuereq]: the lock is free between the two calls, so that rounds
    of the cleanup thread may come first; [e'] is the moment it begins. *)
Definition overtaken (fuel : nat) (rounds : list env) (e' : env) (r : nat) : M sr_instance unit :=
  _ ← cleanup_rounds fuel rounds;
  sr_arpcache_handle_arpreq e' fuel r.

(** When a turn of the main loop happens: the rounds made before it, its own
    moment, the rounds made before it handles the request it queued, and the
    moment it does. *)
Record turn := mk_turn {
  tn_before : list env;
  tn_now : env;
  tn_during : list env;
  tn_then : env;
}.
Coercion tn_now : turn >-> env.

(** A turn no round of the cleanup thread comes into, while the clock stands still. *)
Definition still (e : env) : turn := mk_turn [] e [] e.

(** [sr_handlepacket(sr, packet, len, interface)] in the turn [t]. *)
Definition handlepacket_in (t : turn) (fuel : nat) (packet : bytes) (len : Z) (interface : bytes) : M sr_instance unit :=
  handle_frame t (overtaken fuel (tn_during t) (tn_then t)) packet len interface.

(** Without rounds in between it is the [sr_handlepacket] of one thread. *)
Lemma handlepacket_still e fuel packet len interface :
  handlepacket_in (still e) fuel packet len interface = sr_handlepacket e fuel packet len interface.
Proof. reflexivity. Qed.
