(* ===== verification/Sha1.v ===== *)
(** sha1.c: the SHA-1 context, filled byte by byte, and the digest. A digest is
    the list of its five words. *)

From S2P Require Import Prelude.
From S2P Require Import Bytes.

(** SHA1Context *)
Record SHA1Context := mk_sha1 {
  Message_Digest : list Z;
  Length_Low : Z;
  Length_High : Z;
  Message_Block : bytes;
  Message_Block_Index : nat;
  Computed : bool;
  Corrupted : bool;
}.

Definition set_Message_Digest (v : list Z) (c : SHA1Context) : SHA1Context :=
  mk_sha1 v (Length_Low c) (Length_High c) (Message_Block c) (Message_Block_Index c) (Computed c) (Corrupted c).
Definition set_Length (low high : Z) (c : SHA1Context) : SHA1Context :=
  mk_sha1 (Message_Digest c) low high (Message_Block c) (Message_Block_Index c) (Computed c) (Corrupted c).
Definition set_Message_Block (v : bytes) (c : SHA1Context) : SHA1Context :=
  mk_sha1 (Message_Digest c) (Length_Low c) (Length_High c) v (Message_Block_Index c) (Computed c) (Corrupted c).
Definition set_Message_Block_Index (v : nat) (c : SHA1Context) : SHA1Context :=
  mk_sha1 (Message_Digest c) (Length_Low c) (Length_High c) (Message_Block c) v (Computed c) (Corrupted c).
Definition set_Computed (v : bool) (c : SHA1Context) : SHA1Context :=
  mk_sha1 (Message_Digest c) (Length_Low c) (Length_High c) (Message_Block c) (Message_Block_Index c) v (Corrupted c).
Definition set_Corrupted (v : bool) (c : SHA1Context) : SHA1Context :=
  mk_sha1 (Message_Digest c) (Length_Low c) (Length_High c) (Message_Block c) (Message_Block_Index c) (Computed c) v.

(** [SHA1CircularShift(bits, word)] *)
Definition SHA1CircularShift (bits word : Z) : Z :=
  Z.lor (Z.land (Z.shiftl word bits) 0xFFFFFFFF) (Z.shiftr word (32 - bits)).

(** [SHA1Reset]; the block keeps what it holds. *)
Definition SHA1Reset : M SHA1Context unit :=
  modify (fun c => mk_sha1 [0x67452301; 0xEFCDAB89; 0x98BADCFE; 0x10325476; 0xC3D2E1F0] 0 0 (Message_Block c) 0 false false).

(** [K] of [SHA1ProcessMessageBlock]. *)
Definition sha1_K : list Z := [0x5A827999; 0x6ED9EBA1; 0x8F1BBCDC; 0xCA62C1D6].

(** Word [t] of the block, the body of the first loop. *)
Definition block_word (b : bytes) (t : nat) : Z :=
  Z.lor (Z.lor (Z.lor (Z.shiftl (get8 b (t * 4)) 24) (Z.shiftl (get8 b (t * 4 + 1)) 16))
    (Z.shiftl (get8 b (t * 4 + 2)) 8)) (get8 b (t * 4 + 3)).

(** The second loop, [W] being the words stored so far. *)
Fixpoint expand (n : nat) (W : list Z) : list Z :=
  match n with
  | O => W
  | Datatypes.S n' =>
      let t := length W in
      expand n' (W ++ [SHA1CircularShift 1
        (Z.lxor (Z.lxor (Z.lxor (nth (t - 3) W 0) (nth (t - 8) W 0)) (nth (t - 14) W 0)) (nth (t - 16) W 0))])
  end.

(** The word sequence [W[0 .. 80)]. *)
Definition word_sequence (b : bytes) : list Z := expand 64 (block_word b <$> seq 0 16).

(** The registers A, B, C, D, E. *)
Abbreviation registers := (Z * Z * Z * Z * Z)%type.

(** [~] on [unsigned]. *)
Definition not32 (z : Z) : Z := Z.lxor z 0xFFFFFFFF.

(** The logical functions of the four loops. *)
Definition round_f (t : nat) (B C D : Z) : Z :=
  if (t <? 20)%nat then Z.lor (Z.land B C) (Z.land (not32 B) D)
  else if (t <? 40)%nat then Z.lxor (Z.lxor B C) D
  else if (t <? 60)%nat then Z.lor (Z.lor (Z.land B C) (Z.land B D)) (Z.land C D)
  else Z.lxor (Z.lxor B C) D.

(** The body of the loops in round [t]. *)
Definition sha1_round (W : list Z) (r : registers) (t : nat) : registers :=
  let '(A, B, C, D, E) := r in
  let temp := Z.land (SHA1CircularShift 5 A + round_f t B C D + E + nth t W 0 + nth (t / 20) sha1_K 0) 0xFFFFFFFF in
  (temp, A, SHA1CircularShift 30 B, C, D).

(** The new digest. *)
Definition process_block (H : list Z) (b : bytes) : list Z :=
  let h k := nth k H 0 in
  let '(A, B, C, D, E) :=
    fold_left (sha1_round (word_sequence b)) (seq 0 80) (h 0%nat, h 1%nat, h 2%nat, h 3%nat, h 4%nat) in
  [Z.land (h 0%nat + A) 0xFFFFFFFF; Z.land (h 1%nat + B) 0xFFFFFFFF; Z.land (h 2%nat + C) 0xFFFFFFFF;
   Z.land (h 3%nat + D) 0xFFFFFFFF; Z.land (h 4%nat + E) 0xFFFFFFFF].

(** [SHA1ProcessMessageBlock] *)
Definition SHA1ProcessMessageBlock : M SHA1Context unit :=
  modify (fun c => set_Message_Block_Index 0 (set_Message_Digest (process_block (Message_Digest c) (Message_Block c)) c)).

(** [Message_Block[Message_Block_Index++] = v] *)
Definition put_byte (v : Z) : M SHA1Context unit :=
  c ← get;
  b ← wr8 (Message_Block c) (Message_Block_Index c) v;
  put (set_Message_Block_Index (Message_Block_Index c + 1) (set_Message_Block b c)).

(** [while (Message_Block_Index < limit) Message_Block[Message_Block_Index++] = 0] *)
Fixpoint pad_zeros (fuel limit : nat) : M SHA1Context unit :=
  match fuel with
  | O => fail OutOfFuel
  | Datatypes.S fuel' =>
      c ← get;
      if (Message_Block_Index c <? limit)%nat then _ ← put_byte 0; pad_zeros fuel' limit else mret tt
  end.

(** First half of [SHA1PadMessage]: the mark and the zeros. *)
Definition fill_block : M SHA1Context unit :=
  c ← get;
  if (55 <? Message_Block_Index c)%nat then
    _ ← put_byte 0x80;
    _ ← pad_zeros 65 64;
    _ ← SHA1ProcessMessageBlock;
    pad_zeros 65 56
  else
    _ ← put_byte 0x80;
    pad_zeros 65 56.

(** The message length as the last 8 octets. *)
Definition length_octets (high low : Z) : bytes :=
  let octet k w := Z.land (Z.shiftr w k) 0xFF in
  [octet 24 high; octet 16 high; octet 8 high; octet 0 high; octet 24 low; octet 16 low; octet 8 low; octet 0 low].

(** [SHA1PadMessage] *)
Definition SHA1PadMessage : M SHA1Context unit :=
  _ ← fill_block;
  c ← get;
  b ← wrn (Message_Block c) 56 (length_octets (Length_High c) (Length_Low c));
  _ ← modify (set_Message_Block b);
  SHA1ProcessMessageBlock.

(** [SHA1Result] *)
Definition SHA1Result : M SHA1Context Z :=
  c ← get;
  if Corrupted c then mret 0
  else
    _ ← (if negb (Computed c) then _ ← SHA1PadMessage; modify (set_Computed true) else mret tt);
    mret 1.

(** The body of the loop of [SHA1Input] for the byte [v]. *)
Definition input_byte (v : Z) : M SHA1Context unit :=
  _ ← put_byte (Z.land v 0xFF);
  _ ← modify (fun c =>
        let low := Z.land (Length_Low c + 8) 0xFFFFFFFF in
        if low =? 0 then
          let high := Z.land (Length_High c + 1) 0xFFFFFFFF in
          let c := set_Length low high c in
          if high =? 0 then set_Corrupted true c else c
        else set_Length low (Length_High c) c);
  c ← get;
  if (Message_Block_Index c =? 64)%nat then SHA1ProcessMessageBlock else mret tt.

(** That loop, over [length] bytes from offset [k] on. *)
Fixpoint input_loop (message_array : bytes) (k length : nat) : M SHA1Context unit :=
  match length with
  | O => mret tt
  | Datatypes.S length' =>
      c ← get;
      if Corrupted c then mret tt
      else
        v ← rd8 message_array k;
        _ ← input_byte v;
        input_loop message_array (k + 1) length'
  end.

(** [SHA1Input] *)
Definition SHA1Input (message_array : bytes) (length : nat) : M SHA1Context unit :=
  if (length =? 0)%nat then mret tt
  else
    c ← get;
    if Computed c || Corrupted c then modify (set_Corrupted true)
    else input_loop message_array 0 length.
