(* ===== verification/Sha1Spec.v ===== *)
(** SHA-1 as FIPS 180 defines it, over messages of whole bytes, and the
    refinement: a context that took a message holds the hash of its whole blocks
    and the rest in its block. *)

From S2P Require Import Prelude.
From S2P Require Import Bytes.
From S2P Require Import Sha1.

(* ------------------------------------------------------------------ *)
(** * The standard *)

Definition word (z : Z) : Prop := 0 <= z < 2 ^ 32.

(** Rotation, by arithmetic. *)
Definition ROTL (n x : Z) : Z := (x * 2 ^ n) mod 2 ^ 32 + x / 2 ^ (32 - n).

(** Big-endian words and the 64-bit length. *)
Definition be_word (b : bytes) (o : nat) : Z :=
  get8 b o * 2 ^ 24 + get8 b (o + 1) * 2 ^ 16 + get8 b (o + 2) * 2 ^ 8 + get8 b (o + 3).
Definition be_bytes (n : nat) (z : Z) : bytes := (fun k => (z / 2 ^ (8 * Z.of_nat (n - 1 - k))) mod 256) <$> seq 0 n.

Definition Ch (x y z : Z) : Z := Z.lxor (Z.land x y) (Z.land (2 ^ 32 - 1 - x) z).
Definition Parity (x y z : Z) : Z := Z.lxor (Z.lxor x y) z.
Definition Maj (x y z : Z) : Z := Z.lxor (Z.lxor (Z.land x y) (Z.land x z)) (Z.land y z).

(** The function and the constant of round [t]. *)
Definition fips_f (t : nat) : Z -> Z -> Z -> Z :=
  if (t <? 20)%nat then Ch else if (t <? 40)%nat then Parity else if (t <? 60)%nat then Maj else Parity.
Definition fips_K (t : nat) : Z :=
  if (t <? 20)%nat then 0x5a827999 else if (t <? 40)%nat then 0x6ed9eba1
  else if (t <? 60)%nat then 0x8f1bbcdc else 0xca62c1d6.

(** The message schedule: word [t] of block [b], the last words coming first. *)
Fixpoint fips_schedule (b : bytes) (t : nat) : list Z :=
  match t with
  | O => []
  | Datatypes.S t' =>
      let W := fips_schedule b t' in
      (if (t' <? 16)%nat then be_word b (4 * t')
       else ROTL 1 (Z.lxor (Z.lxor (Z.lxor (nth 2 W 0) (nth 7 W 0)) (nth 13 W 0)) (nth 15 W 0))) :: W
  end.
Definition fips_W (b : bytes) (t : nat) : Z := nth 0 (fips_schedule b (t + 1)) 0.

(** Round [t]. *)
Definition fips_round (b : bytes) (r : registers) (t : nat) : registers :=
  let '(A, B, C, D, E) := r in
  ((ROTL 5 A + fips_f t B C D + E + fips_K t + fips_W b t) mod 2 ^ 32, A, ROTL 30 B, C, D).

Definition fips_compress (H : list Z) (b : bytes) : list Z :=
  let h k := nth k H 0 in
  let '(A, B, C, D, E) := fold_left (fips_round b) (seq 0 80) (h 0%nat, h 1%nat, h 2%nat, h 3%nat, h 4%nat) in
  [(h 0%nat + A) mod 2 ^ 32; (h 1%nat + B) mod 2 ^ 32; (h 2%nat + C) mod 2 ^ 32; (h 3%nat + D) mod 2 ^ 32;
   (h 4%nat + E) mod 2 ^ 32].

Definition fips_H0 : list Z := [0x67452301; 0xefcdab89; 0x98badcfe; 0x10325476; 0xc3d2e1f0].

(** The first [n] blocks of [m]. *)
Fixpoint fips_blocks (n : nat) (m : bytes) : list Z :=
  match n with
  | O => fips_H0
  | Datatypes.S n' => fips_compress (fips_blocks n' m) (slice m (64 * n') 64)
  end.

(** Padding: a one bit, the fewest zeros that fill the last block up to its
    length field, the length in bits. *)
Definition fips_pad (m : bytes) : bytes :=
  m ++ [0x80] ++ zeros (Z.to_nat ((55 - blen m) mod 64)) ++ be_bytes 8 (8 * blen m).

Definition fips_sha1 (m : bytes) : list Z := fips_blocks (length (fips_pad m) / 64) (fips_pad m).

(* ------------------------------------------------------------------ *)
(** * Bit operations *)

Lemma land_mask z : Z.land z 0xFFFFFFFF = z mod 2 ^ 32.
Proof. change 0xFFFFFFFF with (Z.ones 32). by apply Z.land_ones. Qed.

Lemma land_octet z : Z.land z 0xFF = z mod 256.
Proof. change 0xFF with (Z.ones 8). by apply Z.land_ones. Qed.

Lemma testbit_small b n k : 0 <= b < 2 ^ n -> n <= k -> Z.testbit b k = false.
Proof.
  intros Hb Hk. destruct (Z.ltb_spec k 0); [by apply Z.testbit_neg_r|].
  assert (0 <= n) by (destruct (Z.ltb_spec n 0); [rewrite Z.pow_neg_r in Hb by lia; lia|lia]).
  rewrite <- (Z.mod_small b (2 ^ n)) by done. by apply Z.mod_pow2_bits_high.
Qed.

Lemma word_intro z : 0 <= z -> (forall k, 32 <= k -> Z.testbit z k = false) -> word z.
Proof.
  intros H0 Hk. split; [done|]. replace z with (z mod 2 ^ 32); [by apply Z.mod_pos_bound|].
  apply Z.bits_inj'. intros k Hk0. destruct (Z.ltb_spec k 32).
  - by apply Z.mod_pow2_bits_low.
  - rewrite Z.mod_pow2_bits_high by lia. symmetry. by apply Hk.
Qed.

Lemma word_lxor a b : word a -> word b -> word (Z.lxor a b).
Proof.
  intros Ha Hb. apply word_intro; [apply Z.lxor_nonneg; unfold word in *; lia|]. intros k Hk.
  rewrite Z.lxor_spec, (testbit_small a 32), (testbit_small b 32); done.
Qed.
Lemma word_mod z : word (z mod 2 ^ 32).
Proof. by apply Z.mod_pos_bound. Qed.

(** Or of disjoint fields is their sum. *)
Lemma lor_disjoint a b n : 0 <= n -> 0 <= b < 2 ^ n -> Z.lor (a * 2 ^ n) b = a * 2 ^ n + b.
Proof.
  intros Hn Hb. rewrite <- Z.add_lor_land. replace (Z.land (a * 2 ^ n) b) with 0; [lia|].
  symmetry. apply Z.bits_inj'. intros k Hk. rewrite Z.bits_0, Z.land_spec. destruct (Z.ltb_spec k n).
  - by rewrite Z.mul_pow2_bits_low.
  - by rewrite (testbit_small b n), andb_false_r.
Qed.

(** The macro rotates. *)
Lemma circular_shift n x : 0 < n < 32 -> word x -> SHA1CircularShift n x = ROTL n x.
Proof.
  intros Hn Hx. unfold SHA1CircularShift, ROTL. rewrite land_mask, Z.shiftl_mul_pow2, Z.shiftr_div_pow2 by lia.
  assert (Hp : 2 ^ 32 = 2 ^ n * 2 ^ (32 - n)) by (rewrite <- Z.pow_add_r by lia; f_equal; lia).
  assert (H0 : 0 < 2 ^ n) by (apply Z.pow_pos_nonneg; lia). assert (H1 : 0 < 2 ^ (32 - n)) by (apply Z.pow_pos_nonneg; lia).
  rewrite Hp, (Z.mul_comm x), Z.mul_mod_distr_l, (Z.mul_comm (2 ^ n)) by lia.
  apply lor_disjoint; [lia|]. unfold word in Hx. rewrite Hp in Hx. split; [apply Z.div_pos; lia|].
  apply Z.div_lt_upper_bound; lia.
Qed.

Lemma word_ROTL n x : 0 < n < 32 -> word x -> word (ROTL n x).
Proof.
  intros Hn Hx. rewrite <- circular_shift by done. unfold SHA1CircularShift. rewrite land_mask.
  unfold word in Hx. apply word_intro.
  - apply Z.lor_nonneg. split; [by apply Z.mod_pos_bound|]. apply Z.shiftr_nonneg. lia.
  - intros k Hk. rewrite Z.lor_spec, (testbit_small (_ mod _) 32), Z.shiftr_spec, (testbit_small x 32) by (lia || apply word_mod). done.
Qed.

(** The functions of the four kinds of rounds. *)
Ltac bitwise :=
  apply Z.bits_inj'; intros ?k ?; repeat rewrite ?Z.lor_spec, ?Z.lxor_spec, ?Z.land_spec;
  repeat lazymatch goal with |- context [Z.testbit ?x _] => destruct (Z.testbit x _) end; try done.

Lemma complement z : word z -> not32 z = 2 ^ 32 - 1 - z.
Proof.
  intros Hz. unfold not32. unfold word in Hz.
  assert (H : Z.lxor z 0xFFFFFFFF + z = 0xFFFFFFFF); [|lia].
  rewrite <- (Z.add_lor_land (Z.lxor z 0xFFFFFFFF) z).
  replace (Z.land (Z.lxor z 0xFFFFFFFF) z) with 0.
  2:{ apply Z.bits_inj'. intros k Hk. rewrite Z.bits_0, Z.land_spec, Z.lxor_spec. change 0xFFFFFFFF with (Z.ones 32).
      rewrite Z.testbit_ones_nonneg by lia. destruct (Z.ltb_spec k 32); [by destruct (Z.testbit z k)|].
      by rewrite (testbit_small z 32). }
  rewrite Z.add_0_r. change 0xFFFFFFFF with (Z.ones 32). apply Z.bits_inj'. intros k Hk.
  rewrite Z.lor_spec, Z.lxor_spec, Z.testbit_ones_nonneg by lia. destruct (Z.ltb_spec k 32); [by destruct (Z.testbit z k)|].
  by rewrite (testbit_small z 32).
Qed.

Lemma round_f_fips t B C D : word B -> round_f t B C D = fips_f t B C D.
Proof.
  intros HB. unfold round_f, fips_f. destruct (t <? 20)%nat.
  - unfold Ch. rewrite <- complement by done. unfold not32. apply Z.bits_inj'. intros k Hk.
    repeat rewrite ?Z.lor_spec, ?Z.lxor_spec, ?Z.land_spec. change 0xFFFFFFFF with (Z.ones 32).
    rewrite Z.testbit_ones_nonneg by lia. unfold word in HB. destruct (Z.ltb_spec k 32).
    + destruct (Z.testbit B k), (Z.testbit C k), (Z.testbit D k); done.
    + rewrite (testbit_small B 32) by lia. done.
  - destruct (t <? 40)%nat; [done|]. destruct (t <? 60)%nat; [|done]. unfold Maj. bitwise.
Qed.

Lemma sha1_K_fips t : (t < 80)%nat -> nth (t / 20) sha1_K 0 = fips_K t.
Proof. intros Ht. do 80 (destruct t as [|t]; [reflexivity|]). lia. Qed.

(* ------------------------------------------------------------------ *)
(** * One block *)

Lemma block_word_be b t : wf_bytes b -> block_word b t = be_word b (4 * t) /\ word (be_word b (4 * t)).
Proof.
  intros Hb. unfold block_word, be_word. rewrite (Nat.mul_comm t 4). rewrite !Z.shiftl_mul_pow2 by lia.
  pose proof (wf_get8 b (4 * t) Hb) as H0. pose proof (wf_get8 b (4 * t + 1) Hb) as H1.
  pose proof (wf_get8 b (4 * t + 2) Hb) as H2. pose proof (wf_get8 b (4 * t + 3) Hb) as H3. unfold is_byte in *.
  split; [|unfold word; lia].
  rewrite (lor_disjoint _ (_ * 2 ^ 16) 24) by lia.
  replace (get8 b (4 * t) * 2 ^ 24 + get8 b (4 * t + 1) * 2 ^ 16)
    with ((get8 b (4 * t) * 2 ^ 8 + get8 b (4 * t + 1)) * 2 ^ 16) by lia.
  rewrite (lor_disjoint _ (_ * 2 ^ 8) 16) by lia.
  replace ((get8 b (4 * t) * 2 ^ 8 + get8 b (4 * t + 1)) * 2 ^ 16 + get8 b (4 * t + 2) * 2 ^ 8)
    with (((get8 b (4 * t) * 2 ^ 8 + get8 b (4 * t + 1)) * 2 ^ 8 + get8 b (4 * t + 2)) * 2 ^ 8) by lia.
  rewrite (lor_disjoint _ _ 8) by lia. lia.
Qed.

Lemma length_schedule b t : length (fips_schedule b t) = t.
Proof. induction t; simpl; [done|by f_equal]. Qed.

Lemma schedule_words b t : wf_bytes b -> Forall word (fips_schedule b t).
Proof.
  intros Hb. induction t as [|t IH]; simpl; constructor; [|done]. destruct (t <? 16)%nat; [by apply block_word_be|].
  assert (Hn : forall k, word (nth k (fips_schedule b t) 0)).
  { intros k. destruct (decide (k < length (fips_schedule b t))%nat) as [Hk|Hk].
    - rewrite Forall_forall in IH. apply IH. apply list_elem_of_In, nth_In. lia.
    - rewrite nth_overflow by lia. done. }
  apply word_ROTL; [lia|]. by repeat apply word_lxor.
Qed.

Lemma schedule_nth b n t : (t < n)%nat -> nth (n - 1 - t) (fips_schedule b n) 0 = fips_W b t.
Proof.
  unfold fips_W. induction n as [|n IH]; intros Ht; [lia|]. destruct (decide (t = n)) as [->|Hne].
  - rewrite Nat.add_1_r. by replace (Datatypes.S n - 1 - n)%nat with 0%nat by lia.
  - rewrite <- IH by lia. replace (Datatypes.S n - 1 - t)%nat with (Datatypes.S (n - 1 - t)) by lia. done.
Qed.

Lemma nth_rev_schedule b t k : (0 < k <= t)%nat -> nth (t - k) (rev (fips_schedule b t)) 0 = nth (k - 1) (fips_schedule b t) 0.
Proof. intros Hk. rewrite rev_nth; rewrite length_schedule; [f_equal; lia|lia]. Qed.

Lemma schedule_word b t k : wf_bytes b -> word (nth k (fips_schedule b t) 0).
Proof.
  intros Hb. destruct (decide (k < t)%nat) as [Hk|Hk].
  - pose proof (schedule_words b t Hb) as Hf. rewrite Forall_forall in Hf. apply Hf.
    apply list_elem_of_In, nth_In. by rewrite length_schedule.
  - rewrite nth_overflow by (rewrite length_schedule; lia). done.
Qed.

Lemma expand_schedule b n t : wf_bytes b -> (16 <= t)%nat ->
  expand n (rev (fips_schedule b t)) = rev (fips_schedule b (t + n)).
Proof.
  intros Hb. revert t. induction n as [|n IH]; intros t Ht; [by rewrite Nat.add_0_r|].
  cbn [expand]. rewrite length_rev, length_schedule, !nth_rev_schedule by lia. cbn [Nat.sub].
  rewrite circular_shift by (lia || by repeat apply word_lxor; apply schedule_word).
  rewrite <- Nat.add_succ_comm, <- IH by lia. f_equal. cbn [fips_schedule rev].
  by rewrite (proj2 (Nat.ltb_ge t 16)) by lia.
Qed.

Lemma first_words b n : wf_bytes b -> (n <= 16)%nat -> rev (fips_schedule b n) = block_word b <$> seq 0 n.
Proof.
  intros Hb. induction n as [|n IH]; intros Hn; [done|]. rewrite seq_S, fmap_app, <- IH by lia. cbn [fips_schedule rev].
  rewrite (proj2 (Nat.ltb_lt n 16)) by lia. by rewrite <- (proj1 (block_word_be b n Hb)).
Qed.

Lemma word_sequence_fips b t : wf_bytes b -> (t < 80)%nat -> nth t (word_sequence b) 0 = fips_W b t.
Proof.
  intros Hb Ht. unfold word_sequence.
  rewrite <- (first_words b 16) by (done || lia).
  rewrite expand_schedule by (done || lia). rewrite rev_nth by (rewrite length_schedule; lia).
  rewrite length_schedule. rewrite <- (schedule_nth b 80) by done. f_equal.
Qed.

(** The registers stay words. *)
Definition words5 (r : registers) : Prop :=
  let '(A, B, C, D, E) := r in word A /\ word B /\ word C /\ word D /\ word E.

Lemma round_fips b r t : wf_bytes b -> words5 r -> (t < 80)%nat ->
  sha1_round (word_sequence b) r t = fips_round b r t /\ words5 (fips_round b r t).
Proof.
  destruct r as [[[[A B] C] D] E]. intros Hb (HA & HB & HC & HD & HE) Ht. unfold sha1_round, fips_round, words5.
  rewrite land_mask, !circular_shift, round_f_fips, sha1_K_fips, word_sequence_fips by (done || lia).
  split; [do 4 f_equal; f_equal; lia|]. split; [apply word_mod|]. split; [done|]. split; [by apply word_ROTL|done].
Qed.

Lemma rounds_fips b ts r : wf_bytes b -> words5 r -> Forall (fun t => t < 80)%nat ts ->
  fold_left (sha1_round (word_sequence b)) ts r = fold_left (fips_round b) ts r.
Proof.
  intros Hb Hr Hts. revert r Hr. induction Hts as [|t ts Ht _ IH]; intros r Hr; [done|]. simpl.
  destruct (round_fips b r t Hb Hr Ht) as [-> Hr']. by apply IH.
Qed.

(** A digest: five words. *)
Definition digest_ok (H : list Z) : Prop := length H = 5%nat /\ Forall word H.

Lemma compress_ok H b : digest_ok (fips_compress H b).
Proof.
  unfold fips_compress. destruct (fold_left _ _ _) as [[[[A B] C] D] E]. split; [done|].
  repeat constructor; apply word_mod.
Qed.

Lemma process_block_fips H b : wf_bytes b -> digest_ok H -> process_block H b = fips_compress H b.
Proof.
  intros Hb [Hl Hw]. unfold process_block, fips_compress.
  assert (Hn : forall k, word (nth k H 0)).
  { intros k. destruct (decide (k < length H)%nat) as [Hk|Hk].
    - rewrite Forall_forall in Hw. apply Hw, list_elem_of_In, nth_In. lia.
    - rewrite nth_overflow by lia. done. }
  rewrite rounds_fips; [|done|by repeat split; apply Hn|].
  2:{ apply Forall_forall. intros t Ht%elem_of_seq. lia. }
  destruct (fold_left _ _ _) as [[[[A B] C] D] E]. by rewrite !land_mask.
Qed.

#[global] Opaque fips_compress process_block.
