(* ===== verification/Sha1Facts.v ===== *)
(** The SHA-1 context as a hash of the whole blocks of what it took and the rest,
    kept by every operation. *)

From S2P Require Import Prelude.
From S2P Require Import Bytes.
From S2P Require Import Sha1.
From S2P Require Import Sha1Spec.

(** [c] has digest [H], counts [len] bytes, and holds [p] in its block. *)
Record holding (H : list Z) (len : Z) (p : bytes) (c : SHA1Context) : Prop := {
  holding_digest : Message_Digest c = H;
  holding_ok : digest_ok H;
  holding_length : 0 <= Length_Low c < 2 ^ 32 /\ 0 <= Length_High c < 2 ^ 32 /\ Length_High c * 2 ^ 32 + Length_Low c = 8 * len;
  holding_index : Message_Block_Index c = length p;
  holding_prefix : take (length p) (Message_Block c) = p;
  holding_block : length (Message_Block c) = 64%nat /\ wf_bytes (Message_Block c);
  holding_flags : Computed c = false /\ Corrupted c = false;
}.

(** The last bytes of [m], that fill no block. *)
Definition rest (m : bytes) : bytes := drop (64 * (length m / 64)) m.

(** [c] took the message [m]. *)
Definition absorbed (m : bytes) (c : SHA1Context) : Prop :=
  holding (fips_blocks (length m / 64) m) (blen m) (rest m) c /\ 8 * blen m < 2 ^ 64 /\ wf_bytes m.

Lemma length_rest m : length (rest m) = (length m mod 64)%nat.
Proof. unfold rest. rewrite length_drop. pose proof (Nat.div_mod_eq (length m) 64). lia. Qed.

Lemma blocks_ok n m : digest_ok (fips_blocks n m).
Proof.
  destruct n; [|apply compress_ok]. split; [done|]. repeat (apply Forall_cons_2; [unfold word; lia|]). constructor.
Qed.

(** Blocks within a prefix depend on it alone. *)
Lemma blocks_prefix n m m' : (64 * n <= length m)%nat -> fips_blocks n (m ++ m') = fips_blocks n m.
Proof.
  induction n as [|n IH]; intros Hn; [done|]. cbn [fips_blocks]. rewrite IH by lia. apply (f_equal (fips_compress _)).
  unfold slice. rewrite drop_app_le, take_app_le; [done| |lia]. rewrite length_drop. lia.
Qed.

Section ops.
Context (F : fault -> Prop).

Lemma wlp_put_byte H len p v (Q : unit -> SHA1Context -> Prop) c :
  holding H len p c -> (length p < 64)%nat -> is_byte v ->
  (forall c', holding H len (p ++ [v]) c' -> Q tt c') -> wlp F (put_byte v) Q c.
Proof.
  intros [H1 H2 H3 H4 H5 [H6 H6'] H7] Hp Hv HQ. unfold put_byte. wgo. unfold wr8. rewrite u8_small by done.
  apply wlp_wrn; [simpl; lia|]. wgo. apply HQ. split; try done.
  - cbn [set_Message_Block_Index Message_Block_Index]. rewrite length_app, H4. done.
  - cbn [set_Message_Block_Index Message_Block set_Message_Block]. rewrite H4, length_app. cbn [length].
    unfold upd. rewrite take_app_ge by (rewrite length_take; lia). rewrite length_take, H6, H5. f_equal.
    replace (length p + 1 - length p `min` 64)%nat with 1%nat by lia. done.
  - cbn [set_Message_Block_Index Message_Block set_Message_Block]. split; [rewrite length_upd by (simpl; lia); done|].
    apply wf_upd; [done|]. by constructor.
Qed.

Lemma wlp_pad_zeros H len p limit fuel (Q : unit -> SHA1Context -> Prop) c :
  holding H len p c -> (length p <= limit <= 64)%nat -> (limit - length p < fuel)%nat ->
  (forall c', holding H len (p ++ zeros (limit - length p)) c' -> Q tt c') -> wlp F (pad_zeros fuel limit) Q c.
Proof.
  revert p c. induction fuel as [|fuel IH]; intros p c Hc Hl Hf HQ; [lia|]. cbn [pad_zeros]. wgo.
  rewrite (holding_index _ _ _ _ Hc). destruct (Nat.ltb_spec (length p) limit) as [Hlt|Hge].
  - wgo. eapply wlp_put_byte; [exact Hc|lia|unfold is_byte; lia|]. intros c' Hc'.
    apply (IH _ _ Hc'); rewrite length_app; cbn [length]; [lia|lia|]. intros c2 Hc2. apply HQ.
    rewrite <- app_assoc in Hc2. replace (limit - length p)%nat with (Datatypes.S (limit - (length p + 1))) by lia. exact Hc2.
  - wgo. apply HQ. replace (limit - length p)%nat with 0%nat by lia. by rewrite app_nil_r.
Qed.

Lemma wlp_process H len p (Q : unit -> SHA1Context -> Prop) c :
  holding H len p c -> length p = 64%nat ->
  (forall c', holding (fips_compress H p) len [] c' -> Q tt c') -> wlp F SHA1ProcessMessageBlock Q c.
Proof.
  intros [H1 H2 H3 H4 H5 [H6 H6'] H7] Hp HQ. unfold SHA1ProcessMessageBlock. wgo. apply HQ.
  rewrite take_ge in H5 by lia. split; try done; [|apply compress_ok].
  cbn [set_Message_Block_Index Message_Digest set_Message_Digest]. by rewrite H1, H5, process_block_fips by (rewrite <- ?H5; done).
Qed.

Lemma wlp_Reset (Q : unit -> SHA1Context -> Prop) c :
  length (Message_Block c) = 64%nat -> wf_bytes (Message_Block c) ->
  (forall c', absorbed [] c' -> Q tt c') -> wlp F SHA1Reset Q c.
Proof.
  intros Hl Hw HQ. unfold SHA1Reset. wgo. apply HQ. split; [|split; [done|constructor]].
  split; try done. apply (blocks_ok 0 []).
Qed.

(** A byte more in the count. *)
Lemma count_byte low high len :
  0 <= low < 2 ^ 32 -> 0 <= high < 2 ^ 32 -> high * 2 ^ 32 + low = 8 * len -> 8 * (len + 1) < 2 ^ 64 ->
  let low' := (low + 8) mod 2 ^ 32 in
  if low' =? 0
  then (high + 1) mod 2 ^ 32 = high + 1 /\ high + 1 < 2 ^ 32 /\ (high + 1) * 2 ^ 32 + low' = 8 * (len + 1)
  else high * 2 ^ 32 + low' = 8 * (len + 1).
Proof.
  intros Hl Hh He Hlt. cbv zeta. destruct (Z.ltb_spec (low + 8) (2 ^ 32)) as [Hs|Hs].
  - rewrite Z.mod_small by lia. rewrite (proj2 (Z.eqb_neq _ _)) by lia. lia.
  - assert (Hlow : low + 8 = 2 ^ 32) by (Z.div_mod_to_equations; lia).
    rewrite Hlow, Z.mod_same by lia. cbn [Z.eqb]. rewrite Z.mod_small by lia. lia.
Qed.

(** One byte of input. *)
Lemma wlp_input_byte m v c :
  absorbed m c -> is_byte v -> 8 * (blen m + 1) < 2 ^ 64 -> wlp F (input_byte v) (fun _ c' => absorbed (m ++ [v]) c') c.
Proof.
  intros (Hh & Hl & Hw) Hv Hlt. unfold input_byte. rewrite land_octet, Z.mod_small by done.
  pose proof (length_rest m) as Hr. pose proof (Nat.div_mod_eq (length m) 64) as Hdm.
  pose proof (Nat.mod_upper_bound (length m) 64) as Hub.
  wgo. eapply wlp_put_byte; [exact Hh|lia|done|]. clear c Hh. intros c Hc. wgo.
  rewrite !land_mask. destruct Hc as [H1 H2 (H3 & H3' & H3'') H4 H5 H6 [H7 H7']].
  pose proof (count_byte (Length_Low c) (Length_High c) (blen m) H3 H3' H3'' Hlt) as Hcount. cbv zeta in Hcount.
  set (c1 := if (Length_Low c + 8) mod 2 ^ 32 =? 0 then _ else _).
  assert (Hc1 : holding (fips_blocks (length m / 64) m) (blen (m ++ [v])) (rest m ++ [v]) c1).
  { assert (Hb : blen (m ++ [v]) = blen m + 1) by (unfold blen; rewrite length_app; cbn [length]; lia).
    rewrite Hb. pose proof (Z.mod_pos_bound (Length_Low c + 8) (2 ^ 32) ltac:(lia)). subst c1.
    destruct ((Length_Low c + 8) mod 2 ^ 32 =? 0).
    - destruct Hcount as (-> & Hc2 & Hc3). cbv zeta. rewrite (proj2 (Z.eqb_neq _ _)) by lia. split; try done. cbn. lia.
    - split; try done. }
  clearbody c1. clear c H1 H2 H3 H3' H3'' H4 H5 H6 H7 H7' Hcount.
  rewrite (holding_index _ _ _ _ Hc1), length_app. cbn [length].
  assert (Hwf : wf_bytes (m ++ [v])) by (apply Forall_app; split; [done|by constructor]).
  assert (Hlen : length (m ++ [v]) = (length m + 1)%nat) by by rewrite length_app.
  assert (Hrest : drop (64 * (length m / 64)) (m ++ [v]) = rest m ++ [v]) by (unfold rest; rewrite drop_app_le; [done|lia]).
  unfold blen in *. destruct (Nat.eqb_spec (length (rest m) + 1) 64) as [He|Hne].
  - assert (Hq : ((length m + 1) / 64)%nat = Datatypes.S (length m / 64)).
    { symmetry. apply (Nat.div_unique _ _ _ 0); lia. }
    eapply wlp_process; [exact Hc1|rewrite length_app; done|]. intros c' Hc'. split; [|split; [rewrite Hlen in *; unfold blen; lia|done]].
    assert (Hnil : rest (m ++ [v]) = []) by (unfold rest; rewrite Hlen, Hq; apply drop_ge; rewrite Hlen; lia).
    rewrite Hnil, Hlen, Hq. cbn [fips_blocks]. rewrite blocks_prefix by lia.
    replace (slice (m ++ [v]) (64 * (length m / 64)) 64) with (rest m ++ [v]).
    2:{ unfold slice. rewrite Hrest, take_ge; [done|]. rewrite length_app. cbn [length]. lia. }
    exact Hc'.
  - assert (Hq : ((length m + 1) / 64)%nat = (length m / 64)%nat).
    { symmetry. apply (Nat.div_unique _ _ _ (length m mod 64 + 1)); lia. }
    wgo. split; [|split; [unfold blen; rewrite Hlen; lia|done]]. unfold rest. rewrite Hlen, Hq, Hrest, blocks_prefix by lia.
    exact Hc1.
Qed.

Lemma wlp_input_loop arr k n m c :
  wf_bytes arr -> (k + n <= length arr)%nat -> absorbed m c -> 8 * (blen m + Z.of_nat n) < 2 ^ 64 ->
  wlp F (input_loop arr k n) (fun _ c' => absorbed (m ++ slice arr k n) c') c.
Proof.
  intros Hw. revert k m c. induction n as [|n IH]; intros k m c Hk Hc Hlt; cbn [input_loop].
  { wgo. replace (slice arr k 0) with ([] : bytes) by (unfold slice; by rewrite take_0). by rewrite app_nil_r. }
  wgo. pose proof Hc as ([_ _ _ _ _ _ [_ Hcor]] & _). rewrite Hcor. wgo. apply wlp_rd8; [lia|]. wgo.
  eapply wlp_mono; [apply wlp_input_byte; [exact Hc|by apply wf_get8|lia]|]. intros [] c' Hc'.
  eapply wlp_mono; [apply (IH (k + 1)%nat (m ++ [get8 arr k])); [lia|exact Hc'|]|].
  { unfold blen in *. rewrite length_app. cbn [length]. lia. }
  intros [] c2. rewrite <- app_assoc. replace ([get8 arr k] ++ slice arr (k + 1) n) with (slice arr k (Datatypes.S n)); [done|].
  apply bytes_ext; [cbn [app length]; rewrite !length_slice; lia|]. rewrite length_slice by lia. intros i Hi.
  rewrite get8_slice by lia. destruct i as [|i]; [by rewrite Nat.add_0_r|].
  change (get8 ([get8 arr k] ++ slice arr (k + 1) n) (Datatypes.S i)) with (get8 (slice arr (k + 1) n) i).
  rewrite get8_slice by lia. f_equal. lia.
Qed.

(** Any piece of input. *)
Lemma wlp_Input arr n m c :
  wf_bytes arr -> (n <= length arr)%nat -> absorbed m c -> 8 * (blen m + Z.of_nat n) < 2 ^ 64 ->
  wlp F (SHA1Input arr n) (fun _ c' => absorbed (m ++ take n arr) c') c.
Proof.
  intros Hw Hn Hc Hlt. unfold SHA1Input. destruct (Nat.eqb_spec n 0) as [->|Hne].
  { wgo. by rewrite app_nil_r. }
  wgo. pose proof Hc as ([_ _ _ _ _ _ [Hcom Hcor]] & _). rewrite Hcom, Hcor. cbn [orb].
  by apply (wlp_input_loop arr 0 n).
Qed.

(* ------------------------------------------------------------------ *)
(** * Padding *)

Lemma octet_high high low k : 0 <= low < 2 ^ 32 -> 0 <= k -> (high * 2 ^ 32 + low) / 2 ^ (32 + k) = high / 2 ^ k.
Proof.
  intros Hl Hk. rewrite Z.pow_add_r by lia. rewrite <- Z.div_div by (try apply Z.pow_pos_nonneg; lia).
  rewrite Z.div_add_l by lia. by rewrite (Z.div_small low), Z.add_0_r.
Qed.

Lemma octet_low high low k : 0 <= k <= 24 -> ((high * 2 ^ 32 + low) / 2 ^ k) mod 256 = (low / 2 ^ k) mod 256.
Proof.
  intros Hk. replace (high * 2 ^ 32) with (high * 2 ^ (24 - k) * 256 * 2 ^ k).
  2:{ rewrite <- !Z.mul_assoc. f_equal. change 256 with (2 ^ 8). rewrite <- !Z.pow_add_r by lia. f_equal. lia. }
  rewrite Z.div_add_l by (apply Z.pow_nonzero; lia). by rewrite Z.add_comm, Z.mod_add.
Qed.

Lemma octets_be high low len :
  0 <= low < 2 ^ 32 -> 0 <= high < 2 ^ 32 -> high * 2 ^ 32 + low = len ->
  length_octets high low = be_bytes 8 len.
Proof.
  intros Hl Hh <-. unfold length_octets. cbv zeta. rewrite !land_octet, !Z.shiftr_div_pow2 by lia. unfold be_bytes. cbn [seq fmap list_fmap Nat.sub Z.of_nat].
  change (8 * Z.of_nat 7) with (32 + 24). change (8 * Z.of_nat 6) with (32 + 16). change (8 * Z.of_nat 5) with (32 + 8).
  change (8 * Z.of_nat 4) with (32 + 0). change (8 * Z.of_nat 3) with 24. change (8 * Z.of_nat 2) with 16.
  change (8 * Z.of_nat 1) with 8. change (8 * Z.of_nat 0) with 0.
  rewrite !octet_high by lia. by rewrite !octet_low by lia.
Qed.

Lemma slice_mid (x y z : bytes) o n : length x = o -> length y = n -> slice (x ++ y ++ z) o n = y.
Proof. intros <- <-. unfold slice. by rewrite drop_app_length, take_app_length. Qed.

Lemma pad_last_block m :
  let r := (length m mod 64)%nat in let q := (length m / 64)%nat in
  fips_sha1 m =
    if (55 <? r)%nat
    then fips_compress (fips_compress (fips_blocks q m) (rest m ++ [0x80] ++ zeros (63 - r))) (zeros 56 ++ be_bytes 8 (8 * blen m))
    else fips_compress (fips_blocks q m) (rest m ++ [0x80] ++ zeros (55 - r) ++ be_bytes 8 (8 * blen m)).
Proof.
  cbv zeta. set (r := (length m mod 64)%nat). set (q := (length m / 64)%nat). unfold fips_sha1, fips_pad.
  assert (Hdm : length m = (64 * q + r)%nat) by apply Nat.div_mod_eq.
  assert (Hr : (r < 64)%nat) by (apply Nat.mod_upper_bound; lia).
  assert (Hz : Z.to_nat ((55 - blen m) mod 64) = if (55 <? r)%nat then (119 - r)%nat else (55 - r)%nat).
  { unfold blen. rewrite Hdm. destruct (Nat.ltb_spec 55 r).
    - rewrite <- (Z.mod_unique _ 64 (- Z.of_nat q - 1) (119 - Z.of_nat r)); lia.
    - rewrite <- (Z.mod_unique _ 64 (- Z.of_nat q) (55 - Z.of_nat r)); lia. }
  rewrite Hz. set (L := be_bytes 8 (8 * blen m)). assert (HL : length L = 8%nat) by done. clearbody L.
  assert (Hm : take (64 * q) m ++ rest m = m) by apply take_drop.
  assert (Hrest : drop (64 * q) m = rest m) by done.
  assert (Hrl : length (rest m) = r) by apply length_rest.
  destruct (Nat.ltb_spec 55 r).
  - set (m1 := m ++ [0x80] ++ zeros (63 - r)).
    assert (H1 : length m1 = (64 * (q + 1))%nat) by (subst m1; rewrite !length_app, length_zeros; cbn [length]; lia).
    assert (Hm1 : m ++ [0x80] ++ zeros (119 - r) ++ L = m1 ++ zeros 56 ++ L).
    { subst m1. rewrite <- !app_assoc. do 2 f_equal. rewrite app_assoc. f_equal. unfold zeros.
      rewrite <- replicate_add. f_equal. lia. }
    rewrite Hm1. replace (length (m1 ++ zeros 56 ++ L) / 64)%nat with (Datatypes.S (Datatypes.S q)).
    2:{ apply (Nat.div_unique _ _ _ 0); [lia|]. rewrite !length_app, length_zeros. lia. }
    cbn [fips_blocks]. rewrite (blocks_prefix q m1) by lia. subst m1. rewrite (blocks_prefix q m) by lia.
    assert (E1 : slice ((m ++ [0x80] ++ zeros (63 - r)) ++ zeros 56 ++ L) (64 * q) 64 = rest m ++ [0x80] ++ zeros (63 - r)).
    { rewrite <- Hm at 1. rewrite <- !app_assoc, (app_assoc (rest m)), (app_assoc (rest m ++ _)), <- (app_assoc (rest m)).
      apply slice_mid; [rewrite length_take; lia|]. rewrite !length_app, length_zeros. cbn [length]. lia. }
    assert (E2 : slice ((m ++ [0x80] ++ zeros (63 - r)) ++ zeros 56 ++ L) (64 * Datatypes.S q) 64 = zeros 56 ++ L).
    { rewrite <- (app_nil_r (zeros 56 ++ L)) at 1. apply slice_mid; [rewrite H1; lia|]. rewrite length_app, length_zeros. lia. }
    by rewrite E1, E2.
  - replace (length (m ++ [0x80%Z] ++ zeros (55 - r) ++ L) / 64)%nat with (Datatypes.S q).
    2:{ apply (Nat.div_unique _ _ _ 0); [lia|]. rewrite !length_app, length_zeros. cbn [length]. lia. }
    cbn [fips_blocks]. rewrite blocks_prefix by lia. apply (f_equal (fips_compress _)).
    unfold slice. rewrite drop_app_le, Hrest by lia. apply take_ge.
    rewrite !length_app, length_zeros. cbn [length]. lia.
Qed.
(** The block filled up to the length field. *)
Lemma wlp_fill_block H len p (Q : unit -> SHA1Context -> Prop) c :
  holding H len p c -> (length p < 64)%nat ->
  (forall c', holding (if (55 <? length p)%nat then fips_compress H (p ++ [0x80] ++ zeros (63 - length p)) else H) len
                (if (55 <? length p)%nat then zeros 56 else p ++ [0x80] ++ zeros (55 - length p)) c' -> Q tt c') ->
  wlp F fill_block Q c.
Proof.
  intros Hc Hp HQ. unfold fill_block. wgo. rewrite (holding_index _ _ _ _ Hc). destruct (Nat.ltb_spec 55 (length p)).
  - wgo. eapply wlp_put_byte; [exact Hc|done|unfold is_byte; lia|]. intros c1 Hc1. wgo.
    eapply wlp_pad_zeros; [exact Hc1| |lia|]; [rewrite length_app; cbn [length]; lia|]. intros c2 Hc2. wgo.
    rewrite length_app, <- app_assoc in Hc2. cbn [length] in Hc2.
    replace (64 - (length p + 1))%nat with (63 - length p)%nat in Hc2 by lia.
    eapply wlp_process; [exact Hc2|rewrite !length_app, length_zeros; cbn [length]; lia|]. intros c3 Hc3.
    eapply wlp_pad_zeros; [exact Hc3|simpl; lia|simpl; lia|]. exact HQ.
  - wgo. eapply wlp_put_byte; [exact Hc|done|unfold is_byte; lia|]. intros c1 Hc1.
    eapply wlp_pad_zeros; [exact Hc1| |lia|]; [rewrite length_app; cbn [length]; lia|]. intros c2 Hc2. apply HQ.
    rewrite length_app, <- app_assoc in Hc2. cbn [length] in Hc2.
    by replace (56 - (length p + 1))%nat with (55 - length p)%nat in Hc2 by lia.
Qed.

(** The whole padding. *)
Lemma wlp_PadMessage m (Q : unit -> SHA1Context -> Prop) c :
  absorbed m c -> (forall c', Message_Digest c' = fips_sha1 m -> Corrupted c' = false -> Q tt c') -> wlp F SHA1PadMessage Q c.
Proof.
  intros (Hc & Hlt & Hw) HQ. pose proof (length_rest m) as Hr. pose proof (Nat.mod_upper_bound (length m) 64 ltac:(lia)).
  unfold SHA1PadMessage. wgo. eapply wlp_fill_block; [exact Hc|lia|]. clear c Hc.
  intros c [H1 H2 (H3 & H3' & H3'') H4 H5 [H6 H6'] [H7 H7']]. wgo. rewrite (octets_be _ _ (8 * blen m)) by done.
  apply wlp_wrn; [by rewrite H6|]. wgo. unfold SHA1ProcessMessageBlock. wgo. apply HQ; [|done].
  cbn [set_Message_Block_Index set_Message_Digest set_Message_Block Message_Digest Message_Block]. rewrite H1.
  pose proof (pad_last_block m) as Hp. cbv zeta in Hp. rewrite Hp, <- Hr. clear Hp.
  set (p := if (55 <? length (rest m))%nat then zeros 56 else _) in *.
  assert (Hp : length p = 56%nat).
  { subst p. destruct (Nat.ltb_spec 55 (length (rest m))); [apply length_zeros|].
    rewrite !length_app, length_zeros. cbn [length]. lia. }
  assert (Hb : upd (Message_Block c) 56 (be_bytes 8 (8 * blen m)) = p ++ be_bytes 8 (8 * blen m)).
  { unfold upd. rewrite Hp in H5. rewrite H5, drop_ge, app_nil_r by (rewrite H6; simpl; lia). done. }
  assert (Hwp : wf_bytes (p ++ be_bytes 8 (8 * blen m))).
  { apply Forall_app. split; [rewrite <- H5; by apply Forall_take|].
    apply Forall_fmap, Forall_forall. intros k _. apply is_byte_mod. }
  rewrite Hb, process_block_fips by done. subst p. destruct (55 <? length (rest m))%nat; [done|].
  by rewrite <- !app_assoc.
Qed.

(** The digest. *)
Lemma wlp_Result m (Q : Z -> SHA1Context -> Prop) c :
  absorbed m c ->
  (forall c', Message_Digest c' = fips_sha1 m -> Computed c' = true -> Corrupted c' = false -> Q 1 c') -> wlp F SHA1Result Q c.
Proof.
  intros Hc HQ. pose proof Hc as ([_ _ _ _ _ _ [H7 H7']] & _). unfold SHA1Result. wgo. rewrite H7'. wgo. rewrite H7. cbn [negb]. wgo.
  eapply wlp_PadMessage; [exact Hc|]. intros c' Hd Hcor. wgo. by apply HQ.
Qed.

End ops.
