(* ===== verification/SrVns.v ===== *)
(** The session with the VNS server: the receiving half of sr_vns_comm.c, and
    sr_main.c. *)

From S2P Require Import Prelude.
From S2P Require Import Bytes.
From S2P Require Import VnsCommand.
From S2P Require Import SrState.
From S2P Require Import SrIf.
From S2P Require Import SrRt.
From S2P Require Import SrDumper.
From S2P Require Import SrSend.
From S2P Require Import SrArpcache.
From S2P Require Import SrRouter.
From S2P Require Import SrThreads.
From S2P Require Import Sha1.

(* ------------------------------------------------------------------ *)
(** * Messages and state *)

Definition AUTH_KEY_LEN : nat := 64.
Definition SHA1_LEN : Z := 20.

(** The sizes of the structs the code asks for. *)
Definition c_base_size : nat := Eval cbv in sizeof c_base.
Definition c_hw_entry_size : nat := Eval cbv in sizeof c_hw_entry.
Definition c_packet_ethernet_header_size : Z := Eval cbv in Z.of_nat (sizeof c_packet_ethernet_header).
Definition c_open_size : Z := Eval cbv in Z.of_nat (sizeof c_open).
Definition c_open_template_size : Z := Eval cbv in Z.of_nat (sizeof c_open_template).
Definition c_auth_reply_size : Z := Eval cbv in Z.of_nat (sizeof c_auth_reply).

(** What the socket will do from now on: bytes arrive, a call is interrupted by
    a signal, a call fails; after the last of these the server has closed the
    connection. *)
Inductive arrival :=
  | Chunk (b : bytes)
  | Interrupted
  | Broken.

(** A session: the router, the socket, the files of the working directory. *)
Record session := mk_session {
  ss_sr : sr_instance;
  ss_stream : list arrival;
  ss_files : gmap bytes bytes;
}.
Definition set_sr (v : sr_instance) (s : session) : session := mk_session v (ss_stream s) (ss_files s).
Definition set_stream (v : list arrival) (s : session) : session := mk_session (ss_sr s) v (ss_files s).
Definition set_files (v : gmap bytes bytes) (s : session) : session := mk_session (ss_sr s) (ss_stream s) v.

(** An operation of the router. *)
Definition in_sr {A} (m : M sr_instance A) : M session A := fun s =>
  match m (ss_sr s) with
  | Ok (a, sr) => Ok (a, set_sr sr s)
  | Err f => Err f
  end.

(* ------------------------------------------------------------------ *)
(** * Reading from the socket *)

(** [recv(sockfd, buf, n, 0)] or [read(sockfd, buf, n)]: the bytes, or -1 with
    whether errno is EINTR. *)
Definition recv (n : nat) : M session (bytes + bool) :=
  s ← get;
  match ss_stream s with
  | [] => mret (inl [])
  | Interrupted :: r => _ ← put (set_stream r s); mret (inr true)
  | Broken :: r => _ ← put (set_stream r s); mret (inr false)
  | Chunk b :: r =>
      _ ← put (set_stream (if (n <? length b)%nat then Chunk (drop n b) :: r else r) s);
      mret (inl (take n b))
  end.

(** The loops [while (bytes_read < n) { do { ... } while (errno == EINTR); }],
    [acc] being read; [None] when a call failed. *)
Fixpoint read_bytes (fuel n : nat) (acc : bytes) : M session (option bytes) :=
  match fuel with
  | O => fail OutOfFuel
  | Datatypes.S fuel' =>
      if (length acc <? n)%nat then
        ret ← recv (n - length acc);
        match ret with
        | inr true => read_bytes fuel' n acc
        | inr false => mret None
        | inl data => read_bytes fuel' n (acc ++ data)
        end
      else mret (Some acc)
  end.

(* ------------------------------------------------------------------ *)
(** * Handlers *)

(** [sr_arp_req_not_for_us(sr, packet, len, interface)] *)
Definition sr_arp_req_not_for_us (packet : bytes) (len : Z) (interface : bytes) : M sr_instance bool :=
  iface ← sr_get_interface interface;
  if len <? Z.of_nat Eth.size + Z.of_nat Arp.size then mret false
  else
    match iface with
    | None => fail AssertFailed
    | Some i =>
        ty ← rd16 packet Eth.type;
        if negb (ty =? htons ethertype_arp) then mret false
        else
          op ← rd16 packet (Eth.size + Arp.op);
          if negb (op =? htons arp_op_request) then mret false
          else
            tip ← rd32 packet (Eth.size + Arp.tip);
            mret (negb (tip =? if_ip i))
    end.

(** The turn [e] in which a message is read. *)
Section vns.
Context (e : turn).

(** Entry [i] of the hardware list, the body of the loop of [sr_handle_hwinfo]. *)
Definition hw_entry (hwinfo : bytes) (i : nat) : M sr_instance unit :=
  let o := (c_base_size + c_hw_entry_size * i)%nat in
  key ← rd32 hwinfo o;
  let key := ntohl key in
  if key =? HWINTERFACE then value ← rdn hwinfo (o + 4) 32; sr_add_interface e value
  else if key =? HWETHIP then ip ← rd32 hwinfo (o + 4); sr_set_ether_ip ip
  else if key =? HWETHER then value ← rdn hwinfo (o + 4) 32; sr_set_ether_addr value
  else mret tt.

(** [sr_handle_hwinfo(sr, hwinfo)] *)
Definition sr_handle_hwinfo (hwinfo : bytes) : M sr_instance Z :=
  mLen ← rd32 hwinfo 0;
  let num_entries := u64 (ntohl mLen - Z.of_nat c_base_size) / Z.of_nat c_hw_entry_size in
  _ ← mfor (seq 0 (Z.to_nat num_entries)) (hw_entry hwinfo);
  mret num_entries.

(** [fopen] for writing. *)
Context (fopen_w : bytes -> bool).

(** "rtable." and "auth_key" *)
Definition rtable_prefix : bytes := [114; 116; 97; 98; 108; 101; 46].
Definition auth_key_file : bytes := [97; 117; 116; 104; 95; 107; 101; 121].

(** [sr_handle_rtable(sr, rtable)] *)
Definition sr_handle_rtable (rtable : bytes) : M session bool :=
  let id := cstr (drop c_base_size rtable) in
  if (IDSIZE <? length id)%nat then fail OutOfBounds
  else
    let fn := rtable_prefix ++ id in
    if fopen_w fn then
      mLen ← rd32 rtable 0;
      data ← rdn rtable (c_base_size + IDSIZE) (Z.to_nat (u32 (ntohl mLen - 8 - Z.of_nat IDSIZE)));
      _ ← modify (fun s => set_files (<[fn := data]> (ss_files s)) s);
      mret true
    else mret false.

(** A run of the SHA-1 code on a context of its own. *)
Definition with_sha1 {A} (m : M SHA1Context A) : M session (A * SHA1Context) :=
  lift (m (mk_sha1 [] 0 0 (zeros 64) 0 false false)).

(** The digest of salt and key. *)
Definition auth_digest (salt : bytes) (salt_len : nat) (auth_key : bytes) : M SHA1Context Z :=
  _ ← SHA1Reset;
  _ ← SHA1Input salt salt_len;
  _ ← SHA1Input auth_key AUTH_KEY_LEN;
  SHA1Result.

(** What [strlen] and [strcpy] find at [sr->user]: a name that fills its array
    has no NUL there, and they run on over the fields behind it, the host, the
    template, [topo_id] and [sr_addr.sin_family], where 0 follows at the latest. *)
Definition user_string (sr : sr_instance) : bytes :=
  cstr (sr_user sr ++ sr_host sr ++ sr_template sr ++ le16 (sr_topo_id sr) ++ le16 2).

(** The reply to an authentication request, for the string at [sr->user]. *)
Definition auth_reply (name : bytes) (digest : list Z) : bytes :=
  le32 (htonl (c_auth_reply_size + blen name + SHA1_LEN)) ++ le32 (htonl VNS_AUTH_REPLY) ++ le32 (htonl (blen name)) ++ name
  ++ mjoin ((fun w => le32 (htonl w)) <$> digest).

(** [sr_handle_auth_request(sr, req)]; [auth_key] holds the line read and a NUL,
    the rest of it is not initialised. *)
Definition sr_handle_auth_request (req : bytes) : M session bool :=
  s ← get;
  match ss_files s !! auth_key_file with
  | None => mret false
  | Some fp =>
      match fgets (AUTH_KEY_LEN + 1) fp with
      | None => mret false
      | Some (line, _) =>
          let auth_key := line ++ [0] in
          if (length auth_key <? AUTH_KEY_LEN)%nat then fail Uninitialised
          else
            mLen ← rd32 req 0;
            '(ok, sha1) ← with_sha1 (auth_digest (drop c_base_size req)
                                       (Z.to_nat (u32 (ntohl mLen - Z.of_nat c_base_size))) auth_key);
            if ok =? 0 then mret false
            else
              let buf := auth_reply (user_string (ss_sr s)) (Message_Digest sha1) in
              _ ← in_sr (modify (add_wire buf));
              mret (env_write e buf =? blen buf)
      end
  end.

(** [sr_handle_auth_status(sr, status)] *)
Definition sr_handle_auth_status (status : bytes) : M session bool :=
  auth_ok ← rd8 status c_base_size;
  mret (nz auth_ok).

(* ------------------------------------------------------------------ *)
(** * One command from the server *)

(** How deep the router's handling may nest, and how often the socket may be read. *)
Context (fuel rfuel : nat).

(** The case VNSPACKET of a command [buf] of [len] bytes. *)
Definition handle_vnspacket (buf : bytes) (len : Z) : M session unit :=
  let packet := drop (Z.to_nat c_packet_header_size) buf in
  let interface := drop c_base_size buf in
  let plen := u32 (len - c_packet_ethernet_header_size + Z.of_nat Eth.size) in
  drop_it ← in_sr (sr_arp_req_not_for_us packet plen interface);
  if (drop_it : bool) then mret tt
  else
    mLen ← rd32 buf 0;
    _ ← in_sr (sr_log_packet e packet (s32 (ntohl mLen - c_packet_header_size)));
    in_sr (handlepacket_in e fuel packet plen interface).

(** The [switch (command)]; the value is that [sr_read_from_server_expect] returns. *)
Definition dispatch (command : Z) (buf : bytes) (len : Z) : M session Z :=
  if command =? VNSPACKET then _ ← handle_vnspacket buf len; mret 1
  else if command =? VNSCLOSE then mret 0
  else if command =? VNSBANNER then mret 1
  else if command =? VNSHWINFO then
    _ ← in_sr (sr_handle_hwinfo buf);
    v ← in_sr (gets sr_verify_routing_table);
    mret (if v =? 0 then 1 else -1)
  else if command =? VNS_RTABLE then ok ← sr_handle_rtable buf; mret (if (ok : bool) then 1 else -1)
  else if command =? VNS_AUTH_REQUEST then ok ← sr_handle_auth_request buf; mret (if (ok : bool) then 1 else -1)
  else if command =? VNS_AUTH_STATUS then ok ← sr_handle_auth_status buf; mret (if (ok : bool) then 1 else -1)
  else mret 1.

(** [sr_read_from_server_expect(sr, expected_cmd)] *)
Definition sr_read_from_server_expect (expected_cmd : Z) : M session Z :=
  l ← read_bytes rfuel 4 [];
  match l with
  | None => mret (-1)
  | Some l =>
      let len := s32 (ntohl (get32 l 0)) in
      if (10000 <? len) || (len <? 0) then mret (-1)
      else
        buf ← wr32 (zeros (Z.to_nat len)) 0 (htonl len);
        body ← read_bytes rfuel (Z.to_nat (len - 4)) [];
        match body with
        | None => mret (-1)
        | Some body =>
            buf ← wrn buf 4 body;
            c ← rd32 buf 4;
            let command := ntohl c in
            buf ← wr32 buf 4 command;
            if nz expected_cmd && negb (command =? expected_cmd) && negb (command =? VNSCLOSE) then mret (-1)
            else dispatch command buf len
        end
  end.

(** [sr_read_from_server(sr)] *)
Definition sr_read_from_server : M session Z := sr_read_from_server_expect 0.

(* ------------------------------------------------------------------ *)
(** * Opening the session *)

(** c_open_template and c_open *)
Definition open_template (sr : sr_instance) : bytes :=
  le32 (htonl c_open_template_size) ++ le32 (htonl VNS_OPEN_TEMPLATE) ++ strncpy (sr_template sr) 30 ++ strncpy (sr_host sr) IDSIZE.
Definition open_command (sr : sr_instance) : bytes :=
  le32 (htonl c_open_size) ++ le32 (htonl VNSOPEN) ++ le16 (htons (sr_topo_id sr)) ++ zeros 2
  ++ strncpy (sr_host sr) IDSIZE ++ strncpy (sr_user sr) IDSIZE ++ zeros IDSIZE.

(** [sr_connect_to_server(sr, port, server)]; [connected]: the server was found
    and the connection made. *)
Definition sr_connect_to_server (connected : bool) : M session Z :=
  if negb connected then mret (-1)
  else
    r ← sr_read_from_server_expect VNS_AUTH_REQUEST;
    if negb (r =? 1) then mret (-1)
    else
      r ← sr_read_from_server_expect VNS_AUTH_STATUS;
      if negb (r =? 1) then mret (-1)
      else
        s ← get;
        let sr := ss_sr s in
        let template := (0 <? strlen (sr_template sr))%nat in
        let buf := if template then open_template sr else open_command sr in
        _ ← in_sr (modify (add_wire buf));
        if negb (env_write e buf =? blen buf) then mret (-1)
        else if template then
          r ← sr_read_from_server_expect VNS_RTABLE;
          mret (if r =? 1 then 0 else -1)
        else mret 0.

(* ------------------------------------------------------------------ *)
(** * The main program *)

Context (inet_aton : bytes -> option Z).

(** The options of [main], after [getopt]. *)
Record options := mk_options {
  o_host : bytes;
  o_user : option bytes;
  o_rtable : bytes;
  o_template : option bytes;
  o_topo : Z;
  o_logfile : option bytes;
}.

(** [sr_set_user(sr)], the account's name being [pw_name] if it has one. *)
Definition something_silly : bytes := [115; 111; 109; 101; 116; 104; 105; 110; 103; 95; 115; 105; 108; 108; 121].
Definition sr_set_user (pw_name : option bytes) : bytes := strncpy (default something_silly pw_name) 32.

(** [sr_init_instance(sr)]; template and cache stay as they are. *)
Definition sr_init_instance : M sr_instance unit :=
  modify (fun sr => mk_sr [0] [0] (sr_template sr) 0 [] [] (sr_cache sr) None (sr_wire sr)).

(** [sr_init(sr)], without the start of the cleanup thread. *)
Definition sr_init : M sr_instance unit := modify (set_cache sr_arpcache_init).

(** [sr_load_rt_wrap(sr, rtable)]: whether the program goes on. *)
Definition sr_load_rt_wrap (rtable : bytes) : M session bool :=
  s ← get;
  r ← in_sr (sr_load_rt inet_aton (ss_files s !! cstr rtable));
  mret (r =? 0).
End vns.

(** [while (sr_read_from_server(&sr) == 1)], in the turns [ts]. *)
Fixpoint serve_loop (fopen_w : bytes -> bool) (fuel rfuel : nat) (ts : list turn) : M session unit :=
  match ts with
  | [] => fail OutOfFuel
  | t :: ts' =>
      _ ← in_sr (cleanup_rounds fuel (tn_before t));
      r ← sr_read_from_server t fopen_w fuel rfuel;
      if r =? 1 then serve_loop fopen_w fuel rfuel ts' else mret tt
  end.

(** "rtable.vrhost" *)
Definition rtable_vrhost : bytes := rtable_prefix ++ [118; 114; 104; 111; 115; 116].

Section main.
Context (e : turn) (fopen_w : bytes -> bool) (fuel rfuel : nat) (inet_aton : bytes -> option Z).

(** [main]: the exit status. The session is opened in the turn [e], before there
    is a cleanup thread; the main loop has the turns [ts]. *)
Definition sr_main (pw_name : option bytes) (connected : bool) (ts : list turn) (o : options) : M session Z :=
  _ ← in_sr sr_init_instance;
  ok ← match o_template o with
       | None =>
           _ ← in_sr (modify (fun sr => mk_sr (sr_user sr) (sr_host sr) [0] (sr_topo_id sr) (sr_if_list sr)
                                          (sr_routing_table sr) (sr_cache sr) (sr_logfile sr) (sr_wire sr)));
           sr_load_rt_wrap inet_aton (o_rtable o)
       | Some t =>
           _ ← in_sr (modify (fun sr => mk_sr (sr_user sr) (sr_host sr) (strncpy t 30) (sr_topo_id sr) (sr_if_list sr)
                                          (sr_routing_table sr) (sr_cache sr) (sr_logfile sr) (sr_wire sr)));
           mret true
       end;
  if negb ok then mret 1
  else
    let user := match o_user o with None => sr_set_user pw_name | Some u => strncpy u 32 end in
    _ ← in_sr (modify (fun sr => mk_sr user (strncpy (o_host o) 32) (sr_template sr) (u16 (o_topo o)) (sr_if_list sr)
                                   (sr_routing_table sr) (sr_cache sr) (sr_logfile sr) (sr_wire sr)));
    opened ← match o_logfile o with
             | None => mret true
             | Some f =>
                 let log := sr_dump_open (fopen_w f) 0 PACKET_DUMP_SIZE in
                 _ ← in_sr (modify (set_logfile log));
                 mret (match log with Some _ => true | None => false end)
             end;
    if negb opened then mret 1
    else
      r ← sr_connect_to_server e fopen_w fuel rfuel connected;
      if r =? -1 then mret 1
      else
        ok ← sr_load_rt_wrap inet_aton
               (match o_template o with
                | Some _ => if bool_decide (cstr (o_rtable o) = rtable_vrhost) then rtable_vrhost else o_rtable o
                | None => o_rtable o
                end);
        if negb ok then mret 1
        else
          _ ← in_sr sr_init;
          _ ← serve_loop fopen_w fuel rfuel ts;
          mret 0.
End main.
