(* ===== verification/VnsFacts.v ===== *)
(** The byte stream of the VNS session: what the receive loops return, whatever
    the pieces the bytes arrive in. *)

From S2P Require Import Prelude.
From S2P Require Import Bytes.
From S2P Require Import VnsCommand.
From S2P Require Import SrState.
From S2P Require Import SrIf.
From S2P Require Import SrDumper.
From S2P Require Import SrSend.
From S2P Require Import SrRouter.
From S2P Require Import SrThreads.
From S2P Require Import SrRt.
From S2P Require Import Sha1.
From S2P Require Import Sha1Spec.
From S2P Require Import Sha1Facts.
From S2P Require Import SrVns.

(** The bytes that arrive before a failure or the end. *)
Fixpoint pending (l : list arrival) : bytes :=
  match l with
  | Chunk b :: r => b ++ pending r
  | Interrupted :: r => pending r
  | _ => []
  end.

(** [s'] is [s] with the bytes [m] read off the socket. *)
Record consumed (m : bytes) (s s' : session) : Prop := {
  consumed_pending : pending (ss_stream s) = m ++ pending (ss_stream s');
  consumed_length : (length (ss_stream s') <= length (ss_stream s))%nat;
  consumed_rest : s' = set_stream (ss_stream s') s;
}.

Lemma consumed_nil s : consumed [] s s.
Proof. split; [done|lia|by destruct s]. Qed.

Lemma consumed_trans m m' a b c : consumed m a b -> consumed m' b c -> consumed (m ++ m') a c.
Proof.
  intros [H1 H2 H3] [H4 H5 H6]. split; [by rewrite <- app_assoc, <- H4|lia|].
  rewrite H6 at 1. rewrite H3. by destruct a.
Qed.

Lemma pending_drop n b r :
  pending (if (n <? length b)%nat then Chunk (drop n b) :: r else r) = drop n b ++ pending r.
Proof. destruct (Nat.ltb_spec n (length b)); [done|]. by rewrite drop_ge. Qed.

(** The loop gets its [n] bytes when they are on their way, in as many rounds as
    there are arrivals and one more. *)
Lemma wlp_read_bytes F fuel n acc m rest (Q : option bytes -> session -> Prop) s :
  pending (ss_stream s) = m ++ rest -> (length acc + length m)%nat = n -> (length (ss_stream s) < fuel)%nat ->
  (forall s', consumed m s s' -> pending (ss_stream s') = rest -> Q (Some (acc ++ m)) s') ->
  wlp F (read_bytes fuel n acc) Q s.
Proof.
  revert acc m s. induction fuel as [|fuel IH]; intros acc m s Hp Hn Hf HQ; [lia|]. cbn [read_bytes].
  destruct (Nat.ltb_spec (length acc) n) as [Hlt|Hge].
  2:{ assert (m = []) as -> by (apply length_zero_iff_nil; lia). rewrite app_nil_r in HQ. wgo. apply HQ; [apply consumed_nil|done]. }
  wgo. unfold recv. wgo. destruct s as [sr l fs]; cbn [ss_stream] in *. destruct l as [|[b| |] r]; cbn [pending] in Hp.
  - apply app_eq_nil in Hp as [-> ->] || (symmetry in Hp; apply app_eq_nil in Hp as [-> ->]). simpl in Hn. lia.
  - wgo. set (k := (n - length acc)%nat). assert (Hk : length m = k) by lia.
    destruct (Nat.ltb_spec k (length b)) as [Hb|Hb].
    + assert (Hm : take k b = m).
      { rewrite <- Hk. apply (f_equal (take (length m))) in Hp. rewrite take_app_length, take_app_le in Hp by lia. done. }
      assert (Hr : drop k b ++ pending r = rest).
      { rewrite <- Hk. apply (f_equal (drop (length m))) in Hp. rewrite drop_app_length, drop_app_le in Hp by lia. done. }
      rewrite Hm. destruct fuel as [|fuel]; [simpl in Hf; lia|]. cbn [read_bytes].
      rewrite (proj2 (Nat.ltb_ge _ _)) by (rewrite length_app; lia). wgo. apply HQ; [|done].
      split; cbn [ss_stream set_stream pending]; [|done|done]. by rewrite Hr.
    + rewrite take_ge by done.
      assert (Hm : m = b ++ drop (length b) m).
      { rewrite <- (take_drop (length b) m) at 1. f_equal. apply (f_equal (take (length b))) in Hp.
        rewrite take_app_length, take_app_le in Hp by lia. done. }
      apply (IH (acc ++ b) (drop (length b) m)); cbn [ss_stream set_stream].
      * rewrite Hm, <- app_assoc in Hp. by apply app_inv_head in Hp.
      * rewrite length_app, length_drop. lia.
      * simpl in Hf. lia.
      * intros s' [H1 H2 H3] Hs'. rewrite <- app_assoc, <- Hm. apply HQ; [|done].
        cbn [ss_stream set_stream] in *. split; cbn [ss_stream]; [|simpl; lia|done].
        cbn [pending]. rewrite H1, Hm, <- app_assoc, drop_app_length. done.
  - wgo. apply (IH acc m); cbn [ss_stream set_stream]; [done|done|simpl in Hf; lia|].
    intros s' [H1 H2 H3] Hs'. apply HQ; [|done]. split; cbn [ss_stream set_stream] in *; [done|simpl; lia|done].
  - symmetry in Hp. apply app_eq_nil in Hp as [-> ->]. simpl in Hn. lia.
Qed.

(** A message of the protocol: its length, its command, its body. *)
Definition vns_message (command : Z) (body : bytes) : bytes :=
  le32 (htonl (8 + blen body)) ++ le32 (htonl command) ++ body.

(** The message in memory, the command in host order. *)
Definition received (command : Z) (body : bytes) : bytes :=
  le32 (htonl (8 + blen body)) ++ le32 command ++ body.

Lemma get8_app_r (a t : bytes) i : get8 (a ++ t) (length a + i) = get8 t i.
Proof. unfold get8. rewrite app_nth2 by lia. f_equal. lia. Qed.

Lemma get32_app_le32 (a t : bytes) v :
  0 <= v < 4294967296 -> get32 (a ++ le32 v ++ t) (length a) = v.
Proof.
  intros Hv. rewrite <- (get32_le32 v Hv) at 2. unfold get32, get16.
  rewrite <- (Nat.add_0_r (length a)) at 1 2. rewrite <- !Nat.add_assoc, !get8_app_r. done.
Qed.

Lemma get32_head (t : bytes) v : 0 <= v < 4294967296 -> get32 (le32 v ++ t) 0 = v.
Proof. intros Hv. by apply (get32_app_le32 [] t v). Qed.

Lemma upd_app (a b t vs : bytes) o : length a = o -> length b = length vs -> upd (a ++ b ++ t) o vs = a ++ vs ++ t.
Proof.
  intros <- H. unfold upd. rewrite take_app_length. do 2 f_equal.
  rewrite app_assoc, <- H. rewrite <- length_app. by rewrite drop_app_length.
Qed.

Lemma upd_head (b t vs : bytes) : length b = length vs -> upd (b ++ t) 0 vs = vs ++ t.
Proof. intros H. by apply (upd_app [] b t vs). Qed.

Lemma zeros_add n k : zeros (n + k) = zeros n ++ zeros k.
Proof. apply replicate_add. Qed.

(** Reading a message runs the case of its command on it. *)
Lemma wlp_read_message F (e : turn) w fuel rfuel expected command body rest (Q : Z -> session -> Prop) s :
  pending (ss_stream s) = vns_message command body ++ rest ->
  8 + blen body <= 10000 -> 0 <= command < 2 ^ 32 -> (length (ss_stream s) < rfuel)%nat ->
  (expected = 0 \/ expected = command \/ command = VNSCLOSE) ->
  (forall s', consumed (vns_message command body) s s' -> pending (ss_stream s') = rest ->
     wlp F (dispatch e w fuel command (received command body) (8 + blen body)) Q s') ->
  wlp F (sr_read_from_server_expect e w fuel rfuel expected) Q s.
Proof.
  intros Hp Hlen Hc Hf Hexp HQ. unfold sr_read_from_server_expect, vns_message in *.
  set (n := 8 + blen body) in *. assert (Hn : 8 <= n <= 10000) by (unfold n, blen in *; lia).
  rewrite <- app_assoc in Hp. wgo. eapply wlp_read_bytes; [exact Hp|done|done|]. intros s1 Hs1 Hp1. cbn [app].
  assert (Hl : s32 (ntohl (get32 (le32 (htonl n)) 0)) = n).
  { rewrite get32_le32 by apply htonl_range. unfold ntohl. rewrite htonl_htonl, s32_small by lia. done. }
  wgo. rewrite Hl. rewrite (proj2 (Z.ltb_ge _ _)), (proj2 (Z.ltb_ge _ _)) by lia. cbn [orb].
  assert (Hz : zeros (Z.to_nat n) = zeros 4 ++ zeros 4 ++ zeros (length body)).
  { rewrite <- !zeros_add. f_equal. unfold n, blen. lia. }
  wgo. unfold wr32. apply wlp_wrn; [rewrite length_zeros; simpl; lia|]. wgo. rewrite Hz.
  rewrite (upd_head (zeros 4)) by done.
  eapply wlp_read_bytes; [by rewrite <- app_assoc in Hp1; rewrite app_assoc in Hp1| | |].
  { rewrite length_app. unfold n, blen. simpl. lia. }
  { pose proof (consumed_length _ _ _ Hs1). lia. }
  intros s2 Hs2 Hp2. wgo. cbn [app].
  apply wlp_wrn; [rewrite !length_app, !length_zeros; simpl; lia|]. wgo.
  rewrite <- (app_nil_r (zeros 4 ++ zeros (length body))). 
  rewrite (upd_app (le32 (htonl n)) (zeros 4 ++ zeros (length body)) [] (le32 (htonl command) ++ body)); [|done|by rewrite !length_app, !length_zeros].
  rewrite app_nil_r. apply wlp_rd32; [rewrite !length_app; simpl; lia|]. wgo.
  change 4%nat with (length (le32 (htonl n))). rewrite get32_app_le32 by apply htonl_range.
  apply wlp_wrn; [rewrite !length_app; simpl; lia|]. wgo.
  rewrite (upd_app (le32 (htonl n)) (le32 (htonl command)) body (le32 (ntohl _))) by done.
  unfold ntohl. rewrite htonl_htonl by lia.
  assert (Hx : (nz expected && negb (command =? expected) && negb (command =? VNSCLOSE)) = false).
  { unfold nz. destruct Hexp as [->|[->| ->]]; [done|by rewrite Z.eqb_refl, andb_false_r|by rewrite andb_false_r]. }
  rewrite Hx. apply HQ; [|done].
  by apply (consumed_trans _ _ _ _ _ Hs1 Hs2).
Qed.

(* ------------------------------------------------------------------ *)
(** * Packets *)

Lemma wlp_in_sr {A} F (m : M sr_instance A) (Q : A -> session -> Prop) s :
  wlp F m (fun a sr => Q a (set_sr sr s)) (ss_sr s) -> wlp F (in_sr m) Q s.
Proof. unfold wlp, in_sr. by destruct (m (ss_sr s)) as [[a sr]|f]. Qed.

Lemma in_sr_bind {A B} (m : M sr_instance A) (k : A -> M sr_instance B) s :
  in_sr (m ≫= k) s = (in_sr m ≫= fun a => in_sr (k a)) s.
Proof.
  unfold in_sr, mbind, M_bind. destruct (m (ss_sr s)) as [[a sr]|f]; [|done]. cbn [ss_sr set_sr].
  by destruct (k a sr) as [[b sr']|f].
Qed.

Lemma drop_received command body : drop c_base_size (received command body) = body.
Proof. done. Qed.

Lemma mLen_received {A} command body (k : Z -> M session A) s :
  8 + blen body <= 10000 -> (rd32 (received command body) 0 ≫= k) s = k (htonl (8 + blen body)) s.
Proof.
  intros Hl. rewrite (bind_ok _ _ s (htonl (8 + blen body)) s); [done|]. unfold rd32, received.
  replace (in_range _ 0 4) with true by (symmetry; apply in_range_true; rewrite !length_app; simpl; lia).
  by rewrite get32_head by apply htonl_range.
Qed.

(** What the session does with a packet that came in on interface [name]. *)
Definition deliver (e : turn) (fuel : nat) (p : bytes * bytes) : M sr_instance unit :=
  let '(name, frame) := p in
  other ← sr_arp_req_not_for_us frame (blen frame) (name ++ frame);
  if (other : bool) then mret tt
  else
    _ ← sr_log_packet e frame (blen frame);
    handlepacket_in e fuel frame (blen frame) (name ++ frame).

(** The 16 bytes of mInterfaceName and a frame that fits a message. *)
Definition packet_ok (p : bytes * bytes) : Prop := length (fst p) = 16%nat /\ 24 + blen (snd p) <= 10000.

(** The message that carries it. *)
Definition packet_message (p : bytes * bytes) : bytes := vns_message VNSPACKET (fst p ++ snd p).

Lemma blen_packet p : packet_ok p -> blen (fst p ++ snd p) = 16 + blen (snd p).
Proof. intros [H _]. unfold blen. rewrite length_app. lia. Qed.

Lemma handle_vnspacket_deliver e fuel p s :
  packet_ok p ->
  handle_vnspacket e fuel (received VNSPACKET (fst p ++ snd p)) (8 + blen (fst p ++ snd p)) s = in_sr (deliver e fuel p) s.
Proof.
  intros Hp. pose proof (blen_packet p Hp) as Hb. destruct p as [name frame], Hp as [Hn Hf]. cbn [fst snd] in *.
  pose proof (Zle_0_nat (length frame)) as Hpos. fold (blen frame) in Hpos.
  unfold handle_vnspacket, deliver. rewrite drop_received.
  assert (Hd : drop (Z.to_nat c_packet_header_size) (received VNSPACKET (name ++ frame)) = frame).
  { change (Z.to_nat c_packet_header_size) with (c_base_size + 16)%nat. rewrite <- drop_drop, drop_received, <- Hn.
    apply drop_app_length. }
  rewrite Hd, Hb. unfold c_packet_ethernet_header_size.
  replace (u32 (8 + (16 + blen frame) - 38 + Z.of_nat Eth.size)) with (blen frame).
  2:{ rewrite u32_small; unfold Eth.size; lia. }
  rewrite in_sr_bind. set (m := in_sr (sr_arp_req_not_for_us _ _ _)).
  destruct (m s) as [[other s']|f] eqn:E; [|by rewrite !(bind_err _ _ _ _ E)].
  rewrite !(bind_ok _ _ _ _ _ E). destruct other; [by destruct s'|].
  rewrite mLen_received by lia. rewrite in_sr_bind, Hb. unfold ntohl. rewrite htonl_htonl by lia.
  unfold c_packet_header_size. by replace (s32 (8 + (16 + blen frame) - 24)) with (blen frame) by (rewrite s32_small; lia).
Qed.

(** One round of the main loop: a packet is handed on, whatever the pieces its
    message arrives in. *)
Lemma wlp_read_packet F (e : turn) w fuel rfuel p rest (Q : Z -> session -> Prop) s :
  packet_ok p -> pending (ss_stream s) = packet_message p ++ rest -> (length (ss_stream s) < rfuel)%nat ->
  (forall l, pending l = rest -> (length l <= length (ss_stream s))%nat ->
     wlp F (deliver e fuel p) (fun _ sr => Q 1 (mk_session sr l (ss_files s))) (ss_sr s)) ->
  wlp F (sr_read_from_server e w fuel rfuel) Q s.
Proof.
  intros Hp Hs Hf HQ. pose proof (blen_packet p Hp) as Hb. destruct Hp as [Hn Hl].
  eapply wlp_read_message; [exact Hs|lia|unfold VNSPACKET; lia|done|by left|]. intros s' [_ Hle Hs'] Hp'.
  unfold dispatch. change (VNSPACKET =? VNSPACKET) with true. cbv iota. wgo.
  eapply wlp_eq; [by apply handle_vnspacket_deliver|]. apply wlp_in_sr. rewrite Hs'.
  eapply wlp_mono; [apply (HQ _ Hp' Hle)|]. intros [] sr H. by wgo.
Qed.

(** What the main loop does in the turns [ts] with packets [ps] to read: in each
    turn the rounds of the cleanup thread, then one packet; the turn behind the
    last packet reads the message that ends the session. *)
Fixpoint deliveries (fuel : nat) (ts : list turn) (ps : list (bytes * bytes)) : M sr_instance unit :=
  match ts with
  | [] => fail OutOfFuel
  | t :: ts' =>
      _ ← cleanup_rounds fuel (tn_before t);
      match ps with
      | [] => mret tt
      | p :: ps' => _ ← deliver t fuel p; deliveries fuel ts' ps'
      end
  end.

(** The main loop on packets and the message that ends it. *)
Lemma wlp_serve_loop F w fuel rfuel ps ts reason rest (Q : unit -> session -> Prop) s :
  Forall packet_ok ps -> 8 + blen reason <= 10000 ->
  pending (ss_stream s) = mjoin (packet_message <$> ps) ++ vns_message VNSCLOSE reason ++ rest ->
  (length (ss_stream s) < rfuel)%nat ->
  wlp F (deliveries fuel ts ps)
    (fun _ sr => forall l, pending l = rest -> Q tt (mk_session sr l (ss_files s))) (ss_sr s) ->
  wlp F (serve_loop w fuel rfuel ts) Q s.
Proof.
  intros Hok Hr. revert ps s Hok. induction ts as [|t ts IH]; intros ps s Hok Hs Hf HQ; [exact HQ|]. cbn [serve_loop deliveries] in *.
  wgo. apply wlp_in_sr. eapply wlp_mono; [by apply wlp_bind_inv|]. cbn beta. intros [] sr H. cbn [ss_sr] in H. wgo. destruct ps as [|p ps].
  - eapply wlp_read_message; [exact Hs|exact Hr|unfold VNSCLOSE; lia|done|by left|].
    intros s' [_ _ Hs'] Hp. unfold dispatch. do 2 wif. rewrite Hs'. by apply H.
  - apply Forall_cons in Hok as [Hp Hok]. eapply wlp_read_packet; [exact Hp| |done|].
    { cbn [set_sr ss_stream]. rewrite Hs. cbn [fmap list_fmap]. change (mjoin (packet_message p :: ?l)) with (packet_message p ++ mjoin l).
      by rewrite <- app_assoc. }
    cbn [set_sr ss_stream ss_sr ss_files]. intros l Hl Hle. apply wlp_bind_inv in H. eapply wlp_mono; [exact H|]. cbn beta. intros [] sr' H'.
    change (1 =? 1) with true. cbv iota. apply (IH ps (mk_session sr' l (ss_files s))); [done|done|cbn; lia|exact H'].
Qed.

(* ------------------------------------------------------------------ *)
(** * Hardware information *)

(** An entry of the hardware list: a field of the interface named last, or a
    key the router passes over. *)
Inductive hw_field :=
  | HwIp (ip : Z)
  | HwEther (addr : bytes)
  | HwOther (key : Z) (value : bytes).

Definition hw_field_ok (f : hw_field) : Prop :=
  match f with
  | HwIp ip => 0 <= ip < 2 ^ 32
  | HwEther addr => length addr = 6%nat
  | HwOther key value =>
      0 <= key < 2 ^ 32 /\ key <> HWINTERFACE /\ key <> HWETHIP /\ key <> HWETHER /\ length value = 32%nat
  end.

Definition hw_item (key : Z) (value : bytes) : bytes := le32 (htonl key) ++ value.
Definition field_item (f : hw_field) : bytes :=
  match f with
  | HwIp ip => hw_item HWETHIP (le32 ip ++ zeros 28)
  | HwEther addr => hw_item HWETHER (addr ++ zeros 26)
  | HwOther key value => hw_item key value
  end.

(** What a field says of an interface. *)
Definition with_field (i : sr_if) (f : hw_field) : sr_if :=
  match f with
  | HwIp ip => mk_if (if_name i) (if_addr i) ip (if_speed i)
  | HwEther addr => mk_if (if_name i) addr (if_ip i) (if_speed i)
  | HwOther _ _ => i
  end.

(** An interface as the server describes it: its name, then its fields. *)
Definition hw_interface : Type := bytes * list hw_field.
Definition hw_interface_ok (h : hw_interface) : Prop := length (fst h) = 32%nat /\ Forall hw_field_ok (snd h).
Definition interface_items (h : hw_interface) : list bytes := hw_item HWINTERFACE (fst h) :: (field_item <$> snd h).
Definition interface_of (e : env) (h : hw_interface) : sr_if :=
  fold_left with_field (snd h)
    (mk_if (strncpy (fst h) 32) (if_addr (env_fresh_if e)) (if_ip (env_fresh_if e)) (if_speed (env_fresh_if e))).

Section hwinfo.
Context (F : fault -> Prop) (e : turn).

(** Item [i] of the list is [it]. *)
Definition item_at (buf : bytes) (i : nat) (it : bytes) : Prop :=
  slice buf (c_base_size + c_hw_entry_size * i) 36 = it
  /\ (c_base_size + c_hw_entry_size * i + 36 <= length buf)%nat.

Lemma get32_slice b o n i : (i + 4 <= n)%nat -> get32 (slice b o n) i = get32 b (o + i).
Proof. intros H. unfold get32, get16. rewrite !get8_slice by lia. by rewrite !Nat.add_assoc. Qed.

Lemma slice_slice b o n i k : (i + k <= n)%nat -> slice (slice b o n) i k = slice b (o + i) k.
Proof. intros H. unfold slice. rewrite skipn_firstn_comm, firstn_firstn, drop_drop. f_equal. lia. Qed.

(** An entry read. *)
Lemma wlp_hw_entry buf i key value (Q : unit -> sr_instance -> Prop) s :
  item_at buf i (hw_item key value) -> 0 <= key < 2 ^ 32 -> length value = 32%nat ->
  wlp F (if key =? HWINTERFACE then sr_add_interface e value
         else if key =? HWETHIP then sr_set_ether_ip (get32 value 0)
         else if key =? HWETHER then sr_set_ether_addr value else mret tt) Q s ->
  wlp F (hw_entry e buf i) Q s.
Proof.
  intros [Hi Hl] Hk Hv HQ. unfold hw_entry. cbv zeta. set (o := (c_base_size + c_hw_entry_size * i)%nat) in *.
  assert (H0 : get32 buf o = htonl key).
  { rewrite <- (Nat.add_0_r o), <- (get32_slice buf o 36 0), Hi by lia. apply get32_head, htonl_range. }
  assert (H4 : slice buf (o + 4) 32 = value).
  { rewrite <- (slice_slice buf o 36), Hi by lia. unfold hw_item, slice.
    change (drop 4 (le32 (htonl key) ++ value)) with value. apply take_ge. lia. }
  assert (H4' : get32 buf (o + 4) = get32 value 0).
  { rewrite <- H4, get32_slice by lia. by rewrite Nat.add_0_r. }
  wgo. apply wlp_rd32; [lia|]. rewrite H0. unfold ntohl. rewrite htonl_htonl by lia. 
  destruct (key =? HWINTERFACE); [wgo; apply wlp_rdn; [lia|]; by rewrite H4|].
  destruct (key =? HWETHIP); [wgo; apply wlp_rd32; [lia|]; by rewrite H4'|].
  destruct (key =? HWETHER); [wgo; apply wlp_rdn; [lia|]; by rewrite H4|done].
Qed.

(** A field is stored in the last interface. *)
Lemma wlp_hw_field buf i f l x s :
  item_at buf i (field_item f) -> hw_field_ok f -> sr_if_list s = l ++ [x] ->
  wlp F (hw_entry e buf i) (fun _ s' => s' = set_if_list (l ++ [with_field x f]) s) s.
Proof.
  intros Hi Hf Hs. assert (Hne : negb (bool_decide (sr_if_list s = [])) = true).
  { rewrite Hs, bool_decide_eq_false_2; [done|]. by destruct l. }
  destruct f as [ip|a|key v]; cbn [field_item hw_field_ok] in *.
  - eapply wlp_hw_entry; [exact Hi|unfold HWETHIP; lia|done|]. do 2 wif. unfold sr_set_ether_ip. wgo. rewrite Hne. wgo.
    rewrite Hs, alter_last_snoc, get32_head by lia. done.
  - eapply wlp_hw_entry; [exact Hi|unfold HWETHER; lia|by rewrite length_app, Hf|]. do 3 wif. unfold sr_set_ether_addr. wgo.
    rewrite Hne. wgo. apply wlp_rdn; [rewrite length_app; simpl; lia|]. wgo. rewrite Hs, alter_last_snoc.
    unfold slice. rewrite drop_0, <- Hf, take_app_length. done.
  - destruct Hf as (Hk & H1 & H2 & H3 & Hl). eapply wlp_hw_entry; [exact Hi|done|done|].
    rewrite !(proj2 (Z.eqb_neq _ _)) by done. wgo. cbn [with_field]. rewrite <- Hs. by destruct s.
Qed.

Lemma wlp_hw_fields buf k fs l x s (Q : unit -> sr_instance -> Prop) :
  (forall j f, fs !! j = Some f -> item_at buf (k + j) (field_item f)) -> Forall hw_field_ok fs -> sr_if_list s = l ++ [x] ->
  Q tt (set_if_list (l ++ [fold_left with_field fs x]) s) ->
  wlp F (mfor (seq k (length fs)) (hw_entry e buf)) Q s.
Proof.
  revert k x s. induction fs as [|f fs IH]; intros k x s Hi Hf Hs HQ; cbn [length seq mfor].
  - wgo. cbn [fold_left] in HQ. rewrite <- Hs in HQ. by destruct s.
  - apply Forall_cons in Hf as [Hf Hfs]. wgo. eapply wlp_mono.
    + eapply wlp_hw_field; [|exact Hf|exact Hs]. rewrite <- (Nat.add_0_r k). by apply Hi.
    + intros [] s' ->. eapply (IH _ (with_field x f)); [|done|done|exact HQ].
      intros j g Hj. replace (Datatypes.S k + j)%nat with (k + Datatypes.S j)%nat by lia. by apply Hi.
Qed.

Lemma mfor_app {S A} (l l' : list A) (body : A -> M S unit) (Q : unit -> S -> Prop) s :
  wlp F (mfor l body) (fun _ s' => wlp F (mfor l' body) Q s') s -> wlp F (mfor (l ++ l') body) Q s.
Proof.
  revert s. induction l as [|x l IH]; intros s H; [done|]. cbn [mfor app] in *. unfold wlp at 1 in H. wgo.
  unfold mbind, M_bind in H. unfold wlp. destruct (body x s) as [[[] s']|f]; [|done]. by apply IH.
Qed.

(** All the interfaces. *)
Lemma wlp_hw_interfaces buf k hs s (Q : unit -> sr_instance -> Prop) :
  let items := mjoin (interface_items <$> hs) in
  (forall j it, items !! j = Some it -> item_at buf (k + j) it) -> Forall hw_interface_ok hs ->
  Q tt (set_if_list (sr_if_list s ++ (interface_of e <$> hs)) s) ->
  wlp F (mfor (seq k (length items)) (hw_entry e buf)) Q s.
Proof.
  cbv zeta. revert k s. induction hs as [|[name fs] hs IH]; intros k s Hi Hok HQ.
  - cbn. wgo. rewrite app_nil_r in HQ. by destruct s.
  - apply Forall_cons in Hok as [[Hn Hf] Hok]. cbn [fst snd fmap list_fmap] in *.
    change (mjoin (interface_items (name, fs) :: ?l)) with (hw_item HWINTERFACE name :: ((field_item <$> fs) ++ mjoin l)) in *.
    cbn [length seq mfor]. wgo. rewrite length_app, seq_app, length_fmap.
    eapply wlp_hw_entry; [rewrite <- (Nat.add_0_r k); by apply Hi|unfold HWINTERFACE; lia|done|].
    wif. unfold sr_add_interface. wgo. apply mfor_app. eapply wlp_hw_fields; [|exact Hf|done|].
    { intros j f Hj. replace (Datatypes.S k + j)%nat with (k + Datatypes.S j)%nat by lia. apply Hi. rewrite lookup_cons_ne_0 by done. cbn [Init.Nat.pred].
      rewrite lookup_app_l by (rewrite length_fmap; by eapply lookup_lt_Some). by rewrite list_lookup_fmap, Hj. }
    apply IH; [|done|].
    { intros j it Hj. replace (Datatypes.S k + length fs + j)%nat with (k + Datatypes.S (length fs + j))%nat by lia.
      apply Hi. rewrite lookup_cons_ne_0 by done. cbn [Init.Nat.pred]. rewrite lookup_app_r by (rewrite length_fmap; lia). rewrite length_fmap.
      by replace (length fs + j - length fs)%nat with j by lia. }
    cbn [sr_if_list set_if_list] in *. rewrite <- app_assoc. exact HQ.
Qed.
End hwinfo.

Lemma items_length hs : Forall hw_interface_ok hs -> Forall (fun it => length it = 36%nat) (mjoin (interface_items <$> hs)).
Proof.
  intros H. induction H as [|[name fs] hs [Hn Hf] Hok IH]; [constructor|]. cbn [fmap list_fmap].
  change (mjoin (interface_items (name, fs) :: ?l)) with (hw_item HWINTERFACE name :: ((field_item <$> fs) ++ mjoin l)).
  cbn [fst snd] in *. constructor; [unfold hw_item; rewrite length_app, Hn; done|]. apply Forall_app. split; [|done].
  apply Forall_fmap. eapply Forall_impl; [exact Hf|]. intros [ip|a|key v] Hk; cbn [hw_field_ok field_item compose] in *;
    unfold hw_item; rewrite !length_app, ?length_zeros; cbn [length le32]; lia.
Qed.

Lemma slice_mjoin {items : list bytes} j it (pre : bytes) :
  Forall (fun it => length it = 36%nat) items -> items !! j = Some it ->
  slice (pre ++ mjoin items) (length pre + 36 * j) 36 = it /\ (36 * j + 36 <= length (mjoin items))%nat.
Proof.
  intros Hall. revert j pre. induction Hall as [|x items Hx Hall IH]; intros j pre Hj; [done|].
  change (mjoin (x :: items)) with (x ++ mjoin items). destruct j as [|j]; cbn [lookup list_lookup] in Hj.
  - injection Hj as ->. rewrite Nat.mul_0_r, Nat.add_0_r, length_app. split; [|lia].
    unfold slice. rewrite drop_app_length, take_app_le by lia. apply take_ge. lia.
  - destruct (IH j (pre ++ x) Hj) as [H1 H2]. rewrite app_assoc, length_app. split; [|lia].
    rewrite <- H1, length_app, Hx. by replace (length pre + 36 * Datatypes.S j)%nat with (length pre + 36 + 36 * j)%nat by lia.
Qed.

Lemma length_mjoin (items : list bytes) : Forall (fun it => length it = 36%nat) items -> length (mjoin items) = (36 * length items)%nat.
Proof.
  intros H. induction H as [|x items Hx _ IH]; [done|]. change (mjoin (x :: items)) with (x ++ mjoin items).
  rewrite length_app, IH. cbn [length]. lia.
Qed.

(** The body of a VNSHWINFO message. *)
Definition hwinfo_body (hs : list hw_interface) : bytes := mjoin (mjoin (interface_items <$> hs)).

Lemma wlp_sr_handle_hwinfo F (e : turn) hs s (Q : Z -> sr_instance -> Prop) :
  Forall hw_interface_ok hs -> 8 + blen (hwinfo_body hs) <= 10000 ->
  Q (Z.of_nat (length (mjoin (interface_items <$> hs)))) (set_if_list (sr_if_list s ++ (interface_of e <$> hs)) s) ->
  wlp F (sr_handle_hwinfo e (received VNSHWINFO (hwinfo_body hs))) Q s.
Proof.
  intros Hok Hl HQ. pose proof (items_length hs Hok) as Hit. unfold hwinfo_body in *. set (items := mjoin (interface_items <$> hs)) in *.
  unfold blen in Hl. rewrite (length_mjoin items Hit) in Hl. unfold sr_handle_hwinfo. wgo.
  apply wlp_rd32; [unfold received; rewrite !length_app; simpl; lia|]. unfold received. rewrite get32_head by apply htonl_range.
  unfold ntohl, blen. rewrite (length_mjoin items Hit), htonl_htonl by lia.
  replace (u64 (8 + Z.of_nat (36 * length items) - Z.of_nat c_base_size)) with (36 * Z.of_nat (length items)).
  2:{ rewrite u64_small; unfold c_base_size; lia. }
  cbv zeta. rewrite Z.mul_comm. change (Z.of_nat c_hw_entry_size) with 36. rewrite Z.div_mul, Nat2Z.id by done. wgo.
  apply (wlp_hw_interfaces F e _ 0 hs s); [|done|by wgo]. intros j it Hj. fold items in Hj.
  destruct (slice_mjoin j it (le32 (htonl (8 + Z.of_nat (36 * length items))) ++ le32 VNSHWINFO) Hit Hj) as [H1 H2].
  unfold item_at. rewrite <- app_assoc in H1. split; [exact H1|]. rewrite !length_app. cbn [length le32].
  unfold c_base_size, c_hw_entry_size. simpl (0 + j)%nat. lia.
Qed.

(* ------------------------------------------------------------------ *)
(** * Authentication *)

Lemma fgets_key key more : length key = AUTH_KEY_LEN -> Forall (fun c => c <> 10) key -> fgets (AUTH_KEY_LEN + 1) (key ++ more) = Some (key, more).
Proof.
  intros Hl Hk. unfold fgets. replace (AUTH_KEY_LEN + 1 - 1)%nat with (length key) by lia.
  assert (H : fgets_line (length key) (key ++ more) = (key, more)).
  { clear Hl. induction Hk as [|c key Hc _ IH]; [by destruct more|]. cbn [length app fgets_line].
    rewrite (proj2 (Z.eqb_neq _ _)) by done. by rewrite IH. }
  rewrite H. by destruct key.
Qed.

(** A word in network order. *)
Lemma le32_htonl v : le32 (htonl v) = be_bytes 4 v.
Proof.
  unfold le32, htonl, be_bytes. cbn [seq fmap list_fmap Nat.sub].
  change (2 ^ (8 * Z.of_nat 3)) with 16777216. change (2 ^ (8 * Z.of_nat 2)) with 65536.
  change (2 ^ (8 * Z.of_nat 1)) with 256. change (2 ^ (8 * Z.of_nat 0)) with 1. rewrite Z.div_1_r.
  pose proof (is_byte_mod v) as Ha. pose proof (is_byte_mod (v / 256)) as Hb.
  pose proof (is_byte_mod (v / 65536)) as Hc. pose proof (is_byte_mod (v / 16777216)) as Hd. unfold is_byte in *.
  set (a := v mod 256) in *. set (b := (v / 256) mod 256) in *. set (c := (v / 65536) mod 256) in *.
  set (d := (v / 16777216) mod 256) in *. clearbody a b c d.
  apply (f_equal2 cons); [|apply (f_equal2 cons); [|apply (f_equal2 cons); [|apply (f_equal2 cons); [|done]]]];
    Z.div_mod_to_equations; lia.
Qed.

Lemma digest_bytes m : length (mjoin (be_bytes 4 <$> fips_sha1 m)) = 20%nat.
Proof.
  assert (H : digest_ok (fips_sha1 m)) by apply blocks_ok. destruct H as [H _].
  by destruct (fips_sha1 m) as [|a [|b [|c [|d [|x [|y l]]]]]].
Qed.

(** The run of the hash on salt and key. *)
Lemma wlp_auth_digest F salt key (Q : Z * SHA1Context -> session -> Prop) s :
  wf_bytes salt -> wf_bytes key -> length key = AUTH_KEY_LEN -> blen salt <= 10000 ->
  (forall c, Message_Digest c = fips_sha1 (salt ++ key) -> Q (1, c) s) ->
  wlp F (with_sha1 (auth_digest salt (length salt) (key ++ [0]))) Q s.
Proof.
  intros Hs Hk Hl Hle HQ. unfold with_sha1. apply wlp_lift. set (c0 := mk_sha1 [] 0 0 (zeros 64) 0 false false).
  assert (H : wlp (fun _ => False) (auth_digest salt (length salt) (key ++ [0]))
    (fun r c => r = 1 /\ Message_Digest c = fips_sha1 (salt ++ key)) c0).
  { unfold auth_digest, blen in *. wgo. apply wlp_Reset; [done|apply wf_zeros|]. intros c1 H1. wgo.
    eapply wlp_mono; [apply (wlp_Input _ salt (length salt) [] c1); [done|done|exact H1|unfold blen; simpl; lia]|].
    intros [] c2 H2. rewrite take_ge in H2 by lia. cbn [app] in H2. wgo.
    eapply wlp_mono; [apply (wlp_Input _ (key ++ [0]) AUTH_KEY_LEN salt c2); [|rewrite length_app; lia|exact H2|]|].
    - apply Forall_app. split; [done|]. repeat constructor; lia.
    - unfold blen, AUTH_KEY_LEN. lia.
    - intros [] c3 H3. rewrite <- Hl, take_app_length in H3. wgo. eapply wlp_Result; [exact H3|]. done. }
  apply wlp_total in H as (r & c & Hr & -> & Hd). rewrite Hr. by apply HQ.
Qed.

(** A name with room for its NUL is read as it is; one without is read on into
    the host. *)
Lemma user_string_name sr name :
  sr_user sr = strncpy name 32 -> (length (cstr name) < 32)%nat -> user_string sr = cstr name.
Proof.
  intros E Hl. unfold user_string. rewrite E. unfold strncpy. rewrite take_ge by lia.
  destruct (32 - length (cstr name))%nat as [|n] eqn:En; [lia|]. cbn [replicate]. rewrite <- app_assoc. apply cstr_app_nul, cstr_no_nul.
Qed.

Lemma user_string_long sr name host :
  sr_user sr = strncpy name 32 -> (32 <= length (cstr name))%nat -> sr_host sr = strncpy host 32 -> (length (cstr host) < 32)%nat ->
  user_string sr = take 32 (cstr name) ++ cstr host.
Proof.
  intros E Hl Eh Hh. unfold user_string. rewrite E, Eh. unfold strncpy. rewrite (take_ge (cstr host)) by lia.
  replace (32 - length (cstr name))%nat with 0%nat by lia.
  destruct (32 - length (cstr host))%nat as [|n] eqn:En; [lia|]. cbn [replicate]. rewrite app_nil_r, <- !app_assoc, app_assoc.
  apply cstr_app_nul, Forall_app. split; [apply Forall_take|]; apply cstr_no_nul.
Qed.

(** The reply of a client that knows the key. *)
Definition auth_reply_to (name salt key : bytes) : bytes :=
  vns_message VNS_AUTH_REPLY
    (le32 (htonl (blen name)) ++ name ++ mjoin (be_bytes 4 <$> fips_sha1 (salt ++ key))).

Lemma auth_reply_digest name salt key : auth_reply name (fips_sha1 (salt ++ key)) = auth_reply_to name salt key.
Proof.
  assert (E : forall l, (fun w => le32 (htonl w)) <$> (l : list Z) = be_bytes 4 <$> (l : list Z)).
  { intros l. apply list_fmap_ext. intros _ w _. apply le32_htonl. }
  unfold auth_reply, auth_reply_to, vns_message. rewrite E.
  set (digest := mjoin (be_bytes 4 <$> fips_sha1 (salt ++ key))).
  assert (Hd : length digest = 20%nat) by apply digest_bytes.
  replace (8 + blen (le32 (htonl (blen name)) ++ name ++ digest)) with (12 + blen name + 20); [done|].
  unfold blen. rewrite !length_app, Hd. cbn [length le32]. lia.
Qed.

Lemma wlp_sr_handle_auth_request F (e : turn) salt key more s (Q : bool -> session -> Prop) :
  ss_files s !! auth_key_file = Some (key ++ more) -> length key = AUTH_KEY_LEN -> Forall (fun c => c <> 10) key ->
  wf_bytes salt -> wf_bytes key -> 8 + blen salt <= 10000 ->
  (let buf := auth_reply_to (user_string (ss_sr s)) salt key in
   Q (env_write e buf =? blen buf) (set_sr (add_wire buf (ss_sr s)) s)) ->
  wlp F (sr_handle_auth_request e (received VNS_AUTH_REQUEST salt)) Q s.
Proof.
  intros Hf Hl Hk Hs Hw Hle HQ. unfold sr_handle_auth_request. wgo. rewrite Hf, fgets_key by done. cbn iota.
  rewrite (proj2 (Nat.ltb_ge _ _)) by (rewrite length_app; lia). 
  eapply wlp_eq; [by apply mLen_received|]. rewrite drop_received.
  replace (Z.to_nat (u32 (ntohl (htonl (8 + blen salt)) - Z.of_nat c_base_size))) with (length salt).
  2:{ unfold ntohl, blen in *. rewrite htonl_htonl, u32_small by (unfold c_base_size; lia). unfold c_base_size. lia. }
  wgo. apply wlp_auth_digest; [done|done|done|lia|]. intros c Hc. wif. rewrite Hc, auth_reply_digest.
  apply wlp_in_sr. wgo. exact HQ.
Qed.

(* ------------------------------------------------------------------ *)
(** * Opening the session *)

Lemma wlp_sr_handle_auth_status F ok msg s (Q : bool -> session -> Prop) :
  Q (nz ok) s -> wlp F (sr_handle_auth_status (received VNS_AUTH_STATUS (ok :: msg))) Q s.
Proof.
  intros HQ. unfold sr_handle_auth_status, received. wgo. apply wlp_rd8; [rewrite !length_app; cbn [length le32 c_base_size]; unfold c_base_size; lia|].
  wgo. exact HQ.
Qed.

(** Authentication, for a server that asks and then says [ok]. *)
Lemma wlp_connect F (e : turn) w fuel rfuel salt key more ok msg rest s (Q : Z -> session -> Prop) :
  pending (ss_stream s) = vns_message VNS_AUTH_REQUEST salt ++ vns_message VNS_AUTH_STATUS (ok :: msg) ++ rest ->
  (length (ss_stream s) < rfuel)%nat -> (forall b, env_write e b = blen b) ->
  ss_files s !! auth_key_file = Some (key ++ more) -> length key = AUTH_KEY_LEN -> Forall (fun c => c <> 10) key ->
  wf_bytes salt -> wf_bytes key -> 8 + blen salt <= 10000 -> 9 + blen msg <= 10000 ->
  strlen (sr_template (ss_sr s)) = 0%nat ->
  (forall l, pending l = rest -> (length l <= length (ss_stream s))%nat ->
     let replied := add_wire (auth_reply_to (user_string (ss_sr s)) salt key) (ss_sr s) in
     if nz ok then Q 0 (mk_session (add_wire (open_command (ss_sr s)) replied) l (ss_files s))
     else Q (-1) (mk_session replied l (ss_files s))) ->
  wlp F (sr_connect_to_server e w fuel rfuel true) Q s.
Proof.
  intros Hp Hf Hw Hk Hkl Hk10 Hwf Hwk Hsl Hml Ht HQ. unfold sr_connect_to_server. wif.
  eapply wlp_read_message; [exact Hp|done|unfold VNS_AUTH_REQUEST; lia|done|by right; left|]. intros s1 [_ Hl1 Hs1] Hp1.
  unfold dispatch. do 5 wif. wif. eapply wlp_sr_handle_auth_request; try done; [by rewrite Hs1|].
  cbv zeta. rewrite Hw, Z.eqb_refl. wgo. wif. rewrite Hs1. cbn [ss_sr set_sr set_stream].
  eapply wlp_read_message; [exact Hp1|unfold blen in *; cbn [length]; lia|unfold VNS_AUTH_STATUS; lia|cbn [ss_stream set_sr set_stream]; lia|by right; left|].
  intros s2 [_ Hl2 Hs2] Hp2. unfold dispatch. do 7 wif. apply wlp_sr_handle_auth_status.
  specialize (HQ _ Hp2 ltac:(cbn [ss_stream set_sr set_stream] in *; lia)). cbv zeta in HQ.
  rewrite Hs2. cbn [ss_sr set_sr set_stream ss_stream ss_files]. destruct (nz ok).
  - wgo. wif. cbn [ss_sr set_sr set_stream ss_stream ss_files add_wire sr_template]. unfold sr_template in *. rewrite Ht.
    wgo. apply wlp_in_sr. wgo. rewrite Hw, Z.eqb_refl. wif. exact HQ.
  - wgo. wif. exact HQ.
Qed.

(* ------------------------------------------------------------------ *)
(** * Streams that stop *)

(** A closed connection: nothing more than [pending] arrives, and no error. *)
Fixpoint unbroken (l : list arrival) : Prop :=
  match l with
  | Broken :: _ => False
  | _ :: r => unbroken r
  | [] => True
  end.

Lemma unbroken_drop n b r : unbroken r -> unbroken (if (n <? length b)%nat then Chunk (drop n b) :: r else r).
Proof. by destruct (n <? length b)%nat. Qed.

(** The loop goes on for ever when the connection ends in a message. *)
Lemma read_bytes_spins fuel n acc s :
  unbroken (ss_stream s) -> (length acc + length (pending (ss_stream s)) < n)%nat -> read_bytes fuel n acc s = Err OutOfFuel.
Proof.
  revert acc s. induction fuel as [|fuel IH]; intros acc [sr l fs] Hu Hn; [done|]. cbn [read_bytes ss_stream] in *.
  rewrite (proj2 (Nat.ltb_lt _ _)) by lia. unfold recv, mbind, M_bind, get. cbn [ss_stream].
  destruct l as [|[b| |] r]; [| | |done].
  - cbn. apply IH; [done|]. rewrite app_nil_r. simpl in *. lia.
  - cbn [pending unbroken] in *. rewrite length_app in Hn. unfold put, mret, M_ret. cbn [set_stream].
    apply IH; cbn [ss_stream set_stream ss_sr]; [by apply unbroken_drop|]. rewrite pending_drop, !length_app, length_take, length_drop. lia.
  - cbn [pending unbroken] in *. unfold put, mret, M_ret. cbn [set_stream]. by apply IH.
Qed.
