(* ===== verification/SrDemo.v ===== *)
(** A concrete router for the witnesses: the routing table of the repository's
    file [rtable], four interfaces, and packets built for it. *)

From S2P Require Import Prelude Bytes Checksum SrState SrIf SrRt SrSend SrArpcache SrArpreq SrPackets.
From S2P Require Import SrArpFacts SrRouter SrRouterFacts.

Definition eth (n : Z) : bytes := [101; 116; 104; 48 + n].      (* "ethN" *)
Definition demo_if (n : Z) (ip : Z) : sr_if :=
  mk_if (strncpy (eth n) 32) [0; 0; 0; 0; 0; n] ip 0.

Definition demo_ifs : list sr_if :=
  [demo_if 3 (ipv4 10 0 1 1); demo_if 4 (ipv4 10 0 2 1);
   demo_if 1 (ipv4 192 168 2 1); demo_if 2 (ipv4 172 64 3 1)].

Definition mask24 : Z := ipv4 255 255 255 0.

(** The file [rtable]. *)
Definition demo_rt : list sr_rt :=
  [mk_rt (ipv4 10 0 1 100) (ipv4 10 0 1 100) mask24 (strncpy (eth 3) 32);
   mk_rt (ipv4 10 0 2 100) (ipv4 10 0 2 100) mask24 (strncpy (eth 4) 32);
   mk_rt (ipv4 192 168 2 2) (ipv4 192 168 2 2) mask24 (strncpy (eth 1) 32);
   mk_rt (ipv4 172 64 3 10) (ipv4 172 64 3 10) mask24 (strncpy (eth 2) 32)].

Definition client_mac : bytes := [2; 0; 0; 0; 0; 7].
Definition server_mac : bytes := [2; 0; 0; 0; 0; 9].

(** An ARP cache that knows the client 10.0.1.100 and, if [b], the server 192.168.2.2. *)
Definition demo_cache (b : bool) : sr_arpcache :=
  set_entries
    (insert_slot
       ((if b then (fun l => insert_slot l (mk_arpentry server_mac (ipv4 192 168 2 2) 1000 1)) else id)
         (ac_entries sr_arpcache_init))
       (mk_arpentry client_mac (ipv4 10 0 1 100) 1000 1))
    sr_arpcache_init.

Definition demo_sr (c : sr_arpcache) : sr_instance :=
  mk_sr [] [] [] 0 demo_ifs demo_rt c None [].

(** The sizes of the blocks of a common allocator: multiples of 16 with a word
    of its own in front, 24 at least. *)
Definition glibc_usable (n : nat) : nat := Nat.max 24 ((n + 23) / 16 * 16 - 8).

Definition demo_env : env := mk_env 1010 0 (mk_if [] (zeros 6) 0 0) (fun b => blen b) glibc_usable.

Lemma demo_env_roomy : roomy demo_env.
Proof. apply Nat.leb_le. reflexivity. Qed.

(** An IPv4 frame: addresses, protocol, TTL and payload given, header checksum filled in. *)
Definition mk_ip_frame (src dst : bytes) (proto ttl : Z) (payload : bytes) : bytes :=
  let h := [0x45; 0; 0; 20 + blen payload; 0; 7; 0; 0; ttl; proto; 0; 0] ++ src ++ dst in
  let h := upd h 10 (le16 (cksum h)) in
  [0; 0; 0; 0; 0; 3] ++ client_mac ++ [8; 0] ++ h ++ payload.

(** An ICMP echo request with its checksum. *)
Definition mk_echo (data : bytes) : bytes :=
  let m := [8; 0; 0; 0; 0; 1; 0; 1] ++ data in upd m 2 (le16 (cksum m)).

(** An ARP frame. *)
Definition mk_arp_frame (op : Z) (sha sip tha tip : bytes) : bytes :=
  replicate 6 255 ++ sha ++ [8; 6] ++ [0; 1; 8; 0; 6; 4; 0; op] ++ sha ++ sip ++ tha ++ tip.

Lemma demo_ifs_ok : Forall iface_ok demo_ifs.
Proof. repeat constructor; vm_compute; congruence. Qed.

Lemma demo_cache_ok b : cache_ok (demo_cache b).
Proof.
  assert (H : forall mac ip t v, mac_ok mac -> forall c, cache_ok c ->
    cache_ok (set_entries (insert_slot (ac_entries c) (mk_arpentry mac ip t v)) c)).
  { intros mac ip t v Hm c Hc. apply entries_ok; [done| |].
    - rewrite length_insert_slot. apply Hc.
    - apply insert_slot_macs; [apply Hc|done]. }
  pose proof arpcache_init_ok as Hi.
  assert (Hs : mac_ok server_mac) by (by split; [|repeat constructor]).
  assert (Hm : mac_ok client_mac) by (by split; [|repeat constructor]).
  unfold demo_cache. destruct b.
  - exact (H client_mac _ 1000 1 Hm _ (H server_mac _ 1000 1 Hs _ Hi)).
  - exact (H client_mac _ 1000 1 Hm _ Hi).
Qed.

(** Boolean form of [ip_frame], to evaluate on a packet. *)
Definition ip_frameb (p : bytes) : bool :=
  forallb (fun z => (0 <=? z) && (z <? 256)) p && (blen p <=? 10000) && (34 <=? blen p)
  && (get16 p 12 =? htons ethertype_ip) && (Z.shiftr (get8 p 14) 4 =? 4)
  && (ones_sum (be_sum (slice p 14 20)) =? 65535) && negb (get16 p 24 =? 0)
  && negb (ip_black_list (get32 p 26)).

Lemma wf_bytesb p : forallb (fun z => (0 <=? z) && (z <? 256)) p = true -> wf_bytes p.
Proof.
  intros H. apply Forall_forall. intros x Hx. rewrite forallb_forall in H.
  apply list_elem_of_In in Hx. specialize (H x Hx). unfold is_byte. lia.
Qed.

Lemma ip_frameb_ok p : ip_frameb p = true -> ip_frame p.
Proof.
  unfold ip_frameb. rewrite !andb_true_iff. intros (((((((H1 & H2) & H3) & H4) & H5) & H6) & H7) & H8).
  rewrite negb_true_iff in *. apply Z.eqb_neq in H7.
  split; try (by apply Z.eqb_eq); try lia; [|split; [by apply Z.eqb_eq|done]|done].
  split; [by apply wf_bytesb|lia].
Qed.

Lemma demo_sr_ok b : rinv demo_ifs demo_rt (demo_sr (demo_cache b)).
Proof.
  split; [reflexivity|reflexivity|apply demo_cache_ok|].
  intros r q H. exfalso. revert H.
  replace (ac_heap (sr_cache (demo_sr (demo_cache b)))) with (∅ : gmap nat sr_arpreq) by (destruct b; reflexivity).
  rewrite lookup_empty. discriminate.
Qed.
