(* ===== verification/SrBasicThms.v ===== *)
(** Correctness of the building blocks the handlers share: longest-prefix
    match, Internet checksum, and the packet log. *)

From S2P Require Import Prelude Bytes Checksum SrState SrIf SrRt SrDumper SrSend SrArpcache SrArpreq.
From S2P Require Import SrPackets SrArpFacts SrRouter SrRouterFacts SrDemo.

(* ------------------------------------------------------------------ *)
(** * Longest-prefix match *)

(** The entry's mask is that of a prefix of [n] bits. *)
Definition has_plen (r : sr_rt) (n : Z) : Prop := 0 <= n <= 32 /\ ntohl (rt_mask r) = prefix_mask n.

Lemma has_plen_le r1 r2 n1 n2 :
  has_plen r1 n1 -> has_plen r2 n2 -> ntohl (rt_mask r1) <= ntohl (rt_mask r2) -> n1 <= n2.
Proof. intros [H1 E1] [H2 E2]. rewrite E1, E2. by apply prefix_mask_lt. Qed.

Lemma prefix_mask_pos n : 0 <= n <= 32 -> 0 < prefix_mask n <-> 0 < n.
Proof.
  intros Hn. unfold prefix_mask. destruct (decide (n = 0)) as [->|Hne]; [by vm_compute|].
  pose proof (Z.pow_lt_mono_r 2 (32 - n) 32). lia.
Qed.

(** C19: over a table of prefix masks the lookup returns an entry that
    contains the address, and no entry that contains it has a longer prefix; it
    finds nothing only if the entries that contain the address are default
    routes, which it never returns. *)
Theorem longest_prefix_match rts ip :
  Forall (fun r => exists n, has_plen r n) rts ->
  match sr_findLPMentry rts ip with
  | Some e => e ∈ rts /\ rt_matches (ntohl ip) e
      /\ exists n, has_plen e n /\ 0 < n
         /\ forall r m, r ∈ rts -> rt_matches (ntohl ip) r -> has_plen r m -> m <= n
  | None => forall r m, r ∈ rts -> rt_matches (ntohl ip) r -> has_plen r m -> m = 0
  end.
Proof.
  intros Hall. pose proof (findLPM_spec rts ip) as H. destruct (sr_findLPMentry rts ip) as [e|].
  - destruct H as (l1 & l2 & Hl & Hm & Hpos & H1 & H2).
    assert (He : e ∈ rts) by (rewrite Hl; set_solver). split; [done|]. split; [done|].
    rewrite Forall_forall in Hall. destruct (Hall e He) as [n Hn]. exists n. split; [done|].
    pose proof Hn as [Hr Hmask]. rewrite Hmask in Hpos. split; [by apply prefix_mask_pos|].
    intros r m Hin Hrm Hp. eapply has_plen_le; [done|done|].
    rewrite Hl in Hin. apply elem_of_app in Hin as [Hin|[->|Hin]%elem_of_cons]; [|done|].
    + rewrite Forall_forall in H1. pose proof (H1 r Hin Hrm). lia.
    + rewrite Forall_forall in H2. by apply H2.
  - rewrite Forall_forall in H. intros r m Hin Hrm Hp. pose proof (H r Hin Hrm) as Hle.
    destruct Hp as [Hr Hmask]. rewrite Hmask in Hle. pose proof (prefix_mask_pos m Hr). lia.
Qed.

Lemma longest_prefix_match_witness :
  sr_findLPMentry demo_rt (ipv4 192 168 2 77)
    = Some (mk_rt (ipv4 192 168 2 2) (ipv4 192 168 2 2) mask24 (strncpy (eth 1) 32))
  /\ match sr_findLPMentry demo_rt (ipv4 192 168 2 77) with
     | Some e => e ∈ demo_rt /\ rt_matches (ntohl (ipv4 192 168 2 77)) e
         /\ exists n, has_plen e n /\ 0 < n
            /\ forall r m, r ∈ demo_rt -> rt_matches (ntohl (ipv4 192 168 2 77)) r -> has_plen r m -> m <= n
     | None => forall r m, r ∈ demo_rt -> rt_matches (ntohl (ipv4 192 168 2 77)) r -> has_plen r m -> m = 0
     end.
Proof.
  split; [vm_compute; reflexivity|]. apply longest_prefix_match.
  repeat constructor; exists 24; (split; [lia|vm_compute; reflexivity]).
Defined.

(* ------------------------------------------------------------------ *)
(** * The checksum *)

(** C20: the receiver's check (zero the field, recompute, compare, restore)
    leaves the packet as it was and succeeds exactly when the one's-complement
    sum of the covered bytes is all ones, as RFC 1071 asks, and the stored
    field is not zero; filling a field in with [renew_cksum] always makes the
    check succeed. *)
Theorem cksum_check_is_rfc1071 {S} b o base n (s : S) :
  wf_bytes b -> (base + n <= length b)%nat -> (base <= o)%nat -> (o + 2 <= base + n)%nat ->
  Nat.even (o - base) = true -> Z.of_nat n <= 131072 ->
  (exists r, verify_cksum b o base n s = Ok (r, s)
     /\ (r = Some b <-> cksum_accepts (slice b base n) /\ get16 b o <> 0)
     /\ (r = None <-> ~ (cksum_accepts (slice b base n) /\ get16 b o <> 0)))
  /\ (exists b', renew_cksum b o base n s = Ok (b', s)
     /\ same_but o b b' /\ cksum_accepts (slice b' base n)
     /\ verify_cksum b' o base n s = Ok (Some b', s)).
Proof.
  intros Hwf Hl Hbo Hon He Hn. split.
  - assert (H : wlp (fun _ => False) (verify_cksum b o base n) (fun r s' => s' = s
      /\ (r = Some b <-> cksum_accepts (slice b base n) /\ get16 b o <> 0)
      /\ (r = None <-> ~ (cksum_accepts (slice b base n) /\ get16 b o <> 0))) s).
    { apply wlp_verify_cksum; try done; intros Hv; (split; [done|]); unfold verified in Hv; naive_solver. }
    apply wlp_total in H as (r & s' & H & -> & ? & ?). by exists r.
  - assert (H : wlp (fun _ => False) (renew_cksum b o base n) (fun b' s' => s' = s
      /\ same_but o b b' /\ cksum_accepts (slice b' base n) /\ wf_bytes b' /\ get16 b' o <> 0) s).
    { unfold renew_cksum, cksum_at. wstep. apply wlp_wrn; [simpl; lia|].
      assert (Hu : length (upd b o (le16 0)) = length b) by (apply length_upd; simpl; lia).
      set (b1 := upd b o (le16 0)) in *.
      assert (Hw1 : wf_bytes b1) by (subst b1; auto with bytes).
      assert (Hz : get16 (slice b1 base n) (o - base) = 0).
      { rewrite get16_slice by lia. subst b1. apply get16_upd_eq; lia. }
      assert (Hsl : length (slice b1 base n) = n) by (apply length_slice; lia).
      wsteps. apply wlp_rdn; [lia|]. wsteps. apply wlp_wrn; [simpl; lia|].
      split; [done|]. split; [|split; [|split]].
      - split; [rewrite length_upd; simpl; lia|]. intros i Hi. 
        rewrite (get8_upd_ne b1) by (simpl; lia). apply get8_upd_ne; simpl; lia.
      - rewrite slice_upd_in by (simpl; lia). apply cksum_store_accepts; try done; [|lia].
        split; [auto with bytes|unfold blen; lia].
      - auto with bytes.
      - rewrite get16_upd_eq by (lia || apply cksum_range). apply cksum_nonzero. }
    apply wlp_total in H as (b' & s' & H & -> & Hsb & Hck & Hw' & Hnz).
    exists b'. split; [done|]. split; [done|]. split; [done|].
    assert (Hv : wlp (fun _ => False) (verify_cksum b' o base n) (fun r s' => r = Some b' /\ s' = s) s).
    { destruct Hsb as [Hlen _]. apply wlp_verify_cksum; try done; [lia|]. intros Hno. by destruct Hno. }
    by apply wlp_total in Hv as (r & s' & Hv & -> & ->).
Qed.

Lemma cksum_check_is_rfc1071_witness :
  (exists r, verify_cksum (mk_ip_frame [10; 0; 1; 100] [8; 8; 8; 8] 6 64 []) 24 14 20 tt = Ok (r, tt)
     /\ (r = Some (mk_ip_frame [10; 0; 1; 100] [8; 8; 8; 8] 6 64 [])
         <-> cksum_accepts (slice (mk_ip_frame [10; 0; 1; 100] [8; 8; 8; 8] 6 64 []) 14 20)
             /\ get16 (mk_ip_frame [10; 0; 1; 100] [8; 8; 8; 8] 6 64 []) 24 <> 0)
     /\ (r = None
         <-> ~ (cksum_accepts (slice (mk_ip_frame [10; 0; 1; 100] [8; 8; 8; 8] 6 64 []) 14 20)
             /\ get16 (mk_ip_frame [10; 0; 1; 100] [8; 8; 8; 8] 6 64 []) 24 <> 0))).
Proof.
  refine (proj1 (cksum_check_is_rfc1071 (mk_ip_frame [10; 0; 1; 100] [8; 8; 8; 8] 6 64 []) 24 14 20 tt _ _ _ _ _ _)).
  - apply wf_bytesb. vm_compute. reflexivity.
  - vm_compute. lia.
  - lia.
  - lia.
  - reflexivity.
  - lia.
Defined.

(* ------------------------------------------------------------------ *)
(** * The packet log *)

Lemma pcap_records_app fuel1 fuel2 f r rs1 rs2 :
  pcap_records fuel1 f = Some rs1 -> pcap_records fuel2 r = Some rs2 ->
  pcap_records (fuel1 + fuel2) (f ++ r) = Some (rs1 ++ rs2).
Proof.
  revert f rs1. induction fuel1 as [|fuel1 IH]; intros f rs1 H1 H2.
  - destruct f; [|done]. simpl in *. injection H1 as <-. done.
  - destruct f as [|x f].
    { simpl in H1. injection H1 as <-. cbn [app].
      assert (Hmono : forall k fu g gs, pcap_records fu g = Some gs -> pcap_records (k + fu) g = Some gs).
      { clear. intros k fu. revert k. induction fu as [|fu IHf]; intros k g gs.
        - destruct g; [|done]. destruct (k + 0)%nat; done.
        - destruct g as [|y g]; [by destruct (k + S fu)%nat|]. rewrite Nat.add_succ_r.
          cbn [pcap_records]. destruct (_ <? 16)%nat; [done|]. destruct (_ <? _)%nat; [done|].
          destruct (pcap_records fu _) eqn:E; [|done]. by rewrite (IHf k _ _ E). }
      by apply Hmono. }
    change (S fuel1 + fuel2)%nat with (S (fuel1 + fuel2)). cbn [pcap_records app] in *.
    change (x :: f ++ r) with ((x :: f) ++ r). set (g := x :: f) in *.
    destruct (length g <? 16)%nat eqn:E16; [done|]. apply Nat.ltb_ge in E16.
    assert (Hg : forall i k, (i + k <= length g)%nat -> slice (g ++ r) i k = slice g i k).
    { intros i k Hik. unfold slice. rewrite drop_app_le by lia. rewrite take_app_le; [done|]. rewrite length_drop. lia. }
    assert (Hg8 : forall i, (i < length g)%nat -> get8 (g ++ r) i = get8 g i).
    { intros i Hi. unfold get8. by apply app_nth1. }
    assert (Hg32 : forall i, (i + 4 <= length g)%nat -> get32 (g ++ r) i = get32 g i).
    { intros i Hi. unfold get32, get16. by rewrite !Hg8 by lia. }
    rewrite !Hg32 by lia. rewrite length_app.
    destruct (length g <? 16 + Z.to_nat (get32 g 8))%nat eqn:En; [done|]. apply Nat.ltb_ge in En.
    destruct (pcap_records fuel1 (drop (16 + Z.to_nat (get32 g 8)) g)) as [rs|] eqn:Er; [|done].
    injection H1 as <-.
    rewrite (proj2 (Nat.ltb_ge _ _)) by lia. rewrite (proj2 (Nat.ltb_ge _ _)) by lia.
    rewrite drop_app_le by lia. by rewrite (IH _ _ Er H2), Hg by lia.
Qed.

Lemma header_ok f : pcap_header_ok (sf_write_header LINKTYPE_ETHERNET 0 PACKET_DUMP_SIZE ++ f).
Proof.
  split; [rewrite length_app; change (length (sf_write_header LINKTYPE_ETHERNET 0 PACKET_DUMP_SIZE)) with 24%nat; lia|].
  split; [reflexivity|split; reflexivity].
Qed.

(** A packet logged while a capture file is open appends one record that a
    reader parses back: the first 1024 bytes of the packet at most. The
    record's "off wire" length is the captured one, so a longer packet's own
    length is not in the file. *)
Theorem log_packet_roundtrip e buf sr f fuel rs :
  sr_logfile sr = Some (sf_write_header LINKTYPE_ETHERNET 0 PACKET_DUMP_SIZE ++ f) ->
  pcap_records fuel f = Some rs -> blen buf < 2 ^ 31 ->
  let n := Z.min (blen buf) PACKET_DUMP_SIZE in
  exists f', sr_log_packet e buf (blen buf) sr
      = Ok (tt, set_logfile (Some (sf_write_header LINKTYPE_ETHERNET 0 PACKET_DUMP_SIZE ++ f')) sr)
    /\ pcap_header_ok (sf_write_header LINKTYPE_ETHERNET 0 PACKET_DUMP_SIZE ++ f')
    /\ pcap_records (fuel + 1) f' = Some (rs ++ [(n, n, take (Z.to_nat n) buf)]).
Proof.
  intros Hlog Hrs Hlen n. 
  assert (Hn : 0 <= n <= 1024 /\ (Z.to_nat n <= length buf)%nat).
  { subst n. unfold blen, PACKET_DUMP_SIZE in *. lia. }
  set (rec := le32 (env_time e) ++ le32 (env_usec e) ++ le32 n ++ le32 n ++ take (Z.to_nat n) buf).
  assert (H : wlp (fun _ => False) (sr_log_packet e buf (blen buf)) (fun _ sr' => sr' =
    set_logfile (Some (sf_write_header LINKTYPE_ETHERNET 0 PACKET_DUMP_SIZE ++ f ++ rec)) sr) sr).
  { unfold sr_log_packet. wstep. wstep. rewrite Hlog. wstep.
    assert (Hsz : (if PACKET_DUMP_SIZE <? blen buf then PACKET_DUMP_SIZE else blen buf) = n).
    { subst n. unfold PACKET_DUMP_SIZE. destruct (Z.ltb_spec 1024 (blen buf)); lia. }
    rewrite Hsz. assert (Hu : u32 n = n) by (apply u32_small; lia).
    assert (Hc : (if n <? PACKET_DUMP_SIZE then u32 n else PACKET_DUMP_SIZE) = n).
    { rewrite Hu. destruct (Z.ltb_spec n PACKET_DUMP_SIZE); [done|]. subst n. unfold PACKET_DUMP_SIZE in *. lia. }
    rewrite Hc, Hu. unfold sr_dump. cbn [ph_sec ph_usec ph_caplen ph_len]. wstep.
    apply wlp_rdn; [lia|]. wstep. wstep. unfold slice. rewrite drop_0. by rewrite <- app_assoc. }
  apply wlp_total in H as ([] & sr' & H & ->). exists (f ++ rec). split; [done|].
  split; [apply header_ok|].
  apply pcap_records_app; [done|].
  assert (Ht : length (take (Z.to_nat n) buf) = Z.to_nat n) by (rewrite length_take; lia).
  assert (H8 : get32 rec 8 = n) by (change (get32 rec 8) with (get32 (le32 n) 0); apply get32_le32; lia).
  assert (H12 : get32 rec 12 = n) by (change (get32 rec 12) with (get32 (le32 n) 0); apply get32_le32; lia).
  assert (Hlr : length rec = (16 + Z.to_nat n)%nat) by (unfold rec; cbn [length le32 app]; lia).
  cbn [pcap_records]. destruct rec as [|x rec'] eqn:Erec; [done|]. rewrite <- Erec in *.
  rewrite H8, H12, Hlr. rewrite (proj2 (Nat.ltb_ge _ _)) by lia. rewrite Nat.ltb_irrefl.
  rewrite drop_ge by lia. simpl. do 3 f_equal.
  replace (slice rec 16 (Z.to_nat n)) with (take (Z.to_nat n) (take (Z.to_nat n) buf)).
  - by rewrite take_take, Nat.min_id.
  - done.
Qed.

Definition demo_logging : sr_instance :=
  set_logfile (Some (sf_write_header LINKTYPE_ETHERNET 0 PACKET_DUMP_SIZE)) (demo_sr (demo_cache true)).

Lemma log_packet_roundtrip_witness :
  exists f', sr_log_packet demo_env [1; 2; 3] 3 demo_logging
      = Ok (tt, set_logfile (Some (sf_write_header LINKTYPE_ETHERNET 0 PACKET_DUMP_SIZE ++ f')) demo_logging)
    /\ pcap_header_ok (sf_write_header LINKTYPE_ETHERNET 0 PACKET_DUMP_SIZE ++ f')
    /\ pcap_records (0 + 1) f' = Some ([] ++ [(3, 3, [1; 2; 3])]).
Proof.
  apply (log_packet_roundtrip demo_env [1; 2; 3] demo_logging [] 0 []).
  - rewrite app_nil_r. reflexivity.
  - reflexivity.
  - vm_compute. reflexivity.
Defined.
