(* ===== verification/SrForwardThms.v ===== *)
(** What the router does with an IP packet, branch by branch: forward it,
    queue it behind an ARP request, answer it, report an error, or drop it. *)

From S2P Require Import Prelude Bytes Checksum SrState SrIf SrRt SrDumper SrSend SrArpcache SrArpreq.
From S2P Require Import SrPackets SrArpFacts SrRouter SrRouterFacts SrDemo.

(** The run of the packet handler on a whole frame. *)
Definition handles (e : env) (fuel : nat) (p iface : bytes) (sr sr' : sr_instance) : Prop :=
  sr_handlepacket e fuel p (blen p) iface sr = Ok (tt, sr').

(** One frame [f] with these Ethernet addresses left on [iface]. *)
Definition sent_as (sr : sr_instance) (iface dmac smac f : bytes) (sr' : sr_instance) : Prop :=
  sent sr iface f sr' /\ slice f 0 6 = dmac /\ slice f 6 6 = smac.

(** The tables a handler relies on. *)
Definition tables_ok (sr : sr_instance) : Prop :=
  Forall iface_ok (sr_if_list sr) /\ cache_ok (sr_cache sr).

(** The way back to the source of [p]: its route, interface and gateway address. *)
Record way_back (sr : sr_instance) (p : bytes) (rt : sr_rt) (i : sr_if) (a : sr_arpentry) : Prop := {
  wb_route : sr_findLPMentry (sr_routing_table sr) (get32 p 26) = Some rt;
  wb_iface : find_interface (sr_if_list sr) (rt_interface rt) = Some i;
  wb_gateway : sr_arpcache_lookup (sr_cache sr) (rt_gw rt) = Some a;
}.

(** Why an IP packet is dropped. *)
Inductive ip_dropped (sr : sr_instance) (p : bytes) : Prop :=
  | drop_short : blen p < 34 -> ip_dropped sr p
  | drop_version : 34 <= blen p -> Z.shiftr (get8 p 14) 4 <> 4 -> ip_dropped sr p
  | drop_cksum : 34 <= blen p -> ~ verified p 24 14 20 -> ip_dropped sr p
  | drop_source : 34 <= blen p -> ip_black_list (get32 p 26) = true -> ip_dropped sr p
  | drop_proto i : 34 <= blen p -> find_own_ip (sr_if_list sr) (get32 p 30) = Some i ->
      get8 p 23 ∉ [ip_protocol_icmp; ip_protocol_tcp; ip_protocol_udp] -> ip_dropped sr p
  | drop_icmp_type i : 34 <= blen p -> find_own_ip (sr_if_list sr) (get32 p 30) = Some i ->
      get8 p 23 = ip_protocol_icmp -> get8 p 34 <> 8 -> ip_dropped sr p
  | drop_icmp_cksum i : 38 <= blen p -> find_own_ip (sr_if_list sr) (get32 p 30) = Some i ->
      get8 p 23 = ip_protocol_icmp -> ~ verified p 36 34 (length p - 34) -> ip_dropped sr p.

Lemma handles_frame e fuel p iface sr (R : bytes -> sr_instance -> Prop) :
  wlp (fun _ => False) (sr_handlepacket e fuel p (blen p) iface) (fun _ sr' => exists f, R f sr') sr ->
  exists f sr', handles e fuel p iface sr sr' /\ R f sr'.
Proof. intros ([] & sr' & H & f & HR)%wlp_total. by exists f, sr'. Qed.

(** The same where one store may overrun its block. *)
Lemma handles_or_overruns e fuel p iface sr (R : bytes -> sr_instance -> Prop) :
  wlp (fun f => f = OutOfBounds /\ ~ roomy e) (sr_handlepacket e fuel p (blen p) iface)
    (fun _ sr' => roomy e /\ exists f, R f sr') sr ->
  if decide (roomy e) then exists f sr', handles e fuel p iface sr sr' /\ R f sr'
  else sr_handlepacket e fuel p (blen p) iface sr = Err OutOfBounds.
Proof.
  unfold wlp, handles. destruct (sr_handlepacket _ _ _ _ _ _) as [[[] sr']|f].
  - intros [Hr (f & HR)]. rewrite decide_True by done. by exists f, sr'.
  - intros [-> Hr]. by rewrite decide_False.
Qed.

Lemma handles_unchanged e fuel p iface sr :
  wlp (fun _ => False) (sr_handlepacket e fuel p (blen p) iface) (fun _ sr' => sr' = sr) sr ->
  handles e fuel p iface sr sr.
Proof. by intros ([] & sr' & H & ->)%wlp_total. Qed.

Section lemmas.
Context (F : fault -> Prop) (e : env) (fuel : nat).

Lemma way_back_ok sr p rt i a :
  tables_ok sr -> way_back sr p rt i a -> iface_ok i /\ mac_ok (ae_mac a).
Proof.
  intros [Hi Hc] [H1 H2 H3]. split; [by eapply find_interface_ok|by eapply lookup_mac_ok].
Qed.

(** An ICMP error whose way back is known leaves at once. *)
Lemma wlp_error_out handle n p type code rt i a s (Q : unit -> sr_instance -> Prop) :
  tables_ok s -> way_back s p rt i a -> wf_bytes p -> 42 <= blen p -> (70 <= n <= 1500)%nat ->
  is_byte type -> is_byte code ->
  (forall f s', icmp_error_for p f (if_ip i) type code -> length f = n ->
     sent_as s (rt_interface rt) (ae_mac a) (if_addr i) f s' -> Q tt s') ->
  wlp F (send_icmp_error e handle n p type code) Q s.
Proof.
  intros Hs Hw Wp Hsz Hn Ht Hc HQ. destruct (way_back_ok _ _ _ _ _ Hs Hw) as [Hi Ha].
  destruct Hw as [H1 H2 H3].
  apply wlp_send_icmp_error; try done; [apply Hs|congruence|congruence|].
  intros rt' ifc b Hrt Hif _ Wb Lb Hie. simplify_eq.
  eapply wlp_answer_hit; try done; [unfold blen; lia|].
  intros f s' Hf Hs'. apply (HQ f).
  - eapply framed_icmp_error; [done|lia|done].
  - rewrite (fr_len _ _ _ _ Hf). done.
  - split; [done|]. split; [apply Hf|apply Hf].
Qed.
End lemmas.

(* ------------------------------------------------------------------ *)
(** * Forwarding *)

(** C3: an IPv4 packet for another host whose gateway is in the ARP cache
    leaves at once on the interface of the longest matching route: Ethernet
    addresses rewritten, TTL one less, header checksum valid again, every
    other byte unchanged; nothing else of the router's state changes. *)
Theorem forward_known_gateway e fuel sr p iface rt i a :
  tables_ok sr -> ip_frame p ->
  find_own_ip (sr_if_list sr) (get32 p 30) = None ->
  sr_findLPMentry (sr_routing_table sr) (get32 p 30) = Some rt ->
  find_interface (sr_if_list sr) (rt_interface rt) = Some i ->
  sr_arpcache_lookup (sr_cache sr) (rt_gw rt) = Some a ->
  get8 p 22 <> 1 ->
  exists f sr', handles e fuel p iface sr sr'
    /\ forwarded (ae_mac a) (if_addr i) p f
    /\ sent sr (rt_interface rt) f sr'.
Proof.
  intros Hs Hp Hown Hrt Hi Ha Httl. pose proof Hp as [[Wp Hmax] Hsz _ _ _ _].
  apply handles_frame, wlp_handle_ip; [done|]. rewrite Hown, Hrt.
  destruct (Z.eqb_spec (get8 p 22) 1); [done|]. destruct Hs as [Hio Hc].
  eapply wlp_forward_hit; try done; [by eapply find_interface_ok|by eapply lookup_mac_ok|].
  intros f s' Hf Hsent. by exists f.
Qed.

Definition demo_forward : bytes := mk_ip_frame [10; 0; 1; 100] [192; 168; 2; 2] 6 64 (zeros 8).

Lemma forward_known_gateway_witness :
  exists f sr', handles demo_env 1 demo_forward (eth 3) (demo_sr (demo_cache true)) sr'
    /\ forwarded server_mac [0; 0; 0; 0; 0; 1] demo_forward f
    /\ sent (demo_sr (demo_cache true)) (strncpy (eth 1) 32) f sr'.
Proof.
  apply (forward_known_gateway demo_env 1 (demo_sr (demo_cache true)) demo_forward (eth 3)
    (mk_rt (ipv4 192 168 2 2) (ipv4 192 168 2 2) mask24 (strncpy (eth 1) 32))
    (demo_if 1 (ipv4 192 168 2 1)) (mk_arpentry server_mac (ipv4 192 168 2 2) 1000 1));
    [split; [exact demo_ifs_ok|apply demo_cache_ok]|apply ip_frameb_ok; vm_compute; reflexivity|
     vm_compute; reflexivity..|vm_compute; discriminate].
Defined.

(** C11: an IPv4 packet for another host whose gateway is not in the ARP cache,
    when no request for that gateway is outstanding, is kept (with its new
    source address) in a new request at the head of the queue, and one ARP
    request is broadcast on the outgoing interface in the interface's name;
    the address it asks for is the packet's destination. That is with an
    allocator that rounds the six bytes of the broadcast address up to eight or
    more; with one that does not, the store of eight bytes overruns them. *)
Theorem forward_unknown_gateway e fuel sr p iface rt i :
  tables_ok sr -> ip_frame p -> 1 < env_time e -> (0 < fuel)%nat ->
  find_own_ip (sr_if_list sr) (get32 p 30) = None ->
  sr_findLPMentry (sr_routing_table sr) (get32 p 30) = Some rt ->
  find_interface (sr_if_list sr) (rt_interface rt) = Some i ->
  sr_arpcache_lookup (sr_cache sr) (rt_gw rt) = None ->
  (forall r q, ac_heap (sr_cache sr) !! r = Some q -> aq_ip q <> rt_gw rt) ->
  get8 p 22 <> 1 ->
  let pk := mk_packet (upd p 6 (if_addr i)) (blen p) (strncpy (rt_interface rt) sr_IFACE_NAMELEN) in
  let r := ac_next (sr_cache sr) in
  if decide (roomy e) then
  exists b sr', handles e fuel p iface sr sr'
    /\ arp_frame_for b bcast (if_addr i) arp_op_request (if_addr i) (if_ip i) (zeros 6) (get32 p 30)
    /\ sr_wire sr' = sr_wire sr ++ [vns_packet 66 (rt_interface rt) b]
    /\ ac_requests (sr_cache sr') = r :: ac_requests (sr_cache sr)
    /\ ac_heap (sr_cache sr') = <[r := mk_arpreq (rt_gw rt) (env_time e) 1 [pk]]> (ac_heap (sr_cache sr))
    /\ ac_entries (sr_cache sr') = ac_entries (sr_cache sr)
  else sr_handlepacket e fuel p (blen p) iface sr = Err OutOfBounds.
Proof.
  intros Hs Hp Htime Hfuel Hown Hrt Hi Ha Hnoreq Httl pk r. pose proof Hp as [[Wp Hmax] Hsz _ _ _ _].
  destruct Hs as [Hio Hc]. assert (Hiok : iface_ok i) by (by eapply find_interface_ok).
  pose proof (io_addr _ Hiok) as [Hal Haw].
  apply handles_or_overruns, wlp_handle_ip; [done|]. rewrite Hown, Hrt.
  destruct (Z.eqb_spec (get8 p 22) 1); [done|].
  eapply wlp_forward_miss; try done. intros r' c' Hq.
  destruct Hq as [Hent [(q & _ & Hq & Hip & _)|(_ & -> & Hreq & _ & Hheap)]]; [by destruct (Hnoreq _ _ Hq)|].
  destruct fuel as [|fuel]; [lia|]. simpl. wstep. apply wlp_load_cur. simpl. rewrite Hheap, lookup_insert_eq.
  simpl. rewrite Z.sub_0_r. destruct (Z.ltb_spec 1 (env_time e)); [|lia]. cbn iota.
  assert (Hl : length (upd p 6 (if_addr i)) = length p) by (apply length_upd; unfold blen in Hsz; lia).
  assert (Hbl : blen (upd p 6 (if_addr i)) = blen p) by (unfold blen; by rewrite Hl).
  eapply (wlp_send_arp_request _ _ _ _ pk (get32 p 30) i); simpl; try done.
  - repeat split; simpl; try lia; [by apply wf_upd|apply length_strncpy].
  - rewrite get32_upd_ne; [done|unfold blen in Hsz; lia..].
  - by rewrite find_interface_strncpy.
  - congruence.
  - intros rt' b s1 Hroom Hrt' Hb Hsent. split; [done|]. simpl in *. simplify_eq.
    rewrite slice_upd_same in Hb by (unfold blen in Hsz; lia).
    destruct (transmitted_own _ _ _ _ i Hsent Hi (af_shost _ _ _ _ _ _ _ _ Hb)) as [(_ & _ & Hsc & _) Hw]. simpl in *.
    exists b. split; [done|]. rewrite Hsc. simpl. rewrite Hw.
    unfold blen. rewrite (af_len _ _ _ _ _ _ _ _ Hb). split; [done|].
    split; [done|]. split; [|done]. rewrite Hheap. apply map_eq. intros k.
    destruct (decide (k = r)) as [->|Hne].
    + by rewrite lookup_alter_eq, !lookup_insert_eq.
    + by rewrite lookup_alter_ne, !lookup_insert_ne by done.
Qed.

Lemma forward_unknown_gateway_witness :
  exists b sr', handles demo_env 1 demo_forward (eth 3) (demo_sr (demo_cache false)) sr'
    /\ arp_frame_for b bcast [0; 0; 0; 0; 0; 1] arp_op_request [0; 0; 0; 0; 0; 1] (ipv4 192 168 2 1)
         (zeros 6) (ipv4 192 168 2 2)
    /\ sr_wire sr' = [] ++ [vns_packet 66 (strncpy (eth 1) 32) b]
    /\ ac_requests (sr_cache sr') = [0%nat]
    /\ ac_heap (sr_cache sr')
       = <[0%nat := mk_arpreq (ipv4 192 168 2 2) 1010 1
             [mk_packet (upd demo_forward 6 [0; 0; 0; 0; 0; 1]) 42 (strncpy (strncpy (eth 1) 32) 32)]]> ∅
    /\ ac_entries (sr_cache sr') = ac_entries (demo_cache false).
Proof.
  match goal with |- ?G => cut (if decide (roomy demo_env) then G
    else sr_handlepacket demo_env 1 demo_forward (blen demo_forward) (eth 3) (demo_sr (demo_cache false)) = Err OutOfBounds) end;
    [by rewrite decide_True by exact demo_env_roomy|].
  apply (forward_unknown_gateway demo_env 1 (demo_sr (demo_cache false)) demo_forward (eth 3)
    (mk_rt (ipv4 192 168 2 2) (ipv4 192 168 2 2) mask24 (strncpy (eth 1) 32))
    (demo_if 1 (ipv4 192 168 2 1)));
    [split; [exact demo_ifs_ok|apply demo_cache_ok]|apply ip_frameb_ok; vm_compute; reflexivity|
     vm_compute; reflexivity|lia|vm_compute; reflexivity..| |vm_compute; discriminate].
  intros r q. change (ac_heap (sr_cache (demo_sr (demo_cache false)))) with (∅ : gmap nat sr_arpreq).
  by rewrite lookup_empty.
Defined.

(* ------------------------------------------------------------------ *)
(** * Packets for the router itself *)

(** C30: an ICMP echo request to one of the router's addresses, its checksum
    right and the way back known, is answered by an echo reply of the same
    length: type 0, addresses swapped, TTL 255, both checksums valid, the
    identifier, sequence number and data returned unchanged. *)
Theorem echo_request_answered e fuel sr p iface own rt i a :
  tables_ok sr -> ip_frame p -> 38 <= blen p ->
  find_own_ip (sr_if_list sr) (get32 p 30) = Some own ->
  get8 p 23 = ip_protocol_icmp -> get8 p 34 = 8 ->
  verified p 36 34 (length p - 34) -> way_back sr p rt i a ->
  exists f sr', handles e fuel p iface sr sr'
    /\ echo_reply p f
    /\ sent_as sr (rt_interface rt) (ae_mac a) (if_addr i) f sr'.
Proof.
  intros Hs Hp H38 Hown Hproto Hty Hck Hw. pose proof Hp as [[Wp Hmax] Hsz _ _ _ _].
  destruct (way_back_ok _ _ _ _ _ Hs Hw) as [Hi Ha]. destruct Hw as [H1 H2 H3].
  apply handles_frame, wlp_handle_ip; [done|]. rewrite Hown, Hproto, Z.eqb_refl.
  unfold handle_icmp, find_route, sr_get_interface.
  destruct (Z.ltb_spec (blen p - 34) (Z.of_nat Icmp.size)) as [Hlt|_];
    [change (Z.of_nat Icmp.size) with 4 in Hlt; lia|].
  unfold ip_at, l4_at. autounfold with offsets. cbn [Nat.add].
  assert (L : (38 <= length p)%nat) by (unfold blen in H38; lia).
  repeat pstep. rewrite Hty, Z.eqb_refl. wstep.
  replace (Z.to_nat (blen p - 34)) with (length p - 34)%nat by (unfold blen; lia).
  apply wlp_verify_cksum; try done; try (unfold blen in *; lia).
  intros _. wstep. apply wlp_make_echo_reply; [done|lia|]. intros f Wf Hf.
  pose proof (er_len _ _ Hf) as Lf. pstep. pstep. wstep. wstep. rewrite (er_dst _ _ Hf), H1.
  do 4 wstep. rewrite H2. rewrite <- (f_equal Z.of_nat Lf : blen f = blen p).
  eapply wlp_answer_hit; try done; [unfold blen in *; lia|].
  intros g s' Hg Hs'. exists g. split; [|split; [done|split; apply Hg]].
  eapply framed_echo_reply; [done|lia|done].
Qed.

Definition demo_echo : bytes := mk_ip_frame [10; 0; 1; 100] [10; 0; 1; 1] 1 64 (mk_echo [1; 2; 3]).

Lemma demo_way_back p :
  get32 p 26 = ipv4 10 0 1 100 ->
  way_back (demo_sr (demo_cache true)) p
    (mk_rt (ipv4 10 0 1 100) (ipv4 10 0 1 100) mask24 (strncpy (eth 3) 32))
    (demo_if 3 (ipv4 10 0 1 1)) (mk_arpentry client_mac (ipv4 10 0 1 100) 1000 1).
Proof. intros H. split; [rewrite H|..]; vm_compute; reflexivity. Qed.

Lemma echo_request_answered_witness :
  exists f sr', handles demo_env 1 demo_echo (eth 3) (demo_sr (demo_cache true)) sr'
    /\ echo_reply demo_echo f
    /\ sent_as (demo_sr (demo_cache true)) (strncpy (eth 3) 32) client_mac [0; 0; 0; 0; 0; 3] f sr'.
Proof.
  apply (echo_request_answered demo_env 1 (demo_sr (demo_cache true)) demo_echo (eth 3)
    (demo_if 3 (ipv4 10 0 1 1)) _ _ _
    ltac:(split; [exact demo_ifs_ok|apply demo_cache_ok])
    ltac:(apply ip_frameb_ok; vm_compute; reflexivity)
    ltac:(vm_compute; discriminate) ltac:(vm_compute; reflexivity) ltac:(vm_compute; reflexivity)
    ltac:(vm_compute; reflexivity) ltac:(split; vm_compute; [reflexivity|discriminate])
    (demo_way_back demo_echo eq_refl)).
Defined.

(** A TCP or UDP packet to one of the router's addresses, long enough to
    quote and with the way back known, is answered by ICMP port unreachable
    (type 3, code 3) from the interface the answer leaves by, quoting the
    packet's IP header and 8 bytes; both checksums are valid. *)
Theorem tcp_udp_port_unreachable e fuel sr p iface own rt i a :
  tables_ok sr -> ip_frame p -> 42 <= blen p ->
  find_own_ip (sr_if_list sr) (get32 p 30) = Some own ->
  get8 p 23 = ip_protocol_tcp \/ get8 p 23 = ip_protocol_udp ->
  way_back sr p rt i a ->
  exists f sr', handles e fuel p iface sr sr'
    /\ icmp_error_for p f (if_ip i) 3 3 /\ length f = icmp_error_len
    /\ sent_as sr (rt_interface rt) (ae_mac a) (if_addr i) f sr'.
Proof.
  intros Hs Hp H42 Hown Hproto Hw. pose proof Hp as [[Wp Hmax] Hsz _ _ _ _].
  apply handles_frame, wlp_handle_ip; [done|]. rewrite Hown.
  destruct (Z.eqb_spec (get8 p 23) ip_protocol_icmp) as [He|_];
    [rewrite He in Hproto; by destruct Hproto|].
  rewrite (proj2 (orb_true_iff _ _)) by (rewrite !Z.eqb_eq; done).
  unfold handle_tcp_udp. destruct (Z.ltb_spec (blen p - 34 + Z.of_nat Ip.size) (Z.of_nat ICMP_DATA_SIZE)) as [Hlt|_].
  { change (Z.of_nat Ip.size) with 20 in Hlt. change (Z.of_nat ICMP_DATA_SIZE) with 28 in Hlt. lia. }
  eapply wlp_error_out; try done; [vm_compute; lia|]. intros f s' Hie Hl Hs'. by exists f.
Qed.

Definition demo_udp : bytes := mk_ip_frame [10; 0; 1; 100] [192; 168; 2; 1] 17 64 (zeros 8).

Lemma tcp_udp_port_unreachable_witness :
  exists f sr', handles demo_env 1 demo_udp (eth 3) (demo_sr (demo_cache true)) sr'
    /\ icmp_error_for demo_udp f (ipv4 10 0 1 1) 3 3 /\ length f = icmp_error_len
    /\ sent_as (demo_sr (demo_cache true)) (strncpy (eth 3) 32) client_mac [0; 0; 0; 0; 0; 3] f sr'.
Proof.
  apply (tcp_udp_port_unreachable demo_env 1 (demo_sr (demo_cache true)) demo_udp (eth 3)
    (demo_if 1 (ipv4 192 168 2 1)) _ _ _
    ltac:(split; [exact demo_ifs_ok|apply demo_cache_ok])
    ltac:(apply ip_frameb_ok; vm_compute; reflexivity)
    ltac:(vm_compute; discriminate) ltac:(vm_compute; reflexivity)
    ltac:(right; vm_compute; reflexivity)
    (demo_way_back demo_udp eq_refl)).
Defined.

(* ------------------------------------------------------------------ *)
(** * Errors about packets for others *)

(** A packet for another, routed host whose TTL is 1 is not forwarded;
    its source gets ICMP time exceeded (type 11, code 0). *)
Theorem ttl_expired_time_exceeded e fuel sr p iface rt' rt i a :
  tables_ok sr -> ip_frame p -> 42 <= blen p ->
  find_own_ip (sr_if_list sr) (get32 p 30) = None ->
  sr_findLPMentry (sr_routing_table sr) (get32 p 30) = Some rt' ->
  get8 p 22 = 1 -> way_back sr p rt i a ->
  exists f sr', handles e fuel p iface sr sr'
    /\ icmp_error_for p f (if_ip i) 11 0 /\ length f = icmp_error_len
    /\ sent_as sr (rt_interface rt) (ae_mac a) (if_addr i) f sr'.
Proof.
  intros Hs Hp H42 Hown Hrt Httl Hw. pose proof Hp as [[Wp Hmax] Hsz _ _ _ _].
  apply handles_frame, wlp_handle_ip; [done|]. rewrite Hown, Hrt, Httl, Z.eqb_refl.
  unfold handle_ttl_expired. destruct (Z.ltb_spec (blen p - 34 + Z.of_nat Ip.size) (Z.of_nat ICMP_DATA_SIZE)) as [Hlt|_].
  { change (Z.of_nat Ip.size) with 20 in Hlt. change (Z.of_nat ICMP_DATA_SIZE) with 28 in Hlt. lia. }
  eapply wlp_error_out; try done; [vm_compute; lia|]. intros f s' Hie Hl Hs'. by exists f.
Qed.

Definition demo_ttl1 : bytes := mk_ip_frame [10; 0; 1; 100] [192; 168; 2; 2] 6 1 (zeros 8).

Lemma ttl_expired_time_exceeded_witness :
  exists f sr', handles demo_env 1 demo_ttl1 (eth 3) (demo_sr (demo_cache true)) sr'
    /\ icmp_error_for demo_ttl1 f (ipv4 10 0 1 1) 11 0 /\ length f = icmp_error_len
    /\ sent_as (demo_sr (demo_cache true)) (strncpy (eth 3) 32) client_mac [0; 0; 0; 0; 0; 3] f sr'.
Proof.
  apply (ttl_expired_time_exceeded demo_env 1 (demo_sr (demo_cache true)) demo_ttl1 (eth 3)
    (mk_rt (ipv4 192 168 2 2) (ipv4 192 168 2 2) mask24 (strncpy (eth 1) 32)) _ _ _
    ltac:(split; [exact demo_ifs_ok|apply demo_cache_ok])
    ltac:(apply ip_frameb_ok; vm_compute; reflexivity)
    ltac:(vm_compute; discriminate) ltac:(vm_compute; reflexivity) ltac:(vm_compute; reflexivity)
    ltac:(vm_compute; reflexivity) (demo_way_back demo_ttl1 eq_refl)).
Defined.

(** C32: a packet to an address with no route is reported to its source as net
    unreachable (type 3, code 0), in a frame of 70 bytes, exactly when the
    word behind its IP header passes as an ICMP checksum, whatever its
    protocol; otherwise it is dropped without a trace. *)
Theorem no_route_net_unreachable e fuel sr p iface rt i a :
  tables_ok sr -> ip_frame p -> 42 <= blen p ->
  find_own_ip (sr_if_list sr) (get32 p 30) = None ->
  sr_findLPMentry (sr_routing_table sr) (get32 p 30) = None ->
  way_back sr p rt i a ->
  (verified p 36 34 (length p - 34) ->
   exists f sr', handles e fuel p iface sr sr'
     /\ icmp_error_for p f (if_ip i) 3 0 /\ length f = 70%nat
     /\ sent_as sr (rt_interface rt) (ae_mac a) (if_addr i) f sr')
  /\ (~ verified p 36 34 (length p - 34) -> handles e fuel p iface sr sr).
Proof.
  intros Hs Hp H42 Hown Hrt Hw. pose proof Hp as [[Wp Hmax] Hsz _ _ _ _].
  split; intros Hv; [apply handles_frame|apply handles_unchanged];
    (apply wlp_handle_ip; [done|]); rewrite Hown, Hrt; unfold handle_no_route;
    (destruct (Z.ltb_spec (blen p - 34 + Z.of_nat Ip.size) (Z.of_nat ICMP_DATA_SIZE)) as [Hlt|_];
     [change (Z.of_nat Ip.size) with 20 in Hlt; change (Z.of_nat ICMP_DATA_SIZE) with 28 in Hlt; lia|]);
    replace (Z.to_nat (blen p - 34)) with (length p - 34)%nat by (unfold blen; lia);
    unfold ip_at, l4_at; autounfold with offsets; cbn [Nat.add]; wstep;
    apply wlp_verify_cksum; try done; try (unfold blen in *; lia).
  intros _. eapply wlp_error_out; try done; [lia|]. intros f s' Hie Hl Hs'. by exists f.
Qed.

Definition demo_no_route : bytes := mk_ip_frame [10; 0; 1; 100] [8; 8; 8; 8] 1 64 (mk_echo [1; 2; 3; 4]).

Lemma no_route_net_unreachable_witness :
  exists f sr', handles demo_env 1 demo_no_route (eth 3) (demo_sr (demo_cache true)) sr'
    /\ icmp_error_for demo_no_route f (ipv4 10 0 1 1) 3 0 /\ length f = 70%nat
    /\ sent_as (demo_sr (demo_cache true)) (strncpy (eth 3) 32) client_mac [0; 0; 0; 0; 0; 3] f sr'.
Proof.
  refine (proj1 (no_route_net_unreachable demo_env 1 (demo_sr (demo_cache true)) demo_no_route (eth 3) _ _ _
    ltac:(split; [exact demo_ifs_ok|apply demo_cache_ok])
    ltac:(apply ip_frameb_ok; vm_compute; reflexivity)
    ltac:(vm_compute; discriminate) ltac:(vm_compute; reflexivity) ltac:(vm_compute; reflexivity)
    (demo_way_back demo_no_route eq_refl)) _).
  split; vm_compute; [reflexivity|discriminate].
Defined.

(* ------------------------------------------------------------------ *)
(** * Drops *)

(** C33: an IP packet that is too short, not IPv4, has a wrong header
    checksum, comes from a blacklisted source, or is addressed to the router
    but neither TCP, UDP nor a correct echo request, leaves the router exactly
    as it was: nothing is sent, queued or logged. *)
Theorem bad_packets_dropped e fuel sr p iface :
  frame_ok p -> 14 <= blen p -> get16 p 12 = htons ethertype_ip -> ip_dropped sr p ->
  handles e fuel p iface sr sr.
Proof.
  intros [Wp Hmax] H14 Hty Hd. apply handles_unchanged. unfold sr_handlepacket, handle_frame, handle_ip, rd_ip_v, find_route.
  unfold ip_at. autounfold with offsets. cbn [Nat.add].
  destruct (Z.ltb_spec (blen p) (Z.of_nat 14)); [lia|]. 
  pstep. apply wlp_rd16; [unfold blen in H14; lia|]. rewrite Hty, Z.eqb_refl.
  destruct (Z.ltb_spec (blen p - Z.of_nat 14) (Z.of_nat 20)) as [|Hge]; [by wstep|].
  assert (L : (34 <= length p)%nat) by (unfold blen in Hge; lia).
  wstep. do 3 pstep. wstep; [by wstep|]. apply negb_false_iff, Z.eqb_eq in Heqb. wstep.
  apply wlp_verify_cksum; try done; try lia. intros Hck. repeat pstep. wstep. wstep. repeat pstep.
  wstep; [by wstep|].
  destruct Hd as [Hd|_ Hd|_ Hd|_ Hd|own _ Hown Hp|own _ Hown Hp Ht|own H38 Hown Hp Ht];
    try done; try lia; try congruence; rewrite Hown; do 2 pstep.
  - rewrite !not_elem_of_cons in Hp. destruct Hp as (Hn1 & Hn2 & Hn3 & _).
    apply Z.eqb_neq in Hn1, Hn2, Hn3. rewrite Hn1, Hn2, Hn3. by wstep.
  - rewrite Hp, Z.eqb_refl. unfold handle_icmp. wstep; [by wstep|].
    apply Z.ltb_ge in Heqb1. change (Z.of_nat Icmp.size) with 4 in Heqb1.
    unfold l4_at. autounfold with offsets. cbn [Nat.add]. pstep. apply wlp_rd8; [unfold blen in Heqb1; lia|].
    apply Z.eqb_neq in Ht. rewrite Ht. by wstep.
  - rewrite Hp, Z.eqb_refl. unfold handle_icmp. wstep; [by wstep|].
    unfold l4_at. autounfold with offsets. cbn [Nat.add]. pstep. apply wlp_rd8; [unfold blen in H38; lia|].
    wstep; [|by wstep]. wstep.
    replace (Z.to_nat (blen p - 34)) with (length p - 34)%nat by (unfold blen; lia).
    apply wlp_verify_cksum; try done; try (unfold blen in *; lia).
Qed.

Lemma bad_packets_dropped_witness :
  handles demo_env 1 (upd demo_forward 22 [7]) (eth 3) (demo_sr (demo_cache true)) (demo_sr (demo_cache true)).
Proof.
  apply bad_packets_dropped;
    [split; [apply wf_bytesb; vm_compute; reflexivity|vm_compute; discriminate]|vm_compute; discriminate|
     vm_compute; reflexivity|].
  apply drop_cksum; [vm_compute; discriminate|]. intros [H _]. vm_compute in H. discriminate H.
Defined.
