(* ===== verification/SrArpThms.v ===== *)
(** The ARP side of the router: answering requests, learning from replies,
    retrying and giving up outstanding requests, and ageing of the table. *)

From S2P Require Import Prelude Bytes Checksum SrState SrIf SrRt SrDumper SrSend SrArpcache SrArpreq.
From S2P Require Import SrPackets SrArpFacts SrRouter SrRouterFacts SrDemo SrForwardThms.

(** An ARP frame of operation [op] whose target address is that of the
    interface [i] it is routed to by [rt]. *)
Record arp_to (sr : sr_instance) (p : bytes) (op : Z) (rt : sr_rt) (i : sr_if) : Prop := {
  at_frame : frame_ok p;
  at_size : 42 <= blen p;
  at_type : get16 p 12 = htons ethertype_arp;
  at_op : get16 p 20 = htons op;
  at_route : sr_findLPMentry (sr_routing_table sr) (get32 p 38) = Some rt;
  at_iface : find_interface (sr_if_list sr) (rt_interface rt) = Some i;
  at_target : if_ip i = get32 p 38;
}.

(** The invariant of the router, for its own tables. *)
Definition router_ok (sr : sr_instance) : Prop :=
  Forall iface_ok (sr_if_list sr) /\ rinv (sr_if_list sr) (sr_routing_table sr) sr.

Section lemmas.
Context (F : fault -> Prop) (e : env) (fuel : nat).

Lemma wlp_handle_arp p iface op rt i s (Q : unit -> sr_instance -> Prop) :
  arp_to s p op rt i ->
  wlp F (if htons op =? htons arp_op_request then handle_arp_request e p rt i
         else if htons op =? htons arp_op_reply then handle_arp_reply e p else mret tt) Q s ->
  wlp F (sr_handlepacket e fuel p (blen p) iface) Q s.
Proof.
  intros [[Wp Hmax] Hsz Hty Hop Hrt Hi Htip] HQ.
  unfold sr_handlepacket, handle_frame, handle_arp, find_route, sr_get_interface.
  autounfold with offsets. cbn [Nat.add]. assert (L : (42 <= length p)%nat) by (unfold blen in Hsz; lia).
  destruct (Z.ltb_spec (blen p) (Z.of_nat 14)); [lia|]. do 2 pstep. rewrite Hty.
  destruct (Z.ltb_spec (blen p - Z.of_nat 14) (Z.of_nat 28)); [lia|]. cbv zeta.
  change (htons ethertype_arp =? htons ethertype_ip) with false. rewrite Z.eqb_refl. cbn iota.
  repeat pstep. wstep. rewrite Hrt. repeat pstep. wstep. rewrite Hi. repeat pstep.
  rewrite Htip, Z.eqb_refl. repeat pstep. rewrite Hop. exact HQ.
Qed.
End lemmas.

(* ------------------------------------------------------------------ *)
(** * Requests and replies *)

(** An ARP request for the address of the interface it is routed to is
    answered with a reply on that interface: sender addresses are the
    interface's, target addresses the asker's, the frame goes to the asker
    alone; the tables, the cache and the queue stay as they were. *)
Theorem arp_request_answered e fuel sr p iface rt i :
  Forall iface_ok (sr_if_list sr) -> arp_to sr p arp_op_request rt i ->
  exists b sr', handles e fuel p iface sr sr'
    /\ arp_frame_for b (slice p 22 6) (if_addr i) arp_op_reply (if_addr i) (if_ip i) (slice p 22 6) (get32 p 28)
    /\ sent sr (rt_interface rt) b sr'.
Proof.
  intros Hio Hp. apply handles_frame, wlp_handle_arp with (1 := Hp). rewrite Z.eqb_refl. cbn iota.
  destruct Hp as [[Wp _] Hsz _ _ Hrt Hi Htip].
  apply wlp_handle_arp_request; [done|done|by eapply find_interface_ok|].
  intros b s' Hb Ht. exists b. rewrite Htip. split; [done|].
  eapply transmitted_own; [exact Ht|done|apply Hb].
Qed.

Definition demo_arp_req : bytes := mk_arp_frame 1 client_mac [10; 0; 1; 100] (zeros 6) [10; 0; 1; 1].

Lemma arp_request_answered_witness :
  exists b sr', handles demo_env 1 demo_arp_req (eth 3) (demo_sr (demo_cache true)) sr'
    /\ arp_frame_for b (slice demo_arp_req 22 6) [0; 0; 0; 0; 0; 3] arp_op_reply [0; 0; 0; 0; 0; 3]
         (ipv4 10 0 1 1) (slice demo_arp_req 22 6) (get32 demo_arp_req 28)
    /\ sent (demo_sr (demo_cache true)) (strncpy (eth 3) 32) b sr'.
Proof.
  apply (arp_request_answered demo_env 1 (demo_sr (demo_cache true)) demo_arp_req (eth 3)
    (mk_rt (ipv4 10 0 1 100) (ipv4 10 0 1 100) mask24 (strncpy (eth 3) 32)) (demo_if 3 (ipv4 10 0 1 1)));
    [exact demo_ifs_ok|].
  split; [split; [apply wf_bytesb; vm_compute; reflexivity|vm_compute; discriminate]|vm_compute; discriminate|
    vm_compute; reflexivity..].
Defined.

(** C12: an ARP reply to the router stores the mapping in the first free slot,
    sends every packet that waited for that address exactly once, last queued
    first, each to the learned MAC on the interface it waited for, and removes
    the request; with no such request only the mapping is stored. *)
Theorem arp_reply_releases e fuel sr p iface rt i :
  router_ok sr -> arp_to sr p arp_op_reply rt i ->
  (forall r q, ac_heap (sr_cache sr) !! r = Some q -> aq_ip q = get32 p 28 ->
     Forall (fun w => is_Some (sr_findLPMentry (sr_routing_table sr) (get32 (pk_buf w) 30))) (aq_packets q)) ->
  exists o sr', req_found (sr_cache sr) (ac_requests (sr_cache sr)) (get32 p 28) o
    /\ handles e fuel p iface sr sr'
    /\ sr_cache sr' = learned_done e (slice p 22 6) (get32 p 28) o (sr_cache sr)
    /\ (forall r, o = Some r -> ac_heap (sr_cache sr') !! r = None /\ r ∉ ac_requests (sr_cache sr'))
    /\ exists s1 s2, flushed (slice p 22 6)
         (match o ≫= (fun r => ac_heap (sr_cache sr) !! r) with Some q => aq_packets q | None => [] end) s1 s2
       /\ sr_wire s1 = sr_wire sr /\ sr_wire sr' = sr_wire s2.
Proof.
  intros [Hio Hs] Hp Hr.
  assert (H : wlp (fun _ => False) (sr_handlepacket e fuel p (blen p) iface) (fun _ sr' =>
    exists o s2, req_found (sr_cache sr) (ac_requests (sr_cache sr)) (get32 p 28) o
      /\ flushed (slice p 22 6)
         (match o ≫= (fun r => ac_heap (sr_cache sr) !! r) with Some q => aq_packets q | None => [] end)
         (set_cache (learned e (slice p 22 6) (get32 p 28) o (sr_cache sr)) sr) s2
      /\ sr' = set_cache (learned_done e (slice p 22 6) (get32 p 28) o (sr_cache sr)) s2) sr).
  { apply wlp_handle_arp with (1 := Hp).
    change (htons arp_op_reply =? htons arp_op_request) with false. rewrite Z.eqb_refl. cbn iota.
    destruct Hp as [[Wp _] Hsz _ _ _ _ _].
    apply wlp_handle_arp_reply with (ifs := sr_if_list sr) (rts := sr_routing_table sr); try done.
    - intros r q Hq Hip. eapply Forall_impl; [by eapply Hr|]. cbn beta. intros w [? ->]. done.
    - intros o s' Ho Hfl. by exists o, s'. }
  apply wlp_total in H as ([] & sr' & Hrun & o & s2 & Ho & Hfl & ->).
  exists o. eexists. split; [done|]. split; [exact Hrun|]. split; [done|]. split.
  - intros r ->. simpl. split; [apply lookup_delete_eq|].
    rewrite elem_of_unlink by apply Hs. naive_solver.
  - by eexists _, s2.
Qed.

(** The router after it forwarded a packet to an unknown gateway. *)
Definition demo_waiting : sr_instance :=
  match sr_handlepacket demo_env 1 demo_forward (blen demo_forward) (eth 3) (demo_sr (demo_cache false)) with
  | Ok (_, s) => s | Err _ => demo_sr (demo_cache false) end.

Definition demo_arp_rep : bytes := mk_arp_frame 2 server_mac [192; 168; 2; 2] (zeros 6) [192; 168; 2; 1].

Lemma demo_forward_ok : ip_frame demo_forward.
Proof. apply ip_frameb_ok. vm_compute. reflexivity. Qed.

Lemma demo_waiting_ok : router_ok demo_waiting.
Proof.
  assert (H : wlp (fun _ => True) (sr_handlepacket demo_env 1 demo_forward (blen demo_forward) (eth 3))
    (fun _ s' => rinv demo_ifs demo_rt s') (demo_sr (demo_cache false))).
  { apply handlepacket_keeps.
    - exact demo_ifs_ok.
    - left. intros f. exact I.
    - intros _. exact I.
    - left. intros f. exact I.
    - apply demo_sr_ok.
    - left. intros f. exact I.
    - exact (if_frame _ demo_forward_ok). }
  split; [exact demo_ifs_ok|].
  unfold demo_waiting, wlp in *.
  destruct (sr_handlepacket demo_env 1 demo_forward (blen demo_forward) (eth 3) (demo_sr (demo_cache false)))
    as [[[] s]|f] eqn:E.
  - pose proof (ri_ifs _ _ _ H) as E1. pose proof (ri_rts _ _ _ H) as E2. rewrite E1, E2. exact H.
  - exfalso. vm_compute in E. discriminate E.
Qed.

Lemma arp_reply_releases_witness :
  exists o sr', req_found (sr_cache demo_waiting) (ac_requests (sr_cache demo_waiting)) (get32 demo_arp_rep 28) o
    /\ handles demo_env 1 demo_arp_rep (eth 1) demo_waiting sr'
    /\ sr_cache sr' = learned_done demo_env (slice demo_arp_rep 22 6) (get32 demo_arp_rep 28) o (sr_cache demo_waiting)
    /\ (forall r, o = Some r -> ac_heap (sr_cache sr') !! r = None /\ r ∉ ac_requests (sr_cache sr'))
    /\ exists s1 s2, flushed (slice demo_arp_rep 22 6)
         (match o ≫= (fun r => ac_heap (sr_cache demo_waiting) !! r) with Some q => aq_packets q | None => [] end) s1 s2
       /\ sr_wire s1 = sr_wire demo_waiting /\ sr_wire sr' = sr_wire s2.
Proof.
  apply (arp_reply_releases demo_env 1 demo_waiting demo_arp_rep (eth 1)
    (mk_rt (ipv4 192 168 2 2) (ipv4 192 168 2 2) mask24 (strncpy (eth 1) 32)) (demo_if 1 (ipv4 192 168 2 1))
    demo_waiting_ok).
  - split; [split; [apply wf_bytesb; vm_compute; reflexivity|vm_compute; discriminate]|vm_compute; discriminate|
      vm_compute; reflexivity..].
  - intros r q Hq _.
    assert (Hh : ac_heap (sr_cache demo_waiting) = <[0%nat := mk_arpreq (ipv4 192 168 2 2) 1010 1
      [mk_packet (upd demo_forward 6 [0; 0; 0; 0; 0; 1]) 42 (strncpy (strncpy (eth 1) 32) 32)]]> ∅)
      by (vm_compute; reflexivity).
    rewrite Hh, lookup_insert_Some, lookup_empty in Hq. destruct Hq as [[_ <-]|[_ [=]]].
    constructor; [|constructor]. eexists. vm_compute. reflexivity.
Defined.

(** C31: a mapping stored for an address that had none, while a slot is free,
    is what a lookup returns; the cleanup keeps it for 15 seconds after it was
    stored and drops it from then on. *)
Theorem mapping_lifetime e mac ip sr :
  cache_ok (sr_cache sr) -> length mac = 6%nat ->
  Forall (fun a => entry_for ip a = false) (ac_entries (sr_cache sr)) ->
  ~ Forall (fun a => nz (ae_valid a) = true) (ac_entries (sr_cache sr)) ->
  let ent := mk_arpentry mac ip (env_time e) 1 in
  exists o sr', sr_arpcache_insert e mac ip sr = Ok (o, sr')
    /\ sr_arpcache_lookup (sr_cache sr') ip = Some ent
    /\ forall now, sr_arpcache_lookup (set_entries (expire now (ac_entries (sr_cache sr'))) (sr_cache sr')) ip
         = if now - env_time e <=? SR_ARPCACHE_TO then Some ent else None.
Proof.
  intros Hok Hm Hno Hfree ent.
  assert (H : wlp (fun _ => False) (sr_arpcache_insert e mac ip) (fun o sr' =>
    ac_entries (sr_cache sr') = insert_slot (ac_entries (sr_cache sr)) ent) sr).
  { apply wlp_arpcache_insert; [done|lia|]. intros o _. simpl. unfold slice. rewrite drop_0, take_ge by lia. done. }
  apply wlp_total in H as (o & sr' & Hrun & Hent). exists o, sr'. split; [done|].
  destruct (insert_slot_cases (ac_entries (sr_cache sr)) ent) as [(l1 & a & l2 & Hl & Ha & Hv & Hins)|[Hall _]]; [|done].
  rewrite Hl in Hno. apply Forall_app in Hno as [H1 [_ H2]%Forall_cons].
  assert (He : entry_for ip ent = true) by (unfold entry_for; simpl; apply Z.eqb_refl).
  unfold sr_arpcache_lookup, set_entries. simpl. rewrite Hent, Hins. split.
  - by rewrite lookup_single, He.
  - intros now. unfold expire. rewrite map_app. simpl map. fold (expire now l1) (expire now l2).
    rewrite lookup_single by (by apply expire_none).
    rewrite Z.leb_antisym. destruct (SR_ARPCACHE_TO <? now - env_time e); simpl; [done|]. by rewrite He.
Qed.

Lemma mapping_lifetime_witness :
  exists o sr', sr_arpcache_insert demo_env server_mac (ipv4 192 168 2 2) (demo_sr (demo_cache false)) = Ok (o, sr')
    /\ sr_arpcache_lookup (sr_cache sr') (ipv4 192 168 2 2) = Some (mk_arpentry server_mac (ipv4 192 168 2 2) 1010 1)
    /\ forall now, sr_arpcache_lookup (set_entries (expire now (ac_entries (sr_cache sr'))) (sr_cache sr')) (ipv4 192 168 2 2)
         = if now - 1010 <=? SR_ARPCACHE_TO then Some (mk_arpentry server_mac (ipv4 192 168 2 2) 1010 1) else None.
Proof.
  apply (mapping_lifetime demo_env server_mac (ipv4 192 168 2 2) (demo_sr (demo_cache false))).
  - exact (demo_cache_ok false).
  - reflexivity.
  - vm_compute. repeat constructor.
  - intros H. apply (Forall_lookup_1 _ _ 5%nat (mk_arpentry (zeros 6) 0 0 0)) in H;
      [vm_compute in H; discriminate H|vm_compute; reflexivity].
Defined.

(* ------------------------------------------------------------------ *)
(** * Outstanding requests *)

(** The transmission of a request overruns the block of the broadcast address
    when the allocator does not round its six bytes up. *)
Theorem broadcast_overrun e fuel sr r q :
  ~ roomy e -> router_ok sr -> ac_heap (sr_cache sr) !! r = Some q -> aq_times_sent q < 5 -> 1 < env_time e - aq_sent q ->
  sr_arpcache_handle_arpreq e (S fuel) r sr = Err OutOfBounds.
Proof.
  intros Hroom [Hio Hs] Hq Hts Ht. destruct (co_packets _ (ri_cache _ _ _ Hs) _ _ Hq) as [Hne Hpk].
  pose proof (ri_known _ _ _ Hs _ _ Hq) as Hkn. destruct (aq_packets q) as [|pk l] eqn:Hl; [done|].
  apply Forall_cons in Hpk as [Hpk _]. apply Forall_cons in Hkn as [(i & Hi & _) _].
  assert (H : wlp (fun f => f = OutOfBounds) (sr_arpcache_handle_arpreq e (S fuel) r) (fun _ _ => False) sr).
  { simpl. wstep. apply wlp_load_cur. rewrite Hq. destruct (Z.ltb_spec 1 (env_time e - aq_sent q)); [|lia].
    destruct (Z.leb_spec 5 (aq_times_sent q)); [lia|].
    eapply wlp_send_arp_request; [by rewrite Hl|done|done|done|by eapply find_interface_ok|done|by intros|by intros]. }
  unfold wlp in H. destruct (sr_arpcache_handle_arpreq _ _ _ _) as [[? ?]|f]; [done|by subst].
Qed.


(** Handling a request sent fewer than five times broadcasts one more
    ARP request for its first waiting packet and counts it, unless the last
    one is at most a second old, in which case nothing happens. *)
Theorem arpreq_retry e fuel sr r q pk l i rt :
  roomy e -> router_ok sr -> ac_heap (sr_cache sr) !! r = Some q -> aq_packets q = pk :: l ->
  aq_times_sent q < 5 -> find_interface (sr_if_list sr) (pk_iface pk) = Some i ->
  sr_findLPMentry (sr_routing_table sr) (get32 (pk_buf pk) 30) = Some rt ->
  (env_time e - aq_sent q <= 1 -> sr_arpcache_handle_arpreq e (S fuel) r sr = Ok (tt, sr))
  /\ (1 < env_time e - aq_sent q ->
      exists b s1, sr_arpcache_handle_arpreq e (S fuel) r sr = Ok (tt, set_cache (retried e r (sr_cache sr)) s1)
        /\ arp_frame_for b bcast (if_addr i) arp_op_request (slice (pk_buf pk) 6 6) (if_ip i) (zeros 6)
             (get32 (pk_buf pk) 30)
        /\ transmitted sr (rt_interface rt) b s1).
Proof.
  intros Hroom [Hio Hs] Hq Hpks Hts Hi Hrt.
  destruct (co_packets _ (ri_cache _ _ _ Hs) _ _ Hq) as [_ Hpk]. rewrite Hpks in Hpk.
  apply Forall_cons in Hpk as [Hpk _].
  split; intros Ht.
  - assert (H : wlp (fun _ => False) (sr_arpcache_handle_arpreq e (S fuel) r) (fun _ sr' => sr' = sr) sr).
    { simpl. wstep. apply wlp_load_cur. rewrite Hq. destruct (Z.ltb_spec 1 (env_time e - aq_sent q)); [lia|].
      by wstep. }
    apply wlp_total in H as ([] & sr' & H & ->). done.
  - assert (H : wlp (fun _ => False) (sr_arpcache_handle_arpreq e (S fuel) r) (fun _ sr' => exists b s1,
      sr' = set_cache (retried e r (sr_cache sr)) s1
      /\ arp_frame_for b bcast (if_addr i) arp_op_request (slice (pk_buf pk) 6 6) (if_ip i) (zeros 6)
             (get32 (pk_buf pk) 30)
      /\ transmitted sr (rt_interface rt) b s1) sr).
    { simpl. wstep. apply wlp_load_cur. rewrite Hq. destruct (Z.ltb_spec 1 (env_time e - aq_sent q)); [|lia].
      destruct (Z.leb_spec 5 (aq_times_sent q)); [lia|].
      eapply wlp_send_arp_request; [by rewrite Hpks|done|done|done|by eapply find_interface_ok|done|intros _; congruence|].
      intros rt' b s1 _ Hrt' Hb Htr. exists b, s1. simplify_eq.
      destruct (transmitted_tables _ _ _ _ Htr) as (_ & _ & -> & _). done. }
    apply wlp_total in H as ([] & sr' & H & b & s1 & -> & ? & ?). by exists b, s1.
Qed.

Definition demo_env2 : env := mk_env 1012 0 (mk_if [] (zeros 6) 0 0) (fun b => blen b) glibc_usable.

(** The same machine with an allocator that gives what is asked for. *)
Definition exact_env2 : env := mk_env 1012 0 (mk_if [] (zeros 6) 0 0) (fun b => blen b) id.

Lemma broadcast_overrun_witness : sr_arpcache_handle_arpreq exact_env2 1 0 demo_waiting = Err OutOfBounds.
Proof.
  apply (broadcast_overrun exact_env2 0 demo_waiting 0 (mk_arpreq (ipv4 192 168 2 2) 1010 1
    [mk_packet (upd demo_forward 6 [0; 0; 0; 0; 0; 1]) 42 (strncpy (strncpy (eth 1) 32) 32)])).
  - unfold roomy. cbn. lia.
  - exact demo_waiting_ok.
  - vm_compute. reflexivity.
  - vm_compute. reflexivity.
  - vm_compute. reflexivity.
Defined.

Lemma demo_roomy : roomy demo_env2.
Proof. apply Nat.leb_le. reflexivity. Qed.

Lemma arpreq_retry_witness :
  exists b s1, sr_arpcache_handle_arpreq demo_env2 1 0 demo_waiting
      = Ok (tt, set_cache (retried demo_env2 0 (sr_cache demo_waiting)) s1)
    /\ arp_frame_for b bcast [0; 0; 0; 0; 0; 1] arp_op_request
         (slice (upd demo_forward 6 [0; 0; 0; 0; 0; 1]) 6 6) (ipv4 192 168 2 1) (zeros 6)
         (get32 (upd demo_forward 6 [0; 0; 0; 0; 0; 1]) 30)
    /\ transmitted demo_waiting (strncpy (eth 1) 32) b s1.
Proof.
  refine (proj2 (arpreq_retry demo_env2 0 demo_waiting 0
    (mk_arpreq (ipv4 192 168 2 2) 1010 1
       [mk_packet (upd demo_forward 6 [0; 0; 0; 0; 0; 1]) 42 (strncpy (strncpy (eth 1) 32) 32)])
    (mk_packet (upd demo_forward 6 [0; 0; 0; 0; 0; 1]) 42 (strncpy (strncpy (eth 1) 32) 32)) []
    (demo_if 1 (ipv4 192 168 2 1)) (mk_rt (ipv4 192 168 2 2) (ipv4 192 168 2 2) mask24 (strncpy (eth 1) 32))
    demo_roomy demo_waiting_ok _ eq_refl _ _ _) _).
  - vm_compute. reflexivity.
  - vm_compute. reflexivity.
  - vm_compute. reflexivity.
  - vm_compute. reflexivity.
  - vm_compute. reflexivity.
Defined.
