(* ===== verification/SrGiveUp.v ===== *)
(** Giving up an outstanding ARP request: the host-unreachable errors, the
    sweep over the whole queue, and the nesting that never ends. *)

From S2P Require Import Prelude Bytes Checksum SrState SrIf SrRt SrDumper SrSend SrArpcache SrArpreq.
From S2P Require Import SrPackets SrArpFacts SrRouter SrRouterFacts SrDemo SrForwardThms SrArpThms.

(** Every packet of the list has been reported to its source as host
    unreachable, in order, from the address of [i0]. *)
Inductive reported (i0 : sr_if) : list sr_packet -> sr_instance -> sr_instance -> Prop :=
  | reported_nil s : reported i0 [] s s
  | reported_cons p l rt i a f s1 s2 s3 :
      way_back s1 (pk_buf p) rt i a ->
      icmp_error_for (pk_buf p) f (if_ip i0) 3 1 ->
      sent_as s1 (rt_interface rt) (ae_mac a) (if_addr i) f s2 ->
      reported i0 l s2 s3 -> reported i0 (p :: l) s1 s3.

(** A waiting packet whose source can be told. *)
Definition answerable (sr : sr_instance) (p : sr_packet) : Prop :=
  42 <= blen (pk_buf p) /\ exists rt i a, way_back sr (pk_buf p) rt i a.

Lemma answerable_tables s s' p : same_tables s s' -> answerable s p -> answerable s' p.
Proof.
  intros (E1 & E2 & E3 & _) [H (rt & i & a & [H1 H2 H3])]. split; [done|].
  exists rt, i, a. split; congruence.
Qed.

(** The request [r] with the retransmission of the sweep applied if it is due. *)
Definition swept_req (e : env) (q : sr_arpreq) : sr_arpreq :=
  if 1 <? env_time e - aq_sent q
  then mk_arpreq (aq_ip q) (env_time e) (u32 (aq_times_sent q + 1)) (aq_packets q) else q.

Section lemmas.
Context (F : fault -> Prop) (e : env).

Lemma wlp_host_unreachable handle r walk q rt0 i0 rt i a s (Q : unit -> sr_instance -> Prop) :
  tables_ok s -> ac_heap (sr_cache s) !! r = Some q ->
  sr_findLPMentry (sr_routing_table s) (aq_ip q) = Some rt0 ->
  find_interface (sr_if_list s) (rt_interface rt0) = Some i0 ->
  packet_ok walk -> 42 <= blen (pk_buf walk) -> way_back s (pk_buf walk) rt i a ->
  (forall f s', icmp_error_for (pk_buf walk) f (if_ip i0) 3 1 ->
     sent_as s (rt_interface rt) (ae_mac a) (if_addr i) f s' -> Q tt s') ->
  wlp F (host_unreachable e handle r walk) Q s.
Proof.
  intros Hs Hq Hrt0 Hi0 (_ & Hsz & Hwf & _) H42 Hw HQ.
  destruct (way_back_ok _ _ _ _ _ Hs Hw) as [Hi Ha]. destruct Hw as [H1 H2 H3].
  unfold host_unreachable, find_route, sr_get_interface.
  wstep. apply wlp_load_cur. rewrite Hq. do 2 wstep. rewrite Hrt0. repeat pstep. wstep. rewrite Hi0. repeat pstep.
  change (Eth.size + Ip.src)%nat with 26%nat.
  apply wlp_rd32; [unfold blen in H42; lia|].
  wstep. wstep. rewrite H1. repeat pstep. wstep. rewrite H2. pstep.
  pose proof (find_interface_ok _ _ _ (proj1 Hs) Hi0) as [_ Hip].
  apply wlp_icmp_error; try done; [unfold blen in H42; lia|vm_compute; lia|].
  intros b Wb Lb Hie. repeat pstep.
  replace (Z.of_nat icmp_error_len) with (blen b) by (unfold blen; by rewrite Lb).
  eapply wlp_answer_hit; try done; [unfold blen; rewrite Lb; by vm_compute|].
  intros f s' Hf Hs'. apply (HQ f).
  - eapply framed_icmp_error; [done|rewrite Lb; vm_compute; lia|done].
  - split; [done|]. split; [apply Hf|apply Hf].
Qed.

Lemma wlp_report handle r q rt0 i0 l s (Q : unit -> sr_instance -> Prop) :
  tables_ok s -> ac_heap (sr_cache s) !! r = Some q ->
  sr_findLPMentry (sr_routing_table s) (aq_ip q) = Some rt0 ->
  find_interface (sr_if_list s) (rt_interface rt0) = Some i0 ->
  Forall packet_ok l -> Forall (answerable s) l ->
  (forall s', reported i0 l s s' -> same_tables s s' -> Q tt s') ->
  wlp F (mfor l (fun walk => _ ← host_unreachable e handle r walk; _ ← load_cur r; mret tt)) Q s.
Proof.
  intros Hs Hq Hrt0 Hi0 Hok Han. revert s Hs Hq Hrt0 Hi0 Han Q.
  induction Hok as [|p l Hp Hl IH]; intros s Hs Hq Hrt0 Hi0 Han Q HQ; cbn [mfor].
  - wstep. apply HQ; [constructor|apply same_tables_refl].
  - apply Forall_cons in Han as [[H42 (rt & i & a & Hw)] Han]. wstep. wstep.
    eapply wlp_host_unreachable; try done. intros f s1 Hie Hsent.
    pose proof (proj1 (proj1 Hsent)) as Ht. pose proof Ht as (E1 & E2 & E3 & _).
    wstep. apply wlp_load_cur. rewrite E3, Hq. wstep.
    apply IH; rewrite ?E1, ?E2, ?E3; try done.
    + split; rewrite ?E1, ?E3; apply Hs.
    + eapply Forall_impl; [done|]. intros x. by apply answerable_tables.
    + intros s' Hr Ht'. apply HQ; [by econstructor|by eapply same_tables_trans].
Qed.
End lemmas.

(** The router [s1] without the request [r], the rest of whose cache is that of [sr]. *)
Definition without_request (r : nat) (sr s1 : sr_instance) : sr_instance :=
  set_cache (mk_arpcache (ac_entries (sr_cache sr)) (unlink r (ac_requests (sr_cache sr)))
    (delete r (ac_heap (sr_cache sr))) (ac_next (sr_cache sr))) s1.

Lemma wlp_given_up F e fuel sr r q rt0 i0 (Q : unit -> sr_instance -> Prop) :
  router_ok sr -> ac_heap (sr_cache sr) !! r = Some q ->
  5 <= aq_times_sent q -> 1 < env_time e - aq_sent q ->
  sr_findLPMentry (sr_routing_table sr) (aq_ip q) = Some rt0 ->
  find_interface (sr_if_list sr) (rt_interface rt0) = Some i0 ->
  Forall (answerable sr) (aq_packets q) ->
  (forall s1, reported i0 (aq_packets q) sr s1 -> Q tt (without_request r sr s1)) ->
  wlp F (sr_arpcache_handle_arpreq e (S fuel) r) Q sr.
Proof.
  intros [Hio Hs] Hq Hts Ht Hrt0 Hi0 Han HQ. simpl. wstep. apply wlp_load_cur. rewrite Hq.
  destruct (Z.ltb_spec 1 (env_time e - aq_sent q)); [|lia]. destruct (Z.leb_spec 5 (aq_times_sent q)); [|lia].
  pose proof (co_packets _ (ri_cache _ _ _ Hs) _ _ Hq) as [_ Hpk].
  wstep. eapply wlp_report; try done; [split; [done|apply Hs]|].
  intros s1 Hr (E1 & E2 & E3 & _). unfold sr_arpreq_destroy, load_req. wstep. wstep. rewrite E3, Hq.
  do 2 wstep. wstep. apply HQ in Hr. unfold without_request, set_heap, set_requests in *. exact Hr.
Qed.

(** C17: a request already sent five times, and more than a second ago, is
    given up: every packet waiting for it is reported to its source as ICMP
    host unreachable (type 3, code 1), one after the other, and the request
    disappears from the queue with its packets; the ARP table and the other
    requests are untouched. *)
Theorem arpreq_given_up e fuel sr r q rt0 i0 :
  router_ok sr -> ac_heap (sr_cache sr) !! r = Some q ->
  5 <= aq_times_sent q -> 1 < env_time e - aq_sent q ->
  sr_findLPMentry (sr_routing_table sr) (aq_ip q) = Some rt0 ->
  find_interface (sr_if_list sr) (rt_interface rt0) = Some i0 ->
  Forall (answerable sr) (aq_packets q) ->
  exists s1, reported i0 (aq_packets q) sr s1
    /\ sr_arpcache_handle_arpreq e (S fuel) r sr
       = Ok (tt, set_cache (mk_arpcache (ac_entries (sr_cache sr)) (unlink r (ac_requests (sr_cache sr)))
                   (delete r (ac_heap (sr_cache sr))) (ac_next (sr_cache sr))) s1).
Proof.
  intros Hs Hq Hts Ht Hrt0 Hi0 Han.
  assert (H : wlp (fun _ => False) (sr_arpcache_handle_arpreq e (S fuel) r) (fun _ sr' => exists s1,
    reported i0 (aq_packets q) sr s1 /\ sr' = without_request r sr s1) sr).
  { eapply wlp_given_up; try done. intros s1 Hr. by exists s1. }
  apply wlp_total in H as ([] & sr' & H & s1 & Hr & ->). by exists s1.
Qed.

(** A router with one request that has had its five transmissions, and the
    packet that waits for it. *)
Definition demo_lost : sr_packet :=
  mk_packet (upd (mk_ip_frame [10; 0; 1; 100] [192; 168; 2; 9] 6 63 (zeros 8)) 6 [0; 0; 0; 0; 0; 1]) 42
    (strncpy (eth 1) 32).
Definition demo_expired (p : sr_packet) : sr_arpreq := mk_arpreq (ipv4 192 168 2 2) 1000 5 [p].
Definition one_request (b : bool) (q : sr_arpreq) : sr_instance :=
  demo_sr (mk_arpcache (ac_entries (demo_cache b)) [0%nat] {[0%nat := q]} 1).

Lemma one_request_ok b q :
  aq_packets q <> [] -> Forall packet_ok (aq_packets q) -> Forall (addressed demo_ifs) (aq_packets q) ->
  0 <= aq_times_sent q <= 5 ->
  router_ok (one_request b q).
Proof.
  intros Hne Hp Ha Ht. pose proof (demo_cache_ok b) as Hc.
  split; [exact demo_ifs_ok|]. split; [reflexivity|reflexivity| |].
  - split; cbn [one_request demo_sr sr_cache ac_entries ac_requests ac_heap ac_next]; try apply Hc.
    + apply NoDup_singleton.
    + intros r. rewrite lookup_singleton_is_Some, list_elem_of_singleton. by split; intros ->.
    + intros r ->%list_elem_of_singleton. lia.
    + intros r1 r2 q1 q2. rewrite !lookup_singleton_Some. naive_solver.
    + intros r q'. rewrite lookup_singleton_Some. by intros [<- <-].
    + intros r q'. rewrite lookup_singleton_Some. by intros [<- <-].
  - intros r q'. cbn [one_request demo_sr sr_cache ac_heap]. rewrite lookup_singleton_Some. by intros [<- <-].
Qed.

Lemma demo_lost_ok : packet_ok demo_lost.
Proof.
  split; [vm_compute; reflexivity|]. split; [split; vm_compute; [discriminate|reflexivity]|].
  split; [apply wf_bytesb; vm_compute; reflexivity|vm_compute; reflexivity].
Qed.


Lemma demo_expired_ok : router_ok (one_request true (demo_expired demo_lost)).
Proof.
  apply one_request_ok; [discriminate|constructor; [exact demo_lost_ok|constructor]| |].
  - constructor; [|constructor]. exists (demo_if 1 (ipv4 192 168 2 1)). split; vm_compute; reflexivity.
  - simpl. lia.
Qed.

Lemma arpreq_given_up_witness :
  exists s1, reported (demo_if 1 (ipv4 192 168 2 1)) [demo_lost] (one_request true (demo_expired demo_lost)) s1
    /\ sr_arpcache_handle_arpreq demo_env 1 0 (one_request true (demo_expired demo_lost))
       = Ok (tt, set_cache (mk_arpcache (ac_entries (demo_cache true)) [] (delete 0%nat {[0%nat := demo_expired demo_lost]}) 1) s1).
Proof.
  apply (arpreq_given_up demo_env 0 (one_request true (demo_expired demo_lost)) 0 (demo_expired demo_lost)
    (mk_rt (ipv4 192 168 2 2) (ipv4 192 168 2 2) mask24 (strncpy (eth 1) 32)) _ demo_expired_ok).
  - vm_compute. reflexivity.
  - vm_compute. discriminate.
  - vm_compute. reflexivity.
  - vm_compute. reflexivity.
  - vm_compute. reflexivity.
  - constructor; [|constructor]. split; [vm_compute; discriminate|].
    exists (mk_rt (ipv4 10 0 1 100) (ipv4 10 0 1 100) mask24 (strncpy (eth 3) 32)),
      (demo_if 3 (ipv4 10 0 1 1)), (mk_arpentry client_mac (ipv4 10 0 1 100) 1000 1).
    split; vm_compute; reflexivity.
Defined.

(* ------------------------------------------------------------------ *)
(** * The sweep *)

(** The requests at the nodes [l] whose last transmission is more than a second
    old, in order. *)
Definition due (e : env) (h : gmap nat sr_arpreq) (l : list nat) : list sr_arpreq :=
  omap (fun r => q ← h !! r; if 1 <? env_time e - aq_sent q then Some q else None) l.

(** [out] is what a transmission of [q] writes to the socket: one ARP request, on
    the interface of the route to the destination of its first packet, which it
    asks for in the name of the interface that packet waits for; nothing if
    these interfaces have different addresses. *)
Definition asked (s : sr_instance) (q : sr_arpreq) (out : list bytes) : Prop :=
  exists pk l i rt b, aq_packets q = pk :: l
    /\ find_interface (sr_if_list s) (pk_iface pk) = Some i
    /\ sr_findLPMentry (sr_routing_table s) (get32 (pk_buf pk) 30) = Some rt
    /\ arp_frame_for b bcast (if_addr i) arp_op_request (slice (pk_buf pk) 6 6) (if_ip i) (zeros 6) (get32 (pk_buf pk) 30)
    /\ out = outgoing s (rt_interface rt) b.

Lemma asked_tables s s' q out :
  sr_if_list s' = sr_if_list s -> sr_routing_table s' = sr_routing_table s -> asked s' q out -> asked s q out.
Proof. unfold asked, outgoing. by intros -> ->. Qed.

(** [s'] is [s] with the requests in [l] retransmitted where due. *)
Record touched (e : env) (l : list nat) (s s' : sr_instance) : Prop := {
  to_ifs : sr_if_list s' = sr_if_list s;
  to_routes : sr_routing_table s' = sr_routing_table s;
  to_cache : sr_cache s' = set_heap (foldl (fun h r => alter (swept_req e) r h) (ac_heap (sr_cache s)) l) (sr_cache s);
  to_wire : exists outs, Forall2 (asked s) (due e (ac_heap (sr_cache s)) l) outs /\ sr_wire s' = sr_wire s ++ mjoin outs;
}.

Lemma due_alter e f r h l : r ∉ l -> due e (alter f r h) l = due e h l.
Proof.
  intros Hr. induction l as [|x l IH]; [done|]. apply not_elem_of_cons in Hr as [Hne Hr]. unfold due in *. cbn [omap list_omap].
  rewrite lookup_alter_ne by done. by rewrite IH.
Qed.

Lemma due_cons e h r q l :
  h !! r = Some q -> due e h (r :: l) = (if 1 <? env_time e - aq_sent q then [q] else []) ++ due e h l.
Proof. intros Hq. unfold due. cbn [omap list_omap]. rewrite Hq. cbn. by destruct (_ <? _). Qed.

Lemma touched_nil e s : touched e [] s s.
Proof. split; [done|done|by destruct (sr_cache s)|]. exists []. split; [constructor|by rewrite app_nil_r]. Qed.

Lemma touched_cons e r l s s1 s2 :
  r ∉ l -> is_Some (ac_heap (sr_cache s) !! r) -> touched e [r] s s1 -> touched e l s1 s2 -> touched e (r :: l) s s2.
Proof.
  intros Hr [q Hq] [A1 A2 A3 (o1 & A4 & A5)] [B1 B2 B3 (o2 & B4 & B5)].
  assert (Hh : ac_heap (sr_cache s1) = alter (swept_req e) r (ac_heap (sr_cache s))) by by rewrite A3.
  split; [congruence|congruence|by rewrite B3, A3|]. exists (o1 ++ o2). split.
  - rewrite (due_cons _ _ _ q) in A4 |- * by done. unfold due in A4 at 1. cbn [omap list_omap] in A4. rewrite app_nil_r in A4.
    apply Forall2_app; [exact A4|]. rewrite Hh, due_alter in B4 by done.
    eapply Forall2_impl; [exact B4|]. intros x y. by apply asked_tables.
  - by rewrite B5, A5, join_app, app_assoc.
Qed.

Section sweep.
Context (F : fault -> Prop) (e : env) (Hroom : ~ roomy e -> F OutOfBounds).

Lemma swept_packets q : aq_packets (swept_req e q) = aq_packets q.
Proof. unfold swept_req. by destruct (_ <? _). Qed.

(** Handling one request that is not given up. *)
Lemma wlp_touch fuel r q s (Q : unit -> sr_instance -> Prop) :
  router_ok s -> ac_heap (sr_cache s) !! r = Some q -> aq_times_sent q < 5 ->
  routes_total (sr_if_list s) (sr_routing_table s) ->
  (forall s', router_ok s' -> touched e [r] s s' -> Q tt s') ->
  wlp F (sr_arpcache_handle_arpreq e (S fuel) r) Q s.
Proof.
  intros [Hio Hs] Hq Hts Htot HQ. simpl. wstep. apply wlp_load_cur. rewrite Hq.
  assert (Hid : forall h : gmap nat sr_arpreq, h !! r = Some q -> swept_req e q = q -> alter (swept_req e) r h = h).
  { intros h Hh Hsw. apply map_eq. intros k. destruct (decide (k = r)) as [->|Hne].
    - by rewrite lookup_alter_eq, Hh; simpl; rewrite Hsw.
    - by rewrite lookup_alter_ne. }
  destruct (Z.ltb_spec 1 (env_time e - aq_sent q)) as [Hlt|Hge].
  - destruct (Z.leb_spec 5 (aq_times_sent q)); [lia|].
    destruct (co_packets _ (ri_cache _ _ _ Hs) _ _ Hq) as [Hne Hpk].
    pose proof (ri_known _ _ _ Hs _ _ Hq) as Hkn.
    destruct (aq_packets q) as [|pk l] eqn:Hl; [done|].
    apply Forall_cons in Hpk as [Hpk _]. apply Forall_cons in Hkn as [(ifc & Hifc & _) _].
    eapply wlp_send_arp_request; [by rewrite Hl|done|done|done|by eapply find_interface_ok|done| |].
    { intros _ Hn. destruct (Htot (get32 (pk_buf pk) 30)) as (? & ? & _). congruence. }
    intros rt b s1 _ Hrt Hb [Ht Hw].
    pose proof (rinv_tables _ _ _ _ Hs Ht) as Hs1. destruct Ht as (E1 & E2 & E3 & _).
    apply HQ.
    + split; [by rewrite <- E1 in Hio|]. simpl. rewrite E1, E2. apply rinv_retried; [done|].
      intros q'. rewrite E3, Hq. by intros [= <-].
    + split; [done|done| |].
      * simpl. rewrite E3. unfold retried. f_equal.
        apply map_eq. intros k. destruct (decide (k = r)) as [->|Hk]; [|by rewrite !lookup_alter_ne].
        rewrite !lookup_alter_eq, Hq. simpl. unfold swept_req. by rewrite (proj2 (Z.ltb_lt _ _)).
      * exists [outgoing s (rt_interface rt) b]. rewrite (due_cons _ _ _ q), (proj2 (Z.ltb_lt _ _)) by done.
        split; [|simpl; by rewrite app_nil_r]. constructor; [|constructor]. by exists pk, l, ifc, rt, b.
  - wstep. apply HQ; [done|]. split; [done|done| |].
    + simpl. rewrite Hid; [by destruct (sr_cache s)|done|]. unfold swept_req. by rewrite (proj2 (Z.ltb_ge _ _)).
    + exists []. rewrite (due_cons _ _ _ q), (proj2 (Z.ltb_ge _ _)) by done. split; [constructor|by rewrite app_nil_r].
Qed.

Lemma succ_of_app l1 r l2 : NoDup (l1 ++ r :: l2) -> succ_of r (l1 ++ r :: l2) = head l2.
Proof.
  induction l1 as [|x l1 IH]; simpl; intros Hnd.
  - by rewrite decide_True.
  - apply NoDup_cons in Hnd as [Hx Hnd]. rewrite decide_False; [by apply IH|]. set_solver.
Qed.

Lemma foldl_alter_notin (l : list nat) (h : gmap nat sr_arpreq) r :
  r ∉ l -> foldl (fun h r => alter (swept_req e) r h) h l !! r = h !! r.
Proof.
  revert h. induction l as [|x l IH]; intros h; simpl; [done|].
  intros [Hne Hl]%not_elem_of_cons. rewrite IH by done. by rewrite lookup_alter_ne.
Qed.

(** The loop from the node [head l2] on. *)
Lemma wlp_sweep_loop fuel l1 l2 s (Q : unit -> sr_instance -> Prop) :
  router_ok s -> ac_requests (sr_cache s) = l1 ++ l2 ->
  (forall r q, r ∈ l2 -> ac_heap (sr_cache s) !! r = Some q -> aq_times_sent q < 5) ->
  routes_total (sr_if_list s) (sr_routing_table s) ->
  (forall s', router_ok s' -> touched e l2 s s' -> Q tt s') ->
  wlp F (sweep_loop e (length l2) (S fuel) (head l2)) Q s.
Proof.
  revert l1 s Q. induction l2 as [|r l2 IH]; intros l1 s Q Hs Hreq Hy Htot HQ.
  - simpl. wstep. apply HQ; [done|apply touched_nil].
  - pose proof Hs as [_ Hinv]. pose proof (co_nodup _ (ri_cache _ _ _ Hinv)) as Hnd. rewrite Hreq in Hnd.
    assert (Hr : r ∈ ac_requests (sr_cache s)) by (rewrite Hreq; set_solver).
    pose proof (co_live _ (ri_cache _ _ _ Hinv) r) as [Hlive _]. destruct (Hlive Hr) as [q Hq].
    cbn [length head sweep_loop]. wstep. apply wlp_load_cur. rewrite Hq. wstep. wstep.
    rewrite Hreq, succ_of_app by done. wstep.
    eapply wlp_touch; try done; [by eapply Hy; [apply list_elem_of_here|]|].
    intros s1 Hs1 Ht1. pose proof Ht1 as [E1 E2 E3 _]. simpl in E3.
    apply NoDup_app in Hnd as (_ & _ & [Hnin _]%NoDup_cons).
    apply (IH (l1 ++ [r])); rewrite ?E1, ?E2, ?E3; simpl; try done.
    + by rewrite <- app_assoc.
    + intros r' q' Hr' Hq'. apply (Hy r'); [set_solver|].
      rewrite lookup_alter_ne in Hq'; [done|]. by intros ->.
    + intros s2 Hs2 Ht2. apply HQ; [done|]. by eapply touched_cons.
Qed.
End sweep.

(** What one round leaves while no request has used up its transmissions. *)
Record round_made (e : env) (sr sr' : sr_instance) : Prop := {
  rm_ok : router_ok sr';
  rm_ifs : sr_if_list sr' = sr_if_list sr;
  rm_routes : sr_routing_table sr' = sr_routing_table sr;
  rm_entries : ac_entries (sr_cache sr') = expire (env_time e) (ac_entries (sr_cache sr));
  rm_requests : ac_requests (sr_cache sr') = ac_requests (sr_cache sr);
  rm_heap : ac_heap (sr_cache sr') = swept_req e <$> ac_heap (sr_cache sr);
  rm_wire : exists outs, Forall2 (asked sr) (due e (ac_heap (sr_cache sr)) (ac_requests (sr_cache sr))) outs
    /\ sr_wire sr' = sr_wire sr ++ mjoin outs;
}.

(** Retransmitting for every node of the queue is retransmitting for every request. *)
Lemma foldl_alter_all e c : cache_ok c ->
  foldl (fun h r => alter (swept_req e) r h) (ac_heap c) (ac_requests c) = swept_req e <$> ac_heap c.
Proof.
  intros Hc. apply map_eq. intros r. rewrite lookup_fmap.
  pose proof (co_nodup _ Hc) as Hnd. pose proof (co_live _ Hc r) as Hl.
  revert Hl. generalize (ac_heap c). clear -Hnd.
  induction Hnd as [|x l Hx Hnd IH]; intros h Hl; simpl.
  - destruct (h !! r) eqn:Er; [|done]. destruct Hl as [_ Hl]. exfalso.
    by eapply not_elem_of_nil, Hl; eauto.
  - destruct (decide (r = x)) as [->|Hne].
    + rewrite foldl_alter_notin by done. by rewrite lookup_alter_eq.
    + rewrite IH; [by rewrite lookup_alter_ne|].
      rewrite lookup_alter_ne by done. rewrite <- Hl, elem_of_cons. naive_solver.
Qed.

Lemma wlp_timeout (F : fault -> Prop) e fuel sr (Q : unit -> sr_instance -> Prop) :
  (~ roomy e -> F OutOfBounds) -> router_ok sr -> young (sr_cache sr) -> routes_total (sr_if_list sr) (sr_routing_table sr) ->
  (forall sr', round_made e sr sr' -> Q tt sr') ->
  wlp F (sr_arpcache_timeout e (S fuel)) Q sr.
Proof.
  intros Hroom [Hio Hs] Hy Htot HQ.
  set (s0 := set_cache (set_entries (expire (env_time e) (ac_entries (sr_cache sr))) (sr_cache sr)) sr).
  assert (Hs0 : router_ok s0).
  { split; [done|]. destruct Hs as [H1 H2 H3 H4]. split; try done. by apply expire_ok. }
  unfold sr_arpcache_timeout, sr_arpcache_sweepreqs. wstep. wstep. wstep. wstep. fold s0.
  change (ac_requests (sr_cache s0)) with (ac_requests (sr_cache sr)).
  eapply (wlp_sweep_loop _ e Hroom fuel []); try done.
  - intros r q _ Hq. by eapply Hy.
  - intros s' Hok [E1 E2 E3 E4]. apply HQ. split; [done|done|done|by rewrite E3..| |exact E4].
    rewrite E3. simpl. apply foldl_alter_all, Hs.
Qed.

(** C18: while no request has used up its five transmissions, one round of the
    cleanup thread drops the ARP table's entries older than 15 seconds and
    retransmits exactly the requests whose last transmission is more than a
    second old, each once: what it writes to the socket is one ARP request for
    each of them, in the order of the queue (none for a request whose packet
    waits for another interface than the route's), and these have one more
    transmission at the time of the round; the queue keeps its order and its
    packets. *)
Theorem timeout_round e fuel sr :
  roomy e -> router_ok sr -> young (sr_cache sr) -> routes_total (sr_if_list sr) (sr_routing_table sr) ->
  exists sr', sr_arpcache_timeout e (S fuel) sr = Ok (tt, sr')
    /\ router_ok sr'
    /\ ac_entries (sr_cache sr') = expire (env_time e) (ac_entries (sr_cache sr))
    /\ ac_requests (sr_cache sr') = ac_requests (sr_cache sr)
    /\ ac_heap (sr_cache sr') = swept_req e <$> ac_heap (sr_cache sr)
    /\ exists outs, Forall2 (asked sr) (due e (ac_heap (sr_cache sr)) (ac_requests (sr_cache sr))) outs
         /\ sr_wire sr' = sr_wire sr ++ mjoin outs.
Proof.
  intros Hroom Hs Hy Htot.
  assert (H : wlp (fun _ => False) (sr_arpcache_timeout e (S fuel)) (fun _ sr' => round_made e sr sr') sr).
  { by apply wlp_timeout. }
  apply wlp_total in H as ([] & sr' & H & []). by exists sr'.
Qed.

(** A routing table that covers every address: two halves behind one gateway. *)
Definition half_rt : list sr_rt :=
  [mk_rt 0 (ipv4 192 168 2 2) (ipv4 128 0 0 0) (strncpy (eth 1) 32);
   mk_rt (ipv4 128 0 0 0) (ipv4 192 168 2 2) (ipv4 128 0 0 0) (strncpy (eth 1) 32)].

Lemma land_bit31 x : Z.land x 2147483648 = if Z.testbit x 31 then 2147483648 else 0.
Proof.
  apply Z.bits_inj'. intros n Hn. rewrite Z.land_spec. change 2147483648 with (2 ^ 31).
  rewrite Z.pow2_bits_eqb by lia. destruct (Z.eqb_spec 31 n) as [<-|Hne].
  - destruct (Z.testbit x 31); [by rewrite Z.pow2_bits_true by lia|by rewrite Z.bits_0].
  - rewrite andb_false_r. destruct (Z.testbit x 31); [by rewrite Z.pow2_bits_false by lia|by rewrite Z.bits_0].
Qed.

Lemma half_rt_total : routes_total demo_ifs half_rt.
Proof.
  intros ip. unfold sr_findLPMentry, half_rt, lpm_scan. cbn [rt_mask rt_dest].
  change (ntohl (ipv4 128 0 0 0)) with 2147483648.
  rewrite land_bit31. destruct (Z.testbit (ntohl ip) 31); vm_compute; eexists; (split; [reflexivity|eexists; reflexivity]).
Qed.

(** A router over that table, with one request waiting. *)
Definition half_sr : sr_instance :=
  set_routing_table half_rt (one_request true (mk_arpreq (ipv4 192 168 2 2) 1000 1 [demo_lost])).

Lemma half_sr_ok : router_ok half_sr.
Proof.
  assert (H : router_ok (one_request true (mk_arpreq (ipv4 192 168 2 2) 1000 1 [demo_lost]))).
  { apply one_request_ok; [discriminate|constructor; [exact demo_lost_ok|constructor]| |simpl; lia].
    constructor; [|constructor]. exists (demo_if 1 (ipv4 192 168 2 1)). split; vm_compute; reflexivity. }
  destruct H as [Hio [H1 H2 H3 H4]]. split; [exact Hio|]. split; [reflexivity|reflexivity|exact H3|exact H4].
Qed.

Lemma half_sr_young : young (sr_cache half_sr).
Proof.
  intros r q. change (ac_heap (sr_cache half_sr)) with ({[0%nat := mk_arpreq (ipv4 192 168 2 2) 1000 1 [demo_lost]]} : gmap nat sr_arpreq).
  rewrite lookup_singleton_Some. intros [_ <-]. vm_compute. reflexivity.
Qed.

Lemma timeout_round_witness :
  exists sr', sr_arpcache_timeout demo_env 1 half_sr = Ok (tt, sr')
    /\ router_ok sr'
    /\ ac_entries (sr_cache sr') = expire 1010 (ac_entries (sr_cache half_sr))
    /\ ac_requests (sr_cache sr') = [0%nat]
    /\ ac_heap (sr_cache sr') = swept_req demo_env <$> ac_heap (sr_cache half_sr)
    /\ exists out, asked half_sr (mk_arpreq (ipv4 192 168 2 2) 1000 1 [demo_lost]) out /\ sr_wire sr' = [] ++ out.
Proof.
  destruct (timeout_round demo_env 0 half_sr demo_env_roomy half_sr_ok half_sr_young half_rt_total)
    as (sr' & H1 & H2 & H3 & H4 & H5 & outs & H6 & H7).
  exists sr'. split; [exact H1|]. split; [exact H2|]. split; [exact H3|]. split; [exact H4|]. split; [exact H5|].
  assert (E : due demo_env (ac_heap (sr_cache half_sr)) (ac_requests (sr_cache half_sr)) = [mk_arpreq (ipv4 192 168 2 2) 1000 1 [demo_lost]])
    by (vm_compute; reflexivity).
  rewrite E in H6. apply Forall2_cons_inv_l in H6 as (out & outs' & Hout & Hnil & ->). apply Forall2_nil_inv_l in Hnil as ->.
  exists out. split; [exact Hout|]. rewrite H7. cbn [mjoin list_join]. by rewrite app_nil_r.
Defined.
