(* ===== verification/SrOverlap.v ===== *)
(** The rounds of the cleanup thread that come between queueing a packet and
    handling its request: what they keep, why a request that is far from being
    given up survives them, and the request that does not. *)

From S2P Require Import Prelude Bytes Checksum SrState SrIf SrRt SrDumper SrSend SrArpcache SrArpreq.
From S2P Require Import SrPackets SrArpFacts SrRouter SrRouterFacts SrThreads SrDemo SrForwardThms SrArpThms.
From S2P Require Import SrGiveUp.

(* ------------------------------------------------------------------ *)
(** * Any rounds *)

Section any.
Context (F : fault -> Prop) (Hl : lenient F) (ifs : list sr_if) (rts : list sr_rt) (Hifs : Forall iface_ok ifs).

Lemma rounds_inv fuel rounds s :
  rinv ifs rts s -> wlp F (cleanup_rounds fuel rounds) (fun _ s' => rinv ifs rts s') s.
Proof.
  intros Hs. apply (wlp_mfor F _ _ (fun _ s => rinv ifs rts s)); [done|].
  intros e l s1 Hs1. apply (timeout_inv F e _ _ Hifs (or_introl Hl) (fun _ => Hl OutOfBounds) 5); [lia|done|done].
Qed.

Lemma overtaken_inv fuel rounds e r s :
  rinv ifs rts s -> wlp F (overtaken fuel rounds e r) (fun _ s' => rinv ifs rts s') s.
Proof.
  intros Hs. unfold overtaken. wstep. eapply wlp_mono; [by apply rounds_inv|]. cbn beta. intros _ s1 Hs1.
  apply (handle_arpreq_inv F e _ _ Hifs (or_introl Hl) (fun _ => Hl OutOfBounds) 5); [lia|done|by left..].
Qed.
End any.

(* ------------------------------------------------------------------ *)
(** * Rounds that retransmit only *)

Lemma swept_below e n c : cache_ok c -> n <= 5 -> tries_below n c -> tries_below (n + 1) (set_heap (swept_req e <$> ac_heap c) c).
Proof.
  intros Hc Hn Hb r q. simpl. rewrite lookup_fmap, fmap_Some. intros (q0 & Hq & ->).
  pose proof (co_tries _ Hc _ _ Hq). specialize (Hb _ _ Hq). unfold swept_req.
  destruct (_ <? _); [|lia]. simpl. rewrite u32_small; lia.
Qed.

(** The request of a packet just queued is still there after rounds too few to
    use up its transmissions. *)
Lemma wlp_rounds (F : fault -> Prop) fuel rounds n s (Q : unit -> sr_instance -> Prop) :
  Forall (fun e => ~ roomy e -> F OutOfBounds) rounds -> router_ok s -> routes_total (sr_if_list s) (sr_routing_table s) ->
  tries_below n (sr_cache s) -> n + Z.of_nat (length rounds) <= 5 ->
  (forall s', router_ok s' -> sr_if_list s' = sr_if_list s -> sr_routing_table s' = sr_routing_table s ->
     ac_requests (sr_cache s') = ac_requests (sr_cache s) -> tries_below 5 (sr_cache s') -> Q tt s') ->
  wlp F (cleanup_rounds (S fuel) rounds) Q s.
Proof.
  revert n s Q. induction rounds as [|e rounds IH]; intros n s Q Hroom Hs Htot Hb Hn HQ; unfold cleanup_rounds; cbn [mfor].
  - wstep. apply HQ; try done. intros r q Hq. specialize (Hb _ _ Hq). cbn [length] in Hn. lia.
  - cbn [length] in Hn. apply Forall_cons in Hroom as [Hr Hroom]. wstep. apply wlp_timeout; [done|done| |done|].
    + intros r q Hq. specialize (Hb _ _ Hq). lia.
    + intros s1 [Hok E1 E2 _ E3 E4 _]. apply (IH (n + 1) s1); rewrite ?E1, ?E2; try done; [|lia|].
      * intros r q. rewrite E4. eapply (swept_below e n (sr_cache s)); [apply Hs|lia|done].
      * rewrite E3. exact HQ.
Qed.

Section overtaken.
Context (F : fault -> Prop) (ifs : list sr_if) (rts : list sr_rt) (Hifs : Forall iface_ok ifs) (Htot : routes_total ifs rts).

Lemma overtaken_keeps fuel rounds e r s :
  Forall (fun e => ~ roomy e -> F OutOfBounds) (e :: rounds) ->
  Z.of_nat (length rounds) < 5 -> rinv ifs rts s -> tries_below (5 - Z.of_nat (length rounds)) (sr_cache s) ->
  r ∈ ac_requests (sr_cache s) ->
  wlp F (overtaken (S fuel) rounds e r) (fun _ s' => rinv ifs rts s') s.
Proof.
  intros [Hr1 Hroom]%Forall_cons Hn Hs Hb Hr. pose proof (ri_ifs _ _ _ Hs) as E1. pose proof (ri_rts _ _ _ Hs) as E2.
  assert (Hok : router_ok s) by (split; by rewrite E1, ?E2).
  unfold overtaken. wstep. eapply wlp_rounds; [done|done|by rewrite E1, E2|exact Hb|lia|].
  intros s1 [_ Hs1] E3 E4 E5 Hy. rewrite E3, E4, E1, E2 in Hs1.
  apply (handle_arpreq_inv F e _ _ Hifs (or_intror Htot) Hr1 5); [lia|done|by right|right; lia|right; by rewrite E5].
Qed.
End overtaken.

(* ------------------------------------------------------------------ *)
(** * The request that is gone *)

(** The router once the entries that are too old at [e] are out of its table. *)
Definition aged (e : env) (sr : sr_instance) : sr_instance :=
  set_cache (set_entries (expire (env_time e) (ac_entries (sr_cache sr))) (sr_cache sr)) sr.

Lemma aged_ok e sr : router_ok sr -> router_ok (aged e sr).
Proof. intros [Hio [H1 H2 H3 H4]]. split; [done|]. split; try done. by apply expire_ok. Qed.

(** Who can be told depends on the tables. *)
Lemma answerable_entries s s' p :
  sr_if_list s' = sr_if_list s -> sr_routing_table s' = sr_routing_table s ->
  ac_entries (sr_cache s') = ac_entries (sr_cache s) -> answerable s p -> answerable s' p.
Proof.
  intros E1 E2 E3 [H (rt & i & a & [H1 H2 H3])]. split; [done|]. exists rt, i, a.
  split; rewrite ?E1, ?E2; try done. unfold sr_arpcache_lookup in *. by rewrite E3.
Qed.

(** A round that finds one request in the queue, due to be given up. *)
Lemma wlp_round_gives_up F e fuel sr r q rt0 i0 (Q : unit -> sr_instance -> Prop) :
  router_ok sr -> ac_requests (sr_cache sr) = [r] -> ac_heap (sr_cache sr) !! r = Some q ->
  5 <= aq_times_sent q -> 1 < env_time e - aq_sent q ->
  sr_findLPMentry (sr_routing_table sr) (aq_ip q) = Some rt0 ->
  find_interface (sr_if_list sr) (rt_interface rt0) = Some i0 ->
  Forall (answerable (aged e sr)) (aq_packets q) ->
  (forall s1, reported i0 (aq_packets q) (aged e sr) s1 -> Q tt (without_request r (aged e sr) s1)) ->
  wlp F (sr_arpcache_timeout e (S fuel)) Q sr.
Proof.
  intros Hs Hreq Hq Hts Ht Hrt0 Hi0 Han HQ. unfold sr_arpcache_timeout, sr_arpcache_sweepreqs.
  do 4 wstep. fold (aged e sr). change (ac_requests (sr_cache (aged e sr))) with (ac_requests (sr_cache sr)).
  rewrite Hreq. cbn [length head sweep_loop]. wstep. apply wlp_load_cur.
  change (ac_heap (sr_cache (aged e sr))) with (ac_heap (sr_cache sr)). rewrite Hq. do 2 wstep.
  change (ac_requests (sr_cache (aged e sr))) with (ac_requests (sr_cache sr)). rewrite Hreq.
  cbn [succ_of]. rewrite decide_True by done. cbn [head]. wstep.
  eapply (wlp_given_up F e fuel (aged e sr) r q rt0 i0); [by apply aged_ok|exact Hq|exact Hts|exact Ht|exact Hrt0|exact Hi0|exact Han|].
  intros s1 Hr. wstep. by apply HQ.
Qed.

(** C37: the main thread has a packet to forward to a gateway that does not answer:
    it queues the packet with the request that is already there, and before it
    handles the request the cleanup thread, in whose round the request is given
    up, reports the packets and frees it. The main thread goes on with the
    pointer. *)
Theorem overtaken_use_after_free t e fuel sr p iface rt i r q rt0 i0 :
  tn_during t = [e] ->
  router_ok sr -> ip_frame p -> 42 <= blen p ->
  find_own_ip (sr_if_list sr) (get32 p 30) = None ->
  sr_findLPMentry (sr_routing_table sr) (get32 p 30) = Some rt ->
  find_interface (sr_if_list sr) (rt_interface rt) = Some i ->
  get8 p 22 <> 1 -> sr_arpcache_lookup (sr_cache sr) (rt_gw rt) = None ->
  ac_requests (sr_cache sr) = [r] -> ac_heap (sr_cache sr) !! r = Some q -> aq_ip q = rt_gw rt ->
  5 <= aq_times_sent q -> 1 < env_time e - aq_sent q ->
  sr_findLPMentry (sr_routing_table sr) (rt_gw rt) = Some rt0 ->
  find_interface (sr_if_list sr) (rt_interface rt0) = Some i0 ->
  Forall (answerable (aged e sr)) (aq_packets q) ->
  (exists rt' i' a', way_back (aged e sr) p rt' i' a') ->
  handlepacket_in t (S fuel) p (blen p) iface sr = Err UseAfterFree.
Proof.
  intros Hd [Hio Hs] Hp H42 Hown Hrt Hi Httl Ha Hreq Hq Hip Hts Ht Hrt0 Hi0 Han Hback.
  pose proof Hp as [[Wp Hmax] Hsz _ _ _ _].
  assert (Hiok : iface_ok i) by (by eapply find_interface_ok). pose proof (io_addr _ Hiok) as [Hal Haw].
  assert (H : wlp (fun f => f = UseAfterFree) (handlepacket_in t (S fuel) p (blen p) iface) (fun _ _ => False) sr).
  2:{ unfold wlp in H. destruct (handlepacket_in _ _ _ _ _ _) as [[? ?]|f]; [done|by subst]. }
  apply wlp_handle_ip; [done|]. rewrite Hown, Hrt. destruct (Z.eqb_spec (get8 p 22) 1); [done|].
  eapply wlp_forward_miss; try done; [apply Hs|]. intros r' c' Hqd.
  set (pk := mk_packet (upd p 6 (if_addr i)) (blen p) (strncpy (rt_interface rt) sr_IFACE_NAMELEN)) in *.
  assert (Hl : length (upd p 6 (if_addr i)) = length p) by (apply length_upd; unfold blen in Hsz; lia).
  assert (Hpk : packet_ok pk).
  { unfold packet_ok, blen in *; simpl. rewrite Hl. repeat split; try lia; [by apply wf_upd|apply length_strncpy]. }
  assert (Hok : router_ok (set_cache c' sr)).
  { split; [done|]. eapply rinv_queued; [exact Hs|exact Hpk| |exact Hqd]. exists i. simpl.
    rewrite find_interface_strncpy. split; [done|]. apply slice_upd_same; unfold blen in Hsz; lia. }
  assert (Hc : r' = r /\ ac_requests c' = [r] /\ ac_entries c' = ac_entries (sr_cache sr) /\ ac_heap c' !! r = Some (add_packet pk q)).
  { destruct Hqd as [He [(q' & _ & Hq' & Hip' & Hreq' & _ & Hh)|(Hno & _)]].
    - assert (r' = r) as -> by (eapply (co_ips _ (ri_cache _ _ _ Hs)); [done|done|congruence]). simplify_eq.
      rewrite Hh, lookup_insert_eq. by rewrite Hreq'.
    - exfalso. eapply Hno; [by rewrite Hreq; apply list_elem_of_here|done|done]. }
  destruct Hc as (-> & Hreq' & He & Hq'). unfold overtaken, cleanup_rounds. rewrite Hd. cbn [mfor]. do 2 wstep.
  eapply (wlp_round_gives_up _ e fuel (set_cache c' sr) r (add_packet pk q) rt0 i0);
    [exact Hok|exact Hreq'|exact Hq'|exact Hts|exact Ht|by rewrite <- Hip in Hrt0|exact Hi0| |].
  - constructor.
    + split; [simpl; unfold blen in *; lia|]. destruct Hback as (rt' & i' & a' & [B1 B2 B3]). exists rt', i', a'.
      split; [simpl; rewrite get32_upd_ne by (unfold blen in Hsz; lia); exact B1|exact B2|].
      unfold sr_arpcache_lookup in *. simpl in *. by rewrite He.
    + eapply Forall_impl; [exact Han|]. intros x. apply answerable_entries; simpl; by rewrite ?He.
  - intros s1 Hr. wstep. simpl. wstep. apply wlp_load_cur. simpl. by rewrite lookup_delete_eq.
Qed.

Definition raced : turn := mk_turn [] demo_env [demo_env] demo_env.

Lemma overtaken_use_after_free_witness :
  handlepacket_in raced 1 demo_forward (blen demo_forward) (eth 3) (one_request false (demo_expired demo_lost)) = Err UseAfterFree.
Proof.
  apply (overtaken_use_after_free raced demo_env 0 (one_request false (demo_expired demo_lost)) demo_forward (eth 3)
    (mk_rt (ipv4 192 168 2 2) (ipv4 192 168 2 2) mask24 (strncpy (eth 1) 32)) (demo_if 1 (ipv4 192 168 2 1))
    0 (demo_expired demo_lost)
    (mk_rt (ipv4 192 168 2 2) (ipv4 192 168 2 2) mask24 (strncpy (eth 1) 32)) (demo_if 1 (ipv4 192 168 2 1))).
  - reflexivity.
  - apply one_request_ok; [discriminate|constructor; [exact demo_lost_ok|constructor]| |simpl; lia].
    constructor; [|constructor]. exists (demo_if 1 (ipv4 192 168 2 1)). split; vm_compute; reflexivity.
  - apply ip_frameb_ok. vm_compute. reflexivity.
  - vm_compute. discriminate.
  - vm_compute. reflexivity.
  - vm_compute. reflexivity.
  - vm_compute. reflexivity.
  - vm_compute. discriminate.
  - vm_compute. reflexivity.
  - vm_compute. reflexivity.
  - vm_compute. reflexivity.
  - vm_compute. reflexivity.
  - vm_compute. discriminate.
  - vm_compute. reflexivity.
  - vm_compute. reflexivity.
  - vm_compute. reflexivity.
  - constructor; [|constructor]. split; [vm_compute; discriminate|].
    exists (mk_rt (ipv4 10 0 1 100) (ipv4 10 0 1 100) mask24 (strncpy (eth 3) 32)),
      (demo_if 3 (ipv4 10 0 1 1)), (mk_arpentry client_mac (ipv4 10 0 1 100) 1000 1).
    split; vm_compute; reflexivity.
  - exists (mk_rt (ipv4 10 0 1 100) (ipv4 10 0 1 100) mask24 (strncpy (eth 3) 32)),
      (demo_if 3 (ipv4 10 0 1 1)), (mk_arpentry client_mac (ipv4 10 0 1 100) 1000 1).
    split; vm_compute; reflexivity.
Defined.
