(* ===== verification/SrSafety.v ===== *)
(** The router as a whole: what holds in every state it can reach, when no
    event can make it fail, and the events that do. *)

From S2P Require Import Prelude Bytes Checksum SrState SrIf SrRt SrDumper SrSend SrArpcache SrArpreq.
From S2P Require Import SrPackets SrArpFacts SrRouter SrRouterFacts SrDemo SrForwardThms SrArpThms.
From S2P Require Import SrThreads SrGiveUp SrOverlap.

(* ------------------------------------------------------------------ *)
(** * Reachable states *)

(** What can happen to a running router: a frame arrives, rounds of the cleanup
    thread coming in before its request is handled, or the cleanup thread makes
    a round. The clock and the socket are whatever the turn and [e] say, and the
    recursion may be as deep as it likes. *)
Inductive router_step : sr_instance -> sr_instance -> Prop :=
  | step_packet t fuel p iface sr sr' :
      frame_ok p -> handlepacket_in t fuel p (blen p) iface sr = Ok (tt, sr') -> router_step sr sr'
  | step_timeout e fuel sr sr' :
      sr_arpcache_timeout e fuel sr = Ok (tt, sr') -> router_step sr sr'.

(** A router that has its interfaces and routing table and an empty cache. *)
Definition router_initial (sr : sr_instance) : Prop :=
  Forall iface_ok (sr_if_list sr) /\ sr_cache sr = sr_arpcache_init.

Lemma initial_ok sr : router_initial sr -> router_ok sr.
Proof.
  intros [Hio Hc]. split; [done|]. split; [done|done|rewrite Hc; apply arpcache_init_ok|].
  intros r q. rewrite Hc. simpl. by rewrite lookup_empty.
Qed.

Lemma step_ok sr sr' :
  router_step sr sr' -> router_ok sr ->
  router_ok sr' /\ sr_if_list sr' = sr_if_list sr /\ sr_routing_table sr' = sr_routing_table sr.
Proof.
  intros Hst [Hio Hs].
  assert (Hl : forall f : fault, (fun _ : fault => True) f) by done.
  assert (Hs' : rinv (sr_if_list sr) (sr_routing_table sr) sr').
  { destruct Hst as [t fuel p iface sr sr' Hp Hrun|e fuel sr sr' Hrun].
    - pose proof (frame_keeps (fun _ => True) t _ _ _ Hio (or_introl Hl) 5 ltac:(lia)
        (fun r s H _ _ => overtaken_inv _ Hl _ _ Hio fuel (tn_during t) (tn_then t) r s H)
        p iface sr Hs (or_introl Hl) Hp) as H. unfold wlp in H. unfold handlepacket_in in Hrun. by rewrite Hrun in H.
    - pose proof (timeout_inv (fun _ => True) e _ _ Hio (or_introl Hl) (fun _ => I) 5 ltac:(lia) fuel sr Hl Hs) as H.
      unfold wlp in H. by rewrite Hrun in H. }
  pose proof (ri_ifs _ _ _ Hs') as E1. pose proof (ri_rts _ _ _ Hs') as E2.
  split; [|by split]. split; by rewrite ?E1, ?E2.
Qed.

(** C7: in every state the router can reach, rounds of the cleanup thread coming
    in anywhere the lock lets them, between queueing a packet and handling its
    request too, the tables are those it started with, the ARP table has its 100
    slots with 6-byte addresses, the queue's nodes are live, distinct and one per
    address, each sent at most five times and with at least one packet of at
    least 34 bytes that carries the address of the interface it waits for. *)
Theorem reachable_router_ok sr sr' :
  router_initial sr -> rtc router_step sr sr' ->
  router_ok sr' /\ sr_if_list sr' = sr_if_list sr /\ sr_routing_table sr' = sr_routing_table sr.
Proof.
  intros Hi%initial_ok Hr. induction Hr as [|s1 s2 s3 Hst Hr IH]; [done|].
  destruct (step_ok _ _ Hst Hi) as (Hok & E1 & E2). destruct (IH Hok) as (? & ? & ?).
  split; [done|]. split; congruence.
Qed.

(** C8: over a table that routes every address to an existing interface, and
    while no request can use up its five transmissions in the rounds of the
    cleanup thread that come in, handling any frame runs to its end, given an
    allocator whose block for the six bytes of the broadcast address has room
    for the eight that are stored there: no null or freed pointer is followed, no
    buffer overrun, and the nesting of request handling is at most one deep. With
    any other allocator an overrun is still all that can happen. *)
Theorem handlepacket_safe t fuel sr p iface :
  router_ok sr -> routes_total (sr_if_list sr) (sr_routing_table sr) ->
  Z.of_nat (length (tn_during t)) < 5 -> tries_below (5 - Z.of_nat (length (tn_during t))) (sr_cache sr) ->
  frame_ok p -> (0 < fuel)%nat ->
  let run := handlepacket_in t fuel p (blen p) iface sr in
  (Forall roomy (tn_then t :: tn_during t) -> exists sr', run = Ok (tt, sr') /\ router_ok sr')
  /\ (forall f, run = Err f -> f = OutOfBounds /\ Exists (fun e => ~ roomy e) (tn_then t :: tn_during t)).
Proof.
  intros [Hio Hs] Htot Hn Hb Hp Hf run. destruct fuel as [|fuel]; [lia|]. set (n := Z.of_nat (length (tn_during t))) in *.
  set (moments := tn_then t :: tn_during t). set (F := fun f => f = OutOfBounds /\ Exists (fun e => ~ roomy e) moments).
  assert (Hroom : Forall (fun e => ~ roomy e -> F OutOfBounds) moments).
  { apply Forall_forall. intros e He Hr. split; [done|]. apply Exists_exists. by exists e. }
  assert (Hk : forall r s, rinv (sr_if_list sr) (sr_routing_table sr) s -> calm F (5 - n) s -> r ∈ ac_requests (sr_cache s) ->
    wlp F (overtaken (S fuel) (tn_during t) (tn_then t) r) (fun _ s' => rinv (sr_if_list sr) (sr_routing_table sr) s') s).
  { intros r s Hs0 [Hl|Hb0] Hr; [destruct (Hl NullDeref) as [[=] _]|]. by apply overtaken_keeps. }
  pose proof (frame_keeps F t _ _ _ Hio (or_intror Htot) (5 - n) ltac:(lia) Hk p iface sr Hs (or_intror Hb) Hp) as H.
  unfold wlp in H. fold (handlepacket_in t (S fuel) p (blen p) iface) in H. change (handlepacket_in t (S fuel) p (blen p) iface sr) with run in H.
  destruct run as [[[] sr']|f] eqn:E; (split; [intros Hall|intros f' [= <-]]); try done.
  - exists sr'. split; [done|]. by eapply step_ok; [by eapply step_packet|].
  - destruct H as [_ Hex]. exfalso. apply Exists_not_Forall in Hex. by apply Hex.
Qed.

Lemma demo_initial : router_initial (demo_sr sr_arpcache_init).
Proof. split; [exact demo_ifs_ok|reflexivity]. Qed.

Definition demo_run1 : sr_instance :=
  match sr_handlepacket demo_env 1 demo_arp_req (blen demo_arp_req) (eth 3) (demo_sr sr_arpcache_init) with
  | Ok (_, s) => s | Err _ => demo_sr sr_arpcache_init end.

Lemma reachable_router_ok_witness :
  router_ok demo_run1 /\ sr_if_list demo_run1 = demo_ifs /\ sr_routing_table demo_run1 = demo_rt.
Proof.
  apply (reachable_router_ok (demo_sr sr_arpcache_init) demo_run1 demo_initial).
  apply rtc_once, (step_packet (still demo_env) 1 demo_arp_req (eth 3)).
  - split; [apply wf_bytesb; vm_compute; reflexivity|vm_compute; discriminate].
  - rewrite handlepacket_still. unfold demo_run1.
    destruct (sr_handlepacket demo_env 1 demo_arp_req (blen demo_arp_req) (eth 3) (demo_sr sr_arpcache_init))
      as [[[] s]|f] eqn:E; [reflexivity|exfalso; vm_compute in E; discriminate E].
Defined.

Lemma handlepacket_safe_witness :
  exists sr', handlepacket_in raced 1 demo_echo (blen demo_echo) (eth 3) half_sr = Ok (tt, sr') /\ router_ok sr'.
Proof.
  refine (proj1 (handlepacket_safe raced 1 half_sr demo_echo (eth 3) half_sr_ok half_rt_total _ _ _ _) _).
  - simpl. lia.
  - intros r q. change (ac_heap (sr_cache half_sr)) with ({[0%nat := mk_arpreq (ipv4 192 168 2 2) 1000 1 [demo_lost]]} : gmap nat sr_arpreq).
    rewrite lookup_singleton_Some. intros [_ <-]. vm_compute. reflexivity.
  - split; [apply wf_bytesb; vm_compute; reflexivity|vm_compute; discriminate].
  - lia.
  - repeat constructor; exact demo_env_roomy.
Defined.

(* ------------------------------------------------------------------ *)
(** * Where the handler does not end well *)

(** C39: an IP packet that passes the header checks and calls for an ICMP
    error (a TCP or UDP packet to the router, or one whose TTL ran out) from a
    source no route leads back to makes the router follow a null pointer: the
    route is used before it is tested. *)
Theorem unroutable_source_crashes e fuel sr p iface :
  ip_frame p -> 42 <= blen p ->
  sr_findLPMentry (sr_routing_table sr) (get32 p 26) = None ->
  (exists own, find_own_ip (sr_if_list sr) (get32 p 30) = Some own
     /\ (get8 p 23 = ip_protocol_tcp \/ get8 p 23 = ip_protocol_udp))
  \/ (find_own_ip (sr_if_list sr) (get32 p 30) = None
     /\ is_Some (sr_findLPMentry (sr_routing_table sr) (get32 p 30)) /\ get8 p 22 = 1) ->
  sr_handlepacket e fuel p (blen p) iface sr = Err NullDeref.
Proof.
  intros Hp H42 Hnone Hwhy. pose proof Hp as [[Wp Hmax] Hsz _ _ _ _].
  assert (L : (42 <= length p)%nat) by (unfold blen in H42; lia).
  assert (Herr : forall type code,
    wlp (fun f => f = NullDeref) (send_icmp_error e (sr_arpcache_handle_arpreq e fuel) icmp_error_len p type code) (fun _ _ => False) sr).
  { intros type code. unfold send_icmp_error, find_route. change (ip_at + Ip.src)%nat with 26%nat.
    wstep. apply wlp_rd32; [lia|]. wstep. wstep. rewrite Hnone. wstep. by wstep. }
  assert (H : wlp (fun f => f = NullDeref) (sr_handlepacket e fuel p (blen p) iface) (fun _ _ => False) sr).
  { apply wlp_handle_ip; [done|].
    assert (Hg : (blen p - 34 + Z.of_nat Ip.size <? Z.of_nat ICMP_DATA_SIZE) = false).
    { apply Z.ltb_ge. change (Z.of_nat Ip.size) with 20. change (Z.of_nat ICMP_DATA_SIZE) with 28. lia. }
    destruct Hwhy as [(own & -> & Hpr)|(-> & [rt ->] & ->)].
    - destruct (Z.eqb_spec (get8 p 23) ip_protocol_icmp) as [He|_]; [rewrite He in Hpr; by destruct Hpr|].
      rewrite (proj2 (orb_true_iff _ _)) by (rewrite !Z.eqb_eq; done).
      unfold handle_tcp_udp. rewrite Hg. apply Herr.
    - rewrite Z.eqb_refl. unfold handle_ttl_expired. rewrite Hg. apply Herr. }
  unfold wlp in H. destruct (sr_handlepacket _ _ _ _ _ _) as [[? ?]|f]; [done|by subst].
Qed.

Lemma unroutable_source_crashes_witness :
  sr_handlepacket demo_env 1 (mk_ip_frame [9; 0; 1; 100] [10; 0; 1; 1] 6 64 (zeros 8)) 42 (eth 3)
    (demo_sr (demo_cache true)) = Err NullDeref.
Proof.
  apply (unroutable_source_crashes demo_env 1 (demo_sr (demo_cache true))
    (mk_ip_frame [9; 0; 1; 100] [10; 0; 1; 1] 6 64 (zeros 8)) (eth 3)).
  - apply ip_frameb_ok. vm_compute. reflexivity.
  - vm_compute. discriminate.
  - vm_compute. reflexivity.
  - left. exists (demo_if 3 (ipv4 10 0 1 1)). split; [vm_compute; reflexivity|left; vm_compute; reflexivity].
Defined.

(** What keeps the errors about a request coming back to it: it is due to be
    given up, the route to the address it asks for leaves by [i0], no address
    of the cache belongs to its gateway, and every packet that waits for it
    comes from behind that same gateway. *)
Record looping (e : env) (r : nat) (i0 : sr_if) (gw : Z) (sr : sr_instance) : Prop := {
  lo_ok : router_ok sr;
  lo_uncached : sr_arpcache_lookup (sr_cache sr) gw = None;
  lo_route : exists rt0, sr_findLPMentry (sr_routing_table sr) gw = Some rt0
    /\ find_interface (sr_if_list sr) (rt_interface rt0) = Some i0;
  lo_self : exists rt i, sr_findLPMentry (sr_routing_table sr) (if_ip i0) = Some rt
    /\ find_interface (sr_if_list sr) (rt_interface rt) = Some i /\ rt_gw rt = gw;
  lo_req : exists q, ac_heap (sr_cache sr) !! r = Some q /\ aq_ip q = gw
    /\ 5 <= aq_times_sent q /\ 1 < env_time e - aq_sent q
    /\ Forall (fun p => 42 <= blen (pk_buf p)
         /\ exists rt i, sr_findLPMentry (sr_routing_table sr) (get32 (pk_buf p) 26) = Some rt
           /\ find_interface (sr_if_list sr) (rt_interface rt) = Some i /\ rt_gw rt = gw) (aq_packets q);
}.

Lemma looping_fuel e r i0 gw fuel sr :
  looping e r i0 gw sr ->
  wlp (fun f => f = OutOfFuel) (sr_arpcache_handle_arpreq e fuel r) (fun _ _ => False) sr.
Proof.
  revert sr. induction fuel as [|fuel IH]; intros sr Hlo; simpl; [by wstep|].
  pose proof Hlo as [[Hio Hs] Hun (rt0 & Hrt0 & Hi0) (rts & ifs & Hself & Hisf & Hgs) (q & Hq & Hip & Hts & Ht & Hpk)].
  wstep. apply wlp_load_cur. rewrite Hq. destruct (Z.ltb_spec 1 (env_time e - aq_sent q)); [|lia].
  destruct (Z.leb_spec 5 (aq_times_sent q)); [|lia].
  destruct (co_packets _ (ri_cache _ _ _ Hs) _ _ Hq) as [Hne Hok].
  destruct (aq_packets q) as [|p l] eqn:El; [done|].
  apply Forall_cons in Hok as [(_ & Hsz & Wp & _) _]. pose proof Hpk as Hpk0.
  apply Forall_cons in Hpk as [(H42 & rt & i & Hrt & Hi & Hgw) _].
  cbn [mfor]. do 3 wstep. unfold host_unreachable, find_route, sr_get_interface.
  wstep. apply wlp_load_cur. rewrite Hq. do 2 wstep. rewrite Hip, Hrt0. repeat pstep. wstep. rewrite Hi0. repeat pstep.
  change (Eth.size + Ip.src)%nat with 26%nat. apply wlp_rd32; [unfold blen in Hsz; lia|].
  do 2 wstep. rewrite Hrt. repeat pstep. wstep. rewrite Hi. pstep.
  pose proof (find_interface_ok _ _ _ Hio Hi0) as [_ Hipr].
  apply wlp_icmp_error; try done; [unfold blen in H42; lia|vm_compute; lia|].
  intros b Wb Lb Hie. repeat pstep.
  pose proof (find_interface_ok _ _ _ Hio Hi) as Hiok.
  assert (Hb : 34 <= blen b < 2 ^ 31) by (unfold blen; rewrite Lb; vm_compute; split; [discriminate|reflexivity]).
  pose proof (resolve_len b i Hb Hiok) as Hl.
  replace (Z.of_nat icmp_error_len) with (blen b) by (unfold blen; by rewrite Lb).
  apply wlp_resolve_miss; try done; [by rewrite Hgw|apply Hs|].
  intros r' c' Hqd. rewrite Hgw in Hqd.
  assert (Hr' : r' = r /\ ac_heap c' = <[r := add_packet (mk_packet (upd b 6 (if_addr i)) (blen (upd b 6 (if_addr i)))
      (strncpy (rt_interface rt) sr_IFACE_NAMELEN)) q]> (ac_heap (sr_cache sr))).
  { destruct Hqd as [_ [(q' & _ & Hq' & Hip' & _ & _ & Hh)|(Hno & _)]].
    - assert (r' = r) as -> by (eapply (co_ips _ (ri_cache _ _ _ Hs)); [done|done|congruence]).
      simplify_eq. by rewrite Hh.
    - exfalso. eapply Hno; [|done|done]. apply (co_live _ (ri_cache _ _ _ Hs)). eauto. }
  destruct Hr' as [-> Hh]. eapply wlp_mono; [apply IH|done].
  pose proof (io_addr _ Hiok) as [Hal Haw]. unfold blen in Hb.
  assert (Ha : addressed (sr_if_list sr) (mk_packet (upd b 6 (if_addr i)) (blen (upd b 6 (if_addr i)))
      (strncpy (rt_interface rt) sr_IFACE_NAMELEN))).
  { exists i. simpl. rewrite find_interface_strncpy. split; [done|]. apply slice_upd_same; lia. }
  split; simpl.
  - split; [done|]. eapply rinv_queued; [done| |exact Ha|exact Hqd].
    unfold packet_ok, blen; simpl. rewrite Hl. repeat split; try lia; [by apply wf_upd|apply length_strncpy].
  - destruct Hqd as [He _]. unfold sr_arpcache_lookup. by rewrite He.
  - by exists rt0.
  - by exists rts, ifs.
  - eexists. split; [rewrite Hh; apply lookup_insert_eq|]. simpl. repeat split; try done. rewrite El.
    constructor; [|exact Hpk0]. simpl. split; [unfold blen; rewrite Hl, Lb; by vm_compute|].
    exists rts, ifs. rewrite get32_upd_ne by lia. by rewrite (ie_src _ _ _ _ _ Hie).
Qed.

(** C38: when the sources of the packets waiting for a request are themselves
    behind the gateway that cannot be resolved, giving the request up queues
    the error for the same request and handles it again: no bound on the
    nesting is enough. *)
Theorem give_up_never_returns e r i0 gw sr :
  looping e r i0 gw sr -> forall fuel, sr_arpcache_handle_arpreq e fuel r sr = Err OutOfFuel.
Proof.
  intros Hlo fuel. pose proof (looping_fuel e r i0 gw fuel sr Hlo) as H. unfold wlp in H.
  destruct (sr_arpcache_handle_arpreq e fuel r sr) as [[? ?]|f]; [done|by subst].
Qed.

(** An echo reply to a neighbour that stopped answering: it comes from the
    router, whose way back to itself is that neighbour. *)
Definition demo_stale : sr_packet :=
  mk_packet (upd (mk_ip_frame [10; 0; 1; 1] [10; 0; 1; 100] 1 255 (zeros 8)) 6 [0; 0; 0; 0; 0; 3]) 42
    (strncpy (eth 3) 32).
Definition demo_looping : sr_instance :=
  let sr := one_request true (mk_arpreq (ipv4 10 0 1 100) 1000 5 [demo_stale]) in
  set_cache (set_entries (ac_entries sr_arpcache_init) (sr_cache sr)) sr.

Lemma demo_looping_ok : looping demo_env 0 (demo_if 3 (ipv4 10 0 1 1)) (ipv4 10 0 1 100) demo_looping.
Proof.
  assert (Hp : packet_ok demo_stale).
  { split; [vm_compute; reflexivity|]. split; [split; vm_compute; [discriminate|reflexivity]|].
    split; [apply wf_bytesb; vm_compute; reflexivity|vm_compute; reflexivity]. }
  split.
  - assert (H : router_ok (one_request true (mk_arpreq (ipv4 10 0 1 100) 1000 5 [demo_stale]))).
    { apply one_request_ok; [discriminate|constructor; [exact Hp|constructor]| |simpl; lia].
      constructor; [|constructor]. exists (demo_if 3 (ipv4 10 0 1 1)). split; vm_compute; reflexivity. }
    destruct H as [Hio [H1 H2 H3 H4]]. split; [exact Hio|]. split; [reflexivity|reflexivity| |exact H4].
    apply entries_ok; [exact H3| |]; apply arpcache_init_ok.
  - vm_compute. reflexivity.
  - exists (mk_rt (ipv4 10 0 1 100) (ipv4 10 0 1 100) mask24 (strncpy (eth 3) 32)). split; vm_compute; reflexivity.
  - exists (mk_rt (ipv4 10 0 1 100) (ipv4 10 0 1 100) mask24 (strncpy (eth 3) 32)), (demo_if 3 (ipv4 10 0 1 1)).
    split; [|split]; vm_compute; reflexivity.
  - exists (mk_arpreq (ipv4 10 0 1 100) 1000 5 [demo_stale]).
    split; [vm_compute; reflexivity|]. split; [reflexivity|]. split; [vm_compute; discriminate|].
    split; [vm_compute; reflexivity|]. constructor; [|constructor].
    split; [vm_compute; discriminate|].
    exists (mk_rt (ipv4 10 0 1 100) (ipv4 10 0 1 100) mask24 (strncpy (eth 3) 32)), (demo_if 3 (ipv4 10 0 1 1)).
    split; [|split]; vm_compute; reflexivity.
Qed.

Lemma give_up_never_returns_witness :
  sr_arpcache_handle_arpreq demo_env 20 0 demo_looping = Err OutOfFuel.
Proof. apply (give_up_never_returns demo_env 0 _ _ demo_looping demo_looping_ok). Defined.
