(* ===== verification/SrMain.v ===== *)
(** sr_main.c from the command line on: the options, and the program they start. *)

From S2P Require Import Prelude.
From S2P Require Import Bytes.
From S2P Require Import Stdio.
From S2P Require Import SrState.
From S2P Require Import SrRt.
From S2P Require Import SrDumper.
From S2P Require Import SrThreads.
From S2P Require Import SrVns.
From S2P Require Import VnsFacts.
From Stdlib Require Import (notations) String.

(** What the options leave in the variables of [main]. *)
Record command_line := mk_command_line {
  cm_server : bytes;
  cm_port : Z;
  cm_options : options;
}.

Definition DEFAULT_PORT : Z := 8888.
Definition DEFAULT_HOST : bytes := str "vrhost".
Definition DEFAULT_SERVER : bytes := str "localhost".
Definition DEFAULT_RTABLE : bytes := str "rtable".
Definition DEFAULT_TOPO : Z := 0.
Definition default_command_line : command_line :=
  mk_command_line DEFAULT_SERVER DEFAULT_PORT (mk_options DEFAULT_HOST None DEFAULT_RTABLE None DEFAULT_TOPO None).

(** The body of the switch for the option [c] with [optarg]: [None] for [exit(0)]
    after the usage. *)
Definition sr_option {S} (c : Z) (optarg : option bytes) (cl : command_line) : M S (option command_line) :=
  let o := cm_options cl in
  if c =? 104 then mret None
  else if c =? 112 then
    a ← deref optarg; port ← atoi a;
    mret (Some (mk_command_line (cm_server cl) (u32 port) o))
  else if c =? 116 then
    a ← deref optarg; topo ← atoi a;
    mret (Some (mk_command_line (cm_server cl) (cm_port cl)
                  (mk_options (o_host o) (o_user o) (o_rtable o) (o_template o) (u32 topo) (o_logfile o))))
  else if c =? 118 then
    a ← deref optarg;
    mret (Some (mk_command_line (cm_server cl) (cm_port cl)
                  (mk_options a (o_user o) (o_rtable o) (o_template o) (o_topo o) (o_logfile o))))
  else if c =? 117 then
    mret (Some (mk_command_line (cm_server cl) (cm_port cl)
                  (mk_options (o_host o) optarg (o_rtable o) (o_template o) (o_topo o) (o_logfile o))))
  else if c =? 115 then
    a ← deref optarg;
    mret (Some (mk_command_line a (cm_port cl) o))
  else if c =? 108 then
    mret (Some (mk_command_line (cm_server cl) (cm_port cl)
                  (mk_options (o_host o) (o_user o) (o_rtable o) (o_template o) (o_topo o) optarg)))
  else if c =? 114 then
    a ← deref optarg;
    mret (Some (mk_command_line (cm_server cl) (cm_port cl)
                  (mk_options (o_host o) (o_user o) a (o_template o) (o_topo o) (o_logfile o))))
  else if c =? 84 then
    mret (Some (mk_command_line (cm_server cl) (cm_port cl)
                  (mk_options (o_host o) (o_user o) (o_rtable o) optarg (o_topo o) (o_logfile o))))
  else mret (Some cl).

(** [while ((c = getopt(argc, argv, ...)) != EOF)] over what [getopt] returns. *)
Fixpoint sr_options {S} (opts : list (Z * option bytes)) (cl : command_line) : M S (option command_line) :=
  match opts with
  | [] => mret (Some cl)
  | (c, optarg) :: opts' =>
      r ← sr_option c optarg cl;
      match r with
      | None => mret None
      | Some cl => sr_options opts' cl
      end
  end.

(** The lines the usage prints. *)
Definition usage (argv0 : bytes) : bytes :=
  str "Simple Router Client" ++ 10 :: str "Format: " ++ argv0 ++ str " [-h] [-v host] [-s server] [-p port] " ++ 10
  :: str "           [-T template_name] [-u username] " ++ 10 :: str "           [-t topo id] [-r routing table] " ++ 10
  :: str "           [-l log file] " ++ 10 :: str "   defaults server=" ++ DEFAULT_SERVER ++ str " port=" ++ print_d DEFAULT_PORT
  ++ str " host=" ++ DEFAULT_HOST ++ str "  " ++ [10].

Definition SR_OPTSTRING : bytes := str "hs:v:p:u:t:r:l:T:".

Section main.
Context (e : turn) (fopen_w : bytes -> bool) (fuel rfuel : nat) (inet_aton : bytes -> option Z).

(** [main(argc, argv)], [args] being the arguments behind the program's name:
    the exit status. *)
Definition main (pw_name : option bytes) (connected : bytes -> Z -> bool) (ts : list turn) (args : list bytes) : M session Z :=
  cl ← sr_options (fst (getopt SR_OPTSTRING args)) default_command_line;
  match cl with
  | None => mret 0
  | Some cl => sr_main e fopen_w fuel rfuel inet_aton pw_name (connected (cm_server cl) (cm_port cl)) ts (cm_options cl)
  end.
End main.

(* ------------------------------------------------------------------ *)
(** * Command lines *)

(** A command line that asks for given settings. *)
Definition opt_arg (o : Z) (a : option bytes) : list bytes := match a with Some a => [[45; o]; a] | None => [] end.
Definition arguments (cl : command_line) : list bytes :=
  let o := cm_options cl in
  opt_arg 115 (Some (cm_server cl)) ++ opt_arg 112 (Some (print_u (cm_port cl))) ++ opt_arg 118 (Some (o_host o))
  ++ opt_arg 117 (o_user o) ++ opt_arg 114 (Some (o_rtable o)) ++ opt_arg 84 (o_template o)
  ++ opt_arg 116 (Some (print_u (o_topo o))) ++ opt_arg 108 (o_logfile o).

#[local] Arguments atoi : simpl never.
#[local] Arguments print_u : simpl never.

(** Every option but [-h] takes the argument behind it, whatever it holds. *)
Lemma getopt_opt_arg o a rest :
  o ∈ str "svpurTtl" ->
  getopt SR_OPTSTRING (opt_arg o a ++ rest) =
  let '(r, ops) := getopt SR_OPTSTRING rest in (match a with Some a => [(o, Some a)] | None => [] end ++ r, ops).
Proof.
  intros Ho. change (str "svpurTtl") with [115; 118; 112; 117; 114; 84; 116; 108] in Ho.
  destruct a as [a|]; [|cbn [opt_arg app]; by destruct (getopt SR_OPTSTRING rest)].
  cbn [opt_arg app]. rewrite !elem_of_cons in Ho.
  destruct Ho as [->|[->|[->|[->|[->|[->|[->|[->|H]]]]]]]]; try (by apply getopt_arg). by apply elem_of_nil in H.
Qed.

Lemma sr_options_cons {S} c a opts cl cl' (st : S) :
  sr_option c a cl st = Ok (Some cl', st) -> sr_options ((c, a) :: opts) cl st = sr_options opts cl' st.
Proof. intros H. cbn [sr_options]. by rewrite (bind_ok _ _ _ _ _ H). Qed.

Lemma sr_option_port {S} n cl (st : S) : 0 <= n < 2 ^ 31 ->
  sr_option 112 (Some (print_u n)) cl st = Ok (Some (mk_command_line (cm_server cl) (u32 n) (cm_options cl)), st).
Proof. intros Hn. unfold sr_option; cbn; unfold mbind, M_bind; cbn; by rewrite atoi_print. Qed.
Lemma sr_option_topo {S} n server port h u r t x l (st : S) : 0 <= n < 2 ^ 31 ->
  sr_option 116 (Some (print_u n)) (mk_command_line server port (mk_options h u r t x l)) st
  = Ok (Some (mk_command_line server port (mk_options h u r t (u32 n) l)), st).
Proof. intros Hn. unfold sr_option; cbn; unfold mbind, M_bind; cbn; by rewrite atoi_print. Qed.

Ltac option_step :=
  lazymatch goal with
  | |- sr_options ((112, _) :: _) _ _ = _ => erewrite sr_options_cons; [|by apply sr_option_port]
  | |- sr_options ((116, _) :: _) _ _ = _ => erewrite sr_options_cons; [|by apply sr_option_topo]
  | |- sr_options (_ :: _) _ _ = _ => erewrite sr_options_cons; [|reflexivity]
  end; cbn [cm_options cm_server cm_port o_user o_template o_logfile o_topo o_host o_rtable].

(** A command line is understood: the settings it asks for are those [main] goes
    on with, those it does not mention being the defaults. *)
Theorem command_line_understood {S} cl (st : S) :
  0 <= cm_port cl < 2 ^ 31 -> 0 <= o_topo (cm_options cl) < 2 ^ 31 ->
  sr_options (fst (getopt SR_OPTSTRING (arguments cl))) default_command_line st = Ok (Some cl, st).
Proof.
  intros Hp Ht. unfold arguments. rewrite <- (app_nil_r (opt_arg 108 _)), !getopt_opt_arg by (vm_compute; set_solver).
  destruct cl as [server port [host user rtable template topo logfile]]. cbn in Hp, Ht.
  cbn [getopt fst cm_options cm_server cm_port o_user o_template o_logfile o_topo o_host o_rtable].
  unfold default_command_line. destruct user, template, logfile; cbn [app]; repeat option_step; cbn [sr_options]; by rewrite ?u32_small by lia.
Qed.
