(* ===== verification/VnsThms.v ===== *)
(** The session with the VNS server: authentication with SHA-1, the interfaces
    the server describes, the main loop over any arrival of its bytes, and what
    happens when the bytes are wrong or stop. *)

From S2P Require Import Prelude.
From S2P Require Import Bytes.
From S2P Require Import VnsCommand.
From S2P Require Import SrState.
From S2P Require Import SrIf.
From S2P Require Import SrRt.
From S2P Require Import SrSend.
From S2P Require Import SrRouter.
From S2P Require Import SrThreads.
From S2P Require Import Sha1.
From S2P Require Import Sha1Spec.
From S2P Require Import Sha1Facts.
From S2P Require Import SrVns.
From S2P Require Import VnsFacts.
From S2P Require Import SrDemo.
From Stdlib Require Import (notations) String.

(* ------------------------------------------------------------------ *)
(** * SHA-1 *)

(** Pieces of a message, each the first [n] bytes of an array. *)
Definition piece : Type := bytes * nat.
Definition piece_ok (p : piece) : Prop := wf_bytes (fst p) /\ (snd p <= length (fst p))%nat.
Definition pieces_message (ps : list piece) : bytes := mjoin ((fun p : piece => take (snd p) (fst p)) <$> ps).

(** The use sha1.c documents. *)
Definition sha1_of (ps : list piece) : M SHA1Context Z :=
  _ ← SHA1Reset;
  _ ← mfor ps (fun p => SHA1Input (fst p) (snd p));
  SHA1Result.

Lemma wlp_inputs F ps m c :
  Forall piece_ok ps -> absorbed m c -> 8 * blen (m ++ pieces_message ps) < 2 ^ 64 ->
  wlp F (mfor ps (fun p => SHA1Input (fst p) (snd p))) (fun _ c' => absorbed (m ++ pieces_message ps) c') c.
Proof.
  intros Hok. revert m c. induction Hok as [|[arr n] ps [Hw Hn] Hok IH]; intros m c Hc Hl; cbn [mfor].
  - wgo. unfold pieces_message. cbn. by rewrite app_nil_r.
  - change (pieces_message ((arr, n) :: ps)) with (take n arr ++ pieces_message ps) in *. cbn [fst snd] in *.
    assert (Hlen : 8 * (blen m + Z.of_nat n) < 2 ^ 64).
    { unfold blen in *. rewrite !length_app, length_take in Hl. lia. }
    wgo. eapply wlp_mono; [apply (wlp_Input _ arr n m c); done|]. intros [] c' Hc'. rewrite app_assoc in *. by apply IH.
Qed.

(** C13: the hash code computes SHA-1 as FIPS 180 defines it: however a message
    of fewer than 2^61 bytes is cut into inputs, and whatever the context held,
    reset, the inputs and the result end, the result is success and the digest
    the five words of the standard's definition; a second request for the
    result changes nothing. *)
Theorem sha1_correct ps c :
  length (Message_Block c) = 64%nat -> wf_bytes (Message_Block c) ->
  Forall piece_ok ps -> 8 * blen (pieces_message ps) < 2 ^ 64 ->
  exists c', sha1_of ps c = Ok (1, c')
    /\ Message_Digest c' = fips_sha1 (pieces_message ps)
    /\ SHA1Result c' = Ok (1, c').
Proof.
  intros Hb Hw Hok Hl.
  assert (H : wlp (fun _ => False) (sha1_of ps)
    (fun r c' => r = 1 /\ Message_Digest c' = fips_sha1 (pieces_message ps) /\ SHA1Result c' = Ok (1, c')) c).
  { unfold sha1_of. wgo. apply wlp_Reset; [done|done|]. intros c1 H1. wgo.
    eapply wlp_mono; [apply (wlp_inputs _ ps [] c1); done|]. cbn [app]. intros [] c2 H2.
    eapply wlp_Result; [exact H2|]. intros c3 Hd Hcom Hcor. split; [done|]. split; [done|].
    unfold SHA1Result, mbind, M_bind, get. rewrite Hcor, Hcom. done. }
  apply wlp_total in H as (r & c' & Hr & -> & H). by exists c'.
Qed.

(** "abc" in two pieces: the first example of the standard. *)
Lemma sha1_correct_witness :
  exists c', sha1_of [([97; 98; 0], 2%nat); ([99], 1%nat)] (mk_sha1 [] 7 0 (zeros 64) 3 true true) = Ok (1, c')
    /\ Message_Digest c' = fips_sha1 [97; 98; 99]
    /\ SHA1Result c' = Ok (1, c').
Proof.
  apply (sha1_correct [([97; 98; 0], 2%nat); ([99], 1%nat)] (mk_sha1 [] 7 0 (zeros 64) 3 true true)).
  - reflexivity.
  - apply wf_zeros.
  - repeat constructor; cbn; lia.
  - vm_compute. reflexivity.
Defined.

Example sha1_abc : fips_sha1 [97; 98; 99] = [0xa9993e36; 0x4706816a; 0xba3e2571; 0x7850c26c; 0x9cd0d89d].
Proof. vm_compute. reflexivity. Qed.

(* ------------------------------------------------------------------ *)
(** * Opening the session *)

(** Connecting answers the server's salt with the user's name and the
    SHA-1 hash of salt and key, in whatever pieces, with whatever signals
    between, the server's bytes arrive; when the server accepts, the request
    for the topology follows and the call succeeds, when it does not, nothing
    follows and the call fails. *)
Theorem vns_connect_authenticates (e : turn) w fuel rfuel salt key more ok msg rest s :
  pending (ss_stream s) = vns_message VNS_AUTH_REQUEST salt ++ vns_message VNS_AUTH_STATUS (ok :: msg) ++ rest ->
  (length (ss_stream s) < rfuel)%nat -> (forall b, env_write e b = blen b) ->
  ss_files s !! auth_key_file = Some (key ++ more) -> length key = AUTH_KEY_LEN -> Forall (fun c => c <> 10) key ->
  wf_bytes salt -> wf_bytes key -> 8 + blen salt <= 10000 -> 9 + blen msg <= 10000 ->
  strlen (sr_template (ss_sr s)) = 0%nat ->
  exists l sr, pending l = rest
    /\ sr_connect_to_server e w fuel rfuel true s = Ok (if nz ok then 0 else -1, mk_session sr l (ss_files s))
    /\ sr = fold_left (fun sr m => add_wire m sr)
              (auth_reply_to (user_string (ss_sr s)) salt key :: if nz ok then [open_command (ss_sr s)] else []) (ss_sr s).
Proof.
  intros Hp Hf Hw Hk Hkl Hk10 Hwf Hwk Hsl Hml Ht.
  assert (H : wlp (fun _ => False) (sr_connect_to_server e w fuel rfuel true)
    (fun r s' => exists l sr, pending l = rest /\ (r, s') = (if nz ok then 0 else -1, mk_session sr l (ss_files s))
      /\ sr = fold_left (fun sr m => add_wire m sr)
           (auth_reply_to (user_string (ss_sr s)) salt key :: if nz ok then [open_command (ss_sr s)] else []) (ss_sr s)) s).
  { eapply wlp_connect; try done. intros l Hl _. cbv zeta. destruct (nz ok); by eexists l, _. }
  apply wlp_total in H as (r & s' & Hr & l & sr & Hl & [= -> ->] & Hs). exists l, sr. by rewrite Hr.
Qed.

(** The server's side of a session, in pieces of three bytes with a signal between. *)
Fixpoint in_threes (fuel : nat) (b : bytes) : list arrival :=
  match fuel, b with
  | S fuel', _ :: _ => Chunk (take 3 b) :: Interrupted :: in_threes fuel' (drop 3 b)
  | _, _ => []
  end.
Definition demo_stream (b : bytes) : list arrival := in_threes (length b) b.
Definition demo_key : bytes := replicate 64 65.
Definition demo_session (sr : sr_instance) (b : bytes) : session :=
  mk_session sr (demo_stream b) {[ auth_key_file := demo_key ++ [10] ]}.

Definition demo_auth : bytes := vns_message VNS_AUTH_REQUEST [1; 2; 3; 4] ++ vns_message VNS_AUTH_STATUS [1; 79; 75] ++ [5].

Lemma vns_connect_authenticates_witness :
  exists l sr, pending l = [5]
    /\ sr_connect_to_server (still demo_env) (fun _ => true) 1 100 true (demo_session (demo_sr (demo_cache true)) demo_auth)
       = Ok (0, mk_session sr l {[ auth_key_file := demo_key ++ [10] ]})
    /\ sr = fold_left (fun sr m => add_wire m sr)
              [auth_reply_to [] [1; 2; 3; 4] demo_key; open_command (demo_sr (demo_cache true))] (demo_sr (demo_cache true)).
Proof.
  apply (vns_connect_authenticates (still demo_env) (fun _ => true) 1 100 [1; 2; 3; 4] demo_key [10] 1 [79; 75] [5]
    (demo_session (demo_sr (demo_cache true)) demo_auth)).
  - vm_compute. reflexivity.
  - apply Nat.ltb_lt. vm_compute. reflexivity.
  - reflexivity.
  - reflexivity.
  - reflexivity.
  - apply Forall_replicate. discriminate.
  - repeat constructor; discriminate.
  - apply Forall_replicate. split; [discriminate|reflexivity].
  - vm_compute. discriminate.
  - vm_compute. discriminate.
  - reflexivity.
Defined.

(* ------------------------------------------------------------------ *)
(** * The messages the client sends *)

(** A message says how long it is and what it is. *)
Definition announces (m : bytes) (type : Z) : Prop :=
  field c_base "mLen" m = le32 (htonl (blen m)) /\ field c_base "mType" m = le32 (htonl type).

Lemma announces_app m n type rest :
  m = mjoin [le32 (htonl n); le32 (htonl type)] ++ rest -> blen m = n -> announces m type.
Proof.
  intros Hm Hl. assert (H : laid_out c_base [le32 (htonl n); le32 (htonl type)]) by by repeat constructor.
  assert (Hnd : NoDup c_base.*1) by (apply fields_distinct; apply list_elem_of_here).
  unfold announces. rewrite Hl, Hm. split; [by apply (field_value _ _ _ _ _ 0)|by apply (field_value _ _ _ _ _ 1)].
Qed.

Ltac lays := repeat (apply laid_out_cons; [first [apply length_strncpy|apply length_zeros|reflexivity]|]); apply laid_out_nil.
Ltac lay n := eapply (field_value _ _ _ _ _ n);
  [lays|apply fields_distinct; repeat (apply list_elem_of_here || apply list_elem_of_further)|reflexivity|reflexivity].

(** Every message the client sends is the struct of vnscommand.h that its type
    names: its length field is its length, its fields are at their offsets, and
    behind the struct there is what belongs there. *)
Theorem client_messages_laid_out sr digest iface frame :
  length digest = 5%nat ->
  let o := open_command sr in
  let t := open_template sr in
  let a := auth_reply (user_string sr) digest in
  let p := vns_packet (blen frame + c_packet_header_size) iface frame in
  (announces o VNSOPEN /\ blen o = Z.of_nat (sizeof c_open) /\ field c_open "topoID" o = le16 (htons (sr_topo_id sr))
   /\ field c_open "mVirtualHostID" o = strncpy (sr_host sr) IDSIZE /\ field c_open "mUID" o = strncpy (sr_user sr) IDSIZE)
  /\ (announces t VNS_OPEN_TEMPLATE /\ blen t = Z.of_nat (sizeof c_open_template)
      /\ field c_open_template "templateName" t = strncpy (sr_template sr) 30
      /\ field c_open_template "mVirtualHostID" t = strncpy (sr_host sr) IDSIZE)
  /\ (announces a VNS_AUTH_REPLY /\ field c_auth_reply "usernameLen" a = le32 (htonl (blen (user_string sr)))
      /\ drop (sizeof c_auth_reply) a = user_string sr ++ mjoin ((fun w => le32 (htonl w)) <$> digest))
  /\ (announces p VNSPACKET /\ field c_packet_header "mInterfaceName" p = strncpy iface 16
      /\ drop (sizeof c_packet_header) p = frame).
Proof.
  intros Hd o t a p.
  set (ov := [le32 (htonl c_open_size); le32 (htonl VNSOPEN); le16 (htons (sr_topo_id sr)); zeros 2;
              strncpy (sr_host sr) IDSIZE; strncpy (sr_user sr) IDSIZE; zeros IDSIZE]).
  set (tv := [le32 (htonl c_open_template_size); le32 (htonl VNS_OPEN_TEMPLATE); strncpy (sr_template sr) 30;
              strncpy (sr_host sr) IDSIZE; []]).
  set (name := user_string sr). set (dg := mjoin ((fun w => le32 (htonl w)) <$> digest)).
  set (av := [le32 (htonl (c_auth_reply_size + blen name + SHA1_LEN)); le32 (htonl VNS_AUTH_REPLY); le32 (htonl (blen name)); []]).
  set (pv := [le32 (htonl (blen frame + c_packet_header_size)); le32 (htonl VNSPACKET); strncpy iface 16]).
  assert (Eo : o = mjoin ov ++ []) by (unfold o, ov, open_command; cbn [mjoin list_join]; by rewrite !app_nil_r).
  assert (Et : t = mjoin tv ++ []) by (unfold t, tv, open_template; cbn [mjoin list_join]; by rewrite !app_nil_r).
  assert (Ea : a = mjoin av ++ (name ++ dg)) by (unfold a, av, auth_reply; cbn [mjoin list_join]; by rewrite <- !app_assoc).
  assert (Ep : p = mjoin pv ++ frame) by (unfold p, pv, vns_packet; cbn [mjoin list_join]; by rewrite <- !app_assoc).
  assert (Hdl : length dg = 20%nat).
  { subst dg. destruct digest as [|w1 [|w2 [|w3 [|w4 [|w5 [|]]]]]]; try discriminate Hd. reflexivity. }
  assert (Lo : blen o = c_open_size).
  { rewrite Eo. unfold blen, ov. cbn [mjoin list_join]. rewrite !length_app, !length_strncpy, !length_zeros. done. }
  assert (Lt : blen t = c_open_template_size).
  { rewrite Et. unfold blen, tv. cbn [mjoin list_join]. rewrite !length_app, !length_strncpy. done. }
  assert (La : blen a = c_auth_reply_size + blen name + SHA1_LEN).
  { rewrite Ea. unfold blen, av. cbn [mjoin list_join]. rewrite !length_app, Hdl. cbn [length le32]. unfold c_auth_reply_size, SHA1_LEN. lia. }
  assert (Lp : blen p = blen frame + c_packet_header_size).
  { rewrite Ep. unfold blen, pv. cbn [mjoin list_join]. rewrite !length_app, length_strncpy. cbn [length le32]. unfold c_packet_header_size. lia. }
  split; [|split; [|split]].
  - split; [eapply announces_app; [exact (eq_refl o)|exact Lo]|]. split; [exact Lo|]. rewrite Eo. split; [lay 2%nat|]. split; [lay 4%nat|lay 5%nat].
  - split; [eapply announces_app; [exact (eq_refl t)|exact Lt]|]. split; [exact Lt|]. rewrite Et. split; [lay 2%nat|lay 3%nat].
  - split; [eapply announces_app; [exact (eq_refl a)|exact La]|]. rewrite Ea. split; [lay 2%nat|]. apply (after_laid_out c_auth_reply). lays.
  - split; [eapply announces_app; [exact (eq_refl p)|exact Lp]|]. rewrite Ep. split; [lay 2%nat|]. apply (after_laid_out c_packet_header). lays.
Qed.

(* ------------------------------------------------------------------ *)
(** * The main loop *)

(** The main loop implements the delivery of the packets in order: from a
    stream that carries packets and then the end of the session, however it is
    cut and interrupted, the loop hands each frame and its interface's name to
    the router once, in order (other hosts' ARP requests dropped, all others
    logged and handled), between the rounds of the cleanup thread, and ends after the closing message with the rest of
    the stream unread; it stops early only where the router itself does. *)
Theorem vns_loop_delivers w fuel rfuel ts ps reason rest s :
  Forall packet_ok ps -> 8 + blen reason <= 10000 ->
  pending (ss_stream s) = mjoin (packet_message <$> ps) ++ vns_message VNSCLOSE reason ++ rest ->
  (length (ss_stream s) < rfuel)%nat ->
  match deliveries fuel ts ps (ss_sr s) with
  | Ok (_, sr') => exists l, pending l = rest /\ serve_loop w fuel rfuel ts s = Ok (tt, mk_session sr' l (ss_files s))
  | Err f => serve_loop w fuel rfuel ts s = Err f
  end.
Proof.
  intros Hok Hr Hp Hf. set (out := deliveries fuel ts ps (ss_sr s)).
  assert (H : wlp (fun f => out = Err f) (serve_loop w fuel rfuel ts)
    (fun _ s' => exists sr' l, out = Ok (tt, sr') /\ pending l = rest /\ s' = mk_session sr' l (ss_files s)) s).
  { eapply wlp_serve_loop; try done. unfold wlp. change (deliveries fuel ts ps (ss_sr s)) with out.
    destruct out as [[[] sr']|f]; [|done]. intros l Hl. by exists sr', l. }
  unfold wlp in H. destruct (serve_loop w fuel rfuel ts s) as [[[] s']|f]; [|by rewrite H].
  destruct H as (sr' & l & -> & Hl & ->). by exists l.
Qed.

(** Two ARP requests, for the router and for another host, and the end. *)
Definition eth3_field : bytes := strncpy (eth 3) 16.
Definition demo_packets : list (bytes * bytes) :=
  [(eth3_field, mk_arp_frame 1 client_mac [10; 0; 1; 100] (zeros 6) [10; 0; 1; 1]);
   (eth3_field, mk_arp_frame 1 client_mac [10; 0; 1; 100] (zeros 6) [10; 0; 1; 7])].
Definition demo_traffic : bytes := mjoin (packet_message <$> demo_packets) ++ vns_message VNSCLOSE (zeros 256) ++ [9].

(** The clock goes on, with a round of the cleanup thread every second. *)
Definition demo_at (k : Z) : env := mk_env (1010 + k) 0 (mk_if [] (zeros 6) 0 0) (fun b => blen b) glibc_usable.
Definition demo_turns : list turn :=
  [mk_turn [demo_at 0] (demo_at 0) [] (demo_at 0);
   mk_turn [demo_at 1; demo_at 2] (demo_at 2) [demo_at 3] (demo_at 3);
   mk_turn [demo_at 4] (demo_at 5) [] (demo_at 5)].

Lemma vns_loop_delivers_witness :
  match deliveries 1 demo_turns demo_packets (demo_sr (demo_cache true)) with
  | Ok (_, sr') =>
      exists l, pending l = [9]
        /\ serve_loop (fun _ => true) 1 1000 demo_turns (demo_session (demo_sr (demo_cache true)) demo_traffic)
           = Ok (tt, mk_session sr' l {[ auth_key_file := demo_key ++ [10] ]})
        /\ length (sr_wire sr') = 1%nat
  | Err _ => False
  end.
Proof.
  pose proof (vns_loop_delivers (fun _ => true) 1 1000 demo_turns demo_packets (zeros 256) [9]
    (demo_session (demo_sr (demo_cache true)) demo_traffic)) as H.
  assert (Hs : ss_sr (demo_session (demo_sr (demo_cache true)) demo_traffic) = demo_sr (demo_cache true)) by reflexivity.
  rewrite Hs in H. clear Hs.
  assert (Hw : match deliveries 1 demo_turns demo_packets (demo_sr (demo_cache true)) with
               | Ok (_, sr') => length (sr_wire sr') = 1%nat | Err _ => False end) by (vm_compute; reflexivity).
  destruct (deliveries 1 demo_turns demo_packets (demo_sr (demo_cache true))) as [[[] sr']|f]; [|exact Hw].
  destruct H as (l & Hl & Hr).
  - repeat constructor; vm_compute; discriminate.
  - vm_compute. discriminate.
  - vm_compute. reflexivity.
  - apply Nat.ltb_lt. vm_compute. reflexivity.
  - exists l. split; [exact Hl|]. split; [exact Hr|exact Hw].
Defined.

(** A hardware message read. *)
Lemma wlp_read_hwinfo F (e : turn) w fuel rfuel hs rest s (Q : Z -> session -> Prop) :
  Forall hw_interface_ok hs -> 8 + blen (hwinfo_body hs) <= 10000 ->
  pending (ss_stream s) = vns_message VNSHWINFO (hwinfo_body hs) ++ rest -> (length (ss_stream s) < rfuel)%nat ->
  (forall l, pending l = rest -> (length l <= length (ss_stream s))%nat ->
     let sr' := set_if_list (sr_if_list (ss_sr s) ++ (interface_of e <$> hs)) (ss_sr s) in
     Q (if sr_verify_routing_table sr' =? 0 then 1 else -1) (mk_session sr' l (ss_files s))) ->
  wlp F (sr_read_from_server e w fuel rfuel) Q s.
Proof.
  intros Hok Hl Hp Hf HQ.
  eapply wlp_read_message; [exact Hp|done|unfold VNSHWINFO; lia|done|by left|]. intros s1 [_ Hle Hs1] Hp1.
  unfold dispatch. do 4 wif. apply wlp_in_sr. apply wlp_sr_handle_hwinfo; [done|done|]. wgo. apply wlp_in_sr. wgo.
  specialize (HQ _ Hp1 Hle). rewrite Hs1. exact HQ.
Qed.

(** What the consistency check says. *)
Lemma verify_ok ifs sr : sr_if_list sr = ifs ->
  (sr_verify_routing_table sr =? 0) = true <->
  ifs <> [] /\ sr_routing_table sr <> [] /\ forall r, r ∈ sr_routing_table sr -> is_Some (find_interface ifs (rt_interface r)).
Proof.
  intros <-. rewrite Z.eqb_eq. unfold sr_verify_routing_table.
  destruct (decide (sr_if_list sr = [])) as [E1|N1]; [rewrite bool_decide_eq_true_2 by done; naive_solver|].
  rewrite bool_decide_eq_false_2 by done. cbn [orb].
  destruct (decide (sr_routing_table sr = [])) as [E2|N2]; [rewrite bool_decide_eq_true_2 by done; naive_solver|].
  rewrite bool_decide_eq_false_2 by done. rewrite count_missing_0, Forall_forall. naive_solver.
Qed.

(** A description of the hardware builds the interface list: each interface
    the message names is appended in the order of the message with the
    addresses that follow its name, keys the router does not know change
    nothing, the rest of the router stays; the session goes on exactly when
    there are interfaces and routes and each route's interface is in the list. *)
Theorem hwinfo_builds_interfaces (e : turn) w fuel rfuel hs rest s :
  Forall hw_interface_ok hs -> 8 + blen (hwinfo_body hs) <= 10000 ->
  pending (ss_stream s) = vns_message VNSHWINFO (hwinfo_body hs) ++ rest -> (length (ss_stream s) < rfuel)%nat ->
  let ifs := sr_if_list (ss_sr s) ++ (interface_of e <$> hs) in
  exists l v, pending l = rest
    /\ sr_read_from_server e w fuel rfuel s = Ok (v, mk_session (set_if_list ifs (ss_sr s)) l (ss_files s))
    /\ (v = 1 \/ v = -1)
    /\ (v = 1 <-> ifs <> [] /\ sr_routing_table (ss_sr s) <> []
                 /\ forall r, r ∈ sr_routing_table (ss_sr s) -> is_Some (find_interface ifs (rt_interface r))).
Proof.
  intros Hok Hl Hp Hf ifs. set (sr' := set_if_list ifs (ss_sr s)).
  assert (H : wlp (fun _ => False) (sr_read_from_server e w fuel rfuel) (fun v s' => exists l, pending l = rest
    /\ s' = mk_session sr' l (ss_files s) /\ v = if sr_verify_routing_table sr' =? 0 then 1 else -1) s).
  { eapply wlp_read_hwinfo; try done. intros l Hpl _. by exists l. }
  apply wlp_total in H as (v & s' & Hr & l & Hpl & -> & Hv). exists l, v. split; [done|]. split; [done|].
  pose proof (verify_ok ifs sr' eq_refl) as Hver. subst v.
  destruct (sr_verify_routing_table sr' =? 0); (split; [auto|]); cbn [sr_routing_table set_if_list sr'] in Hver; naive_solver.
Qed.

(** The hardware of the repository's topology: four interfaces. *)
Definition demo_hw (n ip : Z) : hw_interface :=
  (strncpy (eth n) 32, [HwOther 128 (zeros 32); HwEther [0; 0; 0; 0; 0; n]; HwIp ip]).
Definition demo_hws : list hw_interface :=
  [demo_hw 3 (ipv4 10 0 1 1); demo_hw 4 (ipv4 10 0 2 1); demo_hw 1 (ipv4 192 168 2 1); demo_hw 2 (ipv4 172 64 3 1)].
Definition demo_blank : sr_instance := set_if_list [] (demo_sr (demo_cache true)).
Definition demo_hwinfo : session := demo_session demo_blank (vns_message VNSHWINFO (hwinfo_body demo_hws) ++ [9]).

Lemma hwinfo_builds_interfaces_witness :
  exists l v, pending l = [9]
    /\ sr_read_from_server (still demo_env) (fun _ => true) 1 1000 demo_hwinfo
       = Ok (v, mk_session (set_if_list demo_ifs demo_blank) l {[ auth_key_file := demo_key ++ [10] ]})
    /\ (v = 1 \/ v = -1)
    /\ (v = 1 <-> demo_ifs <> [] /\ demo_rt <> [] /\ forall r, r ∈ demo_rt -> is_Some (find_interface demo_ifs (rt_interface r))).
Proof.
  assert (Hi : sr_if_list (ss_sr demo_hwinfo) ++ (interface_of demo_env <$> demo_hws) = demo_ifs) by (vm_compute; reflexivity).
  rewrite <- Hi. apply (hwinfo_builds_interfaces (still demo_env) (fun _ => true) 1 1000 demo_hws [9] demo_hwinfo).
  - repeat constructor; vm_compute; congruence.
  - vm_compute. discriminate.
  - vm_compute. reflexivity.
  - apply Nat.ltb_lt. vm_compute. reflexivity.
Defined.

(* ------------------------------------------------------------------ *)
(** * Bad and missing bytes *)

(** C40: what the length field of a message leads to: beyond 10000 or negative,
    the call fails and only the field is read; below 8, the code reaches
    outside the block it allocated, before it looks at the command; and when
    the connection is closed within the field, the loop that waits for it never
    ends, whatever the number of rounds. *)
Theorem bad_length_field (e : turn) w fuel rfuel s :
  (forall len rest, pending (ss_stream s) = le32 (htonl len) ++ rest -> (length (ss_stream s) < rfuel)%nat ->
     10000 < len < 2 ^ 32 ->
     exists l, pending l = rest /\ sr_read_from_server e w fuel rfuel s = Ok (-1, set_stream l s))
  /\ (forall len body, pending (ss_stream s) = le32 (htonl len) ++ body -> (length (ss_stream s) < rfuel)%nat ->
     0 <= len < 8 -> len - 4 <= blen body -> sr_read_from_server e w fuel rfuel s = Err OutOfBounds)
  /\ (unbroken (ss_stream s) -> (length (pending (ss_stream s)) < 4)%nat ->
     sr_read_from_server e w fuel rfuel s = Err OutOfFuel).
Proof.
  assert (Hl : forall len, 0 <= len < 2 ^ 32 -> ntohl (get32 (le32 (htonl len)) 0) = len).
  { intros len Hlen. rewrite get32_le32 by apply htonl_range. unfold ntohl. by rewrite htonl_htonl by lia. }
  split; [|split].
  - intros len rest Hp Hf Hlen.
    assert (H : wlp (fun _ => False) (sr_read_from_server e w fuel rfuel)
      (fun r s' => r = -1 /\ exists l, pending l = rest /\ s' = set_stream l s) s).
    { unfold sr_read_from_server, sr_read_from_server_expect. wgo. eapply wlp_read_bytes; [exact Hp|done|done|].
      intros s1 [_ _ Hs1] Hp1. cbn [app]. wgo. rewrite Hl by lia.
      assert (Hb : (10000 <? s32 len) || (s32 len <? 0) = true).
      { apply orb_true_iff. rewrite !Z.ltb_lt. destruct (Z.lt_ge_cases len (2 ^ 31)); [rewrite s32_small; lia|right].
        unfold s32. rewrite <- (Z.mod_unique (len + 2 ^ 31) (2 ^ 32) 1 (len - 2 ^ 31)) by lia. lia. }
      rewrite Hb. wgo. split; [done|]. by exists (ss_stream s1). }
    apply wlp_total in H as (r & s' & Hr & -> & l & Hpl & ->). by exists l.
  - intros len body Hp Hf Hlen Hb.
    assert (H : wlp (fun f => f = OutOfBounds) (sr_read_from_server e w fuel rfuel) (fun _ _ => False) s).
    { unfold sr_read_from_server, sr_read_from_server_expect. wgo. eapply wlp_read_bytes; [exact Hp|done|done|].
      intros s1 [_ Hle _] Hp1. cbn [app]. wgo. rewrite Hl, s32_small by lia.
      rewrite (proj2 (Z.ltb_ge _ _)), (proj2 (Z.ltb_ge _ _)) by lia. cbn [orb]. wgo. unfold wr32.
      destruct (Z.lt_ge_cases len 4).
      { unfold wlp, wrn, check_range, in_range. rewrite length_zeros. cbn [length le32].
        rewrite (proj2 (Nat.leb_gt _ _)) by lia. done. }
      apply wlp_wrn; [rewrite length_zeros; cbn [length le32]; lia|]. wgo.
      eapply (wlp_read_bytes _ _ _ _ (take (Z.to_nat (len - 4)) body) (drop (Z.to_nat (len - 4)) body)).
      { by rewrite take_drop. }
      { rewrite length_take. unfold blen in Hb. simpl. lia. }
      { lia. }
      intros s2 _ _. cbn [app]. wgo. assert (Hn : length (take (Z.to_nat (len - 4)) body) = Z.to_nat (len - 4)).
      { rewrite length_take. unfold blen in Hb. lia. }
      assert (Hu : length (upd (zeros (Z.to_nat len)) 0 (le32 (htonl len))) = Z.to_nat len).
      { rewrite length_upd; rewrite length_zeros; cbn [length le32]; lia. }
      apply wlp_wrn; [rewrite Hu, Hn; lia|]. wgo.
      unfold wlp, rd32, in_range. rewrite length_upd, Hu by (rewrite Hu, Hn; lia).
      rewrite (proj2 (Nat.leb_gt _ _)) by lia. done. }
    unfold wlp in H. destruct (sr_read_from_server e w fuel rfuel s) as [[a s']|f]; [done|by rewrite H].
  - intros Hu Hn. unfold sr_read_from_server, sr_read_from_server_expect.
    by rewrite (bind_err _ _ _ _ (read_bytes_spins rfuel 4 [] s Hu ltac:(simpl; lia))).
Qed.

Lemma bad_length_field_witness :
  (exists l, pending l = [7]
     /\ sr_read_from_server (still demo_env) (fun _ => true) 1 20 (demo_session demo_blank [0; 0; 39; 17; 7])
        = Ok (-1, set_stream l (demo_session demo_blank [0; 0; 39; 17; 7])))
  /\ sr_read_from_server (still demo_env) (fun _ => true) 1 20 (demo_session demo_blank [0; 0; 0; 6; 1; 2]) = Err OutOfBounds
  /\ sr_read_from_server (still demo_env) (fun _ => true) 1 20 (demo_session demo_blank [0; 0; 0]) = Err OutOfFuel.
Proof.
  split; [|split].
  - apply (proj1 (bad_length_field (still demo_env) (fun _ => true) 1 20 (demo_session demo_blank [0; 0; 39; 17; 7])) 10001 [7]);
      [reflexivity|apply Nat.ltb_lt; reflexivity|lia].
  - apply (proj1 (proj2 (bad_length_field (still demo_env) (fun _ => true) 1 20 (demo_session demo_blank [0; 0; 0; 6; 1; 2]))) 6 [1; 2]);
      [reflexivity|apply Nat.ltb_lt; reflexivity|lia|vm_compute; discriminate].
  - apply (proj2 (proj2 (bad_length_field (still demo_env) (fun _ => true) 1 20 (demo_session demo_blank [0; 0; 0]))));
      [exact I|apply Nat.ltb_lt; reflexivity].
Defined.
