(* ===== verification/SrSession.v ===== *)
(** A session of the router program from its command line to its end: what the
    options say, the authentication, the interfaces, the routing table and the
    packets, put together. *)

From S2P Require Import Prelude.
From S2P Require Import Bytes.
From S2P Require Import VnsCommand.
From S2P Require Import Stdio.
From S2P Require Import SrState.
From S2P Require Import SrIf.
From S2P Require Import SrRt.
From S2P Require Import SrPrint.
From S2P Require Import SrDumper.
From S2P Require Import SrArpcache.
From S2P Require Import SrArpreq.
From S2P Require Import SrPackets.
From S2P Require Import SrArpFacts.
From S2P Require Import SrRouter.
From S2P Require Import SrThreads.
From S2P Require Import SrRouterFacts.
From S2P Require Import SrVns.
From S2P Require Import VnsFacts.
From S2P Require Import SrDemo.
From S2P Require Import SrForwardThms.
From S2P Require Import SrArpThms.
From S2P Require Import SrOverlap.
From S2P Require Import SrSafety.
From S2P Require Import SrMain.
From S2P Require Import VnsThms.
From Stdlib Require Import (notations) String.

(* ------------------------------------------------------------------ *)
(** * Delivering packets *)

(** A load changes nothing. *)
Lemma wlp_not_for_us packet len iface sr :
  wlp (fun _ => True) (sr_arp_req_not_for_us packet len iface) (fun _ s' => s' = sr) sr.
Proof.
  assert (L16 : forall b o (k : Z -> M sr_instance bool), (forall v, wlp (fun _ => True) (k v) (fun _ s' => s' = sr) sr) ->
    wlp (fun _ => True) (rd16 b o ≫= k) (fun _ s' => s' = sr) sr).
  { intros b o k Hk. unfold rd16, mbind, M_bind, wlp. destruct (in_range b o 2); [apply Hk|done]. }
  unfold sr_arp_req_not_for_us, sr_get_interface. wgo. destruct (_ <? _); [by wgo|]. destruct (find_interface _ _); [|by wgo].
  apply L16. intros ty. destruct (negb _); [by wgo|]. apply L16. intros op. destruct (negb _); [by wgo|].
  unfold rd32, mbind, M_bind, wlp. by destruct (in_range _ _ 4).
Qed.

Lemma wlp_log e buf len sr :
  wlp (fun _ => True) (sr_log_packet e buf len) (fun _ s' => exists l, s' = set_logfile l sr) sr.
Proof.
  unfold sr_log_packet. wgo. destruct (sr_logfile sr) as [log|] eqn:E; [|wgo; exists (sr_logfile sr); by destruct sr].
  wgo. unfold wlp. destruct (sr_dump _ _ _) as [[rec s']|f]; [|done]. cbn. by eexists.
Qed.

Lemma logfile_ok l sr : router_ok sr -> router_ok (set_logfile l sr).
Proof. intros [H1 [H2 H3 H4 H5]]. split; [done|]. by split. Qed.

(** What the session does with a packet leaves the router consistent and its
    tables as they are. *)
Lemma deliver_ok e fuel p sr sr' :
  packet_ok p -> wf_bytes (snd p) -> router_ok sr -> deliver e fuel p sr = Ok (tt, sr') ->
  router_ok sr' /\ sr_if_list sr' = sr_if_list sr /\ sr_routing_table sr' = sr_routing_table sr.
Proof.
  intros [_ Hl] Hw Hok Hrun.
  assert (H : wlp (fun _ => True) (deliver e fuel p)
    (fun _ sr' => router_ok sr' /\ sr_if_list sr' = sr_if_list sr /\ sr_routing_table sr' = sr_routing_table sr) sr).
  { destruct p as [name frame]. cbn [fst snd] in *. unfold deliver. wgo. eapply wlp_mono; [apply wlp_not_for_us|].
    intros other s1 ->. destruct other; wgo; [by split|]. eapply wlp_mono; [apply wlp_log|]. intros [] s2 [l ->]. wgo.
    unfold wlp. destruct (handlepacket_in _ _ _ _ _ _) as [[[] s3]|f] eqn:E; [|done].
    destruct (step_ok (set_logfile l sr) s3) as (H1 & H2 & H3); [|by apply logfile_ok|by rewrite H2, H3].
    eapply step_packet; [|exact E]. split; [done|]. unfold blen in *. lia. }
  unfold wlp in H. by rewrite Hrun in H.
Qed.

Lemma rounds_ok fuel rounds sr sr' :
  router_ok sr -> cleanup_rounds fuel rounds sr = Ok (tt, sr') ->
  router_ok sr' /\ sr_if_list sr' = sr_if_list sr /\ sr_routing_table sr' = sr_routing_table sr.
Proof.
  intros [Hio Hs] Hrun. pose proof (rounds_inv (fun _ => True) ltac:(done) _ _ Hio fuel rounds sr Hs) as H.
  unfold wlp in H. rewrite Hrun in H. pose proof (ri_ifs _ _ _ H) as E1. pose proof (ri_rts _ _ _ H) as E2.
  split; [|by split]. split; by rewrite ?E1, ?E2.
Qed.

Lemma deliveries_ok fuel ts ps sr sr' :
  Forall packet_ok ps -> Forall (fun p => wf_bytes (snd p)) ps -> router_ok sr -> deliveries fuel ts ps sr = Ok (tt, sr') ->
  router_ok sr' /\ sr_if_list sr' = sr_if_list sr /\ sr_routing_table sr' = sr_routing_table sr.
Proof.
  intros Hp Hw. revert ps sr Hp Hw. induction ts as [|t ts IH]; intros ps sr Hp Hw Hok Hrun; cbn [deliveries] in Hrun; [done|].
  unfold mbind, M_bind in Hrun. destruct (cleanup_rounds fuel (tn_before t) sr) as [[[] s0]|f] eqn:E0; [|done].
  destruct (rounds_ok _ _ _ _ Hok E0) as (H0 & Ei & Er). rewrite <- Ei, <- Er. destruct ps as [|p ps]; [by injection Hrun as <-|].
  apply Forall_cons in Hp as [Hp Hps]. apply Forall_cons in Hw as [Hw Hws].
  destruct (deliver t fuel p s0) as [[[] s1]|f] eqn:E; [|done]. destruct (deliver_ok _ _ _ _ _ Hp Hw H0 E) as (H1 & <- & <-).
  by apply (IH ps s1).
Qed.

(** Rounds change nothing in a cache that is empty. *)
Lemma rounds_idle fuel rounds sr :
  sr_cache sr = sr_arpcache_init -> cleanup_rounds fuel rounds sr = Ok (tt, sr).
Proof.
  intros Hc. assert (H : forall now, expire now (ac_entries sr_arpcache_init) = ac_entries sr_arpcache_init) by done.
  induction rounds as [|e rounds IH]; [done|]. unfold cleanup_rounds in *. cbn [mfor].
  rewrite (bind_ok _ _ sr tt sr); [exact IH|]. unfold sr_arpcache_timeout, sr_arpcache_sweepreqs, mbind, M_bind, modify, get.
  rewrite Hc, H. cbn. destruct sr; cbn in *. by subst.
Qed.

(* ------------------------------------------------------------------ *)
(** * A session *)

(** What the server sends in a session that goes well: a salt, its consent, the
    interfaces, packets, and the end. *)
Record server_side := mk_server_side {
  sv_salt : bytes;
  sv_consent : bytes;
  sv_hardware : list hw_interface;
  sv_packets : list (bytes * bytes);
  sv_reason : bytes;
}.
Definition server_bytes (v : server_side) : bytes :=
  vns_message VNS_AUTH_REQUEST (sv_salt v) ++ vns_message VNS_AUTH_STATUS (1 :: sv_consent v)
  ++ vns_message VNSHWINFO (hwinfo_body (sv_hardware v)) ++ mjoin (packet_message <$> sv_packets v)
  ++ vns_message VNSCLOSE (sv_reason v).

Section session.
Context (e t0 : turn) (ts : list turn) (fopen_w : bytes -> bool) (fuel rfuel : nat) (inet_aton : bytes -> option Z).
Context (pw_name : option bytes) (connected : bytes -> Z -> bool).

(** The messages fit the protocol, the interfaces have proper addresses. *)
Record server_ok (v : server_side) : Prop := {
  so_salt : wf_bytes (sv_salt v) /\ 8 + blen (sv_salt v) <= 10000;
  so_consent : 9 + blen (sv_consent v) <= 10000;
  so_hardware : Forall hw_interface_ok (sv_hardware v) /\ 8 + blen (hwinfo_body (sv_hardware v)) <= 10000;
  so_interfaces : Forall iface_ok (interface_of t0 <$> sv_hardware v) /\ sv_hardware v <> [];
  so_packets : Forall packet_ok (sv_packets v) /\ Forall (fun p => wf_bytes (snd p)) (sv_packets v);
  so_reason : 8 + blen (sv_reason v) <= 10000;
}.

(** The machine of the router: the table [rt] in the file of the command line,
    printed as the program prints it, the key in its file, a log that can be
    written, a server that can be reached, whose bytes arrive somehow. *)
Record machine_ok (cl : command_line) (rt : list sr_rt) (key : bytes) (bytes_of_server : bytes) (s : session) : Prop := {
  mo_table : exists file, ss_files s !! cstr (o_rtable (cm_options cl)) = Some file /\ sr_print_routing_table rt = table_header ++ file;
  mo_rows : rt <> [] /\ Forall row_ok rt;
  mo_key : exists more, ss_files s !! auth_key_file = Some (key ++ more);
  mo_key_ok : length key = AUTH_KEY_LEN /\ Forall (fun c => c <> 10) key /\ wf_bytes key;
  mo_log : forall f, o_logfile (cm_options cl) = Some f -> fopen_w f = true;
  mo_reach : connected (cm_server cl) (cm_port cl) = true;
  mo_template : o_template (cm_options cl) = None;
  mo_numbers : 0 <= cm_port cl < 2 ^ 31 /\ 0 <= o_topo (cm_options cl) < 2 ^ 31;
  mo_arrives : pending (ss_stream s) = bytes_of_server /\ (length (ss_stream s) < rfuel)%nat;
  mo_writes : forall b, env_write e b = blen b;
}.

(** The router once its session is set up. *)
Definition greeted (cl : command_line) (rt : list sr_rt) (key : bytes) (v : server_side) (s : session) : sr_instance :=
  let o := cm_options cl in
  let user := match o_user o with None => sr_set_user pw_name | Some u => strncpy u 32 end in
  let log := match o_logfile o with None => None | Some _ => sr_dump_open true 0 PACKET_DUMP_SIZE end in
  let sr ifs cache wire := mk_sr user (strncpy (o_host o) 32) [0] (u16 (o_topo o)) ifs rt cache log (sr_wire (ss_sr s) ++ wire) in
  sr (interface_of t0 <$> sv_hardware v) sr_arpcache_init
     [auth_reply_to (user_string (sr [] sr_arpcache_init [])) (sv_salt v) key; open_command (sr [] sr_arpcache_init [])].

Context (aton_ntoa : forall a, 0 <= a < 2 ^ 32 -> inet_aton (inet_ntoa a) = Some a).

Lemma wlp_load_table F rt name file s (Q : bool -> session -> Prop) :
  ss_files s !! cstr name = Some file -> sr_print_routing_table rt = table_header ++ file -> rt <> [] -> Forall row_ok rt ->
  Q true (set_sr (set_routing_table rt (ss_sr s)) s) -> wlp F (sr_load_rt_wrap inet_aton name) Q s.
Proof.
  intros Hf Hp Hne Hrt HQ. unfold sr_load_rt_wrap. wgo. rewrite Hf. apply wlp_in_sr.
  destruct (routing_table_roundtrip inet_aton aton_ntoa rt (ss_sr s) Hne Hrt) as (file' & Hp' & Hl).
  rewrite Hp in Hp'. apply app_inv_head in Hp' as <-. unfold wlp. rewrite Hl. exact HQ.
Qed.

Lemma greeted_wire cl rt key v s :
  let o := cm_options cl in
  let user := match o_user o with None => sr_set_user pw_name | Some u => strncpy u 32 end in
  let log := match o_logfile o with None => None | Some _ => sr_dump_open true 0 PACKET_DUMP_SIZE end in
  let sr0 := set_logfile log (mk_sr user (strncpy (o_host o) 32) [0] (u16 (o_topo o)) [] rt (sr_cache (ss_sr s)) None (sr_wire (ss_sr s))) in
  set_if_list ([] ++ (interface_of t0 <$> sv_hardware v)) (set_cache sr_arpcache_init (set_routing_table rt
    (add_wire (open_command sr0) (add_wire (auth_reply_to (user_string sr0) (sv_salt v) key) sr0)))) = greeted cl rt key v s.
Proof.
  assert (H : forall user host topo ifs rt c c' log w m m', set_if_list ([] ++ ifs) (set_cache c' (set_routing_table rt
    (add_wire m' (add_wire m (set_logfile log (mk_sr user host [0] topo [] rt c None w))))))
    = mk_sr user host [0] topo ifs rt c' log (w ++ [m; m'])).
  { intros. unfold set_if_list, set_cache, set_routing_table, add_wire, set_logfile. cbn. by rewrite <- app_assoc. }
  cbv zeta. rewrite H. reflexivity.
Qed.

Ltac fields := cbn [set_sr ss_sr ss_files ss_stream set_routing_table set_logfile set_cache set_if_list add_wire sr_user sr_host sr_template
  sr_topo_id sr_if_list sr_routing_table sr_cache sr_logfile sr_wire fst snd].

(** From the command line to the end of the session, packets included. *)
Lemma wlp_main F cl rt key v rest s (Q : Z -> session -> Prop) :
  machine_ok cl rt key (server_bytes v ++ rest) s -> server_ok v ->
  (forall r, r ∈ rt -> is_Some (find_interface (interface_of t0 <$> sv_hardware v) (rt_interface r))) ->
  wlp F (deliveries fuel ts (sv_packets v)) (fun _ sr => forall l, pending l = rest -> Q 0 (mk_session sr l (ss_files s)))
    (greeted cl rt key v s) ->
  wlp F (main e fopen_w fuel rfuel inet_aton pw_name connected (t0 :: ts) (arguments cl)) Q s.
Proof.
  intros [[file [Hfile Hprint]] [Hne Hrows] [more Hkey] (Hkl & Hk10 & Hkw) Hlog Hreach Htemp [Hport Htopo] [Hp Hf] Hw]
    [[Hsw Hsl] Hcl [Hhw Hhl] [Hio Hhn] [Hps Hpw] Hrl] Hifs HQ.
  unfold main. apply wlp_bind. apply (wlp_eq _ _ (mret (Some cl))); [by apply command_line_understood|]. wgo. unfold sr_main. rewrite Hreach, Htemp.
  unfold sr_init_instance. wgo. apply wlp_in_sr. wgo. apply wlp_in_sr. wgo. eapply wlp_load_table; [exact Hfile|exact Hprint|done|done|]. wif.
  fields. apply wlp_in_sr. wgo. fields.
  set (user := match o_user (cm_options cl) with None => _ | Some u => _ end).
  set (log := match o_logfile (cm_options cl) with None => None | Some _ => sr_dump_open true 0 PACKET_DUMP_SIZE end).
  unfold set_sr. fields.
  match goal with |- wlp _ _ _ ?st => set (s1 := st) end.
  eapply (wlp_mono _ _ (fun r s2 => r = true /\ s2 = set_sr (set_logfile log (ss_sr s1)) s1)).
  { subst log. destruct (o_logfile (cm_options cl)) as [f|] eqn:El; [rewrite (Hlog f eq_refl); wgo; apply wlp_in_sr; wgo; done|by wgo]. }
  intros opened s2 [-> ->]. wif. subst s1. unfold set_sr. fields.
  wgo. eapply wlp_connect; fields; [|exact Hf|exact Hw|exact Hkey|exact Hkl|exact Hk10|exact Hsw|exact Hkw|exact Hsl|exact Hcl|done|].
  { unfold server_bytes in Hp. rewrite <- !app_assoc in Hp. exact Hp. }
  intros l Hl Hll. cbv zeta. change (nz 1) with true. cbv iota. wif. fields.
  eapply wlp_load_table; [exact Hfile|exact Hprint|done|done|]. wif. apply wlp_in_sr. unfold sr_init. wgo. unfold set_sr. fields.
  cbn [serve_loop]. wgo. apply wlp_in_sr. apply (wlp_eq _ _ (mret tt)); [by apply rounds_idle|]. wgo. unfold set_sr. fields. eapply wlp_read_hwinfo; fields; [exact Hhw|exact Hhl|exact Hl|lia|].
  intros l' Hl' Hll'. cbv zeta.
  match goal with |- context [sr_verify_routing_table ?x] => rewrite (proj2 (verify_ok (interface_of t0 <$> sv_hardware v) x eq_refl)) end.
  2:{ split; [by destruct (sv_hardware v)|]. split; [exact Hne|exact Hifs]. }
  wif. eapply wlp_serve_loop; fields; [exact Hps|exact Hrl|exact Hl'|lia|].
  unfold user, log. rewrite greeted_wire.
  eapply wlp_mono; [exact HQ|]. intros [] sr HQ' l2 Hl2. wgo. by apply HQ'.
Qed.

(** C6: a session of the router from its command line to its end. The program is
    started with any options but a template, on a machine that has the routing
    table in the file they name and the key; the user's name may be of any length:
    one of 32 characters or more is sent with the host's name behind it, as
    [strlen] and [strcpy] find it. The server asks for authentication,
    agrees, describes the interfaces of the table, sends packets and closes, its
    bytes arriving in whatever pieces. Then the router that handles the packets
    has the settings of the command line, the interfaces as described, the table
    of the file, an empty ARP cache, and has sent the answer to the salt and the
    request for its topology; the packets are delivered to it in order; the
    program exits with 0 and the router is consistent, or it stops where the
    delivery stops. *)
Theorem router_session cl rt key v rest s :
  machine_ok cl rt key (server_bytes v ++ rest) s -> server_ok v ->
  (forall r, r ∈ rt -> is_Some (find_interface (interface_of t0 <$> sv_hardware v) (rt_interface r))) ->
  let run := main e fopen_w fuel rfuel inet_aton pw_name connected (t0 :: ts) (arguments cl) s in
  match deliveries fuel ts (sv_packets v) (greeted cl rt key v s) with
  | Ok (_, sr) =>
      (exists l, pending l = rest /\ run = Ok (0, mk_session sr l (ss_files s)))
      /\ router_ok sr /\ sr_if_list sr = interface_of t0 <$> sv_hardware v /\ sr_routing_table sr = rt
  | Err f => run = Err f
  end.
Proof.
  intros Hm Hs Hifs run. set (out := deliveries fuel ts (sv_packets v) (greeted cl rt key v s)).
  assert (H : wlp (fun f => out = Err f) (main e fopen_w fuel rfuel inet_aton pw_name connected (t0 :: ts) (arguments cl))
    (fun r s' => exists sr l, out = Ok (tt, sr) /\ r = 0 /\ pending l = rest /\ s' = mk_session sr l (ss_files s)) s).
  { eapply wlp_main; [exact Hm|exact Hs|exact Hifs|]. unfold wlp. fold out. destruct out as [[[] sr]|f]; [|done].
    intros l Hl. by exists sr, l. }
  unfold wlp in H. fold run in H. destruct run as [[r s']|f]; [|by rewrite H].
  destruct H as (sr & l & E & -> & Hl & ->). rewrite E. split; [by exists l|]. subst out.
  destruct Hs as [_ _ _ [Hio _] [Hp Hw] _]. 
  assert (Hi : router_initial (greeted cl rt key v s)) by (split; [exact Hio|done]).
  destruct (deliveries_ok _ _ _ (greeted cl rt key v s) _ Hp Hw (initial_ok _ Hi) E) as (H1 & -> & ->). by split.
Qed.
End session.

(* ------------------------------------------------------------------ *)
(** * A run *)

(** A reader of four numbers with dots between. *)
Definition number (s : bytes) : Z * bytes := let w := before 46 s in (default 0 (scan_int w), drop (length w + 1) s).
Definition dotted_quad (s : bytes) : option Z :=
  let '(a, s) := number s in
  let '(b, s) := number s in
  let '(c, s) := number s in
  let '(d, _) := number s in
  Some (a + 256 * b + 65536 * c + 16777216 * d).

Lemma before_dot b r : is_byte b -> before 46 (print_u b ++ 46 :: r) = print_u b /\ before 46 (print_u b) = print_u b.
Proof.
  intros Hb. destruct (print_byte b Hb) as [H _]. induction H as [|c w Hc _ IH]; [done|]. cbn [before app].
  assert (Hn : (c =? 46) = false). { apply Z.eqb_neq. intros ->. done. }
  rewrite Hn. destruct IH as [-> ->]. done.
Qed.

Lemma number_print b r : is_byte b -> number (print_u b ++ 46 :: r) = (b, r) /\ fst (number (print_u b)) = b.
Proof.
  intros Hb. unfold number. destruct (before_dot b r Hb) as [-> ->]. rewrite scan_print by (unfold is_byte in Hb; lia). split; [|done].
  apply (f_equal2 pair); [done|]. change (46 :: r) with ([46] ++ r). rewrite app_assoc. replace (length (print_u b) + 1)%nat with (length (print_u b ++ [46])) by by rewrite length_app.
  apply drop_app_length.
Qed.

Lemma quad_ntoa a : 0 <= a < 2 ^ 32 -> dotted_quad (inet_ntoa a) = Some a.
Proof.
  intros Ha. assert (Hb : forall i, is_byte (get8 (le32 a) i)) by (intros i; apply wf_get8, wf_le32). unfold dotted_quad, inet_ntoa.
  rewrite (proj1 (number_print _ _ (Hb 0%nat))), (proj1 (number_print _ _ (Hb 1%nat))), (proj1 (number_print _ _ (Hb 2%nat))).
  pose proof (proj2 (number_print _ [] (Hb 3%nat))) as E. destruct (number (print_u (get8 (le32 a) 3))) as [d r]. cbn [fst] in E. subst d.
  pose proof (get32_le32 a ltac:(lia)) as G. unfold get32, get16 in G. cbn [Nat.add] in G. f_equal. lia.
Qed.

Definition demo_server : server_side := mk_server_side [1; 2; 3; 4] [79; 75] demo_hws demo_packets (zeros 256).
Definition demo_command : command_line :=
  mk_command_line (str "vns") 12345 (mk_options (str "vrhost") (Some (str "me")) (str "rtable") None 2 (Some (str "log"))).
Definition demo_file : bytes := drop (length table_header) (sr_print_routing_table demo_rt).
(** The server's bytes come three at a time, with a signal after each piece. *)
Definition demo_machine : session :=
  mk_session demo_blank (demo_stream (server_bytes demo_server ++ [9])) {[ str "rtable" := demo_file; auth_key_file := demo_key ++ [10] ]}.

Lemma demo_rows : Forall row_ok demo_rt.
Proof.
  assert (H : forall e, (0 <=? rt_dest e) && (rt_dest e <? 2 ^ 32) && (0 <=? rt_gw e) && (rt_gw e <? 2 ^ 32) && (0 <=? rt_mask e) && (rt_mask e <? 2 ^ 32)
    && negb (bool_decide (cstr (rt_interface e) = [])) && forallb (fun c => negb (isspace c) && negb (c =? 0)) (cstr (rt_interface e))
    && (length (cstr (rt_interface e)) <? 32)%nat && bool_decide (rt_interface e = strncpy (cstr (rt_interface e)) 32) = true -> row_ok e).
  { intros e H. rewrite !andb_true_iff in H. destruct H as (((((((((H1 & H2) & H3) & H4) & H5) & H6) & H7) & H8) & H9) & H10).
    split; [lia|]. split; [|split; [by apply Nat.ltb_lt|by apply bool_decide_eq_true in H10]].
    split; [by apply negb_true_iff, bool_decide_eq_false in H7|]. apply Forall_forall. intros c Hc. rewrite forallb_forall in H8.
    apply list_elem_of_In in Hc. apply H8 in Hc as [A B]%andb_true_iff. apply negb_true_iff in A, B. apply Z.eqb_neq in B. done. }
  repeat (constructor; [apply H; by vm_compute|]). constructor.
Qed.

Lemma demo_machine_ok : machine_ok (still demo_env) (fun _ => true) 2000 (fun _ _ => true) demo_command demo_rt demo_key (server_bytes demo_server ++ [9]) demo_machine.
Proof.
  split.
  - exists demo_file. split; [reflexivity|by vm_compute].
  - split; [done|exact demo_rows].
  - exists [10]. reflexivity.
  - split; [reflexivity|]. split; apply Forall_replicate; [discriminate|]. split; [discriminate|reflexivity].
  - done.
  - done.
  - done.
  - split; cbn; lia.
  - split; [by vm_compute|]. apply Nat.ltb_lt. by vm_compute.
  - done.
Qed.

Lemma demo_server_ok : server_ok (still (demo_at 0)) demo_server.
Proof.
  split.
  - split; [repeat constructor; discriminate|by vm_compute].
  - by vm_compute.
  - split; [repeat constructor; vm_compute; congruence|by vm_compute].
  - split; [|done]. replace (interface_of (demo_at 0) <$> sv_hardware demo_server) with demo_ifs by by vm_compute. exact demo_ifs_ok.
  - split; [repeat constructor; vm_compute; discriminate|]. repeat (constructor; [apply wf_bytesb; by vm_compute|]). constructor.
  - by vm_compute.
Qed.

(** Four turns, a second apart, with rounds of the cleanup thread in between and
    one that comes in while a packet is handled. *)
Definition demo_schedule : list turn := still (demo_at 0) :: demo_turns.

Lemma router_session_witness :
  match main (still demo_env) (fun _ => true) 1 2000 dotted_quad None (fun _ _ => true) demo_schedule (arguments demo_command) demo_machine with
  | Ok (status, s) => status = 0 /\ pending (ss_stream s) = [9] /\ length (sr_wire (ss_sr s)) = 3%nat
  | Err _ => False
  end.
Proof.
  pose proof (router_session (still demo_env) (still (demo_at 0)) demo_turns (fun _ => true) 1 2000 dotted_quad None (fun _ _ => true) quad_ntoa
    demo_command demo_rt demo_key demo_server [9] demo_machine demo_machine_ok demo_server_ok) as H.
  cbv zeta in H.
  assert (Hw : match deliveries 1 demo_turns (sv_packets demo_server) (greeted (still (demo_at 0)) None demo_command demo_rt demo_key demo_server demo_machine) with
               | Ok (_, sr') => length (sr_wire sr') = 3%nat | Err _ => False end) by (vm_compute; reflexivity).
  destruct (deliveries 1 demo_turns (sv_packets demo_server) (greeted (still (demo_at 0)) None demo_command demo_rt demo_key demo_server demo_machine))
    as [[[] sr']|f]; [|destruct Hw].
  destruct H as ((l & Hl & Hrun) & _).
  - replace (interface_of (still (demo_at 0)) <$> sv_hardware demo_server) with demo_ifs by by vm_compute.
    apply Forall_forall. unfold demo_rt. repeat (constructor; [vm_compute; by eexists|]). constructor.
  - unfold demo_schedule. rewrite Hrun. exact (conj eq_refl (conj Hl Hw)).
Defined.
