(* ===== verification/ForkServer.v ===== *)
(** The forking servers of assignments 1 and 2: server.c and proxy.c share their
    way from the port to the accept loop. The process is its open descriptors,
    what its standard output holds back, and its dead children; the network and
    the other system calls are parameters. *)

From S2P Require Import Prelude.
From S2P Require Import Bytes.
From S2P Require Import Stdio.
From Stdlib Require Import (notations) String.

(* ------------------------------------------------------------------ *)
(** * The process *)

(** Standard output: what was written to the terminal or file, and what the
    library still holds in its buffer. *)
Record output := mk_output { written : bytes; pending : bytes }.

(** [bad_closes]: descriptors [close] was called on without their being open;
    [zombies]: children that ended and were not waited for. *)
Record process := mk_process {
  fds : gset Z;
  stdout : output;
  bad_closes : list Z;
  zombies : nat;
}.
Definition set_fds (v : gset Z) (p : process) : process := mk_process v (stdout p) (bad_closes p) (zombies p).
Definition set_stdout (v : output) (p : process) : process := mk_process (fds p) v (bad_closes p) (zombies p).
Definition set_bad_closes (v : list Z) (p : process) : process := mk_process (fds p) (stdout p) v (zombies p).
Definition set_zombies (v : nat) (p : process) : process := mk_process (fds p) (stdout p) (bad_closes p) v.

(** What the system answers. [getaddrinfo] is called with a host or, by a server,
    with none; [sys_socket] and [sys_accept] give a descriptor by those in use;
    [flushed] is how many bytes of its buffer the library writes out once it
    holds them. *)
Class System := {
  addr : Type;
  getaddrinfo : option bytes -> bytes -> option (list addr);
  inet_ntop : addr -> bytes;
  sys_socket : gset Z -> addr -> option Z;
  sys_setsockopt : Z -> bool;
  sys_bind : Z -> addr -> bool;
  sys_listen : Z -> bool;
  sys_sigaction : bool;
  sys_accept : gset Z -> Z;
  sys_connect : Z -> addr -> bool;
  flushed : bytes -> nat;
}.
(** A new descriptor is one not in use; the buffer holds no more than was printed. *)
Class SystemOk (Y : System) := {
  socket_new : forall s a d, sys_socket s a = Some d -> 0 <= d /\ d ∉ s;
  accept_new : forall s, 0 <= sys_accept s /\ sys_accept s ∉ s;
  flushed_le : forall b, (flushed b <= length b)%nat;
}.

(** A terminal is line buffered: what goes out ends with the last line feed. *)
Fixpoint up_to_newline (b : bytes) : nat :=
  match b with
  | [] => 0
  | x :: b' => match up_to_newline b' with O => if x =? 10 then 1 else 0 | n => Datatypes.S n end
  end.

Section calls.
Context {Y : System}.

(** [printf], the text being formatted, and what [exit] does with the rest. *)
Definition print (b : bytes) : M process unit :=
  modify (fun p =>
    let all := pending (stdout p) ++ b in
    let k := flushed all in
    set_stdout (mk_output (written (stdout p) ++ take k all) (drop k all)) p).
Definition flush_all : M process unit :=
  modify (fun p => set_stdout (mk_output (written (stdout p) ++ pending (stdout p)) []) p).

Definition opened (d : Z) : M process unit := modify (fun p => set_fds ({[d]} ∪ fds p) p).
(** [close(d)], whose result the code does not test. *)
Definition close (d : Z) : M process unit :=
  modify (fun p => if decide (d ∈ fds p) then set_fds (fds p ∖ {[d]}) p else set_bad_closes (bad_closes p ++ [d]) p).

(** [socket(p->ai_family, p->ai_socktype, p->ai_protocol)] *)
Definition socket (a : addr) : M process (option Z) :=
  p ← get;
  match sys_socket (fds p) a with
  | None => mret None
  | Some d => _ ← opened d; mret (Some d)
  end.

(** [waitpid(-1, NULL, WNOHANG)], and [sigchld_handler(s)]. *)
Definition waitpid : M process Z :=
  p ← get;
  match zombies p with
  | O => mret 0
  | Datatypes.S n => _ ← modify (set_zombies n); mret 1
  end.
Fixpoint sigchld_handler (fuel : nat) : M process unit :=
  match fuel with
  | O => fail OutOfFuel
  | Datatypes.S fuel' => r ← waitpid; if 0 <? r then sigchld_handler fuel' else mret tt
  end.

(* ------------------------------------------------------------------ *)
(** * Starting to listen *)

(** "loop through all the results and bind to the first we can": [inl] for
    [exit], [None] for [p == NULL]. *)
Fixpoint bind_first (servinfo : list addr) : M process (Z + option Z) :=
  match servinfo with
  | [] => mret (inr None)
  | p :: rest =>
      sockfd ← socket p;
      match sockfd with
      | None => bind_first rest
      | Some sockfd =>
          if negb (sys_setsockopt sockfd) then mret (inl 1)
          else if negb (sys_bind sockfd p) then _ ← close sockfd; bind_first rest
          else mret (inr (Some sockfd))
      end
  end.

(** From [getaddrinfo] to [sigaction]: the exit status, or the listening socket. *)
Definition start_listening (PORT : bytes) : M process (Z + Z) :=
  match getaddrinfo None PORT with
  | None => mret (inl 1)
  | Some servinfo =>
      r ← bind_first servinfo;
      match r with
      | inl status => mret (inl status)
      | inr None => mret (inl 2)
      | inr (Some sockfd) =>
          if negb (sys_listen sockfd) then mret (inl 1)
          else if negb sys_sigaction then mret (inl 1)
          else mret (inr sockfd)
      end
  end.

(* ------------------------------------------------------------------ *)
(** * The accept loop *)

(** What the next [accept] meets: an error; a connection of the client [peer],
    with what its [recv] will return, and whether [fork] succeeds; or, while it
    waits, the end of children and their signal. *)
Inductive event :=
  | AcceptFails
  | Connects (peer : addr) (input : list bytes) (forks : bool)
  | ChildrenEnd (n : nat).

(** A child: the process [fork] made, the descriptor of its connection and what
    it will receive. *)
Record child := mk_child { child_process : process; child_fd : Z; child_input : list bytes }.

(** One round of the loop, [announce] being what it prints for a client. *)
Definition accept_round (announce : addr -> bytes) (ev : event) : M process (list child) :=
  match ev with
  | AcceptFails => mret []
  | ChildrenEnd n =>
      p ← get;
      _ ← modify (set_zombies (n + zombies p));
      _ ← sigchld_handler (n + zombies p + 1);
      mret []
  | Connects peer input forks =>
      p ← get;
      let new_fd := sys_accept (fds p) in
      _ ← opened new_fd;
      _ ← print (announce peer);
      p ← get;
      _ ← close new_fd;
      mret (if (forks : bool) then [mk_child (mk_process (fds p) (stdout p) (bad_closes p) 0) new_fd input] else [])
  end.

(** [while (1) { ... }] for as long as something comes: the children. *)
Fixpoint accept_loop (announce : addr -> bytes) (evs : list event) : M process (list child) :=
  match evs with
  | [] => mret []
  | ev :: evs' => c ← accept_round announce ev; cs ← accept_loop announce evs'; mret (c ++ cs)
  end.

(** The child between [fork] and [exit]: [serve] is what it does with its client. *)
Definition run_child (serve : Z -> list bytes -> M process Z) (sockfd : Z) (c : child) : M process Z :=
  _ ← close sockfd;
  status ← serve (child_fd c) (child_input c);
  _ ← flush_all;
  mret status.

(* ------------------------------------------------------------------ *)
(** * Connecting *)

(** "loop through all the results and connect to the first we can" *)
Fixpoint connect_first (servinfo : list addr) : M process (option (Z * addr)) :=
  match servinfo with
  | [] => mret None
  | p :: rest =>
      sockfd ← socket p;
      match sockfd with
      | None => connect_first rest
      | Some sockfd =>
          if negb (sys_connect sockfd p) then _ ← close sockfd; connect_first rest
          else mret (Some (sockfd, p))
      end
  end.
End calls.

(* ------------------------------------------------------------------ *)
(** * Facts *)

(** Everything printed so far, written out or not. *)
Definition printed (p : process) : bytes := written (stdout p) ++ pending (stdout p).

(** Nothing but standard output and the descriptors [s] changed, and no descriptor
    was closed that was not open. *)
Definition with_fds (s : gset Z) (p p' : process) : Prop :=
  fds p' = s /\ bad_closes p' = bad_closes p /\ zombies p' = zombies p.

Lemma up_to_newline_le b : (up_to_newline b <= length b)%nat.
Proof. induction b as [|x b IH]; cbn [up_to_newline length]; [done|]. destruct (up_to_newline b); [destruct (x =? 10); lia|lia]. Qed.
Lemma up_to_newline_line b : up_to_newline (b ++ [10]) = length (b ++ [10]).
Proof. induction b as [|x b IH]; [done|]. cbn [app up_to_newline length]. by rewrite IH, length_app, Nat.add_comm. Qed.

Section facts.
Context {Y : System} {YOk : SystemOk Y} (F : fault -> Prop).

Lemma wlp_print b p (Q : unit -> process -> Prop) :
  (forall o, written o ++ pending o = printed p ++ b -> (flushed (pending (stdout p) ++ b) = length (pending (stdout p) ++ b) -> pending o = []) ->
     Q tt (set_stdout o p)) ->
  wlp F (print b) Q p.
Proof.
  intros HQ. unfold print. wgo. apply HQ; cbn [written pending].
  - unfold printed. by rewrite <- !app_assoc, take_drop.
  - intros ->. apply drop_all.
Qed.

Lemma wlp_close_fd d p (Q : unit -> process -> Prop) : d ∈ fds p -> Q tt (set_fds (fds p ∖ {[d]}) p) -> wlp F (close d) Q p.
Proof. intros Hd HQ. unfold close. wgo. by rewrite decide_True. Qed.

Lemma close_opened d (s : gset Z) : d ∉ s -> ({[d]} ∪ s) ∖ {[d]} = s.
Proof. set_solver. Qed.

Lemma wlp_socket a p (Q : option Z -> process -> Prop) :
  Q None p -> (forall d, 0 <= d -> d ∉ fds p -> Q (Some d) (set_fds ({[d]} ∪ fds p) p)) -> wlp F (socket a) Q p.
Proof.
  intros H1 H2. unfold socket. wgo. destruct (sys_socket (fds p) a) as [d|] eqn:E; [|by wgo]. unfold opened. wgo.
  destruct (socket_new _ _ _ E). auto.
Qed.

Lemma set_fds_same p : set_fds (fds p) p = p.
Proof. by destruct p. Qed.

(** A socket that was opened and closed again leaves nothing behind. *)
Lemma wlp_bind_first l p :
  wlp F (bind_first l)
    (fun r p' => match r with
                 | inl status => status = 1
                 | inr None => p' = p
                 | inr (Some d) => 0 <= d /\ d ∉ fds p /\ p' = set_fds ({[d]} ∪ fds p) p
                 end) p.
Proof.
  induction l as [|a l IH]; cbn [bind_first]; [by wgo|]. wgo. apply wlp_socket; [exact IH|]. intros d Hd Hn.
  destruct (sys_setsockopt d); cbn [negb]; [|by wgo]. destruct (sys_bind d a); cbn [negb]; [by wgo|]. wgo.
  apply wlp_close_fd; [set_solver|]. cbn [fds set_fds]. rewrite close_opened by done.
  change (set_fds (fds p) (set_fds ({[d]} ∪ fds p) p)) with (set_fds (fds p) p). rewrite set_fds_same. exact IH.
Qed.

Lemma wlp_connect_first l p :
  wlp F (connect_first l)
    (fun r p' => match r with
                 | None => p' = p
                 | Some (d, a) => 0 <= d /\ d ∉ fds p /\ p' = set_fds ({[d]} ∪ fds p) p /\ a ∈ l /\ sys_connect d a = true
                 end) p.
Proof.
  assert (H : forall l', l' ⊆ l -> wlp F (connect_first l')
    (fun r p' => match r with
                 | None => p' = p
                 | Some (d, a) => 0 <= d /\ d ∉ fds p /\ p' = set_fds ({[d]} ∪ fds p) p /\ a ∈ l /\ sys_connect d a = true
                 end) p); [|by apply H].
  induction l' as [|a l' IH]; intros Hs; cbn [connect_first]; [by wgo|]. wgo. apply wlp_socket; [apply IH; set_solver|]. intros d Hd Hn.
  destruct (sys_connect d a) eqn:Hc; cbn [negb]; [wgo; split; [done|]; split; [done|]; split; [done|]; split; [apply Hs; by left|done]|]. wgo.
  apply wlp_close_fd; [set_solver|]. cbn [fds set_fds]. rewrite close_opened by done.
  change (set_fds (fds p) (set_fds ({[d]} ∪ fds p) p)) with (set_fds (fds p) p). rewrite set_fds_same. apply IH. set_solver.
Qed.

(** A server that starts has its listening socket and nothing else more than
    before; otherwise it exits with 1, or 2 if no address could be bound. *)
Lemma wlp_start_listening PORT p :
  wlp F (start_listening PORT)
    (fun r p' => match r with
                 | inl status => status = 1 \/ (status = 2 /\ p' = p)
                 | inr d => 0 <= d /\ d ∉ fds p /\ p' = set_fds ({[d]} ∪ fds p) p
                 end) p.
Proof.
  unfold start_listening. destruct (getaddrinfo None PORT) as [l|]; [|wgo; by left]. wgo. eapply wlp_mono; [apply wlp_bind_first|].
  intros [status|[d|]] p' H; wgo; [by left| |by right]. destruct (sys_listen d); cbn [negb]; [|wgo; by left].
  destruct sys_sigaction; cbn [negb]; wgo; [done|by left].
Qed.

(** One of the addresses of the port can be bound, and the calls behind succeed. *)
Definition can_listen (PORT : bytes) : Prop :=
  exists l a, getaddrinfo None PORT = Some l /\ a ∈ l /\ (forall s, is_Some (sys_socket s a)) /\ (forall d, sys_bind d a = true)
    /\ (forall d, sys_setsockopt d = true) /\ (forall d, sys_listen d = true) /\ sys_sigaction = true.

Lemma wlp_binds l a p : a ∈ l -> (forall s, is_Some (sys_socket s a)) -> (forall d, sys_bind d a = true) -> (forall d, sys_setsockopt d = true) ->
  wlp F (bind_first l) (fun r p' => exists d, r = inr (Some d)) p.
Proof.
  intros Ha Hs Hb Hso. revert p. induction l as [|x l IH]; intros p; [by apply elem_of_nil in Ha|]. cbn [bind_first]. wgo.
  unfold socket. wgo. apply elem_of_cons in Ha as [<-|Ha].
  - destruct (Hs (fds p)) as [d ->]. unfold opened. wgo. rewrite Hso. cbn [negb]. rewrite Hb. cbn [negb]. wgo. by eexists.
  - specialize (IH Ha). destruct (sys_socket (fds p) x) as [d|]; [|wgo; apply IH]. unfold opened. wgo. rewrite Hso. cbn [negb].
    destruct (sys_bind d x); cbn [negb]; [wgo; by eexists|]. wgo. unfold close. wgo. apply IH.
Qed.

Lemma wlp_starts PORT p : can_listen PORT -> wlp F (start_listening PORT) (fun r p' => exists d, r = inr d) p.
Proof.
  intros (l & a & Hg & Ha & Hs & Hb & Hso & Hl & Hsig). unfold start_listening. rewrite Hg. wgo.
  eapply wlp_mono; [by eapply wlp_binds|]. intros r p' [d ->]. wgo. rewrite Hl, Hsig. cbn [negb]. wgo. by eexists.
Qed.

(** Both together. *)
Lemma wlp_start PORT p :
  wlp F (start_listening PORT)
    (fun r p' => match r with
                 | inl status => (status = 1 \/ status = 2) /\ ~ can_listen PORT
                 | inr d => 0 <= d /\ d ∉ fds p /\ p' = set_fds ({[d]} ∪ fds p) p
                 end) p.
Proof.
  pose proof (wlp_start_listening PORT p) as H1. pose proof (wlp_starts PORT p) as H2. unfold wlp in *.
  destruct (start_listening PORT p) as [[[status|d] p']|f]; [|done|done]. split; [destruct H1 as [H1|[H1 _]]; auto|].
  intros H. by destruct (H2 H).
Qed.

(** The signal handler waits for every child that ended. *)
Lemma wlp_sigchld_handler fuel p (Q : unit -> process -> Prop) :
  (zombies p < fuel)%nat -> Q tt (set_zombies 0 p) -> wlp F (sigchld_handler fuel) Q p.
Proof.
  revert p. induction fuel as [|fuel IH]; intros p Hf HQ; [lia|]. cbn [sigchld_handler]. unfold waitpid. wgo.
  destruct p as [f o b [|n]]; cbn [zombies] in *.
  - wgo. change (0 <? 0) with false. cbv iota. by wgo.
  - wgo. change (0 <? 1) with true. cbv iota. apply IH; [cbn; lia|exact HQ].
Qed.

(** The connections a child is made for, and what the loop prints. *)
Fixpoint accepted (evs : list event) : list (addr * list bytes) :=
  match evs with
  | [] => []
  | Connects peer input true :: evs' => (peer, input) :: accepted evs'
  | _ :: evs' => accepted evs'
  end.
Fixpoint announced (announce : addr -> bytes) (evs : list event) : bytes :=
  match evs with
  | [] => []
  | Connects peer _ _ :: evs' => announce peer ++ announced announce evs'
  | _ :: evs' => announced announce evs'
  end.

(** Standard output is a terminal, and whole lines are printed. *)
Definition lines_at_once (announce : addr -> bytes) : Prop :=
  (forall b, flushed b = up_to_newline b) /\ forall a, exists l, announce a = l ++ [10].

(** The child for a connection, of a server with the descriptors [s]: it has its
    connection's besides, and on a terminal nothing of its parent's output. *)
Definition child_of (announce : addr -> bytes) (s : gset Z) (bad : list Z) (conn : addr * list bytes) (c : child) : Prop :=
  child_input c = snd conn /\ 0 <= child_fd c /\ child_fd c ∉ s /\ fds (child_process c) = {[child_fd c]} ∪ s
  /\ bad_closes (child_process c) = bad /\ (lines_at_once announce -> pending (stdout (child_process c)) = []).

Lemma wlp_fork_round announce ev p :
  zombies p = 0%nat ->
  wlp F (accept_round announce ev)
    (fun cs p' => with_fds (fds p) p p' /\ printed p' = printed p ++ announced announce [ev]
       /\ Forall2 (child_of announce (fds p) (bad_closes p)) (accepted [ev]) cs) p.
Proof.
  intros Hz. destruct ev as [|peer input forks|n]; cbn [accept_round announced accepted].
  - wgo. split; [done|]. by rewrite app_nil_r.
  - wgo. unfold opened. wgo. destruct (accept_new (fds p)) as [Hd Hn]. set (d := sys_accept (fds p)) in *.
    apply wlp_print. intros o Ho Hfl. cbn [stdout set_fds set_stdout fds] in *. wgo. apply wlp_close_fd; [set_solver|]. cbn [fds set_fds set_stdout].
    rewrite close_opened by done. wgo. split; [done|]. unfold printed in *. cbn [stdout set_fds set_stdout] in *. rewrite app_nil_r.
    split; [exact Ho|]. destruct forks; [|done]. constructor; [|done]. split; [done|]. split; [done|]. split; [done|]. split; [done|]. split; [done|].
    intros [Hl Ha]. apply Hfl. rewrite Hl. destruct (Ha peer) as [l ->]. rewrite app_assoc. apply up_to_newline_line.
  - wgo. apply wlp_sigchld_handler; [cbn; lia|]. wgo. cbn. rewrite Hz, app_nil_r. split; [by split|done].
Qed.

Lemma wlp_accept_loop announce evs p :
  zombies p = 0%nat ->
  wlp F (accept_loop announce evs)
    (fun cs p' => with_fds (fds p) p p' /\ printed p' = printed p ++ announced announce evs
       /\ Forall2 (child_of announce (fds p) (bad_closes p)) (accepted evs) cs) p.
Proof.
  revert p. induction evs as [|ev evs IH]; intros p Hz; cbn [accept_loop].
  - wgo. split; [done|]. by rewrite app_nil_r.
  - wgo. eapply wlp_mono; [by apply wlp_fork_round|]. intros c p1 ((E1 & E2 & E3) & Ep & Hc). wgo.
    eapply wlp_mono; [apply IH; congruence|]. intros cs p2 ((D1 & D2 & D3) & Dp & Hcs). wgo.
    rewrite E1, E2 in *. split; [repeat split; congruence|]. rewrite Dp, Ep, <- app_assoc. split.
    + f_equal. destruct ev as [|? ? []|]; cbn [announced]; by rewrite ?app_nil_r.
    + destruct ev as [|? ? []|]; inversion Hc; subst; cbn [accepted app]; try done.
      constructor; [done|]. by match goal with H : Forall2 _ [] _ |- _ => inversion H; subst end.
Qed.

(** A child that closes its connection leaves the server's descriptors, without
    the listening one, and writes out what it printed. *)
Lemma wlp_run_child serve announce s bad sockfd conn c (R : Z -> bytes -> Prop) :
  child_of announce s bad conn c -> sockfd ∈ s ->
  (forall p, child_fd c ∈ fds p -> wlp F (serve (child_fd c) (child_input c))
     (fun status p' => exists text, with_fds (fds p ∖ {[child_fd c]}) p p' /\ printed p' = printed p ++ text /\ R status text) p) ->
  wlp F (run_child serve sockfd c)
    (fun status p' => exists text, fds p' = s ∖ {[sockfd]} /\ bad_closes p' = bad
       /\ written (stdout p') = printed (child_process c) ++ text /\ R status text) (child_process c).
Proof.
  intros (H1 & H2 & H3 & H4 & H5 & _) Hs Hserve. unfold run_child. wgo. apply wlp_close_fd; [set_solver|]. wgo.
  eapply wlp_mono; [apply Hserve; cbn; set_solver|]. intros status p' (text & (E1 & E2 & E3) & Ep & HR). wgo. unfold flush_all. wgo.
  exists text. cbn in E1, E2 |- *. rewrite E1, E2, H4. split; [set_solver|]. split; [done|]. split; [exact Ep|done].
Qed.
End facts.
