(* ===== verification/FastCopy.v ===== *)
(** Assignment 1: client.c sends the lines of its standard input until an empty
    line, server.c prints what its clients send, a child for each. *)

From S2P Require Import Prelude.
From S2P Require Import Bytes.
From S2P Require Import Stdio.
From S2P Require Import ForkServer.
From Stdlib Require Import (notations) String.

Definition FASTCOPY_MAX : nat := 1024 * 5.

(** The loop of the client's [main], [buf] being the array as it is, [stdin] what
    is left of the input; the state is what was sent. *)
Fixpoint send_loop (fuel : nat) (buf stdin : bytes) : M (list bytes) Z :=
  match fuel with
  | O => fail OutOfFuel
  | Datatypes.S fuel' =>
      if (length buf <=? strlen buf)%nat then fail OutOfBounds
      else
        let prev_buf := cstr buf in
        match fgets (FASTCOPY_MAX - 1) stdin with
        | None => mret 0
        | Some (line, stdin) =>
            buf ← wrn buf 0 (line ++ [0]);
            if bool_decide (10 ∈ prev_buf) && (get8 buf 0 =? 10) then mret 0
            else
              _ ← modify (fun sent => sent ++ [cstr buf]);
              send_loop fuel' buf stdin
        end
  end.

Section programs.
Context {Y : System}.

(** The loop of the server's child, over what the calls of [recv] return. *)
Fixpoint print_loop (input : list bytes) : M process unit :=
  match input with
  | [] | [] :: _ => mret tt
  | data :: rest =>
      if (FASTCOPY_MAX <=? length data)%nat then fail OutOfBounds
      else _ ← print (cstr (data ++ [0])); print_loop rest
  end.

(** The child after [close(sockfd)], up to [exit(0)]. *)
Definition copy_serve (new_fd : Z) (input : list bytes) : M process Z :=
  _ ← print_loop input;
  _ ← close new_fd;
  mret 0.

(** The options of the server: [PORT], which every [-p] prints. *)
Fixpoint copy_server_options (opts : list (Z * option bytes)) (PORT : option bytes) : M process (option bytes) :=
  match opts with
  | [] => mret PORT
  | (c, optarg) :: opts' =>
      if c =? 112 then a ← deref optarg; _ ← print a; copy_server_options opts' (Some a)
      else copy_server_options opts' PORT
  end.

(** "server: got connection from ..." *)
Definition copy_announce (their_addr : addr) : bytes := str "server: got connection from " ++ inet_ntop their_addr ++ [10].

(** The server's [main], with [args] behind its name and what [accept] will meet:
    its exit status, or the listening socket and the children made. *)
Definition copy_server (args : list bytes) (evs : list event) : M process (Z + Z * list child) :=
  if negb (length args =? 2)%nat then mret (inl 1)
  else
    PORT ← copy_server_options (fst (getopt (str "p:") args)) None;
    PORT ← initialised PORT;
    r ← start_listening PORT;
    match r with
    | inl status => mret (inl status)
    | inr sockfd =>
        _ ← print (str "server: waiting for connections..." ++ [10]);
        cs ← accept_loop copy_announce evs;
        mret (inr (sockfd, cs))
    end.

(** The options of the client: [PORT] and [Host]. *)
Fixpoint copy_client_options (opts : list (Z * option bytes)) (PORT Host : option bytes) : option bytes * option bytes :=
  match opts with
  | [] => (PORT, Host)
  | (c, optarg) :: opts' =>
      if c =? 112 then copy_client_options opts' optarg Host
      else if c =? 104 then copy_client_options opts' PORT optarg
      else copy_client_options opts' PORT Host
  end.

(** The client's [main]: the exit status and what it sent; [buf] is its array as
    it is. *)
Definition copy_client (args : list bytes) (fuel : nat) (buf stdin : bytes) : M process (Z * list bytes) :=
  if negb (length args =? 4)%nat then mret (1, [])
  else
    let '(PORT, Host) := copy_client_options (fst (getopt (str "p:h:") args)) None None in
    PORT ← initialised PORT;
    Host ← initialised Host;
    match getaddrinfo (Some Host) PORT with
    | None => mret (1, [])
    | Some servinfo =>
        r ← connect_first servinfo;
        match r with
        | None => mret (2, [])
        | Some (sockfd, p) =>
            _ ← print (str "client: connecting to " ++ inet_ntop p ++ [10]);
            '(status, sent) ← lift (send_loop fuel buf stdin []);
            _ ← flush_all;
            mret (status, sent)
        end
    end.
End programs.

(* ------------------------------------------------------------------ *)
(** * Copying *)

(** The lines that are sent: up to an empty one that is not the first. *)
Fixpoint copied (first : bool) (lines : list bytes) : list bytes :=
  match lines with
  | [] => []
  | l :: lines' => if negb first && bool_decide (l = []) then [] else (l ++ [10]) :: copied false lines'
  end.

Definition copy_line (l : bytes) : Prop := Forall (fun c => c <> 0 /\ c <> 10) l /\ (length l + 2 < FASTCOPY_MAX)%nat.

#[local] Opaque FASTCOPY_MAX.

Lemma wlp_send_loop F fuel buf lines (Q : Z -> list bytes -> Prop) sent :
  Forall copy_line lines -> (length lines < fuel)%nat -> length buf = FASTCOPY_MAX -> (strlen buf < FASTCOPY_MAX)%nat ->
  Q 0 (sent ++ copied (negb (bool_decide (10 ∈ cstr buf))) lines) ->
  wlp F (send_loop fuel buf (mjoin ((fun l => l ++ [10]) <$> lines))) Q sent.
Proof.
  intros Hl. revert fuel buf sent. induction Hl as [|l lines [Hc Hlen] _ IH]; intros fuel buf sent Hf Hb Hs HQ;
    (destruct fuel as [|fuel]; [simpl in Hf; lia|]); cbn [send_loop]; rewrite (proj2 (Nat.leb_gt _ _)) by lia.
  - cbn in *. wgo. by rewrite app_nil_r in HQ.
  - change (mjoin _) with ((l ++ [10]) ++ mjoin ((fun l => l ++ [10]) <$> lines)). rewrite <- app_assoc.
    change ([10] ++ ?x) with (10 :: x). rewrite fgets_whole by (lia || by eapply Forall_impl; [exact Hc|]; intros c [_ H]).
    wgo. apply wlp_wrn; [rewrite !length_app; cbn [length]; lia|].
    set (buf' := upd buf 0 ((l ++ [10]) ++ [0])).
    assert (Hb' : buf' = (l ++ [10]) ++ 0 :: drop (length l + 2) buf).
    { subst buf'. unfold upd. rewrite take_0. cbn [app]. rewrite <- !app_assoc. cbn [app]. do 4 f_equal. rewrite !length_app. simpl. lia. }
    assert (Hstr : cstr buf' = l ++ [10]).
    { rewrite Hb'. apply cstr_app_nul, Forall_app. split; [eapply Forall_impl; [exact Hc|]; by intros c [H _]|by constructor]. }
    assert (H0 : (get8 buf' 0 =? 10) = bool_decide (l = [])).
    { rewrite Hb'. destruct l as [|x l]; [done|]. apply Forall_inv in Hc as [_ Hx]. cbn. by rewrite (proj2 (Z.eqb_neq _ _)). }
    rewrite H0. cbn [copied] in HQ. rewrite negb_involutive in HQ. destruct (bool_decide (10 ∈ cstr buf) && bool_decide (l = [])); wgo.
    { by rewrite app_nil_r in HQ. }
    rewrite Hstr. apply IH; [simpl in Hf; lia| | |].
    + rewrite Hb', !length_app. cbn [length]. rewrite length_drop. lia.
    + unfold strlen. rewrite Hstr, length_app. simpl. lia.
    + rewrite Hstr, bool_decide_eq_true_2 by set_solver. by rewrite <- app_assoc.
Qed.

Section facts.
Context {Y : System} {YOk : SystemOk Y}.

(** Pieces of text that [recv] may return. *)
Definition pieces_ok (input : list bytes) : Prop :=
  Forall (fun d => d <> [] /\ Forall (fun c => c <> 0) d /\ (length d < FASTCOPY_MAX)%nat) input.

Lemma wlp_print_loop F input p :
  pieces_ok input -> wlp F (print_loop input) (fun _ p' => with_fds (fds p) p p' /\ printed p' = printed p ++ mjoin input) p.
Proof.
  intros Hi. revert p. induction Hi as [|d input (Hd & Hc & Hl) _ IH]; intros p; cbn [print_loop].
  - wgo. split; [done|]. by rewrite app_nil_r.
  - destruct d as [|x d]; [done|]. rewrite (proj2 (Nat.leb_gt _ _)) by done. wgo. apply wlp_print. intros o Ho _.
    eapply wlp_mono; [apply IH|]. intros [] p' [(E1 & E2 & E3) Ep]. split; [done|]. rewrite Ep. unfold printed in *. cbn [stdout set_stdout].
    rewrite Ho, (cstr_app_nul (x :: d) []) by done. by rewrite <- app_assoc.
Qed.

Lemma wlp_copy_serve F d input p : pieces_ok input -> d ∈ fds p ->
  wlp F (copy_serve d input) (fun status p' => exists text, with_fds (fds p ∖ {[d]}) p p' /\ printed p' = printed p ++ text
    /\ (status = 0 /\ text = mjoin input)) p.
Proof.
  intros Hi Hd. unfold copy_serve. wgo. eapply wlp_mono; [by apply wlp_print_loop|]. intros [] p' [(E1 & E2 & E3) Ep]. wgo.
  apply wlp_close_fd; [by rewrite E1|]. wgo. exists (mjoin input). rewrite E1. split; [done|]. split; [exact Ep|done].
Qed.

(** A client at whose terminal [lines] were typed, what it sent arriving in the
    pieces [input]. *)
Definition typed_at_client (lines : list bytes) (input : list bytes) : Prop :=
  exists args fuel buf p p' sent,
    Forall copy_line lines /\ (length lines < fuel)%nat /\ length buf = FASTCOPY_MAX /\ (strlen buf < FASTCOPY_MAX)%nat /\ 10 ∉ cstr buf
    /\ copy_client args fuel buf (mjoin ((fun l => l ++ [10]) <$> lines)) p = Ok ((0, sent), p')
    /\ mjoin input = mjoin sent /\ pieces_ok input.

Lemma client_sends F args fuel buf lines p :
  Forall copy_line lines -> (length lines < fuel)%nat -> length buf = FASTCOPY_MAX -> (strlen buf < FASTCOPY_MAX)%nat -> 10 ∉ cstr buf ->
  F Uninitialised ->
  wlp F (copy_client args fuel buf (mjoin ((fun l => l ++ [10]) <$> lines)))
    (fun r p' => (fst r = 0 /\ snd r = copied true lines) \/ ((fst r = 1 \/ fst r = 2) /\ snd r = [])) p.
Proof.
  intros Hl Hf Hb Hs Hn HF. unfold copy_client. destruct (negb _); [wgo; right; by split; [left|]|].
  destruct (copy_client_options _ _ _) as [[PORT|] [Host|]]; unfold initialised; wgo; try done.
  destruct (getaddrinfo _ _) as [l|]; [|wgo; right; by split; [left|]]. wgo. eapply wlp_mono; [apply wlp_connect_first|].
  intros [[d a]|] p1 _; wgo; [|right; by split; [right|]]. apply wlp_print. intros o _ _. wgo.
  destruct (wlp_total (send_loop fuel buf (mjoin ((fun l => l ++ [10]) <$> lines))) (fun r sent => r = 0 /\ sent = copied true lines) [])
    as (r & sent & -> & -> & ->).
  { apply wlp_send_loop; try done. rewrite bool_decide_eq_false_2 by done. done. }
  unfold flush_all. wgo. by left.
Qed.

Lemma typed_pieces lines input : typed_at_client lines input -> pieces_ok input /\ mjoin input = mjoin (copied true lines).
Proof.
  intros (args & fuel & buf & p & p' & sent & Hl & Hf & Hb & Hs & Hn & Hrun & Hin & Hpc). split; [done|]. rewrite Hin.
  pose proof (client_sends (fun f => f = Uninitialised) args fuel buf lines p Hl Hf Hb Hs Hn eq_refl) as H. unfold wlp in H. rewrite Hrun in H.
  destruct H as [[_ E]|[[E|E] _]]; [by cbn in E; rewrite E|done|done].
Qed.

(** A line of the server's output is there as soon as it is printed. *)
Lemma copy_announce_lines : (forall b, flushed b = up_to_newline b) -> lines_at_once copy_announce.
Proof. intros H. split; [exact H|]. intros a. eexists (_ ++ _). unfold copy_announce. by rewrite app_assoc. Qed.

(** What the server has printed once it listens. *)
Definition greeting (port : bytes) : bytes := port ++ str "server: waiting for connections..." ++ [10].

Lemma wlp_copy_server F port evs p :
  zombies p = 0%nat ->
  wlp F (copy_server [str "-p"; port] evs)
    (fun r p' => match r with
                 | inl status => ~ can_listen port
                 | inr (l, cs) => l ∉ fds p /\ with_fds ({[l]} ∪ fds p) p p'
                     /\ printed p' = printed p ++ greeting port ++ announced copy_announce evs
                     /\ Forall2 (child_of copy_announce ({[l]} ∪ fds p) (bad_closes p)) (accepted evs) cs
                 end) p.
Proof.
  intros Hz. unfold copy_server. change (str "-p") with [45; 112]. rewrite getopt_arg by done. cbn [length Nat.eqb negb getopt fst].
  cbn [copy_server_options]. change (112 =? 112) with true. cbv iota. wgo. unfold deref. wgo. apply wlp_print. intros o Ho _. wgo.
  unfold initialised. wgo. eapply wlp_mono; [apply wlp_start|]. intros [status|l] p1 H; wgo; [by destruct H|].
  destruct H as (H0 & Hl & ->). cbn [fds set_stdout] in Hl. apply wlp_print. intros o' Ho' _. wgo.
  eapply wlp_mono; [by apply wlp_accept_loop|]. intros cs p2 (Hw & Hp & Hcs). wgo. split; [done|]. split; [exact Hw|]. split; [|exact Hcs].
  rewrite Hp. unfold printed, greeting in *. cbn [stdout set_fds set_stdout] in *. by rewrite Ho', Ho, <- !app_assoc.
Qed.

Lemma child_prints l s bad conn lines c :
  (forall b, flushed b = up_to_newline b) -> l ∉ s -> child_of copy_announce ({[l]} ∪ s) bad conn c -> typed_at_client lines (snd conn) ->
  exists p', run_child copy_serve l c (child_process c) = Ok (0, p') /\ fds p' = s /\ bad_closes p' = bad
    /\ written (stdout p') = written (stdout (child_process c)) ++ mjoin (copied true lines).
Proof.
  intros Hfl Hl Hc Hty. destruct (typed_pieces _ _ Hty) as [Hpc Hj].
  assert (Hin : l ∈ {[l]} ∪ s) by set_solver. pose proof Hc as (Ei & _ & _ & _ & _ & Hpend).
  edestruct (wlp_total _ _ _ (wlp_run_child _ copy_serve _ _ _ l _ c (fun status text => status = 0 /\ text = mjoin (snd conn)) Hc Hin
      (fun p Hd => ltac:(rewrite Ei; by apply wlp_copy_serve))))
    as (r & p' & E & text & E1 & E2 & E3 & -> & ->).
  exists p'. split; [done|]. split; [rewrite E1; set_solver|]. split; [done|].
  rewrite E3. unfold printed. by rewrite (Hpend (copy_announce_lines Hfl)), app_nil_r, Hj.
Qed.

(** C22: from the terminal of the client to that of the server. On a port it can
    listen on, the server of assignment 1 runs for as long as connections come,
    fail or end: its own descriptors are then those it had and the listening
    socket, none closed twice, no child left unwaited for; it printed the port,
    its greeting and a line for each client. For every connection that [fork]
    made a child for, the child ends with 0, leaves nothing open and prints, line
    for line, what was typed at its client, up to an empty line that is not the
    first: however the text was cut on the way. *)
Theorem fastcopy_end_to_end port evs p0 typed :
  zombies p0 = 0%nat -> (forall b, flushed b = up_to_newline b) -> can_listen port ->
  Forall2 (fun conn lines => typed_at_client lines (snd conn)) (accepted evs) typed ->
  exists l children p1,
    copy_server [str "-p"; port] evs p0 = Ok (inr (l, children), p1)
    /\ l ∉ fds p0 /\ with_fds ({[l]} ∪ fds p0) p0 p1
    /\ printed p1 = printed p0 ++ greeting port ++ announced copy_announce evs
    /\ Forall2 (fun lines c => exists p', run_child copy_serve l c (child_process c) = Ok (0, p')
         /\ fds p' = fds p0 /\ bad_closes p' = bad_closes p0
         /\ written (stdout p') = written (stdout (child_process c)) ++ mjoin (copied true lines)) typed children.
Proof.
  intros Hz Hfl Hcan Htyped. destruct (wlp_total _ _ _ (wlp_copy_server _ port evs p0 Hz)) as ([status|[l cs]] & p1 & Hrun & H); [done|].
  destruct H as (Hl & Hw & Hp & Hcs). exists l, cs, p1. split; [done|]. split; [done|]. split; [done|]. split; [done|].
  clear Hrun Hp. revert cs Hcs. induction Htyped as [|conn lines conns typed Hty _ IH]; intros cs Hcs; inversion Hcs; subst; constructor; [|by apply IH].
  eapply child_prints; [done| |done|done]. done.
Qed.
End facts.

(* ------------------------------------------------------------------ *)
(** * A run *)

(** A descriptor larger than those in use. *)
Definition next_fd (s : gset Z) : Z := 1 + foldr Z.max 0 (elements s).

#[export] Instance demo_system : System := {|
  addr := bytes;
  getaddrinfo _ _ := Some [str "0.0.0.0"];
  inet_ntop a := a;
  sys_socket s _ := Some (next_fd s);
  sys_setsockopt _ := true;
  sys_bind _ _ := true;
  sys_listen _ := true;
  sys_sigaction := true;
  sys_accept := next_fd;
  sys_connect _ _ := true;
  flushed := up_to_newline;
|}.

Lemma next_fd_new s : 0 <= next_fd s /\ next_fd s ∉ s.
Proof.
  unfold next_fd. assert (H : 0 <= foldr Z.max 0 (elements s) /\ Forall (fun x => x <= foldr Z.max 0 (elements s)) (elements s)).
  { induction (elements s) as [|x l [IH1 IH2]]; cbn [foldr]; [by split|]. split; [lia|]. constructor; [lia|].
    eapply Forall_impl; [exact IH2|]. intros y Hy. simpl in *. lia. }
  destruct H as [H0 H]. split; [lia|]. intros Hin%elem_of_elements. rewrite Forall_forall in H. apply H in Hin. lia.
Qed.

#[export] Instance demo_system_ok : SystemOk demo_system.
Proof.
  split.
  - intros s a d [= <-]. apply next_fd_new.
  - apply next_fd_new.
  - apply up_to_newline_le.
Qed.

(** The conditions on what is typed and received, as tests. *)
Definition line_ok (l : bytes) : bool := forallb (fun c => negb (c =? 0) && negb (c =? 10)) l && (length l + 2 <? FASTCOPY_MAX)%nat.
Definition piece_ok (d : bytes) : bool := negb (bool_decide (d = [])) && forallb (fun c => negb (c =? 0)) d && (length d <? FASTCOPY_MAX)%nat.

Lemma forallb_Forall {A} (f : A -> bool) (P : A -> Prop) l : (forall x, f x = true -> P x) -> forallb f l = true -> Forall P l.
Proof. intros H Hl. apply Forall_forall. intros x Hx. apply H. rewrite forallb_forall in Hl. by apply Hl, list_elem_of_In. Qed.
Lemma line_ok_copy l : line_ok l = true -> copy_line l.
Proof.
  intros [H1 H2]%andb_true_iff. split; [|by apply Nat.ltb_lt]. eapply forallb_Forall, H1. cbn. intros c [A B]%andb_true_iff.
  apply negb_true_iff in A, B. by apply Z.eqb_neq in A, B.
Qed.
Lemma piece_ok_spec d : piece_ok d = true -> d <> [] /\ Forall (fun c => c <> 0) d /\ (length d < FASTCOPY_MAX)%nat.
Proof.
  intros [[H1 H2]%andb_true_iff H3]%andb_true_iff. split; [by apply negb_true_iff, bool_decide_eq_false in H1|].
  split; [|by apply Nat.ltb_lt]. eapply forallb_Forall, H2. cbn. intros c A%negb_true_iff. by apply Z.eqb_neq.
Qed.

Lemma demo_typed lines sent input :
  forallb line_ok lines && (length lines <? 10)%nat && forallb piece_ok input = true -> mjoin input = mjoin sent ->
  fst <$> (match copy_client [str "-p"; str "80"; str "-h"; str "me"] 10 (replicate FASTCOPY_MAX 0) (mjoin ((fun l => l ++ [10]) <$> lines))
     (mk_process ∅ (mk_output [] []) [] 0) with Ok r => Some r | Err _ => None end) = Some (0, sent) ->
  typed_at_client lines input.
Proof.
  intros [[Hl Hn%Nat.ltb_lt]%andb_true_iff Hp]%andb_true_iff Hj Hrun. destruct (copy_client _ _ _ _ _) as [[r p']|f] eqn:E; [|done]. injection Hrun as ->.
  exists [str "-p"; str "80"; str "-h"; str "me"], 10%nat, (replicate FASTCOPY_MAX 0), (mk_process ∅ (mk_output [] []) [] 0), p', sent. split; [by eapply forallb_Forall; [apply line_ok_copy|]|]. split; [exact Hn|]. split; [apply length_replicate|].
  split; [apply Nat.ltb_lt; by vm_compute|]. split; [|split; [exact E|]]. { vm_compute. by intros H%elem_of_nil. }
  split; [done|]. by eapply forallb_Forall; [apply piece_ok_spec|].
Qed.

(** Two clients among failures: one types two lines, an empty one and more, the
    other a line that arrives in two pieces. *)
Definition demo_events : list event :=
  [Connects (str "10.0.0.1") [str "hi" ++ [10]; str "you" ++ [10]] true; AcceptFails;
   Connects (str "10.0.0.2") [str "lost" ++ [10]] false; ChildrenEnd 1;
   Connects (str "10.0.0.3") [str "he"; str "re" ++ [10]] true].

Lemma fastcopy_end_to_end_witness :
  exists l children p1,
    copy_server [str "-p"; str "80"] demo_events (mk_process {[0; 1; 2]} (mk_output [] []) [] 0) = Ok (inr (l, children), p1)
    /\ fds p1 = {[l]} ∪ {[0; 1; 2]} /\ length children = 2%nat /\ zombies p1 = 0%nat.
Proof.
  destruct (fastcopy_end_to_end (str "80") demo_events (mk_process {[0; 1; 2]} (mk_output [] []) [] 0)
    [[str "hi"; str "you"; []; str "more"]; [str "here"]]) as (l & cs & p1 & E & H1 & (H2 & H3 & H4) & H5 & H6).
  - done.
  - done.
  - exists [str "0.0.0.0"], (str "0.0.0.0"). split; [done|]. split; [by left|]. by repeat split.
  - constructor; [|constructor; [|constructor]].
    + by apply (demo_typed _ [str "hi" ++ [10]; str "you" ++ [10]]); vm_compute.
    + by apply (demo_typed _ [str "here" ++ [10]]); vm_compute.
  - exists l, cs, p1. split; [exact E|]. split; [exact H2|]. split; [|by rewrite H4].
    by apply Forall2_length in H6.
Defined.
