(* ===== verification/Proxy.v ===== *)
(** The HTTP proxy of assignment 2 (proxy.c): the process that serves one client,
    from the request's first byte to the last of the answer. *)

From S2P Require Import Prelude.
From S2P Require Import Bytes.
From Stdlib Require Import (notations) String.

(* ------------------------------------------------------------------ *)
(** * Strings *)

(** [MAXDATASIZE] *)
Definition MAXDATASIZE : nat := 1024 * 5.

(** A load at a signed index. *)
Definition rd8z {S} (b : bytes) (i : Z) : M S Z := if i <? 0 then fail OutOfBounds else rd8 b (Z.to_nat i).

(** [strcat(dst, src)], [src] a string; [dst] is the whole array. *)
Definition strcat {S} (dst src : bytes) : M S bytes :=
  if (strlen dst <? length dst)%nat then wrn dst (strlen dst) (cstr src ++ [0]) else fail OutOfBounds.

(** [strcpy(dst, src)] into an array of [MAXDATASIZE]: the string copied. *)
Definition strcpy {S} (src : bytes) : M S bytes :=
  if (strlen src <? MAXDATASIZE)%nat then mret (cstr src) else fail OutOfBounds.

(** Whether [s] starts with [t], and [strstr(s, t) != 0]. *)
Fixpoint starts_with (t s : bytes) : bool :=
  match t, s with
  | [], _ => true
  | x :: t', y :: s' => (x =? y) && starts_with t' s'
  | _ :: _, [] => false
  end.
Fixpoint strstr (s t : bytes) : bool :=
  starts_with t s || match s with [] => false | _ :: s' => strstr s' t end.

(* ------------------------------------------------------------------ *)
(** * The state of the child *)

(** [px_input]: what the calls of [recv] on the client's socket return, one
    after the other; [px_client], [px_host]: what was sent to the client and to
    the host; [px_response]: what [recv] on the host's socket returns. *)
Record proxy := mk_proxy {
  px_input : list bytes;
  px_client : list bytes;
  px_host : list bytes;
  px_response : list bytes;
}.
Definition set_px_input (v : list bytes) (p : proxy) : proxy := mk_proxy v (px_client p) (px_host p) (px_response p).
Definition send_client (b : bytes) : M proxy unit :=
  modify (fun p => mk_proxy (px_input p) (px_client p ++ [b]) (px_host p) (px_response p)).
Definition send_host (b : bytes) : M proxy unit :=
  modify (fun p => mk_proxy (px_input p) (px_client p) (px_host p ++ [b]) (px_response p)).

(** [EXIT_FAILURE] *)
Definition EXIT_FAILURE : Z := 1.
Definition bad_request : bytes := str "HTTP/1.0 400 Bad Request" ++ crlf ++ crlf.
Definition not_found : bytes := str "HTTP/1.0 404 Bad Request" ++ crlf ++ crlf.

(** The three lines of every error case. *)
Definition reject (answer : bytes) : M proxy Z := _ ← send_client answer; mret EXIT_FAILURE.

(* ------------------------------------------------------------------ *)
(** * Receiving and parsing *)

(** The test at the end of the receiving loop; the fourth comparison repeats
    the second. *)
Definition ends_headers (totalBuf : bytes) (num_tot : Z) : M proxy bool :=
  a ← rd8z totalBuf (num_tot - 1);
  if negb (a =? 10) then mret false
  else
    b ← rd8z totalBuf (num_tot - 2);
    if negb (b =? 13) then mret false
    else
      c ← rd8z totalBuf (num_tot - 3);
      if negb (c =? 10) then mret false
      else d ← rd8z totalBuf (num_tot - 2); mret (d =? 13).

(** The loop [while ((receivedBytes = recv(...)) > 0)] over the calls' results. *)
Fixpoint receive (input : list bytes) (totalBuf : bytes) (num_tot : Z) : M proxy bytes :=
  match input with
  | [] => _ ← modify (set_px_input []); mret totalBuf
  | [] :: rest => _ ← modify (set_px_input rest); mret totalBuf
  | data :: rest =>
      if (MAXDATASIZE <=? length data)%nat then fail OutOfBounds
      else
        totalBuf ← strcat totalBuf data;
        let num_tot := num_tot + blen data in
        stop ← ends_headers totalBuf num_tot;
        if (stop : bool) then _ ← modify (set_px_input rest); mret totalBuf
        else receive rest totalBuf num_tot
  end.

(** The loops [while (totalBuf[walk] != ' ')]: what is copied. *)
Fixpoint up_to_space {S} (b : bytes) : M S bytes :=
  match b with
  | [] => fail OutOfBounds
  | x :: b' => if x =? SP then mret [] else w ← up_to_space b'; mret (x :: w)
  end.

(** Index of the second colon of a URI, and the number of colons. *)
Fixpoint colons (uri : bytes) : Z := match uri with [] => 0 | x :: u => (if x =? 58 then 1 else 0) + colons u end.
Fixpoint colon_index (n : Z) (uri : bytes) : nat :=
  match uri with
  | [] => 0
  | x :: u => if (x =? 58) && (n =? 1) then 0 else Datatypes.S (colon_index (if x =? 58 then n - 1 else n) u)
  end.

(** The URI cut at its port, and the port. *)
Definition split_port {S} (uri : bytes) : M S (bytes * bytes) :=
  if colons uri =? 2 then
    let k := colon_index 2 uri in
    port ← strcpy (drop (k + 1) uri);
    mret (take k uri, port)
  else mret (uri, str "80").

(** The request that is sent instead of one for a blacklisted host. *)
Definition new_warning : bytes :=
  str "GET http://warning.or.kr HTTP/1.0" ++ crlf ++ crlf ++ str "Host: warning.or.kr" ++ crlf ++ crlf.

(** [while (fgets(blacklist, sizeof(blacklist), stdin)) strcat(tot_blacklist,
    blacklist)], [stdin] being what is left of the input and [tot_blacklist] the
    array as it is. *)
Fixpoint read_blacklist {S} (fuel : nat) (stdin tot_blacklist : bytes) : M S bytes :=
  match fuel with
  | O => fail OutOfFuel
  | Datatypes.S fuel' =>
      match fgets MAXDATASIZE stdin with
      | None => mret tot_blacklist
      | Some (blacklist, stdin) => tot ← strcat tot_blacklist blacklist; read_blacklist fuel' stdin tot
      end
  end.

Section child.
(** The resolver and the connection: [gethostbyname(Host) != NULL],
    [getaddrinfo(Host, PORT) == 0], and whether a socket is connected to the first
    of its addresses. *)
Context (gethostbyname : bytes -> bool) (getaddrinfo connects : bytes -> bytes -> bool).
(** The array of the blacklist. *)
Context (tot_blacklist : bytes).

(** [while ((responseBytes = recv(host_sockfd, ...)) > 0) send(...)] *)
Fixpoint relay (response : list bytes) : M proxy unit :=
  match response with
  | [] | [] :: _ => mret tt
  | data :: rest => if (MAXDATASIZE <=? length data)%nat then fail OutOfBounds else _ ← send_client data; relay rest
  end.

(** From "for redirection" to the end of the child. *)
Definition forward (Host PORT totalBuf : bytes) : M proxy Z :=
  let black := strstr (cstr tot_blacklist) Host in
  let Host := if black then str "warning.or.kr" else Host in
  let PORT := if black then str "80" else PORT in
  let message := if black then new_warning else cstr totalBuf in
  if negb (getaddrinfo Host PORT) then reject not_found
  else if negb (connects Host PORT) then mret EXIT_FAILURE
  else
    _ ← send_host message;
    p ← get;
    _ ← relay (px_response p);
    mret 0.

(** The parsing of the version and the Host header, the text after the URI
    starting at [walk]. *)
Definition parse_rest (totalBuf : bytes) (walk : nat) (method URI Host PORT : bytes) : M proxy Z :=
  let walk := (walk + 1)%nat in
  version ← rdn totalBuf walk 8;
  let walk := (walk + 8)%nat in
  c ← rd8 totalBuf walk;
  if negb (c =? 13) then reject bad_request
  else
    let walk := (walk + 2)%nat in
    _ ← rd8 totalBuf walk;
    HostHead ← strcpy (drop walk totalBuf);
    if negb (starts_with (str "Host: ") HostHead) then reject bad_request
    else if forallb (fun x => x =? SP) (drop 6 HostHead) then reject bad_request
    else if (strlen method =? 0)%nat || (strlen URI =? 0)%nat || (strlen version =? 0)%nat || (strlen HostHead =? 0)%nat
    then reject bad_request
    else forward Host PORT totalBuf.

(** The child, between [fork] and [exit]: the exit status. *)
Definition serve_client : M proxy Z :=
  p ← get;
  totalBuf ← receive (px_input p) (zeros MAXDATASIZE) 0;
  method ← up_to_space totalBuf;
  if negb (strncmp_eq method (str "GET") 3) then reject bad_request
  else
    let walk := (length method + 1)%nat in
    uri ← up_to_space (drop walk totalBuf);
    if negb (strncmp_eq uri (str "http://") 7) then reject bad_request
    else
      '(URI, PORT) ← split_port uri;
      if negb (forallb isdigit (cstr PORT)) then reject bad_request
      else
        Host ← strcpy (drop 7 URI);
        let Host := before 47 Host in
        if negb (gethostbyname Host) then reject bad_request
        else parse_rest totalBuf (walk + length uri) method URI Host PORT.
End child.
