(* ===== verification/ProxyThms.v ===== *)
(** What the proxy's child does with a request: forwarded, redirected or
    rejected, in whatever pieces it arrives. *)

From S2P Require Import Prelude.
From S2P Require Import Bytes.
From S2P Require Import Proxy.
From Stdlib Require Import (notations) String.

(* ------------------------------------------------------------------ *)
(** * Receiving *)

(** The array that holds the text [t]. *)
Definition array_of (t : bytes) : bytes := t ++ zeros (MAXDATASIZE - length t).

(** A text that ends with a line feed and an empty line's end. *)
Definition ends (t : bytes) : bool :=
  (nth (length t - 1) t 0 =? 10) && (nth (length t - 2) t 0 =? 13) && (nth (length t - 3) t 0 =? 10).

Definition no_nul (t : bytes) : Prop := Forall (fun c => c <> 0) t.
Definition text_ok (t : bytes) : Prop := no_nul t /\ (length t < MAXDATASIZE)%nat.

Lemma cstr_zeros n : cstr (zeros n) = [].
Proof. by destruct n. Qed.
Lemma array_cstr t : text_ok t -> cstr (array_of t) = t.
Proof.
  intros [Hn Hl]. unfold array_of. replace (MAXDATASIZE - length t)%nat with (S (MAXDATASIZE - length t - 1)) by lia.
  by apply cstr_app_nul.
Qed.
Lemma length_array t : (length t <= MAXDATASIZE)%nat -> length (array_of t) = MAXDATASIZE.
Proof. intros Hl. unfold array_of. rewrite length_app, length_zeros. lia. Qed.
Lemma get8_array t i : (i < length t)%nat -> get8 (array_of t) i = nth i t 0.
Proof. intros Hi. unfold array_of, get8. by rewrite app_nth1. Qed.

#[local] Opaque MAXDATASIZE.

Section rules.
Context (F : fault -> Prop).

Lemma wlp_strcat {S} t d (Q : bytes -> S -> Prop) s :
  text_ok (t ++ d) -> Q (array_of (t ++ d)) s -> wlp F (strcat (array_of t) d) Q s.
Proof.
  intros [Hn Hl] HQ. rewrite length_app in Hl. apply Forall_app in Hn as [Ht Hd]. unfold strcat, strlen.
  rewrite array_cstr by (split; [done|lia]). rewrite length_array, (proj2 (Nat.ltb_lt _ _)) by lia.
  rewrite cstr_id by done. apply wlp_wrn; [rewrite length_app, length_array; simpl; lia|].
  replace (upd _ _ _) with (array_of (t ++ d)); [exact HQ|]. unfold array_of, upd.
  rewrite take_app_length, <- app_assoc. f_equal. rewrite <- app_assoc. f_equal. rewrite !length_app. cbn [length].
  rewrite drop_app_ge by lia. unfold zeros. rewrite drop_replicate. change ([0] ++ ?l) with (0 :: l).
  replace (MAXDATASIZE - (length t + length d))%nat with (Datatypes.S (MAXDATASIZE - length t - (length t + (length d + 1) - length t))) by lia.
  done.
Qed.

Lemma wlp_rd8z {S} b i (Q : Z -> S -> Prop) s :
  0 <= i < Z.of_nat (length b) -> Q (get8 b (Z.to_nat i)) s -> wlp F (rd8z b i) Q s.
Proof. intros Hi HQ. unfold rd8z. rewrite (proj2 (Z.ltb_ge _ _)) by lia. apply wlp_rd8; [lia|done]. Qed.

(** The test of the loop, on a text that does not start with a line end. *)
Lemma wlp_ends_headers x t (Q : bool -> proxy -> Prop) p :
  x <> 10 -> x <> 13 -> text_ok (x :: t) -> Q (ends (x :: t)) p -> wlp F (ends_headers (array_of (x :: t)) (blen (x :: t))) Q p.
Proof.
  intros H10 H13 [Hn Hl] HQ. unfold ends_headers, ends in *. set (u := x :: t) in *. unfold blen.
  assert (Hu : (1 <= length u)%nat) by (subst u; simpl; lia). assert (H0 : nth 0 u 0 = x) by done.
  assert (Ha : length (array_of u) = MAXDATASIZE) by (apply length_array; lia).
  assert (Hg : forall k z, Z.of_nat k = z -> (1 <= k <= length u)%nat -> get8 (array_of u) (Z.to_nat (Z.of_nat (length u) - z)) = nth (length u - k) u 0).
  { intros k z <- Hk. rewrite get8_array by lia. f_equal. lia. }
  wgo. apply wlp_rd8z; [lia|]. rewrite (Hg 1%nat 1 eq_refl) by lia. destruct (Z.eqb_spec (nth (length u - 1) u 0) 10) as [E1|N1]; cbn [negb andb] in *; [|by wgo].
  assert (2 <= length u)%nat. { destruct (decide (length u = 1%nat)) as [E|]; [|lia]. rewrite E in E1. simpl in E1. congruence. }
  wgo. apply wlp_rd8z; [lia|]. rewrite (Hg 2%nat 2 eq_refl) by lia. destruct (Z.eqb_spec (nth (length u - 2) u 0) 13) as [E2|N2]; cbn [negb andb] in *; [|by wgo].
  assert (3 <= length u)%nat. { destruct (decide (length u = 2%nat)) as [E|]; [|lia]. rewrite E in E2. simpl in E2. congruence. }
  wgo. apply wlp_rd8z; [lia|]. rewrite (Hg 3%nat 3 eq_refl) by lia. destruct (Z.eqb_spec (nth (length u - 3) u 0) 10) as [E3|N3]; cbn [negb andb] in *; [|by wgo].
  wgo. apply wlp_rd8z; [lia|]. wgo. rewrite (Hg 2%nat 2 eq_refl), E2 by lia. exact HQ.
Qed.
End rules.

(** The pieces [ps] of a request, [t] being received: each is one result of
    [recv], and only the last completes the headers. *)
Fixpoint pieces (t : bytes) (ps : list bytes) : Prop :=
  match ps with
  | [] => True
  | [p] => p <> [] /\ ends (t ++ p) = true
  | p :: ps' => p <> [] /\ ends (t ++ p) = false /\ pieces (t ++ p) ps'
  end.

Section receiving.
Context (F : fault -> Prop).

Lemma wlp_receive t ps later (Q : bytes -> proxy -> Prop) pr :
  ps <> [] -> pieces t ps -> text_ok (t ++ mjoin ps) -> nth 0 (t ++ mjoin ps) 10 <> 10 -> nth 0 (t ++ mjoin ps) 13 <> 13 ->
  Q (array_of (t ++ mjoin ps)) (set_px_input later pr) ->
  wlp F (receive (ps ++ later) (array_of t) (blen t)) Q pr.
Proof.
  intros Hne Hp Hok H10 H13. revert t pr Hp Hok H10 H13. induction ps as [|d ps IH]; intros t pr Hp Hok H10 H13 HQ; [done|].
  change (mjoin (d :: ps)) with (d ++ mjoin ps) in *. rewrite app_assoc in *.
  assert (Hd : d <> []) by (destruct ps; apply Hp). pose proof Hok as [Hn Hl]. rewrite !length_app in Hl.
  assert (Hok' : text_ok (t ++ d)).
  { split; [by apply Forall_app in Hn as [Hn _]|]. rewrite length_app. lia. }
  assert (Hx : exists x u, t ++ d = x :: u /\ x <> 10 /\ x <> 13).
  { destruct (t ++ d) as [|x u] eqn:E; [apply app_eq_nil in E as [_ ->]; done|]. by exists x, u. }
  destruct Hx as (x & u & Hx & N10 & N13).
  assert (Hb : blen t + blen d = blen (t ++ d)) by (unfold blen; rewrite length_app; lia).
  cbn [app receive]. destruct d as [|y d']; [done|]. set (d := y :: d') in *.
  rewrite (proj2 (Nat.leb_gt _ _)) by lia. wgo. apply wlp_strcat; [done|]. wgo. rewrite Hb, Hx.
  apply wlp_ends_headers; [done|done|by rewrite <- Hx|]. rewrite <- Hx. destruct ps as [|p ps].
  - destruct Hp as [_ ->]. wgo. cbn in HQ. by rewrite app_nil_r in HQ.
  - destruct Hp as (_ & -> & Hp). by apply IH.
Qed.

Lemma wlp_up_to_space {S} w t (Q : bytes -> S -> Prop) s :
  Forall (fun c => c <> SP) w -> Q w s -> wlp F (up_to_space (w ++ SP :: t)) Q s.
Proof.
  intros Hw. revert Q. induction Hw as [|c w Hc Hw IH]; intros Q HQ; cbn [up_to_space app]; [by wgo|].
  rewrite (proj2 (Z.eqb_neq _ _)) by done. wgo. apply IH. by wgo.
Qed.

Lemma wlp_strcpy {S} w z (Q : bytes -> S -> Prop) s :
  text_ok w -> Q w s -> wlp F (strcpy (w ++ zeros (Datatypes.S z))) Q s.
Proof.
  intros [Hn Hl] HQ. unfold strcpy, strlen. change (zeros (Datatypes.S z)) with (0 :: zeros z). rewrite cstr_app_nul by done.
  rewrite (proj2 (Nat.ltb_lt _ _)) by done. by wgo.
Qed.

Lemma wlp_strcpy_all {S} w (Q : bytes -> S -> Prop) s : text_ok w -> Q w s -> wlp F (strcpy w) Q s.
Proof.
  intros [Hn Hl] HQ. unfold strcpy, strlen. rewrite cstr_id by done. rewrite (proj2 (Nat.ltb_lt _ _)) by done. by wgo.
Qed.

Lemma wlp_relay response (Q : unit -> proxy -> Prop) pr :
  Forall (fun d => d <> [] /\ (length d < MAXDATASIZE)%nat) response ->
  Q tt (mk_proxy (px_input pr) (px_client pr ++ response) (px_host pr) (px_response pr)) -> wlp F (relay response) Q pr.
Proof.
  intros Hr. revert pr. induction Hr as [|d r [Hd Hl] Hr IH]; intros pr HQ; cbn [relay].
  - wgo. rewrite app_nil_r in HQ. by destruct pr.
  - destruct d as [|x d]; [done|]. rewrite (proj2 (Nat.leb_gt _ _)) by done. unfold send_client. wgo. apply IH.
    cbn [px_input px_client px_host px_response]. by rewrite <- app_assoc.
Qed.
End receiving.

(* ------------------------------------------------------------------ *)
(** * Requests *)

(** [GET http://<host><path> <version>], then the Host header and the rest. *)
Record request_parts := mk_parts { rq_host : bytes; rq_path : bytes; rq_version : bytes; rq_headers : bytes }.
Definition request_text (r : request_parts) : bytes :=
  str "GET" ++ SP :: (str "http://" ++ rq_host r ++ rq_path r) ++ SP :: rq_version r ++ crlf ++ str "Host: " ++ rq_headers r.

Definition plain (c : Z) : Prop := c <> 0 /\ c <> SP /\ c <> 58.
Record parts_ok (r : request_parts) : Prop := {
  parts_host : Forall (fun c => plain c /\ c <> 47) (rq_host r);
  parts_path : rq_path r = [] \/ exists p, rq_path r = 47 :: p /\ Forall plain p;
  parts_version : length (rq_version r) = 8%nat /\ no_nul (rq_version r);
  parts_headers : no_nul (rq_headers r) /\ Exists (fun c => c <> SP) (rq_headers r);
  parts_length : (length (request_text r) < MAXDATASIZE)%nat;
}.

(** What is sent to the client, what to the host, and the exit status. *)
Definition outcome (gethostbyname : bytes -> bool) (getaddrinfo connects : bytes -> bytes -> bool) (tot_blacklist : bytes)
    (r : request_parts) (response : list bytes) : list bytes * list bytes * Z :=
  if negb (gethostbyname (rq_host r)) then ([bad_request], [], EXIT_FAILURE)
  else
    let black := strstr (cstr tot_blacklist) (rq_host r) in
    let '(host, port, message) :=
      if black then (str "warning.or.kr", str "80", new_warning) else (rq_host r, str "80", request_text r) in
    if negb (getaddrinfo host port) then ([not_found], [], EXIT_FAILURE)
    else if negb (connects host port) then ([], [], EXIT_FAILURE)
    else (response, [message], 0).

Lemma colons_plain u : Forall (fun c => c <> 58) u -> colons u = 0.
Proof. induction 1 as [|c u Hc _ IH]; [done|]. cbn [colons]. by rewrite (proj2 (Z.eqb_neq _ _)), IH. Qed.
Lemma colons_app u v : colons (u ++ v) = colons u + colons v.
Proof. induction u as [|c u IH]; [done|]. cbn [colons app]. rewrite IH. lia. Qed.
Lemma before_app c w t : Forall (fun x => x <> c) w -> before c (w ++ t) = w ++ before c t.
Proof. induction 1 as [|x w Hx _ IH]; [done|]. cbn [before app]. by rewrite (proj2 (Z.eqb_neq _ _)), IH. Qed.

Lemma strncmp_prefix w t : no_nul w -> no_nul t -> strncmp_eq (w ++ t) w (length w) = true.
Proof.
  intros Hw Ht. apply strncmp_eq_true. rewrite !cstr_id by (done || by apply Forall_app).
  by rewrite take_app_length, take_ge by lia.
Qed.
Lemma starts_with_app w t : starts_with w (w ++ t) = true.
Proof. induction w as [|x w IH]; [done|]. cbn [starts_with app]. by rewrite Z.eqb_refl. Qed.

Lemma forallb_exists (P : Z -> bool) l : Exists (fun c => P c = false) l -> forallb P l = false.
Proof. induction 1 as [x l Hx|x l _ IH]; cbn [forallb]; [by rewrite Hx|]. by rewrite IH, andb_false_r. Qed.

Lemma rdn_at {S} F (a b c : bytes) o n (Q : bytes -> S -> Prop) s :
  length a = o -> length b = n -> Q b s -> wlp F (rdn (a ++ b ++ c) o n) Q s.
Proof.
  intros <- <- HQ. apply wlp_rdn; [rewrite !length_app; lia|]. unfold slice. by rewrite drop_app_length, take_app_length.
Qed.

Lemma rd8_at {S} F (a : bytes) x c o (Q : Z -> S -> Prop) s : length a = o -> Q x s -> wlp F (rd8 (a ++ x :: c) o) Q s.
Proof.
  intros <- HQ. apply wlp_rd8; [rewrite length_app; simpl; lia|]. unfold get8. by rewrite nth_middle.
Qed.

Section serving.
Context (F : fault -> Prop) (gethostbyname : bytes -> bool) (getaddrinfo connects : bytes -> bytes -> bool) (tot_blacklist : bytes).

Lemma wlp_forward host text (Q : Z -> proxy -> Prop) pr :
  text_ok text -> Forall (fun d => d <> [] /\ (length d < MAXDATASIZE)%nat) (px_response pr) ->
  (let black := strstr (cstr tot_blacklist) host in
   let '(h, port, message) := if black then (str "warning.or.kr", str "80", new_warning) else (host, str "80", text) in
   let '(answers, sent, status) :=
     if negb (getaddrinfo h port) then ([not_found], [], EXIT_FAILURE)
     else if negb (connects h port) then ([], [], EXIT_FAILURE) else (px_response pr, [message], 0) in
   Q status (mk_proxy (px_input pr) (px_client pr ++ answers) (px_host pr ++ sent) (px_response pr))) ->
  wlp F (forward getaddrinfo connects tot_blacklist host (str "80") (array_of text)) Q pr.
Proof.
  intros Ht Hr HQ. unfold forward, reject, send_client, send_host in *. rewrite array_cstr by done. cbv zeta in *.
  assert (Hpr : mk_proxy (px_input pr) (px_client pr ++ []) (px_host pr ++ []) (px_response pr) = pr) by (destruct pr; simpl; by rewrite !app_nil_r).
  destruct (strstr (cstr tot_blacklist) host).
  all: destruct (negb (getaddrinfo _ _)); [wgo; by rewrite app_nil_r in HQ|].
  all: destruct (negb (connects _ _)); [wgo; by rewrite Hpr in HQ|].
  all: wgo; apply wlp_relay; [done|]; wgo; exact HQ.
Qed.

Lemma wlp_parse_rest A v headers z method uri host (Q : Z -> proxy -> Prop) pr :
  let text := A ++ [SP] ++ v ++ crlf ++ str "Host: " ++ headers in
  array_of text = text ++ zeros (S z) -> text_ok text -> length v = 8%nat -> (0 < strlen v)%nat -> (0 < strlen method)%nat -> (0 < strlen uri)%nat ->
  Exists (fun c => c <> SP) headers ->
  wlp F (forward getaddrinfo connects tot_blacklist host (str "80") (array_of text)) Q pr ->
  wlp F (parse_rest getaddrinfo connects tot_blacklist (array_of text) (length A) method uri host (str "80")) Q pr.
Proof.
  intros text Ha Ht Hv Hsv Hm Hu Hh HQ. set (hd := str "Host: " ++ headers) in *.
  assert (Hhd : text_ok hd).
  { destruct Ht as [Hn Hl]. subst text. rewrite !length_app in Hl. apply Forall_app in Hn as [_ Hn]. apply Forall_app in Hn as [_ Hn]. apply Forall_app in Hn as [_ Hn].
    apply Forall_app in Hn as [_ Hn]. split; [done|lia]. }
  assert (E1 : array_of text = (A ++ [SP]) ++ v ++ (crlf ++ hd ++ zeros (S z))).
  { rewrite Ha. subst text hd. by rewrite <- !app_assoc. }
  assert (E2 : array_of text = (A ++ [SP] ++ v) ++ 13 :: (10 :: hd ++ zeros (S z))) by (rewrite E1; by rewrite <- !app_assoc).
  assert (E3 : array_of text = (A ++ [SP] ++ v ++ crlf) ++ 72 :: (drop 1 hd ++ zeros (S z))) by (rewrite E1; by rewrite <- !app_assoc).
  unfold parse_rest. cbv zeta. rewrite E1 at 1. wgo. apply rdn_at; [rewrite length_app; done|done|]. wgo.
  rewrite E2 at 1. apply rd8_at; [rewrite !length_app, Hv; simpl; lia|]. wif.
  rewrite E3 at 1. apply rd8_at; [rewrite !length_app, Hv; simpl; lia|]. wgo.
  assert (Ed : drop (length A + 1 + 8 + 2) (array_of text) = hd ++ zeros (S z)).
  { rewrite E3. replace (length A + 1 + 8 + 2)%nat with (length (A ++ [SP] ++ v ++ crlf)) by (rewrite !length_app, Hv; simpl; lia).
    by rewrite drop_app_length. }
  rewrite Ed. apply wlp_strcpy; [done|]. wgo. subst hd. rewrite starts_with_app. cbn [negb].
  change (drop 6 (str "Host: " ++ headers)) with headers.
  rewrite forallb_exists by (eapply Exists_impl; [exact Hh|]; intros c Hc; by apply Z.eqb_neq).
  rewrite !(proj2 (Nat.eqb_neq _ _)); [exact HQ|..]; try lia. unfold strlen. change (str "Host: " ++ headers) with (72 :: drop 1 (str "Host: " ++ headers)).
  done.
Qed.
End serving.

(** A request as it arrives: [text] in pieces, the first of which does not start
    with a line end. *)
Definition arrives (text : bytes) (pr : proxy) (later : list bytes) : Prop :=
  exists ps, px_input pr = ps ++ later /\ ps <> [] /\ pieces [] ps /\ mjoin ps = text /\ text_ok text
    /\ nth 0 text 10 <> 10 /\ nth 0 text 13 <> 13.

Section theorem.
Context (gethostbyname : bytes -> bool) (getaddrinfo connects : bytes -> bytes -> bool) (tot_blacklist : bytes).
Abbreviation serve := (serve_client gethostbyname getaddrinfo connects tot_blacklist).

Lemma array_zeros text : text_ok text -> exists z, array_of text = text ++ zeros (S z).
Proof. intros [_ Hl]. exists (MAXDATASIZE - length text - 1)%nat. unfold array_of. do 2 f_equal. lia. Qed.

(** The method, and the text after it. *)
Lemma wlp_serve_method F w t later (Q : Z -> proxy -> Prop) pr :
  arrives (w ++ SP :: t) pr later -> Forall (fun c => c <> SP) w ->
  (forall z, array_of (w ++ SP :: t) = w ++ SP :: t ++ zeros (S z) ->
   if strncmp_eq w (str "GET") 3
   then wlp F (uri ← up_to_space (t ++ zeros (S z));
     if negb (strncmp_eq uri (str "http://") 7) then reject bad_request
     else
       '(URI, PORT) ← split_port uri;
       if negb (forallb isdigit (cstr PORT)) then reject bad_request
       else
         Host ← strcpy (drop 7 URI);
         let Host := before 47 Host in
         if negb (gethostbyname Host) then reject bad_request
         else parse_rest getaddrinfo connects tot_blacklist (array_of (w ++ SP :: t)) (length w + 1 + length uri) w URI Host PORT)
       Q (set_px_input later pr)
   else Q EXIT_FAILURE (mk_proxy later (px_client pr ++ [bad_request]) (px_host pr) (px_response pr))) ->
  wlp F serve Q pr.
Proof.
  intros (ps & Hin & Hne & Hps & Hj & Ht & H10 & H13) Hw HQ. unfold serve_client. wgo. rewrite Hin.
  change (zeros MAXDATASIZE) with (array_of []). change 0 with (blen []). rewrite <- Hj in Ht, H10, H13.
  eapply wlp_receive; [done|done|exact Ht|exact H10|exact H13|]. cbn [app]. rewrite Hj in *. wgo.
  destruct (array_zeros _ Ht) as [z Hz]. assert (Hz' : array_of (w ++ SP :: t) = w ++ SP :: t ++ zeros (S z)) by (rewrite Hz; by rewrite <- app_assoc).
  specialize (HQ z Hz'). rewrite Hz' at 1. apply wlp_up_to_space; [done|]. wgo.
  destruct (strncmp_eq w (str "GET") 3); cbn [negb].
  - cbv zeta. rewrite Hz' at 1. replace (drop (length w + 1) (w ++ SP :: t ++ zeros (S z))) with (t ++ zeros (S z)); [exact HQ|].
    replace (w ++ SP :: t ++ zeros (S z)) with ((w ++ [SP]) ++ t ++ zeros (S z)) by by rewrite <- app_assoc.
    replace (length w + 1)%nat with (length (w ++ [SP])) by by rewrite length_app. by rewrite drop_app_length.
  - unfold reject, send_client. wgo. exact HQ.
Qed.

Lemma wlp_serve_get F r later (Q : Z -> proxy -> Prop) pr :
  parts_ok r -> arrives (request_text r) pr later -> Forall (fun d => d <> [] /\ (length d < MAXDATASIZE)%nat) (px_response pr) ->
  (let '(answers, sent, status) := outcome gethostbyname getaddrinfo connects tot_blacklist r (px_response pr) in
   Q status (mk_proxy later (px_client pr ++ answers) (px_host pr ++ sent) (px_response pr))) ->
  wlp F serve Q pr.
Proof.
  intros [Ph Pp [Pv Pv'] [Pn Pe] Pl] Ha Hr HQ. set (uri := str "http://" ++ rq_host r ++ rq_path r).
  assert (Hpl : Forall plain (rq_host r)) by (eapply Forall_impl; [exact Ph|]; by intros c [H _]).
  assert (Hpp : Forall plain (rq_path r)).
  { destruct Pp as [->|(p & -> & Hp)]; [constructor|]. constructor; [by repeat split|done]. }
  assert (Hup : Forall (fun c => c <> 0 /\ c <> SP) uri).
  { apply Forall_app. split; [by repeat constructor|]. apply Forall_app. split; (eapply Forall_impl; [eassumption|]; unfold plain; tauto). }
  eapply wlp_serve_method; [exact Ha|by repeat constructor|]. intros z Hz. change (strncmp_eq (str "GET") (str "GET") 3) with true. cbv iota.
  fold uri. fold uri in Hz. pose proof Ha as (_ & _ & _ & _ & _ & Ht & _).
  rewrite <- (app_assoc uri (SP :: _)). rewrite <- app_comm_cons. wgo. apply wlp_up_to_space; [eapply Forall_impl; [exact Hup|]; by intros c [_ H]|].
  assert (Hn : no_nul (rq_host r ++ rq_path r)).
  { apply Forall_app. split; (eapply Forall_impl; [eassumption|]; unfold plain; tauto). }
  assert (Hs : strncmp_eq uri (str "http://") 7 = true) by (apply (strncmp_prefix (str "http://")); [by repeat constructor|done]).
  rewrite Hs. wgo. cbn [negb]. wgo. unfold split_port.
  assert (Hc : colons uri = 1).
  { subst uri. rewrite !colons_app. rewrite (colons_plain (rq_host r)), (colons_plain (rq_path r));
      [done|eapply Forall_impl; [exact Hpp|]; unfold plain; tauto|eapply Forall_impl; [exact Hpl|]; unfold plain; tauto]. }
  rewrite Hc. wif. wif. change (drop 7 uri) with (rq_host r ++ rq_path r).
  assert (Hlen : (length uri < MAXDATASIZE)%nat).
  { unfold request_text in Pl. fold uri in Pl. rewrite !length_app in Pl. cbn [length] in Pl. rewrite !length_app in Pl. lia. }
  apply wlp_strcpy_all; [split; [done|]; subst uri; rewrite length_app in Hlen; lia|]. wgo.
  assert (Hb : before 47 (rq_host r ++ rq_path r) = rq_host r).
  { rewrite before_app by (eapply Forall_impl; [exact Ph|]; by intros c [_ H]).
    destruct Pp as [->|(p & -> & _)]; cbn [before]; rewrite ?Z.eqb_refl; by rewrite app_nil_r. }
  rewrite Hb. unfold outcome in HQ. destruct (gethostbyname (rq_host r)); cbn [negb] in *.
  2:{ unfold reject, send_client. wgo. by rewrite app_nil_r in HQ. }
  change (array_of (str "GET" ++ SP :: uri ++ SP :: rq_version r ++ crlf ++ str "Host: " ++ rq_headers r)) with (array_of (request_text r)).
  change (length (str "GET") + 1 + length uri)%nat with (length (str "GET" ++ SP :: uri)).
  set (A := str "GET" ++ SP :: uri).
  assert (Htext : request_text r = A ++ [SP] ++ rq_version r ++ crlf ++ str "Host: " ++ rq_headers r).
  { subst A. unfold request_text. fold uri. by rewrite <- app_assoc. }
  assert (Hz3 : array_of (request_text r) = request_text r ++ zeros (S z)).
  { unfold request_text. fold uri. rewrite Hz. by rewrite <- (app_assoc (str "GET")). }
  clearbody A. rewrite Htext in *.
  apply (wlp_parse_rest _ _ _ _ A (rq_version r) (rq_headers r) z); [exact Hz3|exact Ht| exact Pv| | | | |].
  - unfold strlen. rewrite (cstr_id (rq_version r)), Pv by exact Pv'. lia.
  - vm_compute. lia.
  - unfold strlen, uri. rewrite cstr_id; [rewrite length_app; simpl; lia|]. eapply Forall_impl; [exact Hup|]. by intros c [H _].
  - done.
  - apply wlp_forward; [exact Ht|exact Hr|]. cbv zeta in *. destruct (strstr (cstr tot_blacklist) (rq_host r)).
    all: destruct (negb (getaddrinfo _ _)); [exact HQ|]. all: destruct (negb (connects _ _)); exact HQ.
Qed.

Lemma colon_index_plain n u v : Forall (fun c => c <> 58) u -> colon_index n (u ++ v) = (length u + colon_index n v)%nat.
Proof. induction 1 as [|c u Hc _ IH]; [done|]. cbn [colon_index app length]. rewrite (proj2 (Z.eqb_neq _ _)) by done. cbn [andb]. by rewrite IH. Qed.

(** A URI cut at its port. *)
Lemma wlp_split_port F {S} host port (Q : bytes * bytes -> S -> Prop) s :
  Forall plain host -> Forall plain port -> (length port < MAXDATASIZE)%nat ->
  Q (str "http://" ++ host, port) s -> wlp F (split_port (str "http://" ++ host ++ 58 :: port)) Q s.
Proof.
  intros Hh Hp Hl HQ. unfold split_port.
  assert (Hh' : Forall (fun c => c <> 58) host) by (eapply Forall_impl; [exact Hh|]; unfold plain; tauto).
  assert (Hp' : Forall (fun c => c <> 58) port) by (eapply Forall_impl; [exact Hp|]; unfold plain; tauto).
  assert (Hc : colons (str "http://" ++ host ++ 58 :: port) = 2).
  { rewrite !colons_app. cbn [colons]. by rewrite (colons_plain host), (colons_plain port). }
  rewrite Hc. wif. cbv zeta.
  assert (Hk : colon_index 2 (str "http://" ++ host ++ 58 :: port) = (7 + length host)%nat).
  { change (colon_index 2 (str "http://" ++ host ++ 58 :: port)) with (Nat.add 7 (colon_index 1 (host ++ 58 :: port))).
    rewrite colon_index_plain by done. simpl. lia. }
  rewrite Hk. rewrite app_assoc. replace (7 + length host)%nat with (length (str "http://" ++ host)) by by rewrite length_app.
  rewrite take_app_length. change (58 :: port) with ([58] ++ port). rewrite (app_assoc _ [58]).
  replace (length (str "http://" ++ host) + 1)%nat with (length ((str "http://" ++ host) ++ [58])) by (rewrite !length_app; done).
  rewrite drop_app_length. wgo. apply wlp_strcpy_all; [split; [|done]|by wgo].
  eapply Forall_impl; [exact Hp|]. by intros c [H _].
Qed.

(** A port that holds a slash. *)
Lemma wlp_serve_port_path F host port path t later (Q : Z -> proxy -> Prop) pr :
  Forall plain host -> Forall plain port -> Forall plain path -> (length (port ++ 47%Z :: path) < MAXDATASIZE)%nat ->
  arrives (str "GET" ++ SP :: (str "http://" ++ host ++ 58 :: port ++ 47 :: path) ++ SP :: t) pr later ->
  Q EXIT_FAILURE (mk_proxy later (px_client pr ++ [bad_request]) (px_host pr) (px_response pr)) ->
  wlp F serve Q pr.
Proof.
  intros Hh Hp Ht Hl Ha HQ. set (pp := port ++ 47 :: path) in *.
  assert (Hpp : Forall plain pp) by (apply Forall_app; split; [done|]; constructor; [by repeat split|done]).
  set (uri := str "http://" ++ host ++ 58 :: pp) in *.
  assert (Hu : Forall (fun c => c <> 0 /\ c <> SP) uri).
  { apply Forall_app. split; [by repeat constructor|]. apply Forall_app. split; [|constructor; [by repeat split|]].
    all: eapply Forall_impl; [eassumption|]; unfold plain; tauto. }
  eapply wlp_serve_method; [exact Ha|by repeat constructor|]. intros z _. change (strncmp_eq (str "GET") (str "GET") 3) with true. cbv iota.
  rewrite <- (app_assoc uri (SP :: _)), <- app_comm_cons. wgo. apply wlp_up_to_space; [eapply Forall_impl; [exact Hu|]; by intros c [_ H]|].
  assert (Hs : strncmp_eq uri (str "http://") 7 = true).
  { apply (strncmp_prefix (str "http://")); [by repeat constructor|]. subst uri. apply Forall_app in Hu as [_ Hu].
    eapply Forall_impl; [exact Hu|]. by intros c [H _]. }
  rewrite Hs. cbn [negb]. wgo. apply wlp_split_port; [done|done|done|].
  rewrite cstr_id by (eapply Forall_impl; [exact Hpp|]; by intros c [H _]).
  rewrite forallb_exists by (apply Exists_app; right; by constructor). cbn [negb].
  unfold reject, send_client. wgo. exact HQ.
Qed.

(** C21: the child of the proxy, the request arriving in any pieces ([arrives]).
    A GET request for [http://host/path] with a Host header is answered with
    what the host sends, the request being passed on byte for byte, or with what
    [warning.or.kr] sends when the host's name is in the blacklist's text, or
    with an error when the name or the connection fails; the exit status tells
    which. A request whose method does not start with [GET] gets "400 Bad
    Request". So does every request whose URI has both a port and a path: the
    port's text runs to the end of the URI, and [/] is not a digit. *)
Theorem proxy_serves pr later :
  (forall r, parts_ok r -> arrives (request_text r) pr later ->
     Forall (fun d => d <> [] /\ (length d < MAXDATASIZE)%nat) (px_response pr) ->
     let '(answers, sent, status) := outcome gethostbyname getaddrinfo connects tot_blacklist r (px_response pr) in
     serve pr = Ok (status, mk_proxy later (px_client pr ++ answers) (px_host pr ++ sent) (px_response pr)))
  /\ (forall method t, arrives (method ++ SP :: t) pr later -> Forall (fun c => c <> SP) method ->
     strncmp_eq method (str "GET") 3 = false ->
     serve pr = Ok (EXIT_FAILURE, mk_proxy later (px_client pr ++ [bad_request]) (px_host pr) (px_response pr)))
  /\ (forall host port path t, Forall plain host -> Forall plain port -> Forall plain path ->
     arrives (str "GET" ++ SP :: (str "http://" ++ host ++ 58 :: port ++ 47 :: path) ++ SP :: t) pr later ->
     serve pr = Ok (EXIT_FAILURE, mk_proxy later (px_client pr ++ [bad_request]) (px_host pr) (px_response pr))).
Proof.
  split; [|split].
  - intros r Hr Ha Hc. destruct (outcome _ _ _ _ r (px_response pr)) as [[answers sent] status] eqn:E.
    assert (H : wlp (fun _ => False) serve (fun v p => v = status /\
      p = mk_proxy later (px_client pr ++ answers) (px_host pr ++ sent) (px_response pr)) pr).
    { eapply wlp_serve_get; [exact Hr|exact Ha|exact Hc|]. by rewrite E. }
    by apply wlp_total in H as (v & p & H & -> & ->).
  - intros method t Ha Hm Hg.
    assert (H : wlp (fun _ => False) serve (fun v p => v = EXIT_FAILURE /\
      p = mk_proxy later (px_client pr ++ [bad_request]) (px_host pr) (px_response pr)) pr).
    { eapply wlp_serve_method; [exact Ha|exact Hm|]. intros z _. by rewrite Hg. }
    by apply wlp_total in H as (v & p & H & -> & ->).
  - intros host port path t Hh Hp Ht Ha.
    assert (H : wlp (fun _ => False) serve (fun v p => v = EXIT_FAILURE /\
      p = mk_proxy later (px_client pr ++ [bad_request]) (px_host pr) (px_response pr)) pr).
    { eapply (wlp_serve_port_path _ host port path); [done|done|done| |exact Ha|done].
      destruct Ha as (_ & _ & _ & _ & _ & [_ Hl] & _). rewrite !length_app in Hl. cbn [length] in Hl. rewrite !length_app in *.
      cbn [length] in *. rewrite !length_app in *. cbn [length] in *. lia. }
    by apply wlp_total in H as (v & p & H & -> & ->).
Qed.
End theorem.

#[local] Transparent MAXDATASIZE.

(** A request in two pieces. *)
Definition demo_parts : request_parts :=
  mk_parts (str "a.kr") (str "/x") (str "HTTP/1.0") (str "a.kr" ++ crlf ++ crlf).
Definition demo_proxy : proxy :=
  mk_proxy [take 12 (request_text demo_parts); drop 12 (request_text demo_parts)] [] [] [str "HTTP/1.0 200 OK"; str "hello"].

Lemma proxy_serves_witness :
  serve_client (fun _ => true) (fun _ _ => true) (fun _ _ => true) [0] demo_proxy
    = Ok (0, mk_proxy [] [str "HTTP/1.0 200 OK"; str "hello"] [request_text demo_parts] [str "HTTP/1.0 200 OK"; str "hello"]).
Proof.
  refine (proj1 (proxy_serves (fun _ => true) (fun _ _ => true) (fun _ _ => true) [0] demo_proxy []) demo_parts _ _ _).
  - split.
    + by repeat constructor.
    + right. exists (str "x"). split; [done|]. by repeat constructor.
    + by repeat constructor.
    + split; [by repeat constructor|]. by apply Exists_cons_hd.
    + vm_compute. lia.
  - exists (px_input demo_proxy). repeat split; try by vm_compute. 2:{ vm_compute. lia. }
    by repeat constructor.
  - apply Forall_cons. split; [split; [done|vm_compute; lia]|]. apply Forall_cons. split; [split; [done|vm_compute; lia]|done].
Defined.
