(* ===== verification/ProxyMain.v ===== *)
(** The parent of the proxy of assignment 2 (proxy.c), and the descriptors of its
    children: the main program around the child of Proxy.v. *)

From S2P Require Import Prelude.
From S2P Require Import Bytes.
From S2P Require Import Stdio.
From S2P Require Import ForkServer.
From S2P Require Import Proxy.
From S2P Require Import ProxyThms.
From Stdlib Require Import (notations) String.

Section programs.
Context {Y : System}.

(** [main] up to the accept loop and through the [accept]s of [evs]: the exit
    status, or the listening socket, the blacklist's array and the children.
    [polled]: whether [poll] found something to read on the standard input
    [stdin]; [tot_blacklist]: that array as it is. Nothing is printed for a
    client. *)
Definition proxy_main (args : list bytes) (fuel : nat) (polled : bool) (stdin tot_blacklist : bytes) (evs : list event)
    : M process (Z + Z * bytes * list child) :=
  if negb (length args =? 1)%nat then mret (inl 1)
  else
    PORT ← deref (args !! 0%nat);
    tot_blacklist ← (if polled then read_blacklist fuel stdin tot_blacklist else mret tot_blacklist);
    r ← start_listening PORT;
    match r with
    | inl status => mret (inl status)
    | inr sockfd =>
        cs ← accept_loop (fun _ => []) evs;
        mret (inr (sockfd, tot_blacklist, cs))
    end.

(** A child from [fork] to [exit] with what was sent on its sockets: [serve] is
    Proxy.v's [serve_client], whose every end closes [new_fd]. *)
Definition proxy_child (serve : M proxy Z) (sockfd : Z) (c : child) (response : list bytes) : M process (Z * proxy) :=
  _ ← close sockfd;
  '(status, px) ← lift (serve (mk_proxy (child_input c) [] [] response));
  _ ← close (child_fd c);
  _ ← flush_all;
  mret (status, px).
End programs.

(* ------------------------------------------------------------------ *)
(** * Facts *)

(** What [fgets] returns is the front of the file, and not empty. *)
Lemma fgets_line_app n f : fst (fgets_line n f) ++ snd (fgets_line n f) = f.
Proof.
  revert f. induction n as [|n IH]; intros [|c f]; cbn [fgets_line]; [done..|]. destruct (c =? 10); [done|].
  specialize (IH f). destruct (fgets_line n f) as [l r]. cbn in *. by rewrite IH.
Qed.
Lemma fgets_app n f line rest : (1 < n)%nat -> fgets n f = Some (line, rest) -> f = line ++ rest /\ (length rest < length f)%nat.
Proof.
  intros Hn. unfold fgets. destruct f as [|c f]; [done|]. intros [= H]. pose proof (fgets_line_app (n - 1) (c :: f)) as E.
  rewrite H in E. cbn [fst snd] in E. split; [done|]. rewrite <- E, length_app.
  destruct line as [|x line]; [|cbn; lia]. exfalso. destruct n as [|[|n]]; [lia..|]. cbn [Nat.sub fgets_line] in H.
  destruct (c =? 10); [done|]. destruct (fgets_line _ f). done.
Qed.

(** The blacklist is all of the standard input that fits the array. *)
Lemma wlp_read_blacklist F {S} fuel stdin t (Q : bytes -> S -> Prop) s :
  text_ok (t ++ stdin) -> (length stdin < fuel)%nat -> Q (array_of (t ++ stdin)) s ->
  wlp F (read_blacklist fuel stdin (array_of t)) Q s.
Proof.
  revert stdin t. induction fuel as [|fuel IH]; intros stdin t Hok Hf HQ; [lia|]. cbn [read_blacklist].
  destruct (fgets MAXDATASIZE stdin) as [[line rest]|] eqn:E.
  - destruct (fgets_app MAXDATASIZE stdin line rest ltac:(vm_compute; lia) E) as [-> Hlt]. wgo. rewrite app_assoc in *. apply wlp_strcat.
    + destruct Hok as [H1 H2]. split; [by apply Forall_app in H1 as [H1 _]|]. rewrite length_app in H2. lia.
    + apply IH; [done|lia|done].
  - wgo. destruct stdin; [|done]. by rewrite app_nil_r in HQ.
Qed.

Section facts.
Context {Y : System} {YOk : SystemOk Y}.

Lemma wlp_proxy_main F PORT fuel polled stdin evs p0 :
  zombies p0 = 0%nat -> can_listen PORT -> text_ok stdin -> (length stdin < fuel)%nat ->
  wlp F (proxy_main [PORT] fuel polled stdin (array_of []) evs) (fun r p1 => exists l cs,
    r = inr (l, array_of (if polled then stdin else []), cs) /\ l ∉ fds p0 /\ with_fds ({[l]} ∪ fds p0) p0 p1 /\ printed p1 = printed p0
    /\ Forall2 (child_of (fun _ => []) ({[l]} ∪ fds p0) (bad_closes p0)) (accepted evs) cs) p0.
Proof.
  intros Hz Hcan Hok Hf. unfold proxy_main. cbn [length Nat.eqb negb]. unfold deref. cbn. wgo.
  assert (Hb : forall Q, Q (array_of (if polled then stdin else [])) p0 ->
    wlp F (if polled then read_blacklist fuel stdin (array_of []) else mret (array_of [])) Q p0).
  { intros Q HQ. destruct polled; [by apply wlp_read_blacklist|by wgo]. }
  apply Hb. wgo. eapply wlp_mono; [apply wlp_start|]. intros [status|l] p1 H; [by destruct H|]. destruct H as (_ & Hl & ->). wgo.
  eapply wlp_mono; [by apply wlp_accept_loop|]. intros cs p2 (Hw & Hp & Hcs). wgo. exists l, cs. split; [done|]. split; [done|].
  split; [exact Hw|]. split; [|exact Hcs]. rewrite Hp. replace (announced _ evs) with (@nil Z); [apply app_nil_r|].
  clear. induction evs as [|[] evs IH]; by cbn.
Qed.

Lemma proxy_child_ends l s bad conn c serve response status px :
  l ∉ s -> child_of (fun _ => []) ({[l]} ∪ s) bad conn c -> serve (mk_proxy (snd conn) [] [] response) = Ok (status, px) ->
  exists p', proxy_child serve l c response (child_process c) = Ok ((status, px), p') /\ fds p' = s /\ bad_closes p' = bad.
Proof.
  intros Hl (E1 & _ & E3 & E4 & E5 & _) Es.
  destruct (wlp_total (proxy_child serve l c response) (fun r p' => r = (status, px) /\ fds p' = s /\ bad_closes p' = bad) (child_process c))
    as (r & p' & E & -> & H); [|by eexists].
  unfold proxy_child. wgo. apply wlp_close_fd; [set_solver|]. wgo. rewrite E1, Es. cbn [lift]. wgo. apply wlp_close_fd; [cbn; set_solver|].
  unfold flush_all. wgo. split; [done|]. cbn. split; [rewrite E4; set_solver|done].
Qed.

(** The parent, on a port it can listen on and with a blacklist that fits: it keeps
    its descriptors and the listening socket whatever comes, prints nothing, waits
    for every child that ended, and makes a child for each connection that [fork]
    makes one for. Such a child leaves the parent's other descriptors. *)
Theorem proxy_parent PORT fuel polled stdin evs p0 :
  zombies p0 = 0%nat -> can_listen PORT -> text_ok stdin -> (length stdin < fuel)%nat ->
  exists l children p1,
    proxy_main [PORT] fuel polled stdin (array_of []) evs p0
      = Ok (inr (l, array_of (if polled then stdin else []), children), p1)
    /\ l ∉ fds p0 /\ with_fds ({[l]} ∪ fds p0) p0 p1 /\ printed p1 = printed p0
    /\ Forall2 (fun conn c => child_input c = snd conn /\ forall serve response status px,
         serve (mk_proxy (snd conn) [] [] response) = Ok (status, px) ->
         exists p', proxy_child serve l c response (child_process c) = Ok ((status, px), p')
           /\ fds p' = fds p0 /\ bad_closes p' = bad_closes p0) (accepted evs) children.
Proof.
  intros Hz Hcan Hok Hf.
  destruct (wlp_total _ _ _ (wlp_proxy_main _ PORT fuel polled stdin evs p0 Hz Hcan Hok Hf)) as (r & p1 & E & l & cs & -> & Hl & Hw & Hp & Hcs).
  exists l, cs, p1. do 4 (split; [done|]). eapply Forall2_impl; [exact Hcs|]. intros conn c Hc. split; [apply Hc|].
  intros serve response status px Es. by eapply proxy_child_ends.
Qed.
End facts.
