(* ===== verification/MysockHash.v ===== *)
(** The chained hash table of mysock_hash.h: the functions that
    HASH_TABLE_DECLARE generates for a table with integer keys, the default
    hash function and the default comparison. An entry is its position in its
    chain; theorems relate the table to a finite map. *)

From S2P Require Import Prelude.

(** [tbl]: the array of chains, each from its head on. *)
Abbreviation hash_table A := (list (list (Z * A))).

(** [HASH_DEFAULT_HASH_FN(key, size)]: the remainder of the C division,
    converted to [unsigned int]. *)
Definition HASH_DEFAULT_HASH_FN (key size : Z) : Z := u32 (Z.rem key size).

Section table.
Context {S A : Type}.

(** Position of the first node of a chain with the key. *)
Fixpoint chain_find (c : list (Z * A)) (key : Z) : option nat :=
  match c with
  | [] => None
  | e :: c' => if fst e =? key then Some 0%nat else option_map Datatypes.S (chain_find c' key)
  end.

(** The bucket of a key: [ndx = hashfn(key, size); assert(ndx < size)]. *)
Definition hash_ndx (tbl : hash_table A) (key : Z) : M S nat :=
  let ndx := HASH_DEFAULT_HASH_FN key (Z.of_nat (length tbl)) in
  _ ← massert (ndx <? Z.of_nat (length tbl));
  mret (Z.to_nat ndx).

(** The chain [tbl[ndx]]. *)
Definition chain (tbl : hash_table A) (ndx : nat) : list (Z * A) := nth ndx tbl [].

(** [_hash_get_entry(key)]: bucket and position of the entry, or null. *)
Definition _hash_get_entry (tbl : hash_table A) (key : Z) : M S (option (nat * nat)) :=
  ndx ← hash_ndx tbl key;
  mret (option_map (fun i => (ndx, i)) (chain_find (chain tbl ndx) key)).

(** [e->data] *)
Definition entry_data (tbl : hash_table A) (e : nat * nat) : option A := snd <$> chain tbl (fst e) !! snd e.

(** [_hash_insert(key, data)] *)
Definition _hash_insert (tbl : hash_table A) (key : Z) (data : A) : M S (hash_table A) :=
  ndx ← hash_ndx tbl key;
  let old_head := chain tbl ndx in
  let tbl' := <[ndx := (key, data) :: old_head]> tbl in
  e ← _hash_get_entry tbl' key;
  _ ← massert (bool_decide (e = Some (ndx, 0%nat)));
  mret tbl'.

(** [_hash_lookup(key)] *)
Definition _hash_lookup (tbl : hash_table A) (key : Z) : M S A :=
  e ← _hash_get_entry tbl key;
  match e with
  | None => fail AssertFailed
  | Some p => deref (entry_data tbl p)
  end.

(** [_hash_lookup_ptr(key)] *)
Definition _hash_lookup_ptr (tbl : hash_table A) (key : Z) : M S (option A) :=
  e ← _hash_get_entry tbl key;
  match e with
  | None => mret None
  | Some p => d ← deref (entry_data tbl p); mret (Some d)
  end.

(** [_hash_entry_exists(key)] *)
Definition _hash_entry_exists (tbl : hash_table A) (key : Z) : M S bool :=
  e ← _hash_get_entry tbl key;
  mret (match e with Some _ => true | None => false end).

(** [_hash_set_entry(key, data)] *)
Definition _hash_set_entry (tbl : hash_table A) (key : Z) (data : A) : M S (hash_table A) :=
  e ← _hash_get_entry tbl key;
  match e with
  | Some (ndx, i) => mret (<[ndx := <[i := (key, data)]> (chain tbl ndx)]> tbl)
  | None => _hash_insert tbl key data
  end.

(** The loop of [_hash_delete]: the chain without its first node with the key. *)
Fixpoint chain_delete (c : list (Z * A)) (key : Z) : list (Z * A) :=
  match c with
  | [] => []
  | e :: c' => if fst e =? key then c' else e :: chain_delete c' key
  end.

(** [_hash_delete(key)] *)
Definition _hash_delete (tbl : hash_table A) (key : Z) : M S (hash_table A) :=
  ndx ← hash_ndx tbl key;
  let tbl' := <[ndx := chain_delete (chain tbl ndx) key]> tbl in
  e ← _hash_get_entry tbl' key;
  _ ← massert (match e with None => true | Some _ => false end);
  mret tbl'.
End table.

(** A table as declared: all chains empty. *)
Definition hash_empty {A} (size : nat) : hash_table A := replicate size [].

(* ------------------------------------------------------------------ *)
(** * The table is a finite map *)

(** The key a chain may hold: non-negative keys hash to their remainder. *)
Definition bucket_of (size : nat) (key : Z) : nat := Z.to_nat (key mod Z.of_nat size).

(** [tbl] has [size] chains, every chain holds keys of its bucket only, and no
    key twice. *)
Definition hash_ok {A} (size : nat) (tbl : hash_table A) : Prop :=
  (0 < size)%nat /\ Z.of_nat size < 2 ^ 32 /\ length tbl = size
  /\ forall ndx c, tbl !! ndx = Some c ->
       NoDup c.*1 /\ Forall (fun e => 0 <= fst e /\ bucket_of size (fst e) = ndx) c.

(** The map the table stands for. *)
Definition hash_repr {A} (size : nat) (tbl : hash_table A) (m : gmap Z A) : Prop :=
  hash_ok size tbl /\ forall key, m !! key = (list_to_map (mjoin tbl) : gmap Z A) !! key.

Section facts.
Context {A : Type}.
Implicit Types (tbl : hash_table A) (c : list (Z * A)).

(** First value a chain has for a key. *)
Fixpoint chain_lookup c (key : Z) : option A :=
  match c with
  | [] => None
  | e :: c' => if fst e =? key then Some (snd e) else chain_lookup c' key
  end.

Lemma chain_lookup_map c key : (list_to_map c : gmap Z A) !! key = chain_lookup c key.
Proof.
  induction c as [|[k d] c IH]; simpl; [apply lookup_empty|].
  destruct (Z.eqb_spec k key) as [->|Hne]; [by rewrite lookup_insert_eq|].
  by rewrite lookup_insert_ne.
Qed.

Lemma chain_find_lookup c key :
  (fun i => snd <$> c !! i) <$> chain_find c key = Some <$> chain_lookup c key.
Proof.
  induction c as [|[k d] c IH]; [done|]. simpl. destruct (k =? key); [done|].
  rewrite <- IH. by destruct (chain_find c key).
Qed.

Lemma chain_find_none c key : chain_find c key = None <-> chain_lookup c key = None.
Proof. pose proof (chain_find_lookup c key) as H. by destruct (chain_find c key), (chain_lookup c key). Qed.

Lemma chain_lookup_app c1 c2 key :
  chain_lookup (c1 ++ c2) key = match chain_lookup c1 key with Some d => Some d | None => chain_lookup c2 key end.
Proof. induction c1 as [|[k d] c1 IH]; [done|]. simpl. by destruct (k =? key). Qed.

Lemma chain_lookup_other c key :
  Forall (fun e => fst e <> key) c -> chain_lookup c key = None.
Proof.
  induction 1 as [|[k d] c Hk _ IH]; [done|]. simpl in *. by rewrite (proj2 (Z.eqb_neq _ _)).
Qed.

Lemma chain_lookup_none c key : chain_lookup c key = None -> key ∉ c.*1.
Proof.
  induction c as [|[k d] c IH]; simpl; [by intros _ ?%elem_of_nil|].
  destruct (Z.eqb_spec k key) as [|Hne]; [done|]. intros H. apply not_elem_of_cons. auto.
Qed.

Lemma chain_lookup_delete c key key' :
  NoDup c.*1 -> chain_lookup (chain_delete c key) key' = if key =? key' then None else chain_lookup c key'.
Proof.
  induction c as [|[k d] c IH]; simpl; [by destruct (key =? key')|]. intros [Hk Hnd]%NoDup_cons.
  destruct (Z.eqb_spec k key) as [->|Hne].
  - destruct (Z.eqb_spec key key') as [->|]; [|done]. apply chain_lookup_other.
    apply Forall_forall. intros e He Heq. apply Hk. rewrite <- Heq. by apply list_elem_of_fmap_2.
  - simpl. rewrite IH by done. destruct (Z.eqb_spec key key') as [Heq|]; [|done].
    by rewrite <- Heq, (proj2 (Z.eqb_neq k key)).
Qed.

Lemma chain_find_set c key i d :
  chain_find c key = Some i ->
  (<[i := (key, d)]> c).*1 = c.*1 /\
  forall key', chain_lookup (<[i := (key, d)]> c) key' = if key =? key' then Some d else chain_lookup c key'.
Proof.
  revert i. induction c as [|[k e] c IH]; intros i; simpl; [done|]. destruct (Z.eqb_spec k key) as [->|Hne].
  - intros [= <-]. split; [done|]. intros key'. simpl. by destruct (key =? key').
  - destruct (chain_find c key) as [j|]; [|done]. intros [= <-]. destruct (IH j eq_refl) as [H1 H2]. split.
    + simpl. by f_equal.
    + intros key'. simpl. rewrite H2. destruct (Z.eqb_spec k key') as [->|]; [|done].
      by rewrite (proj2 (Z.eqb_neq key key')) by congruence.
Qed.

Lemma chain_delete_sub c key : sublist (chain_delete c key) c.
Proof.
  induction c as [|[k d] c IH]; simpl; [constructor|]. destruct (k =? key); by constructor.
Qed.

Lemma ndx_bucket size key :
  (0 < size)%nat -> Z.of_nat size < 2 ^ 32 -> 0 <= key ->
  HASH_DEFAULT_HASH_FN key (Z.of_nat size) = Z.of_nat (bucket_of size key) /\ (bucket_of size key < size)%nat.
Proof.
  intros H0 H1 H2. unfold HASH_DEFAULT_HASH_FN, bucket_of. rewrite Z.rem_mod_nonneg by lia.
  pose proof (Z.mod_pos_bound key (Z.of_nat size)). rewrite u32_small by lia. lia.
Qed.

(** In a sound table a key is looked up in its own chain only. *)
Lemma lookup_bucket size tbl key :
  hash_ok size tbl -> 0 <= key ->
  chain_lookup (mjoin tbl) key = chain_lookup (chain tbl (bucket_of size key)) key.
Proof.
  intros (H0 & H1 & Hl & Hc) Hk. destruct (ndx_bucket size key H0 H1 Hk) as [_ Hb].
  set (b := bucket_of size key) in *.
  assert (Hgen : forall t o, (forall i c, t !! i = Some c -> Forall (fun e => bucket_of size (fst e) = (o + i)%nat) c) ->
    chain_lookup (mjoin t) key = if (o <=? b)%nat then chain_lookup (nth (b - o) t []) key else None).
  { clear -b. intros t. induction t as [|c t IH]; intros o Ht.
    - simpl. destruct (o <=? b)%nat; [|done]. by destruct (b - o)%nat.
    - simpl. rewrite chain_lookup_app, (IH (Datatypes.S o)).
      2:{ intros i c' Hi. replace (Datatypes.S o + i)%nat with (o + Datatypes.S i)%nat by lia. by apply Ht. }
      specialize (Ht 0%nat c eq_refl). rewrite Nat.add_0_r in Ht.
      destruct (Nat.leb_spec o b) as [Hob|Hob].
      + destruct (decide (o = b)) as [->|Hne].
        * rewrite Nat.sub_diag. rewrite (proj2 (Nat.leb_gt _ _)) by lia. by destruct (chain_lookup c key).
        * rewrite (proj2 (Nat.leb_le _ _)) by lia. rewrite chain_lookup_other.
          -- by replace (b - o)%nat with (Datatypes.S (b - Datatypes.S o)) by lia.
          -- eapply Forall_impl; [exact Ht|]. intros e He Heq. cbn beta in He. rewrite Heq in He. fold b in He. lia.
      + rewrite (proj2 (Nat.leb_gt _ _)) by lia. rewrite chain_lookup_other; [done|].
        eapply Forall_impl; [exact Ht|]. intros e He Heq. cbn beta in He. rewrite Heq in He. fold b in He. lia. }
  rewrite (Hgen tbl 0%nat).
  - rewrite (proj2 (Nat.leb_le _ _)) by lia. by rewrite Nat.sub_0_r.
  - intros i c Hi. eapply Forall_impl; [apply (Hc i c Hi)|]. intros e [_ He]. done.
Qed.

Lemma chain_insert tbl ndx c i :
  (ndx < length tbl)%nat -> chain (<[ndx := c]> tbl) i = if decide (i = ndx) then c else chain tbl i.
Proof.
  intros Hl. unfold chain. rewrite !nth_lookup. destruct (decide (i = ndx)) as [->|Hne].
  - by rewrite list_lookup_insert_eq.
  - by rewrite list_lookup_insert_ne.
Qed.

(** Replacing the chain of one bucket by a sound chain. *)
Lemma hash_ok_insert size tbl ndx c :
  hash_ok size tbl -> (ndx < size)%nat -> NoDup c.*1 ->
  Forall (fun e => 0 <= fst e /\ bucket_of size (fst e) = ndx) c -> hash_ok size (<[ndx := c]> tbl).
Proof.
  intros (H0 & H1 & Hl & Hc) Hn Hnd Hf. split; [done|]. split; [done|]. split; [by rewrite length_insert|].
  intros i c' Hi. destruct (decide (i = ndx)) as [->|Hne].
  - rewrite list_lookup_insert_eq in Hi by lia. by injection Hi as <-.
  - rewrite list_lookup_insert_ne in Hi by done. by apply Hc.
Qed.

Lemma chain_sound size tbl ndx :
  hash_ok size tbl -> (ndx < size)%nat ->
  NoDup (chain tbl ndx).*1 /\ Forall (fun e => 0 <= fst e /\ bucket_of size (fst e) = ndx) (chain tbl ndx).
Proof.
  intros (H0 & H1 & Hl & Hc) Hn. apply Hc. unfold chain. rewrite nth_lookup.
  destruct (lookup_lt_is_Some_2 tbl ndx) as [c Hcc]; [lia|]. by rewrite Hcc.
Qed.

Lemma hash_empty_ok size : (0 < size)%nat -> Z.of_nat size < 2 ^ 32 -> hash_repr size (hash_empty size : hash_table A) ∅.
Proof.
  intros H0 H1. split.
  - split; [done|]. split; [done|]. split; [apply length_replicate|].
    intros i c [-> _]%lookup_replicate. repeat constructor.
  - intros key. rewrite lookup_empty, chain_lookup_map. unfold hash_empty. clear. by induction size.
Qed.

(* ------------------------------------------------------------------ *)
(** ** The operations are the map's *)

Section operations.
Context {S : Type} (size : nat) (tbl : hash_table A) (m : gmap Z A) (key : Z) (s : S).
Context (Hr : hash_repr size tbl m) (Hk : 0 <= key).

Local Abbreviation b := (bucket_of size key).

Lemma hash_ndx_eq : hash_ndx tbl key s = Ok (b, s) /\ (b < size)%nat /\ length tbl = size.
Proof.
  destruct Hr as [(H0 & H1 & Hl & _) _]. destruct (ndx_bucket size key H0 H1 Hk) as [He Hb].
  unfold hash_ndx. rewrite Hl, He, (proj2 (Z.ltb_lt _ _)) by lia. rewrite Nat2Z.id. done.
Qed.

Lemma repr_lookup : chain_lookup (chain tbl b) key = m !! key.
Proof. destruct Hr as [Hok Hm]. by rewrite Hm, chain_lookup_map, (lookup_bucket size). Qed.

Lemma get_entry_eq :
  exists e, _hash_get_entry tbl key s = Ok (e, s) /\
    match m !! key with
    | None => e = None
    | Some d => exists i, e = Some (b, i) /\ entry_data tbl (b, i) = Some d
    end.
Proof.
  destruct hash_ndx_eq as (Hn & Hb & Hl). unfold _hash_get_entry. rewrite (bind_ok _ _ _ _ _ Hn).
  eexists. split; [reflexivity|]. pose proof (chain_find_lookup (chain tbl b) key) as Hf. rewrite repr_lookup in Hf.
  destruct (chain_find _ key) as [i|], (m !! key) as [d|]; try done.
  exists i. split; [done|]. by injection Hf.
Qed.

Lemma lookup_ptr_eq : _hash_lookup_ptr tbl key s = Ok (m !! key, s).
Proof.
  destruct get_entry_eq as (e & He & Hm). unfold _hash_lookup_ptr. rewrite (bind_ok _ _ _ _ _ He).
  destruct (m !! key) as [d|]; [|by subst]. destruct Hm as (i & -> & Hd). by rewrite Hd.
Qed.

Lemma entry_exists_eq : _hash_entry_exists tbl key s = Ok (bool_decide (is_Some (m !! key)), s).
Proof.
  destruct get_entry_eq as (e & He & Hm). unfold _hash_entry_exists. rewrite (bind_ok _ _ _ _ _ He).
  destruct (m !! key) as [d|]; [|by subst]. by destruct Hm as (i & -> & Hd).
Qed.

Lemma lookup_eq :
  _hash_lookup tbl key s = match m !! key with Some d => Ok (d, s) | None => Err AssertFailed end.
Proof.
  destruct get_entry_eq as (e & He & Hm). unfold _hash_lookup. rewrite (bind_ok _ _ _ _ _ He).
  destruct (m !! key) as [d|]; [|by subst]. destruct Hm as (i & -> & Hd). by rewrite Hd.
Qed.

(** The table with bucket [b]'s chain replaced stands for the updated map. *)
Lemma repr_insert c m' :
  NoDup c.*1 -> Forall (fun e => 0 <= fst e /\ bucket_of size (fst e) = b) c ->
  (forall key', 0 <= key' -> bucket_of size key' = b -> chain_lookup c key' = m' !! key') ->
  (forall key', ~ (0 <= key' /\ bucket_of size key' = b) -> m' !! key' = m !! key') ->
  hash_repr size (<[b := c]> tbl) m'.
Proof.
  intros Hnd Hf Hin Hout. destruct hash_ndx_eq as (_ & Hb & Hl). destruct Hr as [Hok Hm].
  assert (Hok' : hash_ok size (<[b := c]> tbl)) by by apply hash_ok_insert.
  split; [done|]. intros key'. rewrite chain_lookup_map.
  assert (Hneg : forall t, hash_ok size t -> key' < 0 -> chain_lookup (mjoin t) key' = None).
  { intros t (_ & _ & _ & Ht) Hlt. apply chain_lookup_other, Forall_forall. intros e He%list_elem_of_join.
    destruct He as (c' & He & [i Hi]%list_elem_of_lookup). destruct (Ht i c' Hi) as [_ Hc'].
    rewrite Forall_forall in Hc'. specialize (Hc' e He). lia. }
  destruct (decide (0 <= key')) as [Hp|Hp].
  - rewrite (lookup_bucket size) by done. rewrite chain_insert by lia.
    destruct (decide (bucket_of size key' = b)) as [Heq|Hne]; [symmetry; by apply Hin|].
    rewrite Hout by tauto. by rewrite Hm, chain_lookup_map, (lookup_bucket size).
  - rewrite Hout by tauto. rewrite Hm, chain_lookup_map. rewrite !Hneg by (done || lia). done.
Qed.

Lemma other_bucket key' : ~ (0 <= key' /\ bucket_of size key' = b) -> key <> key'.
Proof. intros Hn ->. by apply Hn. Qed.

Lemma insert_eq data :
  m !! key = None ->
  exists tbl', _hash_insert tbl key data s = Ok (tbl', s) /\ hash_repr size tbl' (<[key := data]> m).
Proof.
  intros Hnone. destruct hash_ndx_eq as (Hn & Hb & Hl). unfold _hash_insert. rewrite (bind_ok _ _ _ _ _ Hn).
  set (tbl' := <[b := _]> tbl). exists tbl'.
  pose proof (chain_sound size tbl b (proj1 Hr) Hb) as [Hnd Hf].
  assert (Hr' : hash_repr size tbl' (<[key := data]> m)).
  { apply repr_insert.
    - simpl. apply NoDup_cons. split; [|done]. apply chain_lookup_none. by rewrite repr_lookup.
    - constructor; [done|exact Hf].
    - intros key' Hp Hbk. simpl. destruct (Z.eqb_spec key key') as [<-|Hne]; [by rewrite lookup_insert_eq|].
      rewrite lookup_insert_ne by done. destruct Hr as [Hok Hm].
      rewrite Hm, chain_lookup_map, (lookup_bucket size) by done. by rewrite Hbk.
    - intros key' Ho. rewrite lookup_insert_ne; [done|]. by apply other_bucket. }
  split; [|done]. unfold _hash_get_entry.
  assert (Hn' : hash_ndx tbl' key s = Ok (b, s)).
  { unfold hash_ndx in *. subst tbl'. by rewrite length_insert. }
  rewrite (bind_ok _ _ _ _ _ (bind_ok _ _ _ _ _ Hn')). subst tbl'. rewrite chain_insert by lia.
  rewrite decide_True by done. simpl. rewrite Z.eqb_refl. by rewrite bool_decide_eq_true_2.
Qed.

Lemma set_entry_eq data :
  exists tbl', _hash_set_entry tbl key data s = Ok (tbl', s) /\ hash_repr size tbl' (<[key := data]> m).
Proof.
  destruct hash_ndx_eq as (Hn & Hb & Hl). unfold _hash_set_entry, _hash_get_entry.
  rewrite (bind_ok _ _ _ _ _ (bind_ok _ _ _ _ _ Hn)).
  pose proof (chain_find_lookup (chain tbl b) key) as Hf. rewrite repr_lookup in Hf.
  pose proof (chain_sound size tbl b (proj1 Hr) Hb) as [Hnd Hfa].
  destruct (chain_find (chain tbl b) key) as [i|] eqn:Hfind.
  - cbn [option_map]. eexists. split; [reflexivity|].
    destruct (chain_find_set (chain tbl b) key i data Hfind) as [Hkeys Hlk].
    apply repr_insert.
    + by rewrite Hkeys.
    + rewrite <- (Forall_fmap fst (fun k => 0 <= k /\ bucket_of size k = b)).
      rewrite Hkeys. by apply Forall_fmap.
    + intros key' Hp Hbk. rewrite Hlk. destruct (Z.eqb_spec key key') as [<-|Hne]; [by rewrite lookup_insert_eq|].
      rewrite lookup_insert_ne by done. destruct Hr as [Hok Hm].
      rewrite Hm, chain_lookup_map, (lookup_bucket size) by done. by rewrite Hbk.
    + intros key' Ho. rewrite lookup_insert_ne; [done|]. by apply other_bucket.
  - cbn [option_map]. apply insert_eq. destruct (m !! key); [done|done].
Qed.

Lemma delete_eq :
  exists tbl', _hash_delete tbl key s = Ok (tbl', s) /\ hash_repr size tbl' (delete key m).
Proof.
  destruct hash_ndx_eq as (Hn & Hb & Hl). unfold _hash_delete. rewrite (bind_ok _ _ _ _ _ Hn).
  set (tbl' := <[b := _]> tbl). exists tbl'.
  pose proof (chain_sound size tbl b (proj1 Hr) Hb) as [Hnd Hf].
  pose proof (chain_delete_sub (chain tbl b) key) as Hsub.
  assert (Hr' : hash_repr size tbl' (delete key m)).
  { apply repr_insert.
    - eapply sublist_NoDup; [exact Hnd|]. by apply fmap_sublist.
    - rewrite Forall_forall in Hf |- *. intros e He. apply Hf. by eapply elem_of_sublist.
    - intros key' Hp Hbk. rewrite chain_lookup_delete by done.
      destruct (Z.eqb_spec key key') as [<-|Hne]; [by rewrite lookup_delete_eq|].
      rewrite lookup_delete_ne by done. destruct Hr as [Hok Hm].
      rewrite Hm, chain_lookup_map, (lookup_bucket size) by done. by rewrite Hbk.
    - intros key' Ho. rewrite lookup_delete_ne; [done|]. by apply other_bucket. }
  split; [|done]. unfold _hash_get_entry.
  assert (Hn' : hash_ndx tbl' key s = Ok (b, s)).
  { unfold hash_ndx in *. subst tbl'. by rewrite length_insert. }
  rewrite (bind_ok _ _ _ _ _ (bind_ok _ _ _ _ _ Hn')). subst tbl'. rewrite chain_insert by lia.
  rewrite decide_True by done.
  rewrite (proj2 (chain_find_none _ key)); [done|]. rewrite chain_lookup_delete by done. by rewrite Z.eqb_refl.
Qed.
End operations.
End facts.
