(* ===== verification/MysockState.v ===== *)
(** The STCP stack's data: struct tcphdr (transport.h), struct sockaddr as the
    code uses it, the packet queues and socket context of mysock_impl.h, the
    network context of network_io.h with the TCP socket behind it
    (network_io_socket.h), the transport layer's context_t (transport.c), the
    listen queues of connection_demux.c, and what the operating system and the
    C library are asked for. *)

From S2P Require Import Prelude.
From S2P Require Import Bytes.
From S2P Require Import MysockHash.

(* ------------------------------------------------------------------ *)
(** * struct tcphdr *)

(** Offsets of the packed header; [th_x2] is the low and [th_off] the high
    nibble of byte 12. The code keeps sequence numbers in host order. *)
Module Tcp.
Definition sport : nat := 0.
Definition dport : nat := 2.
Definition seq : nat := 4.
Definition ack : nat := 8.
Definition off : nat := 12.
Definition flags : nat := 13.
Definition win : nat := 14.
Definition sum : nat := 16.
Definition urp : nat := 18.
Definition size : nat := 20.
End Tcp.

Definition TH_FIN : Z := 0x01.
Definition TH_SYN : Z := 0x02.
Definition TH_ACK : Z := 0x10.

Definition MAX_IP_PAYLOAD_LEN : Z := 1500.
Definition MAX_NUM_CONNECTIONS : nat := 64.

(** Store to the bit-field [th_off]. *)
Definition wr_th_off {S} (b : bytes) (v : Z) : M S bytes :=
  x ← rd8 b Tcp.off;
  wr8 b Tcp.off (Z.lor (Z.land x 0x0f) (Z.shiftl (Z.land v 0x0f) 4)).

(** stcp_event_type_t, the set of events as its three bits. *)
Record events := mk_events { ev_app_data : bool; ev_network_data : bool; ev_close : bool }.

(** errno values. *)
Definition EINTR : Z := 4.
Definition EBADF : Z := 9.
Definition EINVAL : Z := 22.
Definition EMFILE : Z := 24.
Definition EADDRNOTAVAIL : Z := 99.
Definition ECONNABORTED : Z := 103.
Definition EISCONN : Z := 106.
Definition ENOTCONN : Z := 107.
Definition ECONNREFUSED : Z := 111.

(* ------------------------------------------------------------------ *)
(** * Sockets *)

Definition AF_INET : Z := 2.

(** struct sockaddr, read as sockaddr_in; port and address in network order. *)
Record sockaddr := mk_sockaddr { sa_family : Z; sin_port : Z; s_addr : Z }.
#[export] Instance sockaddr_eq_dec : EqDecision sockaddr.
Proof. solve_decision. Defined.

(** A zeroed struct sockaddr. *)
Definition sockaddr0 : sockaddr := mk_sockaddr 0 0 0.
(** [sizeof(struct sockaddr)] *)
Definition SOCKADDR_LEN : Z := 16.

(** What the code asks the operating system and the C library for: the result
    and next seed of [rand_r]; what [write] returns for [n] bytes on a stream
    that already took the given bytes, and [read] for [n] bytes on a stream with
    the given bytes to read; the result of [connect] to an address; the port
    [bind] gives a socket for a requested one, or a failure. *)
Class Kernel := {
  rand_r : Z -> Z * Z;
  write_rc : bytes -> nat -> Z;
  read_rc : bytes -> nat -> Z;
  connect_rc : sockaddr -> Z;
  bind_port : Z -> option Z;
}.

(** A system on which no call fails: [write] and [read] move at least one byte
    and never more than asked for or available, and [connect] succeeds. *)
Class KernelOk (K : Kernel) := {
  write_some : forall s n, (0 < n)%nat -> 0 < write_rc s n <= Z.of_nat n;
  read_some : forall s n, (0 < n)%nat -> s <> [] -> 0 < read_rc s n <= Z.of_nat (n `min` length s);
  connect_ok : forall a, 0 <= connect_rc a;
}.

(** network_context_t and, behind [impl_data], the TCP socket. [net_port] is
    the port [getsockname] reports, [net_interface_ip] the address
    [_network_get_interface_ip] finds for this host; [net_out] are the bytes
    written to the socket that the peer's system has not taken over, [net_in]
    those that can be read from it. A listening socket has [accept_queue], the
    connections [accept] can return, with their peers and what these have sent,
    and [new_socket], the accepted connection on its way to its own mysocket
    (the descriptor -1 is [None]). *)
Record network_context_t := mk_net {
  is_reliable : bool;
  local_addr : sockaddr;
  peer_addr : sockaddr;
  peer_addr_len : Z;
  peer_addr_valid : bool;
  random_seed : Z;
  copied : bool;
  copy_buffer : bytes;
  copy_buf_len : nat;
  recv_thread_started : bool;
  connected : bool;
  net_port : Z;
  net_interface_ip : Z;
  net_in : bytes;
  net_out : bytes;
  accept_queue : list (sockaddr * bytes);
  new_socket : option bytes;
}.

(** packet_queue_t: the nodes' data from head to tail. *)
Abbreviation packet_queue_t := (list (list Z)).

(** mysock_context_t, without its locks and condition variables. *)
Record mysock_context := mk_sock {
  is_active : bool;
  network_state : network_context_t;
  bound : bool;
  listening : bool;
  my_sd : Z;
  listen_sd : Z;
  blocking : bool;
  stcp_errno : Z;
  transport_thread_started : bool;
  close_requested : bool;
  eof : bool;
  network_recv_queue : packet_queue_t;
  app_send_queue : packet_queue_t;
  app_recv_queue : packet_queue_t;
}.

(* ------------------------------------------------------------------ *)
(** * The transport layer *)

(** CSTATE *)
Inductive CSTATE :=
  | CSTATE_CLOSED | CSTATE_LISTEN | CSTATE_SYN_SENT | CSTATE_SYN_RCVD | CSTATE_ESTABLISHED
  | CSTATE_FIN_WAIT_1 | CSTATE_FIN_WAIT_2 | CSTATE_CLOSE_WAIT | CSTATE_LAST_ACK | CSTATE_CLOSING.
#[export] Instance CSTATE_eq_dec : EqDecision CSTATE.
Proof. solve_decision. Defined.

(** One line of client_log.txt or server_log.txt. *)
Inductive log_line :=
  | LogSend (swnd rem size : Z)
  | LogRecv (swnd rem size : Z).

(** context_t. [buffer] is the memory the pointer refers to; the size_t fields
    are kept modulo [2^64]; [log] are the lines of this side's log file. *)
Record context_t := mk_ctx {
  done : bool;
  connection_state : CSTATE;
  initial_sequence_num : Z;
  SWND : Z;
  SWND_prev : Z;
  CWND : Z;
  RECV_WIN : Z;
  SendBase : Z;
  RecvBase : Z;
  next_seqnum : Z;
  rem : Z;
  buffer : bytes;
  buffer_size : Z;
  new_buffer_size : Z;
  ACK_size : Z;
  is_client : bool;
  log : list log_line;
}.

(** Where a transport thread stands between two waits. *)
Inductive thread :=
  | Starting                   (* transport_thread_func not yet run *)
  | Running (ctx : context_t)  (* inside transport_init *)
  | Finished.                  (* returned *)

(* ------------------------------------------------------------------ *)
(** * Listening sockets *)

(** connect_request_t ([user_data] is always null). *)
Record connect_request_t := mk_request { rq_peer_addr : sockaddr; rq_peer_addr_len : Z; rq_sd : Z }.

(** [INVALIDATE_CONNECT_REQUEST] *)
Definition INVALIDATE_CONNECT_REQUEST : connect_request_t := mk_request sockaddr0 0 (-1).

(** A pointer to a request: the block of memory it points into, as the number of
    the allocation, and the slot of that block. *)
Definition request_ptr : Type := nat * nat.

(** listen_queue_t: [connection_queue] points to the block [queue_block], 0 before
    the first allocation, that holds the requests; the completed entries point
    into the block that was there when they were made. *)
Record listen_queue_t := mk_listen {
  local_port : Z;
  max_len : Z;
  cur_len : Z;
  queue_block : nat;
  connection_queue : list connect_request_t;
  completed_queue : list request_ptr;
}.

(* ------------------------------------------------------------------ *)
(** * A host *)

(** The process: the host's address, the descriptor table, the listen table and
    the transport threads of its sockets. *)
Record stack := mk_stack {
  host_ip : Z;
  global_ctx : gmap Z mysock_context;
  listen_table : hash_table listen_queue_t;
  transports : gmap Z thread;
}.

(* ------------------------------------------------------------------ *)
(** * Field updates *)

Definition set_is_reliable (v : bool) (r : network_context_t) : network_context_t :=
  mk_net v (local_addr r) (peer_addr r) (peer_addr_len r) (peer_addr_valid r) (random_seed r) (copied r)
    (copy_buffer r) (copy_buf_len r) (recv_thread_started r) (connected r) (net_port r) (net_interface_ip r)
    (net_in r) (net_out r) (accept_queue r) (new_socket r).
Definition set_local_addr (v : sockaddr) (r : network_context_t) : network_context_t :=
  mk_net (is_reliable r) v (peer_addr r) (peer_addr_len r) (peer_addr_valid r) (random_seed r) (copied r)
    (copy_buffer r) (copy_buf_len r) (recv_thread_started r) (connected r) (net_port r) (net_interface_ip r)
    (net_in r) (net_out r) (accept_queue r) (new_socket r).
Definition set_random_seed (v : Z) (r : network_context_t) : network_context_t :=
  mk_net (is_reliable r) (local_addr r) (peer_addr r) (peer_addr_len r) (peer_addr_valid r) v (copied r)
    (copy_buffer r) (copy_buf_len r) (recv_thread_started r) (connected r) (net_port r) (net_interface_ip r)
    (net_in r) (net_out r) (accept_queue r) (new_socket r).
Definition set_recv_thread_started (v : bool) (r : network_context_t) : network_context_t :=
  mk_net (is_reliable r) (local_addr r) (peer_addr r) (peer_addr_len r) (peer_addr_valid r) (random_seed r)
    (copied r) (copy_buffer r) (copy_buf_len r) v (connected r) (net_port r) (net_interface_ip r) (net_in r)
    (net_out r) (accept_queue r) (new_socket r).
Definition set_connected (v : bool) (r : network_context_t) : network_context_t :=
  mk_net (is_reliable r) (local_addr r) (peer_addr r) (peer_addr_len r) (peer_addr_valid r) (random_seed r)
    (copied r) (copy_buffer r) (copy_buf_len r) (recv_thread_started r) v (net_port r) (net_interface_ip r)
    (net_in r) (net_out r) (accept_queue r) (new_socket r).
Definition set_net_port (v : Z) (r : network_context_t) : network_context_t :=
  mk_net (is_reliable r) (local_addr r) (peer_addr r) (peer_addr_len r) (peer_addr_valid r) (random_seed r)
    (copied r) (copy_buffer r) (copy_buf_len r) (recv_thread_started r) (connected r) v (net_interface_ip r)
    (net_in r) (net_out r) (accept_queue r) (new_socket r).
Definition set_net_in (v : bytes) (r : network_context_t) : network_context_t :=
  mk_net (is_reliable r) (local_addr r) (peer_addr r) (peer_addr_len r) (peer_addr_valid r) (random_seed r)
    (copied r) (copy_buffer r) (copy_buf_len r) (recv_thread_started r) (connected r) (net_port r)
    (net_interface_ip r) v (net_out r) (accept_queue r) (new_socket r).
Definition set_net_out (v : bytes) (r : network_context_t) : network_context_t :=
  mk_net (is_reliable r) (local_addr r) (peer_addr r) (peer_addr_len r) (peer_addr_valid r) (random_seed r)
    (copied r) (copy_buffer r) (copy_buf_len r) (recv_thread_started r) (connected r) (net_port r)
    (net_interface_ip r) (net_in r) v (accept_queue r) (new_socket r).
Definition set_accept_queue (v : list (sockaddr * bytes)) (r : network_context_t) : network_context_t :=
  mk_net (is_reliable r) (local_addr r) (peer_addr r) (peer_addr_len r) (peer_addr_valid r) (random_seed r)
    (copied r) (copy_buffer r) (copy_buf_len r) (recv_thread_started r) (connected r) (net_port r)
    (net_interface_ip r) (net_in r) (net_out r) v (new_socket r).
Definition set_new_socket (v : option bytes) (r : network_context_t) : network_context_t :=
  mk_net (is_reliable r) (local_addr r) (peer_addr r) (peer_addr_len r) (peer_addr_valid r) (random_seed r)
    (copied r) (copy_buffer r) (copy_buf_len r) (recv_thread_started r) (connected r) (net_port r)
    (net_interface_ip r) (net_in r) (net_out r) (accept_queue r) v.

(** The packet kept for later by unreliable sending. *)
Definition set_copy (b : bytes) (n : nat) (r : network_context_t) : network_context_t :=
  mk_net (is_reliable r) (local_addr r) (peer_addr r) (peer_addr_len r) (peer_addr_valid r) (random_seed r)
    true b n (recv_thread_started r) (connected r) (net_port r) (net_interface_ip r) (net_in r) (net_out r)
    (accept_queue r) (new_socket r).
(** The peer's address, its length, and whether it is known. *)
Definition set_peer (a : sockaddr) (len : Z) (valid : bool) (r : network_context_t) : network_context_t :=
  mk_net (is_reliable r) (local_addr r) a len valid (random_seed r) (copied r) (copy_buffer r) (copy_buf_len r)
    (recv_thread_started r) (connected r) (net_port r) (net_interface_ip r) (net_in r) (net_out r)
    (accept_queue r) (new_socket r).

Definition set_is_active (v : bool) (r : mysock_context) : mysock_context :=
  mk_sock v (network_state r) (bound r) (listening r) (my_sd r) (listen_sd r) (blocking r) (stcp_errno r)
    (transport_thread_started r) (close_requested r) (eof r) (network_recv_queue r) (app_send_queue r)
    (app_recv_queue r).
Definition set_network_state (v : network_context_t) (r : mysock_context) : mysock_context :=
  mk_sock (is_active r) v (bound r) (listening r) (my_sd r) (listen_sd r) (blocking r) (stcp_errno r)
    (transport_thread_started r) (close_requested r) (eof r) (network_recv_queue r) (app_send_queue r)
    (app_recv_queue r).
Definition set_bound (v : bool) (r : mysock_context) : mysock_context :=
  mk_sock (is_active r) (network_state r) v (listening r) (my_sd r) (listen_sd r) (blocking r) (stcp_errno
    r) (transport_thread_started r) (close_requested r) (eof r) (network_recv_queue r) (app_send_queue r)
    (app_recv_queue r).
Definition set_listening (v : bool) (r : mysock_context) : mysock_context :=
  mk_sock (is_active r) (network_state r) (bound r) v (my_sd r) (listen_sd r) (blocking r) (stcp_errno r)
    (transport_thread_started r) (close_requested r) (eof r) (network_recv_queue r) (app_send_queue r)
    (app_recv_queue r).
Definition set_my_sd (v : Z) (r : mysock_context) : mysock_context :=
  mk_sock (is_active r) (network_state r) (bound r) (listening r) v (listen_sd r) (blocking r) (stcp_errno
    r) (transport_thread_started r) (close_requested r) (eof r) (network_recv_queue r) (app_send_queue r)
    (app_recv_queue r).
Definition set_listen_sd (v : Z) (r : mysock_context) : mysock_context :=
  mk_sock (is_active r) (network_state r) (bound r) (listening r) (my_sd r) v (blocking r) (stcp_errno r)
    (transport_thread_started r) (close_requested r) (eof r) (network_recv_queue r) (app_send_queue r)
    (app_recv_queue r).
Definition set_blocking (v : bool) (r : mysock_context) : mysock_context :=
  mk_sock (is_active r) (network_state r) (bound r) (listening r) (my_sd r) (listen_sd r) v (stcp_errno r)
    (transport_thread_started r) (close_requested r) (eof r) (network_recv_queue r) (app_send_queue r)
    (app_recv_queue r).
Definition set_stcp_errno (v : Z) (r : mysock_context) : mysock_context :=
  mk_sock (is_active r) (network_state r) (bound r) (listening r) (my_sd r) (listen_sd r) (blocking r) v
    (transport_thread_started r) (close_requested r) (eof r) (network_recv_queue r) (app_send_queue r)
    (app_recv_queue r).
Definition set_transport_thread_started (v : bool) (r : mysock_context) : mysock_context :=
  mk_sock (is_active r) (network_state r) (bound r) (listening r) (my_sd r) (listen_sd r) (blocking r)
    (stcp_errno r) v (close_requested r) (eof r) (network_recv_queue r) (app_send_queue r) (app_recv_queue
    r).
Definition set_close_requested (v : bool) (r : mysock_context) : mysock_context :=
  mk_sock (is_active r) (network_state r) (bound r) (listening r) (my_sd r) (listen_sd r) (blocking r)
    (stcp_errno r) (transport_thread_started r) v (eof r) (network_recv_queue r) (app_send_queue r)
    (app_recv_queue r).
Definition set_eof (v : bool) (r : mysock_context) : mysock_context :=
  mk_sock (is_active r) (network_state r) (bound r) (listening r) (my_sd r) (listen_sd r) (blocking r)
    (stcp_errno r) (transport_thread_started r) (close_requested r) v (network_recv_queue r) (app_send_queue
    r) (app_recv_queue r).
Definition set_network_recv_queue (v : packet_queue_t) (r : mysock_context) : mysock_context :=
  mk_sock (is_active r) (network_state r) (bound r) (listening r) (my_sd r) (listen_sd r) (blocking r)
    (stcp_errno r) (transport_thread_started r) (close_requested r) (eof r) v (app_send_queue r)
    (app_recv_queue r).
Definition set_app_send_queue (v : packet_queue_t) (r : mysock_context) : mysock_context :=
  mk_sock (is_active r) (network_state r) (bound r) (listening r) (my_sd r) (listen_sd r) (blocking r)
    (stcp_errno r) (transport_thread_started r) (close_requested r) (eof r) (network_recv_queue r) v
    (app_recv_queue r).
Definition set_app_recv_queue (v : packet_queue_t) (r : mysock_context) : mysock_context :=
  mk_sock (is_active r) (network_state r) (bound r) (listening r) (my_sd r) (listen_sd r) (blocking r)
    (stcp_errno r) (transport_thread_started r) (close_requested r) (eof r) (network_recv_queue r)
    (app_send_queue r) v.

Definition set_done (v : bool) (r : context_t) : context_t :=
  mk_ctx v (connection_state r) (initial_sequence_num r) (SWND r) (SWND_prev r) (CWND r) (RECV_WIN r)
    (SendBase r) (RecvBase r) (next_seqnum r) (rem r) (buffer r) (buffer_size r) (new_buffer_size r)
    (ACK_size r) (is_client r) (log r).
Definition set_connection_state (v : CSTATE) (r : context_t) : context_t :=
  mk_ctx (done r) v (initial_sequence_num r) (SWND r) (SWND_prev r) (CWND r) (RECV_WIN r) (SendBase r)
    (RecvBase r) (next_seqnum r) (rem r) (buffer r) (buffer_size r) (new_buffer_size r) (ACK_size r)
    (is_client r) (log r).
Definition set_RecvBase (v : Z) (r : context_t) : context_t :=
  mk_ctx (done r) (connection_state r) (initial_sequence_num r) (SWND r) (SWND_prev r) (CWND r) (RECV_WIN r)
    (SendBase r) v (next_seqnum r) (rem r) (buffer r) (buffer_size r) (new_buffer_size r) (ACK_size r)
    (is_client r) (log r).
Definition set_next_seqnum (v : Z) (r : context_t) : context_t :=
  mk_ctx (done r) (connection_state r) (initial_sequence_num r) (SWND r) (SWND_prev r) (CWND r) (RECV_WIN r)
    (SendBase r) (RecvBase r) v (rem r) (buffer r) (buffer_size r) (new_buffer_size r) (ACK_size r)
    (is_client r) (log r).
Definition set_rem (v : Z) (r : context_t) : context_t :=
  mk_ctx (done r) (connection_state r) (initial_sequence_num r) (SWND r) (SWND_prev r) (CWND r) (RECV_WIN r)
    (SendBase r) (RecvBase r) (next_seqnum r) v (buffer r) (buffer_size r) (new_buffer_size r) (ACK_size r)
    (is_client r) (log r).
Definition set_buffer (v : bytes) (r : context_t) : context_t :=
  mk_ctx (done r) (connection_state r) (initial_sequence_num r) (SWND r) (SWND_prev r) (CWND r) (RECV_WIN r)
    (SendBase r) (RecvBase r) (next_seqnum r) (rem r) v (buffer_size r) (new_buffer_size r) (ACK_size r)
    (is_client r) (log r).
Definition set_log (v : list log_line) (r : context_t) : context_t :=
  mk_ctx (done r) (connection_state r) (initial_sequence_num r) (SWND r) (SWND_prev r) (CWND r) (RECV_WIN r)
    (SendBase r) (RecvBase r) (next_seqnum r) (rem r) (buffer r) (buffer_size r) (new_buffer_size r)
    (ACK_size r) (is_client r) v.

Definition set_cur_len (v : Z) (r : listen_queue_t) : listen_queue_t :=
  mk_listen (local_port r) (max_len r) v (queue_block r) (connection_queue r) (completed_queue r).
Definition set_connection_queue (v : list connect_request_t) (r : listen_queue_t) : listen_queue_t :=
  mk_listen (local_port r) (max_len r) (cur_len r) (queue_block r) v (completed_queue r).
Definition set_completed_queue (v : list request_ptr) (r : listen_queue_t) : listen_queue_t :=
  mk_listen (local_port r) (max_len r) (cur_len r) (queue_block r) (connection_queue r) v.

Definition set_global_ctx (v : gmap Z mysock_context) (r : stack) : stack :=
  mk_stack (host_ip r) v (listen_table r) (transports r).
Definition set_listen_table (v : hash_table listen_queue_t) (r : stack) : stack :=
  mk_stack (host_ip r) (global_ctx r) v (transports r).
Definition set_transports (v : gmap Z thread) (r : stack) : stack :=
  mk_stack (host_ip r) (global_ctx r) (listen_table r) v.
