(* ===== verification/PacketQueue.v ===== *)
(** The packet queues of mysock.c, twice: as the list of waiting buffers, the
    form the rest of the stack is written against, and as the linked nodes the
    code keeps ([head], [tail], [next]) in a heap. The refinement lemmas show that
    the linked operations implement those on lists. *)

From S2P Require Import Prelude.
From S2P Require Import Bytes.
From S2P Require Import MysockState.

(* ------------------------------------------------------------------ *)
(** * Queues as lists *)

(** [_mysock_enqueue_buffer(ctx, pq, packet, packet_len)] *)
Definition _mysock_enqueue_buffer (pq : packet_queue_t) (packet : bytes) : packet_queue_t := pq ++ [packet].

(** [_mysock_dequeue_buffer(ctx, pq, dst, max_len, remove_partial)]: the
    returned [packet_len], the bytes copied to [dst] and the queue left behind. *)
Definition _mysock_dequeue_buffer {S} (pq : packet_queue_t) (max_len : nat) (remove_partial : bool)
    : M S (nat * bytes * packet_queue_t) :=
  match pq with
  | [] => fail Blocked
  | data :: rest =>
      if (max_len <? length data)%nat && remove_partial
      then mret (max_len, take max_len data, drop max_len data :: rest)
      else mret (length data, take (max_len `min` length data) data, rest)
  end.

(** [_mysock_free_queue(ctx, pq)]: the result and the empty queue. *)
Definition _mysock_free_queue (pq : packet_queue_t) : bool * packet_queue_t :=
  (match pq with [] => false | _ => true end, []).

(* ------------------------------------------------------------------ *)
(** * Queues as linked nodes *)

(** packet_queue_node_t; [data_len] is the length of [node_data]. *)
Record packet_queue_node_t := mk_node { node_data : bytes; node_next : option positive }.

(** The nodes allocated and a queue's two pointers. *)
Record linked := mk_linked {
  nodes : gmap positive packet_queue_node_t;
  q_head : option positive;
  q_tail : option positive;
}.

Definition null (p : option positive) : bool := match p with None => true | Some _ => false end.

(** A pointer to a node in use. *)
Definition load_node (p : option positive) : M linked (positive * packet_queue_node_t) :=
  i ← deref p;
  st ← get;
  match nodes st !! i with
  | Some n => mret (i, n)
  | None => fail UseAfterFree
  end.

Definition store_node (i : positive) (n : packet_queue_node_t) : M linked unit :=
  modify (fun st => mk_linked (<[i := n]> (nodes st)) (q_head st) (q_tail st)).
Definition free_node (i : positive) : M linked unit :=
  modify (fun st => mk_linked (delete i (nodes st)) (q_head st) (q_tail st)).
Definition set_head (p : option positive) : M linked unit :=
  modify (fun st => mk_linked (nodes st) p (q_tail st)).
Definition set_tail (p : option positive) : M linked unit :=
  modify (fun st => mk_linked (nodes st) (q_head st) p).

(** [calloc] of a node holding a copy of the packet. *)
Definition alloc_node (packet : bytes) : M linked positive :=
  st ← get;
  let i := fresh (dom (nodes st)) in
  _ ← store_node i (mk_node packet None);
  mret i.

(** [_mysock_enqueue_buffer] on the nodes. *)
Definition linked_enqueue (packet : bytes) : M linked unit :=
  node ← alloc_node packet;
  st ← get;
  if null (q_head st) then
    _ ← massert (null (q_tail st));
    _ ← set_head (Some node);
    set_tail (Some node)
  else
    _ ← massert (negb (null (q_tail st)));
    '(t, tail) ← load_node (q_tail st);
    _ ← massert (null (node_next tail));
    '(_, new) ← load_node (Some node);
    _ ← massert (null (node_next new));
    _ ← store_node t (mk_node (node_data tail) (Some node));
    set_tail (Some node).

(** [_mysock_dequeue_buffer] on the nodes. *)
Definition linked_dequeue (max_len : nat) (remove_partial : bool) : M linked (nat * bytes) :=
  st ← get;
  if null (q_head st) then fail Blocked
  else
    '(i, node) ← load_node (q_head st);
    let data := node_data node in
    if (max_len <? length data)%nat && remove_partial then
      let mid := drop max_len data in
      _ ← store_node i (mk_node mid (node_next node));
      mret (max_len, take max_len data)
    else
      _ ← set_head (node_next node);
      _ ← (if null (node_next node)
           then _ ← massert (bool_decide (q_tail st = Some i)); set_tail None
           else mret tt);
      _ ← free_node i;
      mret (length data, take (max_len `min` length data) data).

(** The loop of [_mysock_free_queue], from a node on. *)
Fixpoint linked_free_loop (fuel : nat) (p : option positive) (result : bool) : M linked bool :=
  match fuel with
  | O => fail OutOfFuel
  | S fuel' =>
      if null p then mret result
      else
        '(i, node) ← load_node p;
        let result := if (0 <? length (node_data node))%nat then true else result in
        _ ← free_node i;
        linked_free_loop fuel' (node_next node) result
  end.

(** [_mysock_free_queue] on the nodes. *)
Definition linked_free (fuel : nat) : M linked bool :=
  st ← get;
  result ← linked_free_loop fuel (q_head st) (negb (null (q_head st)));
  _ ← set_head None;
  _ ← set_tail None;
  mret result.

(* ------------------------------------------------------------------ *)
(** * Refinement *)

(** The nodes [l] (with their data) are chained from [p] to [q]. *)
Fixpoint chained (m : gmap positive packet_queue_node_t) (p : option positive) (l : list (positive * bytes))
    (q : option positive) : Prop :=
  match l with
  | [] => p = q
  | (i, d) :: l' => p = Some i /\ exists n, m !! i = Some (mk_node d n) /\ chained m n l' q
  end.

(** The linked queue [st] holds the buffers [pq]. *)
Definition queue_repr (st : linked) (pq : packet_queue_t) : Prop :=
  exists l, chained (nodes st) (q_head st) l None /\ NoDup l.*1 /\ l.*2 = pq /\ q_tail st = last l.*1.

(** Nodes that do not belong to the queue are left alone. *)
Definition same_others (st st' : linked) : Prop :=
  forall i n, nodes st !! i = Some n ->
    (forall l, chained (nodes st) (q_head st) l None -> i ∉ l.*1) -> nodes st' !! i = Some n.

Lemma chained_insert m p l q i n :
  i ∉ l.*1 -> chained m p l q -> chained (<[i := n]> m) p l q.
Proof.
  revert p. induction l as [|[j d] l IH]; intros p Hi; [done|]. simpl in *.
  apply not_elem_of_cons in Hi as [Hne Hi]. intros (-> & n' & Hj & Hc). split; [done|].
  exists n'. rewrite lookup_insert_ne by done. auto.
Qed.

Lemma chained_delete m p l q i : i ∉ l.*1 -> chained m p l q -> chained (delete i m) p l q.
Proof.
  revert p. induction l as [|[j d] l IH]; intros p Hi; [done|]. simpl in *.
  apply not_elem_of_cons in Hi as [Hne Hi]. intros (-> & n' & Hj & Hc). split; [done|].
  exists n'. rewrite lookup_delete_ne by done. auto.
Qed.

Lemma chained_app m p l1 l2 q :
  chained m p (l1 ++ l2) q <-> exists r, chained m p l1 r /\ chained m r l2 q.
Proof.
  revert p. induction l1 as [|[j d] l1 IH]; intros p; simpl.
  - split; [eauto|]. by intros (r & -> & H).
  - split.
    + intros (-> & n & Hj & (r & H1 & H2)%IH). exists r. eauto.
    + intros (r & (-> & n & Hj & H1) & H2). split; [done|]. exists n. rewrite IH. eauto.
Qed.

Lemma chained_dom m p l q : chained m p l q -> forall i, i ∈ l.*1 -> is_Some (m !! i).
Proof.
  revert p. induction l as [|[j d] l IH]; intros p Hc i; simpl; [by intros ?%elem_of_nil|].
  destruct Hc as (-> & n & Hj & Hc). intros [->|Hi]%elem_of_cons; [by eexists|]. by eapply IH.
Qed.

Lemma chained_det m p l l' : chained m p l None -> chained m p l' None -> l = l'.
Proof.
  revert p l'. induction l as [|[i d] l IH]; intros p [|[j e] l']; simpl; try done.
  - by intros -> (? & _).
  - by intros (-> & _) ?.
  - intros (-> & n & Hi & Hc) ([= ->] & n' & Hj & Hc'). rewrite Hi in Hj. injection Hj as -> ->.
    f_equal. by eapply IH.
Qed.

Section refinement.
Context (F : fault -> Prop).

Lemma wlp_load_node i n (Q : positive * packet_queue_node_t -> linked -> Prop) st :
  nodes st !! i = Some n -> Q (i, n) st -> wlp F (load_node (Some i)) Q st.
Proof. intros Hi HQ. unfold load_node. wgo. by rewrite Hi. Qed.

Lemma wlp_alloc_node packet (Q : positive -> linked -> Prop) st :
  (forall i, nodes st !! i = None ->
     Q i (mk_linked (<[i := mk_node packet None]> (nodes st)) (q_head st) (q_tail st))) ->
  wlp F (alloc_node packet) Q st.
Proof.
  intros HQ. unfold alloc_node, store_node. wsteps. apply HQ.
  apply not_elem_of_dom. apply is_fresh.
Qed.

Lemma queue_repr_nil st : queue_repr st [] <-> q_head st = None /\ q_tail st = None.
Proof.
  split.
  - intros (l & Hc & _ & Hd & Ht). destruct l; [|done]. done.
  - intros [H1 H2]. exists []. repeat split; done || constructor.
Qed.

Lemma chained_fresh m p l q i : m !! i = None -> chained m p l q -> i ∉ l.*1.
Proof. intros Hi Hc Hel. destruct (chained_dom m p l q Hc i Hel) as [n Hn]. congruence. Qed.

(** Appending to the linked queue appends to the list. *)
Lemma linked_enqueue_refines st pq packet :
  queue_repr st pq ->
  wlp F (linked_enqueue packet)
    (fun _ st' => queue_repr st' (_mysock_enqueue_buffer pq packet) /\ same_others st st') st.
Proof.
  intros (l & Hc & Hnd & Hd & Ht). unfold linked_enqueue. wgo. apply wlp_alloc_node. intros i Hi.
  pose proof (chained_fresh _ _ _ _ i Hi Hc) as Hfr. wgo.
  destruct (list_snoc_or_nil l) as [->|(l' & [t d] & ->)].
  - simpl in *. rewrite Hc, Ht. wgo. simpl. unfold set_head, set_tail. wgo. split.
    + exists [(i, packet)]. simpl. repeat split; try done; [|by constructor; [apply not_elem_of_nil|constructor]|by subst].
      exists None. by rewrite lookup_insert_eq.
    + intros j n Hj _. simpl. rewrite lookup_insert_ne; [done|]. congruence.
  - rewrite fmap_app, last_app in Ht. simpl in Ht. apply chained_app in Hc as (r & Hc & Hr).
    destruct Hr as (-> & n & Hn & ->). rewrite fmap_app in Hfr, Hnd. simpl in *.
    assert (Hne : t <> i) by congruence.
    assert (Htl : t ∉ l'.*1).
    { apply NoDup_app in Hnd as (_ & Hnd & _). intros Hel. by apply (Hnd t Hel), list_elem_of_singleton. }
    assert (Hil : i ∉ l'.*1) by set_solver.
    rewrite Ht. replace (null (q_head st)) with false by (destruct l' as [|[??]]; simpl in Hc; [by rewrite Hc|by destruct Hc as [-> _]]).
    cbn [null negb]. wgo. apply (wlp_load_node t (mk_node d None)); [by simpl; rewrite lookup_insert_ne|]. wgo. simpl. wgo.
    apply (wlp_load_node i (mk_node packet None)); [by simpl; rewrite lookup_insert_eq|]. wgo. simpl. wgo.
    unfold store_node, set_tail. wgo. split.
    + exists (l' ++ [(t, d)] ++ [(i, packet)]). repeat split; simpl.
      * apply chained_app. exists (Some t). split.
        -- apply chained_insert; [done|]. by apply chained_insert.
        -- simpl. split; [done|]. exists (Some i). rewrite lookup_insert_eq. split; [done|].
           split; [done|]. exists None. rewrite lookup_insert_ne by done. by rewrite lookup_insert_eq.
      * rewrite fmap_app. simpl. rewrite (app_assoc _ [t] [i]). apply NoDup_app. split; [done|].
        split; [|apply NoDup_singleton]. intros j Hj ->%list_elem_of_singleton. set_solver.
      * subst pq. rewrite !fmap_app. simpl. unfold _mysock_enqueue_buffer. by rewrite <- app_assoc.
      * rewrite fmap_app, last_app. done.
    + intros j m Hj Ho. simpl. rewrite !lookup_insert_ne; [done|congruence|].
      intros <-. apply (Ho (l' ++ [(t, d)])).
      * apply chained_app. exists (Some t). split; [done|]. simpl. eauto.
      * rewrite fmap_app. set_solver.
Qed.

(** Taking from the linked queue takes from the list, and waits when the list does. *)
Lemma linked_dequeue_refines st pq max_len remove_partial :
  queue_repr st pq ->
  match _mysock_dequeue_buffer pq max_len remove_partial tt with
  | Ok ((n, data, pq'), _) =>
      wlp F (linked_dequeue max_len remove_partial)
        (fun r st' => r = (n, data) /\ queue_repr st' pq' /\ same_others st st') st
  | Err f => linked_dequeue max_len remove_partial st = Err f
  end.
Proof.
  intros (l & Hc & Hnd & Hd & Ht). destruct l as [|[i d] l]; subst pq; simpl.
  { unfold linked_dequeue. simpl in Hc. unfold mbind, M_bind, get. by rewrite Hc. }
  destruct Hc as (Hh & n & Hi & Hc). simpl in Hnd. apply NoDup_cons in Hnd as [Hil Hnd].
  assert (Hown : forall j m, nodes st !! j = Some m ->
     (forall l0, chained (nodes st) (q_head st) l0 None -> j ∉ l0.*1) -> j <> i).
  { intros j m Hj Ho ->. apply (Ho ((i, d) :: l)); [simpl; eauto|]. simpl. by left. }
  destruct ((max_len <? length d)%nat && remove_partial) eqn:Hp; simpl.
  - unfold linked_dequeue. wgo. rewrite Hh. simpl. wgo.
    apply (wlp_load_node i (mk_node d n)); [done|]. wgo. simpl. rewrite Hp. unfold store_node. wgo.
    split; [done|]. split.
    + exists ((i, drop max_len d) :: l). simpl. repeat split; try done.
      * exists n. rewrite lookup_insert_eq. split; [done|]. by apply chained_insert.
      * by constructor.
    + intros j m Hj Ho. simpl. rewrite lookup_insert_ne; [done|]. intros ->. by eapply Hown.
  - unfold linked_dequeue. wgo. rewrite Hh. simpl. wgo.
    apply (wlp_load_node i (mk_node d n)); [done|]. wgo. simpl. rewrite Hp. unfold set_head, set_tail, free_node.
    assert (Hrest : forall tl, tl = last l.*1 ->
      queue_repr (mk_linked (delete i (nodes st)) n tl) l.*2 /\
      same_others st (mk_linked (delete i (nodes st)) n tl)).
    { intros tl ->. split.
      - exists l. repeat split; try done. by apply chained_delete.
      - intros j m Hj Ho. simpl. rewrite lookup_delete_ne; [done|]. intros ->. by eapply Hown. }
    wgo. destruct l as [|[i' d'] l']; simpl in Hc.
    + subst n. simpl in *. rewrite Ht. rewrite bool_decide_eq_true_2 by done. wgo. split; [done|]. by apply Hrest.
    + destruct Hc as (-> & n' & Hi' & Hc). simpl. wgo. split; [done|]. apply Hrest. by rewrite Ht.
Qed.

Lemma wlp_free_loop fuel p l result st :
  chained (nodes st) p l None -> NoDup l.*1 -> (length l < fuel)%nat ->
  wlp F (linked_free_loop fuel p result)
    (fun r st' => r = orb result (existsb (fun d => (0 <? length d)%nat) l.*2)
       /\ q_head st' = q_head st /\ q_tail st' = q_tail st
       /\ forall i, nodes st' !! i = (if decide (i ∈ l.*1) then None else nodes st !! i)) st.
Proof.
  revert p l result st. induction fuel as [|fuel IH]; intros p l result st Hc Hnd Hl; [lia|].
  destruct l as [|[i d] l]; simpl in *.
  - subst p. simpl. wgo. by rewrite orb_false_r.
  - destruct Hc as (-> & n & Hi & Hc). apply NoDup_cons in Hnd as [Hil Hnd]. simpl. wgo.
    apply (wlp_load_node i (mk_node d n)); [done|]. wgo. unfold free_node. simpl. wgo.
    eapply wlp_mono; [apply (IH n l); simpl; [by apply chained_delete|done|lia]|].
    intros r st' (-> & Hh & Ht & Hn). split; [|split; [done|split; [done|]]].
    + destruct (0 <? length d)%nat, result; simpl; done.
    + intros j. rewrite Hn. cbn [nodes]. change (list_fmap _ _ fst l) with (l.*1).
      destruct (decide (j ∈ l.*1)), (decide (j ∈ i :: l.*1)); try done.
      * set_solver.
      * assert (j = i) as -> by set_solver. by rewrite lookup_delete_eq.
      * rewrite lookup_delete_ne; [done|set_solver].
Qed.

(** Freeing the linked queue returns every node of it, and the flag of the list. *)
Lemma linked_free_refines fuel st l :
  chained (nodes st) (q_head st) l None -> NoDup l.*1 -> (length l < fuel)%nat ->
  wlp F (linked_free fuel)
    (fun r st' => r = fst (_mysock_free_queue l.*2) /\ queue_repr st' (snd (_mysock_free_queue l.*2))
       /\ forall i, nodes st' !! i = (if decide (i ∈ l.*1) then None else nodes st !! i)) st.
Proof.
  intros Hc Hnd Hl. unfold linked_free. wgo.
  eapply wlp_mono; [by apply (wlp_free_loop fuel (q_head st) l)|].
  intros r st' (-> & _ & _ & Hn). unfold set_head, set_tail. wgo. simpl. split; [|split; [|exact Hn]].
  - destruct l as [|[i d] l]; simpl in *; [by rewrite Hc|]. by destruct Hc as [-> _].
  - by apply queue_repr_nil.
Qed.
End refinement.
