(* ===== verification/NetworkIoTcp.v ===== *)
(** network_io_tcp.c: STCP packets over a TCP byte stream, each preceded by its
    length in two bytes. The system calls are those of [Kernel]; the state is the
    network context of one mysocket. *)

From S2P Require Import Prelude.
From S2P Require Import Bytes.
From S2P Require Import MysockState.

(* ------------------------------------------------------------------ *)
(** * _tcp_io *)

(** The loop of [_tcp_io(tcp_sd, buf, count, io_func)]: [io_func cbuf n] is the
    system call on what is left of the buffer, which gives its result and the
    advanced cursor. [count] rounds are enough when every call makes progress. *)
Fixpoint tcp_io_loop {S B} (io_func : B -> nat -> M S (Z * B)) (count : Z) (fuel : nat) (cbuf : B)
    (bytes_remaining : nat) : M S (Z * B) :=
  match fuel with
  | O => match bytes_remaining with O => mret (count, cbuf) | _ => fail OutOfFuel end
  | Datatypes.S fuel' =>
      match bytes_remaining with
      | O => mret (count, cbuf)
      | _ =>
          '(rc, cbuf') ← io_func cbuf bytes_remaining;
          if rc <=? 0 then mret (rc, cbuf')
          else
            _ ← massert (rc <=? Z.of_nat bytes_remaining);
            tcp_io_loop io_func count fuel' cbuf' (bytes_remaining - Z.to_nat rc)
      end
  end.

Definition _tcp_io {S B} (io_func : B -> nat -> M S (Z * B)) (buf : B) (count : nat) : M S (Z * B) :=
  tcp_io_loop io_func (Z.of_nat count) count buf count.

Section network_io.
Context {K : Kernel}.

(** [write(socket, cbuf, n)] on the mysocket's TCP connection; the cursor is the
    rest of the buffer. *)
Definition sys_write (cbuf : bytes) (n : nat) : M network_context_t (Z * bytes) :=
  ctx ← get;
  let rc := write_rc (net_out ctx) n in
  if rc <=? 0 then mret (rc, cbuf)
  else
    _ ← put (set_net_out (net_out ctx ++ take (Z.to_nat rc) cbuf) ctx);
    mret (rc, drop (Z.to_nat rc) cbuf).

(** What can be read from the connection just accepted, or from the mysocket's
    own connection. *)
Definition stream (accepted : bool) (ctx : network_context_t) : bytes :=
  if accepted then default [] (new_socket ctx) else net_in ctx.
Definition set_stream (accepted : bool) (b : bytes) (ctx : network_context_t) : network_context_t :=
  if accepted then set_new_socket (Some b) ctx else set_net_in b ctx.

(** [read(io_socket, cbuf, n)]; the cursor is what was read so far. *)
Definition sys_read (accepted : bool) (cbuf : bytes) (n : nat) : M network_context_t (Z * bytes) :=
  ctx ← get;
  match stream accepted ctx with
  | [] => fail Blocked
  | b =>
      let rc := read_rc b n in
      if rc <=? 0 then mret (rc, cbuf)
      else
        _ ← put (set_stream accepted (drop (Z.to_nat rc) b) ctx);
        mret (rc, cbuf ++ take (Z.to_nat rc) b)
  end.

(* ------------------------------------------------------------------ *)
(** * Connecting, sending, receiving *)

(** [_tcp_connect(ctx)] *)
Definition _tcp_connect : M network_context_t Z :=
  ctx ← get;
  if negb (connected ctx) then
    _ ← massert (peer_addr_valid ctx);
    _ ← massert (sa_family (peer_addr ctx) =? AF_INET);
    _ ← massert (0 <? sin_port (peer_addr ctx));
    if connect_rc (peer_addr ctx) <? 0 then mret (-1)
    else
      _ ← put (set_connected true ctx);
      mret 0
  else mret 0.

(** [_network_send_packet(ctx, src, len)] *)
Definition _network_send_packet (src : bytes) : M network_context_t Z :=
  ctx ← get;
  _ ← massert (0 <? peer_addr_len ctx);
  rc ← _tcp_connect;
  if rc <? 0 then mret (-1)
  else
    let packet_len := le16 (htons (u16 (blen src))) in
    '(rc1, _) ← _tcp_io sys_write packet_len 2;
    if rc1 <? 0 then mret (-1)
    else
      '(rc2, _) ← _tcp_io sys_write src (length src);
      if rc2 <? 0 then mret (-1) else mret (blen src).

(** [accept] on a listening socket, with the assertion before its result is kept. *)
Definition accept_connection : M network_context_t unit :=
  ctx ← get;
  match accept_queue ctx with
  | [] => fail Blocked
  | (addr, b) :: rest =>
      let ctx := set_peer addr SOCKADDR_LEN (peer_addr_valid ctx) (set_accept_queue rest ctx) in
      _ ← massert (match new_socket ctx with None => true | Some _ => false end);
      put (set_new_socket (Some b) ctx)
  end.

(** Second half of [_network_recv_packet]: a length, then the packet. *)
Definition recv_frame (accepted : bool) (max_len : nat) : M network_context_t (Z * bytes) :=
  '(rc, hdr) ← _tcp_io (sys_read accepted) [] 2;
  if rc <=? 0 then mret (rc, [])
  else
    let packet_len := Z.to_nat (ntohs (get16 hdr 0)) in
    '(rc, data) ← _tcp_io (sys_read accepted) [] (packet_len `min` max_len);
    if rc <=? 0 then mret (rc, data)
    else
      _ ← (if (max_len <? packet_len)%nat
           then '(_, _) ← _tcp_io (sys_read accepted) [] (packet_len - max_len); mret tt
           else mret tt);
      mret (Z.of_nat packet_len, data).

(** [_network_recv_packet(ctx, dst, max_len)] on a mysocket with these
    [is_active] and [listening]: the result and the bytes stored in [dst]. *)
Definition _network_recv_packet (is_active listening : bool) (max_len : nat) : M network_context_t (Z * bytes) :=
  rc ← (if is_active then _tcp_connect else mret 0);
  if rc <? 0 then mret (-1, [])
  else
    _ ← (if listening then accept_connection else mret tt);
    recv_frame listening max_len.

(** [_network_update_passive_state(new_ctx, accept_ctx, ...)]: the new context
    takes over the accepted connection, whose local port is the listener's; the
    result is the pair of both contexts. *)
Definition _network_update_passive_state (new_listening new_active : bool) (new_ctx accept_ctx : network_context_t)
    : res (network_context_t * network_context_t) :=
  if new_listening then Err AssertFailed
  else if new_active then Err AssertFailed
  else Ok (set_net_port (net_port accept_ctx)
             (set_connected true (set_net_out [] (set_net_in (default [] (new_socket accept_ctx)) new_ctx))),
           set_new_socket None accept_ctx).
End network_io.

(* ------------------------------------------------------------------ *)
(** * Framing *)

(** What a packet is on the wire. *)
Definition frame (p : bytes) : bytes := le16 (htons (blen p)) ++ p.

Section io_facts.
Context {K : Kernel} {KOk : KernelOk K} (F : fault -> Prop).

(** [_tcp_io] with [write] sends the whole buffer. *)
Lemma wlp_tcp_write b (Q : Z * bytes -> network_context_t -> Prop) ctx :
  Q (blen b, []) (set_net_out (net_out ctx ++ b) ctx) ->
  wlp F (_tcp_io sys_write b (length b)) Q ctx.
Proof.
  unfold _tcp_io, blen. set (count := Z.of_nat (length b)). clearbody count.
  assert (Hf : (length b <= length b)%nat) by lia. revert Hf. generalize (length b) at 2 3 as fuel. intros fuel.
  revert b ctx. induction fuel as [|fuel IH]; intros b ctx Hl HQ.
  - destruct b; [|simpl in Hl; lia]. simpl. wgo. rewrite app_nil_r in HQ. by destruct ctx.
  - simpl. destruct b as [|x b].
    { simpl. wgo. rewrite app_nil_r in HQ. by destruct ctx. }
    set (b' := x :: b) in *. change (length b') with (Datatypes.S (length b)) at 1. cbn match.
    change (Datatypes.S (length b)) with (length b').
    assert (Hn : (0 < length b')%nat) by (subst b'; simpl; lia).
    pose proof (write_some (net_out ctx) (length b') Hn) as Hw.
    unfold sys_write. wgo. rewrite (proj2 (Z.leb_gt _ _)) by lia. wgo.
    rewrite (proj2 (Z.leb_gt _ _)) by lia. wgo. rewrite (proj2 (Z.leb_le _ _)) by lia. wgo.
    set (k := Z.to_nat (write_rc (net_out ctx) (length b'))) in *.
    replace (length b' - k)%nat with (length (drop k b')) by (rewrite length_drop; lia).
    apply IH; [rewrite length_drop; lia|].
    replace (net_out (set_net_out _ ctx) ++ drop k b') with (net_out ctx ++ b'); [done|].
    cbn [net_out set_net_out]. by rewrite <- app_assoc, take_drop.
Qed.

Lemma stream_set accepted b ctx : stream accepted (set_stream accepted b ctx) = b.
Proof. by destruct accepted. Qed.
Lemma set_stream_set accepted b b' ctx : set_stream accepted b (set_stream accepted b' ctx) = set_stream accepted b ctx.
Proof. by destruct accepted. Qed.
Lemma set_stream_same accepted b ctx :
  stream accepted ctx = b -> (accepted = true -> is_Some (new_socket ctx)) -> set_stream accepted b ctx = ctx.
Proof.
  intros <- Hs. destruct accepted, ctx; simpl in *; [|done]. destruct (Hs eq_refl) as [x Hx]. by rewrite Hx.
Qed.

Lemma wlp_read_loop (b rest acc : bytes) count fuel (Q : Z * bytes -> network_context_t -> Prop) accepted ctx :
  (length b <= fuel)%nat -> stream accepted ctx = b ++ rest -> (accepted = true -> is_Some (new_socket ctx)) ->
  Q (count, acc ++ b) (set_stream accepted rest ctx) ->
  wlp F (tcp_io_loop (sys_read accepted) count fuel acc (length b)) Q ctx.
Proof.
  revert b ctx acc. induction fuel as [|fuel IH]; intros b ctx acc Hl Hs Ha HQ.
  - destruct b; [|simpl in Hl; lia]. simpl. wgo. rewrite app_nil_r in HQ. simpl in Hs.
    by rewrite set_stream_same in HQ.
  - simpl. destruct b as [|x b].
    { simpl. wgo. rewrite app_nil_r in HQ. simpl in Hs. by rewrite set_stream_same in HQ. }
    set (b' := x :: b) in *. change (length b') with (Datatypes.S (length b)) at 1. cbn match.
    change (Datatypes.S (length b)) with (length b').
    assert (Hn : (0 < length b')%nat) by (subst b'; simpl; lia).
    unfold sys_read. wgo. rewrite Hs. change (b' ++ rest) with (x :: (b ++ rest)) at 1. cbn match.
    change (x :: (b ++ rest)) with (b' ++ rest).
    pose proof (read_some (b' ++ rest) (length b') Hn) as Hw. rewrite length_app in Hw.
    assert (Hw' : 0 < read_rc (b' ++ rest) (length b') <= Z.of_nat (length b')).
    { assert (b' ++ rest <> []) as Hne by done. specialize (Hw Hne). lia. }
    rewrite (proj2 (Z.leb_gt _ _)) by lia. wgo.
    rewrite (proj2 (Z.leb_gt _ _)) by lia. wgo. rewrite (proj2 (Z.leb_le _ _)) by lia. wgo.
    set (k := Z.to_nat (read_rc (b' ++ rest) (length b'))) in *.
    rewrite take_app_le, drop_app_le by lia.
    replace (length b' - k)%nat with (length (drop k b')) by (rewrite length_drop; lia).
    apply IH; [rewrite length_drop; lia|by rewrite stream_set| |].
    + intros ->. simpl. by eexists.
    + rewrite set_stream_set. by rewrite <- app_assoc, take_drop.
Qed.

(** [_tcp_io] with [read] reads exactly what was asked for, if it is there. *)
Lemma wlp_tcp_read (b rest : bytes) (Q : Z * bytes -> network_context_t -> Prop) accepted ctx n :
  n = length b -> stream accepted ctx = b ++ rest -> (accepted = true -> is_Some (new_socket ctx)) ->
  Q (blen b, b) (set_stream accepted rest ctx) ->
  wlp F (_tcp_io (sys_read accepted) [] n) Q ctx.
Proof. intros -> Hs Ha HQ. by apply (wlp_read_loop b rest). Qed.

(** [_tcp_io] with [read] waits unless all that was asked for is there. *)
Lemma wlp_read_any count fuel acc n (Q : Z * bytes -> network_context_t -> Prop) ctx :
  F Blocked -> (n <= fuel)%nat ->
  ((n <= length (net_in ctx))%nat -> Q (count, acc ++ take n (net_in ctx)) (set_net_in (drop n (net_in ctx)) ctx)) ->
  wlp F (tcp_io_loop (sys_read false) count fuel acc n) Q ctx.
Proof.
  intros HF Hf HQ. destruct (decide (n <= length (net_in ctx))%nat) as [Hle|Hgt].
  - assert (Hn : n = length (take n (net_in ctx))) by (rewrite length_take; lia). rewrite Hn at 1.
    apply (wlp_read_loop (take n (net_in ctx)) (drop n (net_in ctx))); try done.
    + rewrite length_take. lia.
    + simpl. by rewrite take_drop.
    + auto.
  - clear HQ. revert n acc ctx Hf Hgt. induction fuel as [|fuel IH]; intros n acc ctx Hf Hgt; [lia|].
    simpl. destruct n as [|n]; [lia|]. unfold sys_read. wgo. cbn [stream].
    destruct (net_in ctx) as [|x b] eqn:Hb; [by apply wlp_fail|].
    rewrite <- Hb in *. pose proof (read_some (net_in ctx) (Datatypes.S n)) as Hr.
    assert (Hr' : 0 < read_rc (net_in ctx) (Datatypes.S n) <= Z.of_nat (length (net_in ctx))).
    { assert (net_in ctx <> []) as Hne by (by rewrite Hb). specialize (Hr ltac:(lia) Hne). lia. }
    rewrite (proj2 (Z.leb_gt _ _)) by lia. wgo.
    rewrite (proj2 (Z.leb_gt _ _)) by lia. wgo. rewrite (proj2 (Z.leb_le _ _)) by lia. wgo.
    apply IH; [lia|]. cbn [net_in set_net_in set_stream]. rewrite length_drop. lia.
Qed.

Lemma wlp_tcp_read_any n (Q : Z * bytes -> network_context_t -> Prop) ctx :
  F Blocked ->
  ((n <= length (net_in ctx))%nat -> Q (Z.of_nat n, take n (net_in ctx)) (set_net_in (drop n (net_in ctx)) ctx)) ->
  wlp F (_tcp_io (sys_read false) [] n) Q ctx.
Proof. intros HF HQ. apply wlp_read_any; [done|lia|]. exact HQ. Qed.

(** A context whose TCP connection exists or can be made. *)
Definition reachable (ctx : network_context_t) : Prop :=
  0 < peer_addr_len ctx /\
  (connected ctx = true \/
   peer_addr_valid ctx = true /\ sa_family (peer_addr ctx) = AF_INET /\ 0 < sin_port (peer_addr ctx)).

Lemma wlp_tcp_connect (Q : Z -> network_context_t -> Prop) ctx :
  reachable ctx -> Q 0 (set_connected true ctx) -> wlp F _tcp_connect Q ctx.
Proof.
  intros [_ [Hc|(H1 & H2 & H3)]] HQ; unfold _tcp_connect; wgo.
  - rewrite Hc. cbn [negb]. wgo. destruct ctx; simpl in *; by subst.
  - destruct (connected ctx) eqn:Hc; cbn [negb].
    + wgo. destruct ctx; simpl in *; by subst.
    + rewrite H1, H2, Z.eqb_refl, (proj2 (Z.ltb_lt 0 (sin_port _))) by lia. wgo.
      rewrite (proj2 (Z.ltb_ge (connect_rc _) 0)) by apply connect_ok. by wgo.
Qed.

(** A packet sent appears framed at the end of the stream. *)
Lemma wlp_send_packet src (Q : Z -> network_context_t -> Prop) ctx :
  reachable ctx -> blen src < 65536 ->
  Q (blen src) (set_net_out (net_out ctx ++ frame src) (set_connected true ctx)) ->
  wlp F (_network_send_packet src) Q ctx.
Proof.
  intros Hr Hl HQ. pose proof Hr as [Hp _]. unfold blen in *. unfold _network_send_packet. wgo.
  rewrite (proj2 (Z.ltb_lt _ _)) by lia. wgo. apply wlp_tcp_connect; [done|]. wgo.
  rewrite (proj2 (Z.ltb_ge 0 0)) by lia. wgo.
  rewrite u16_small by (unfold blen; lia). unfold blen.
  apply (wlp_tcp_write (le16 (htons (Z.of_nat (length src))))). wgo. simpl. wgo.
  apply wlp_tcp_write. wgo. unfold blen. rewrite (proj2 (Z.ltb_ge _ _)) by lia. wgo.
  cbn [net_out set_net_out set_connected]. rewrite <- app_assoc. exact HQ.
Qed.

Lemma ntohs_frame n : 0 <= n < 65536 -> ntohs (get16 (le16 (htons n)) 0) = n.
Proof.
  intros Hn. change (get16 (le16 (htons n)) 0) with (htons n mod 256 + 256 * ((htons n / 256) mod 256)).
  unfold ntohs, htons. Z.div_mod_to_equations. lia.
Qed.

(** What is left of a receiving context once a frame was taken. *)
Lemma wlp_recv_frame p rest max_len accepted (Q : Z * bytes -> network_context_t -> Prop) ctx :
  stream accepted ctx = frame p ++ rest -> (accepted = true -> is_Some (new_socket ctx)) ->
  0 < blen p < 65536 -> (0 < max_len)%nat ->
  Q (blen p, take max_len p) (set_stream accepted rest ctx) ->
  wlp F (recv_frame accepted max_len) Q ctx.
Proof.
  intros Hs Ha Hl Hm HQ. unfold frame in Hs. rewrite <- app_assoc in Hs. unfold recv_frame. wgo.
  apply (wlp_tcp_read (le16 (htons (blen p))) (p ++ rest)); try done. wgo. cbn [Z.leb Z.compare blen length le16].
  rewrite ntohs_frame by lia. cbv zeta. unfold blen. rewrite Nat2Z.id.
  lazymatch goal with |- wlp _ (if ?c then _ else _) _ _ => replace c with false by done | _ => idtac end. wgo.
  assert (Hsplit : p ++ rest = take max_len p ++ (drop max_len p ++ rest)).
  { by rewrite app_assoc, take_drop. }
  unfold blen in Hl.
  apply (wlp_tcp_read (take max_len p) (drop max_len p ++ rest)).
  { rewrite length_take. lia. }
  { by rewrite stream_set. }
  { intros ->. simpl. by eexists. }
  wgo. rewrite (proj2 (Z.leb_gt _ _)) by (unfold blen; rewrite length_take; lia). wgo.
  destruct (Nat.ltb_spec max_len (length p)) as [Hlt|Hge].
  - wgo. apply (wlp_tcp_read (drop max_len p) rest).
    { rewrite length_drop. lia. }
    { by rewrite stream_set. }
    { intros ->. simpl. by eexists. }
    wgo. rewrite !set_stream_set. exact HQ.
  - wgo. rewrite drop_ge by lia. rewrite !set_stream_set. exact HQ.
Qed.

(** Receiving on a connected mysocket. *)
Lemma wlp_recv_packet p rest is_active max_len (Q : Z * bytes -> network_context_t -> Prop) ctx :
  net_in ctx = frame p ++ rest -> 0 < blen p < 65536 -> (0 < max_len)%nat -> connected ctx = true ->
  Q (blen p, take max_len p) (set_net_in rest ctx) ->
  wlp F (_network_recv_packet is_active false max_len) Q ctx.
Proof.
  intros Hs Hl Hm Hc HQ. unfold _network_recv_packet. wgo. cbv match. wgo.
  assert (Hgo : wlp F (if is_active then _tcp_connect else mret 0) (fun rc c => rc = 0 /\ c = ctx) ctx).
  { destruct is_active; [|by wgo]. unfold _tcp_connect. wgo. rewrite Hc. simpl. by wgo. }
  eapply wlp_mono; [exact Hgo|]. intros rc c [-> ->]. cbn [Z.ltb Z.compare]. wgo.
  by apply (wlp_recv_frame p rest).
Qed.

(** Receiving while the stream is being filled: the packet once it is all
    there, a wait before. *)
Lemma wlp_recv_partial p rest more is_active max_len (Q : Z * bytes -> network_context_t -> Prop) ctx :
  (more <> [] -> F Blocked) -> net_in ctx ++ more = frame p ++ rest -> 0 < blen p < 65536 -> blen p <= Z.of_nat max_len ->
  connected ctx = true ->
  (forall rest', net_in ctx = frame p ++ rest' -> rest' ++ more = rest -> Q (blen p, p) (set_net_in rest' ctx)) ->
  wlp F (_network_recv_packet is_active false max_len) Q ctx.
Proof.
  intros HF Hs Hl Hm Hc HQ. unfold blen in Hl, Hm.
  assert (Hfl : length (frame p) = (2 + length p)%nat) by (unfold frame; rewrite length_app; done).
  destruct (decide (length (frame p) <= length (net_in ctx))%nat) as [Hle|Hgt].
  - assert (Hin : net_in ctx = frame p ++ drop (length (frame p)) (net_in ctx)).
    { rewrite <- (take_drop (length (frame p)) (net_in ctx)) at 1. f_equal.
      apply (f_equal (take (length (frame p)))) in Hs. rewrite take_app_le in Hs by done.
      by rewrite take_app_length in Hs. }
    apply (wlp_recv_packet p (drop (length (frame p)) (net_in ctx))); unfold blen; try done; try lia.
    rewrite take_ge by lia. apply HQ; [done|]. rewrite Hin, <- app_assoc in Hs. by apply app_inv_head in Hs.
  - assert (HB : F Blocked).
    { apply HF. intros ->. apply (f_equal length) in Hs. rewrite !length_app in Hs. simpl in Hs. lia. }
    clear HQ HF. unfold _network_recv_packet. wgo.
    assert (Hgo : wlp F (if is_active then _tcp_connect else mret 0) (fun rc c => rc = 0 /\ c = ctx) ctx).
    { destruct is_active; [|by wgo]. unfold _tcp_connect. wgo. rewrite Hc. cbn [negb]. by wgo. }
    eapply wlp_mono; [exact Hgo|]. intros rc c [-> ->]. cbn [Z.ltb Z.compare]. wgo.
    unfold recv_frame. wgo. apply wlp_tcp_read_any; [done|]. intros H2. wgo.
    assert (Hh : take 2 (net_in ctx) = le16 (htons (blen p))).
    { apply (f_equal (take 2)) in Hs. rewrite take_app_le in Hs by done. by rewrite Hs. }
    rewrite Hh, ntohs_frame by (unfold blen; lia). cbv zeta. unfold blen. rewrite Nat2Z.id.
    rewrite Nat.min_l by lia. lazymatch goal with |- wlp _ (if ?c then _ else _) _ _ => replace c with false by done end.
    wgo. apply wlp_tcp_read_any; [done|]. cbn [net_in set_net_in]. rewrite length_drop. lia.
Qed.

(** Receiving on a listening mysocket: the first packet of the next connection. *)
Lemma wlp_recv_accept p rest addr others max_len (Q : Z * bytes -> network_context_t -> Prop) ctx :
  accept_queue ctx = (addr, frame p ++ rest) :: others -> new_socket ctx = None ->
  0 < blen p < 65536 -> (0 < max_len)%nat ->
  Q (blen p, take max_len p)
    (set_new_socket (Some rest) (set_peer addr SOCKADDR_LEN (peer_addr_valid ctx) (set_accept_queue others ctx))) ->
  wlp F (_network_recv_packet false true max_len) Q ctx.
Proof.
  intros Hs Hn Hl Hm HQ. unfold _network_recv_packet. wgo. cbn [Z.ltb Z.compare]. wgo.
  unfold accept_connection. wgo. rewrite Hs. cbn [new_socket set_peer set_accept_queue]. rewrite Hn. wgo.
  apply (wlp_recv_frame p rest); try done.
Qed.
End io_facts.
