(* ===== verification/SocketFds.v ===== *)
(** network_io_socket.c and network_io_tcp.c: the descriptors of the network
    layer. Each mysocket's network context owns a socket, the two ends of a pipe
    that wakes its receive thread, and, while it listens, perhaps a connection
    just accepted. What the sockets carry is modelled in NetworkIoTcp.v; here the
    state is which descriptors the process has open. *)

From S2P Require Import Prelude.

(** network_context_socket_tcp_t with its base, without locks and thread handle;
    [exit_bytes] is what was written to the pipe. *)
Record network_context_socket_tcp_t := mk_tcp {
  recv_thread_started : bool;
  socket : Z;
  exit_pipe : Z * Z;
  exit_bytes : nat;
  new_socket : Z;
  connected : bool;
}.

(** The process: its open descriptors, the blocks [impl_data] points to, and the
    descriptors [close] was called on without their being open. *)
Record process := mk_process {
  open_fds : gset Z;
  impl_data : gmap Z network_context_socket_tcp_t;
  bad_closes : list Z;
}.

Definition set_recv_thread_started (v : bool) (c : network_context_socket_tcp_t) : network_context_socket_tcp_t :=
  mk_tcp v (socket c) (exit_pipe c) (exit_bytes c) (new_socket c) (connected c).
Definition set_socket (v : Z) (c : network_context_socket_tcp_t) : network_context_socket_tcp_t :=
  mk_tcp (recv_thread_started c) v (exit_pipe c) (exit_bytes c) (new_socket c) (connected c).
Definition set_exit_pipe (v : Z * Z) (c : network_context_socket_tcp_t) : network_context_socket_tcp_t :=
  mk_tcp (recv_thread_started c) (socket c) v (exit_bytes c) (new_socket c) (connected c).
Definition set_exit_bytes (v : nat) (c : network_context_socket_tcp_t) : network_context_socket_tcp_t :=
  mk_tcp (recv_thread_started c) (socket c) (exit_pipe c) v (new_socket c) (connected c).
Definition set_new_socket (v : Z) (c : network_context_socket_tcp_t) : network_context_socket_tcp_t :=
  mk_tcp (recv_thread_started c) (socket c) (exit_pipe c) (exit_bytes c) v (connected c).
Definition set_connected (v : bool) (c : network_context_socket_tcp_t) : network_context_socket_tcp_t :=
  mk_tcp (recv_thread_started c) (socket c) (exit_pipe c) (exit_bytes c) (new_socket c) v.

(** The calls that make descriptors, by what is open, and [calloc], by the blocks
    in use. [None] is a failure. *)
Class SocketCalls := {
  sys_socket : gset Z -> option Z;
  sys_pipe : gset Z -> option (Z * Z);
  sys_accept : gset Z -> option Z;
  sys_calloc : gset Z -> Z;
}.

(** A new descriptor is a number not in use, and a new block is not one in use. *)
Class SocketCallsOk (K : SocketCalls) := {
  socket_new : forall s d, sys_socket s = Some d -> 0 <= d /\ d ∉ s;
  pipe_new : forall s r w, sys_pipe s = Some (r, w) -> 0 <= r /\ 0 <= w /\ r <> w /\ r ∉ s /\ w ∉ s;
  accept_new : forall s d, sys_accept s = Some d -> 0 <= d /\ d ∉ s;
  calloc_new : forall s, sys_calloc s ∉ s;
}.

(** [ctx->field] and [ctx->field = v] through the pointer [p]. *)
Definition load (p : Z) : M process network_context_socket_tcp_t :=
  st ← get;
  match impl_data st !! p with Some c => mret c | None => fail UseAfterFree end.
Definition store (p : Z) (f : network_context_socket_tcp_t -> network_context_socket_tcp_t) : M process unit :=
  c ← load p;
  modify (fun st => mk_process (open_fds st) (<[p := f c]> (impl_data st)) (bad_closes st)).

(** A system call gave the process the descriptor [d]. *)
Definition opened (d : Z) : M process unit :=
  modify (fun st => mk_process ({[d]} ∪ open_fds st) (impl_data st) (bad_closes st)).

(** [closesocket(d)] and [close(d)], whose result the code does not test. *)
Definition closesocket (d : Z) : M process unit :=
  modify (fun st =>
    if decide (d ∈ open_fds st) then mk_process (open_fds st ∖ {[d]}) (impl_data st) (bad_closes st)
    else mk_process (open_fds st) (impl_data st) (bad_closes st ++ [d])).

(** [if (d >= 0) { close(d); ctx->field = -1; }] *)
Definition close_field (p : Z) (field : network_context_socket_tcp_t -> Z)
    (reset : network_context_socket_tcp_t -> network_context_socket_tcp_t) : M process unit :=
  c ← load p;
  if 0 <=? field c then
    _ ← closesocket (field c);
    store p reset
  else mret tt.

(** [_network_destroy_context_socket(ctx)] *)
Definition _network_destroy_context_socket (p : Z) : M process unit :=
  _ ← close_field p socket (set_socket (-1));
  _ ← close_field p (fun c => (exit_pipe c).1) (fun c => set_exit_pipe (-1, (exit_pipe c).2) c);
  _ ← close_field p (fun c => (exit_pipe c).2) (fun c => set_exit_pipe ((exit_pipe c).1, -1) c);
  _ ← load p;
  modify (fun st => mk_process (open_fds st) (delete p (impl_data st)) (bad_closes st)).

(** [_network_close_socket(ctx)] *)
Definition _network_close_socket (p : Z) : M process unit := _network_destroy_context_socket p.

(** [_network_close(ctx)] *)
Definition _network_close (p : Z) : M process unit :=
  c ← load p;
  _ ← (if negb (new_socket c =? -1) then closesocket (new_socket c) else mret tt);
  _network_close_socket p.

(** [VERIFY_SOCKET(ctx)] *)
Definition VERIFY_SOCKET (p : Z) : M process unit :=
  c ← load p;
  massert (0 <=? socket c).

(** [_network_bind_socket(ctx, addr, addrlen)] and [_network_listen(ctx, backlog)],
    with the system call they pass on. *)
Definition _network_bind_socket (bind : Z -> Z) (p : Z) : M process Z :=
  _ ← VERIFY_SOCKET p;
  c ← load p;
  mret (bind (socket c)).
Definition _network_listen (listen : Z -> Z -> Z) (p backlog : Z) : M process Z :=
  _ ← VERIFY_SOCKET p;
  c ← load p;
  mret (listen (socket c) backlog).

(** [_network_get_port(ctx)], [getsockname] giving family and port. *)
Definition _network_get_port (getsockname : Z -> option (Z * Z)) (p : Z) : M process Z :=
  _ ← VERIFY_SOCKET p;
  c ← load p;
  match getsockname (socket c) with
  | None => fail AssertFailed
  | Some (family, port) => _ ← massert (family =? 2); mret port
  end.

Section calls.
Context {K : SocketCalls}.

(** [_network_alloc_context_socket(socket_type, ctx_len)]: the new block. *)
Definition _network_alloc_context_socket : M process Z :=
  st ← get;
  let p := sys_calloc (dom (impl_data st)) in
  _ ← put (mk_process (open_fds st) (<[p := mk_tcp false 0 (0, 0) 0 0 false]> (impl_data st)) (bad_closes st));
  match sys_socket (open_fds st) with
  | None => fail AssertFailed
  | Some d =>
      _ ← opened d;
      _ ← store p (set_socket d);
      _ ← store p (set_exit_pipe (-1, -1));
      st ← get;
      match sys_pipe (open_fds st) with
      | None => fail AssertFailed
      | Some (r, w) =>
          _ ← opened r;
          _ ← opened w;
          _ ← store p (set_exit_pipe (r, w));
          mret p
      end
  end.

(** [_network_init(sock_ctx, net_ctx)] *)
Definition _network_init : M process Z :=
  p ← _network_alloc_context_socket;
  _ ← store p (set_new_socket (-1));
  _ ← store p (set_connected false);
  mret p.

(** [_network_recv_packet] up to the end of its branch for listening sockets: the
    descriptor that is read from, or a negative result. *)
Definition recv_socket (p : Z) (listening : bool) : M process Z :=
  _ ← VERIFY_SOCKET p;
  c ← load p;
  if listening then
    st ← get;
    match sys_accept (open_fds st) with
    | None => mret (-1)
    | Some tmp_sd =>
        _ ← opened tmp_sd;
        _ ← massert (new_socket c =? -1);
        _ ← store p (set_new_socket tmp_sd);
        mret tmp_sd
    end
  else mret (socket c).

(** [_network_update_passive_state(new_ctx, accept_ctx, ...)] for a new mysocket
    with these [listening] and [is_active]. *)
Definition _network_update_passive_state (new accept : Z) (listening is_active : bool) : M process unit :=
  _ ← massert (negb listening);
  _ ← massert (negb is_active);
  c ← load new;
  _ ← closesocket (socket c);
  a ← load accept;
  _ ← store new (set_socket (new_socket a));
  _ ← store new (set_connected true);
  store accept (set_new_socket (-1)).

(** [_network_start_recv_thread(ctx)] *)
Definition _network_start_recv_thread (p : Z) : M process unit :=
  store p (set_recv_thread_started true).

(** [_network_stop_recv_thread(ctx)], the thread having returned when it is
    joined; a write to a pipe that is not open fails. *)
Definition _network_stop_recv_thread (p : Z) : M process unit :=
  c ← load p;
  if recv_thread_started c then
    st ← get;
    _ ← massert (bool_decide ((exit_pipe c).2 ∈ open_fds st));
    _ ← store p (set_exit_bytes (Datatypes.S (exit_bytes c)));
    store p (set_recv_thread_started false)
  else mret tt.

(* ------------------------------------------------------------------ *)
(** * Runs *)

(** A round of the receive thread of [p]: the listener's new connections are
    dispatched to a new context, or left when the packet is dropped. *)
Definition recv_round (p : Z) (listening dispatched : bool) : M process unit :=
  d ← recv_socket p listening;
  if (0 <=? d) && listening && dispatched then
    n ← _network_init;
    _network_update_passive_state n p false false
  else mret tt.

(** What the threads and the layers above ask for. *)
Inductive net_call :=
  | Init
  | Close (p : Z)
  | Recv (p : Z) (listening dispatched : bool)
  | Start (p : Z)
  | Stop (p : Z).

Definition run_call (o : net_call) : M process unit :=
  match o with
  | Init => _ ← _network_init; mret tt
  | Close p => _network_close p
  | Recv p listening dispatched => recv_round p listening dispatched
  | Start p => _network_start_recv_thread p
  | Stop p => _network_stop_recv_thread p
  end.

(** Closing every context. *)
Definition close_all : M process unit :=
  st ← get;
  mfor (elements (dom (impl_data st))) _network_close.
End calls.

(* ------------------------------------------------------------------ *)
(** * Ownership *)

(** The descriptors a context owns, and those all contexts own. *)
Definition fds (c : network_context_socket_tcp_t) : list Z :=
  filter (fun d => 0 <= d) [socket c; (exit_pipe c).1; (exit_pipe c).2; new_socket c].

Definition owned (m : gmap Z network_context_socket_tcp_t) : list Z :=
  mjoin ((fun x => fds x.2) <$> map_to_list m).

(** Over the descriptors [base] the process had: each context owns its own,
    nothing else is open, and no close has failed. *)
Record balanced (base : gset Z) (st : process) : Prop := {
  own_once : NoDup (owned (impl_data st));
  own_apart : forall d, d ∈ owned (impl_data st) -> d ∉ base;
  own_all : forall d, d ∈ open_fds st <-> d ∈ base \/ d ∈ owned (impl_data st);
  own_new : map_Forall (fun _ c => -1 <= new_socket c) (impl_data st);
  own_good : bad_closes st = [];
}.

Lemma owned_insert m p c : m !! p = None -> owned (<[p := c]> m) ≡ₚ fds c ++ owned m.
Proof. intros Hp. unfold owned. by rewrite (map_to_list_insert m p c Hp). Qed.

Lemma owned_delete m p c : m !! p = Some c -> owned m ≡ₚ fds c ++ owned (delete p m).
Proof.
  intros Hp. rewrite <- owned_insert by apply lookup_delete_eq. by rewrite insert_delete_id.
Qed.

Lemma owned_update m p c : owned (<[p := c]> m) ≡ₚ fds c ++ owned (delete p m).
Proof. rewrite <- insert_delete_eq. apply owned_insert, lookup_delete_eq. Qed.

(** Descriptors [l] change into [l'], the others stay. *)
Lemma balanced_change base st l l' r open' m' :
  balanced base st -> owned (impl_data st) ≡ₚ l ++ r -> owned m' ≡ₚ l' ++ r -> NoDup l' ->
  (forall d, d ∈ l' -> d ∈ l \/ d ∉ open_fds st) ->
  (forall d, d ∈ open' <-> d ∈ open_fds st /\ d ∉ l \/ d ∈ l') ->
  map_Forall (fun _ c => -1 <= new_socket c) m' ->
  balanced base (mk_process open' m' []).
Proof.
  intros [H1 H2 H3 _ _] Hl Hl' Hnd Hnew Hopen Hm. rewrite Hl in H1. apply NoDup_app in H1 as (N1 & N2 & N3).
  setoid_rewrite Hl in H2. setoid_rewrite Hl in H3. setoid_rewrite elem_of_app in H2. setoid_rewrite elem_of_app in H3.
  split; cbn [impl_data open_fds bad_closes]; [| | |done|done].
  - rewrite Hl'. apply NoDup_app. split; [done|]. split; [|done]. intros d [Hd|Hd]%Hnew; [by apply N2|].
    intros Hr. apply Hd, H3. auto.
  - intros d. rewrite Hl', elem_of_app. intros [[Hd|Hd]%Hnew|Hd]; [by auto| |by auto].
    intros Hb. apply Hd, H3. auto.
  - intros d. rewrite Hopen, Hl', elem_of_app, H3.
    specialize (N2 d). specialize (H2 d). destruct (decide (d ∈ l)); tauto.
Qed.

(** The descriptors [_network_destroy_context_socket] closes. *)
Definition base_fds (c : network_context_socket_tcp_t) : list Z :=
  filter (fun d => 0 <= d) [socket c; (exit_pipe c).1; (exit_pipe c).2].

Lemma elem_base_fds c d :
  d ∈ base_fds c <-> 0 <= d /\ (d = socket c \/ d = (exit_pipe c).1 \/ d = (exit_pipe c).2).
Proof. unfold base_fds. rewrite list_elem_of_filter, !elem_of_cons, elem_of_nil. tauto. Qed.

Lemma fds_split c : fds c ≡ₚ (if 0 <=? new_socket c then [new_socket c] else []) ++ base_fds c.
Proof.
  unfold fds, base_fds. change [socket c; (exit_pipe c).1; (exit_pipe c).2; new_socket c]
    with ([socket c; (exit_pipe c).1; (exit_pipe c).2] ++ [new_socket c]).
  rewrite filter_app, Permutation_app_comm. apply Permutation_app_tail. cbn.
  destruct (Z.leb_spec 0 (new_socket c)); [rewrite decide_True by lia|rewrite decide_False by lia]; done.
Qed.

Lemma base_fds_distinct c : NoDup (base_fds c) ->
  (0 <= socket c -> socket c <> (exit_pipe c).1) /\ (0 <= socket c -> socket c <> (exit_pipe c).2)
  /\ (0 <= (exit_pipe c).1 -> (exit_pipe c).1 <> (exit_pipe c).2).
Proof.
  unfold base_fds. rewrite !filter_cons, filter_nil. intros Hnd.
  repeat split; intros Hx Hy; rewrite Hy in *; repeat case_decide; try done; rewrite ?NoDup_cons in Hnd; set_solver.
Qed.

Lemma fds_socket v c : fds (set_socket v c) = filter (fun d => 0 <= d) [v] ++ fds (set_socket (-1) c).
Proof.
  unfold fds. cbn [socket exit_pipe new_socket set_socket]. rewrite !filter_cons, filter_nil.
  rewrite (decide_False (P := 0 <= -1)) by lia. by destruct (decide (0 <= v)).
Qed.

Lemma fds_new v c : fds (set_new_socket v c) ≡ₚ filter (fun d => 0 <= d) [v] ++ fds (set_new_socket (-1) c).
Proof.
  rewrite !fds_split. cbn [new_socket set_new_socket Z.leb Z.compare app]. apply Permutation_app_tail.
  rewrite filter_cons, filter_nil. by destruct (Z.leb_spec 0 v); case_decide; try lia.
Qed.

Section rules.
Context (F : fault -> Prop).

Lemma wlp_load p st c (Q : network_context_socket_tcp_t -> process -> Prop) :
  impl_data st !! p = Some c -> Q c st -> wlp F (load p) Q st.
Proof. intros Hp HQ. unfold load. wgo. by rewrite Hp. Qed.

Lemma wlp_store p f st c (Q : unit -> process -> Prop) :
  impl_data st !! p = Some c ->
  Q tt (mk_process (open_fds st) (<[p := f c]> (impl_data st)) (bad_closes st)) -> wlp F (store p f) Q st.
Proof. intros Hp HQ. unfold store. wgo. eapply wlp_load; [exact Hp|]. by wgo. Qed.

Lemma wlp_close d st (Q : unit -> process -> Prop) :
  d ∈ open_fds st -> Q tt (mk_process (open_fds st ∖ {[d]}) (impl_data st) (bad_closes st)) -> wlp F (closesocket d) Q st.
Proof. intros Hd HQ. unfold closesocket. wgo. by rewrite decide_True. Qed.

Lemma wlp_close_field p field reset st c (Q : unit -> process -> Prop) :
  impl_data st !! p = Some c -> (0 <= field c -> field c ∈ open_fds st) ->
  (forall open' c', (forall d, d ∈ open' <-> d ∈ open_fds st /\ ~ (0 <= field c /\ d = field c)) -> c' = c \/ c' = reset c ->
     Q tt (mk_process open' (<[p := c']> (impl_data st)) (bad_closes st))) ->
  wlp F (close_field p field reset) Q st.
Proof.
  intros Hp Ho HQ. unfold close_field. wgo. eapply wlp_load; [exact Hp|]. destruct (Z.leb_spec 0 (field c)) as [Hf|Hf].
  - wgo. apply wlp_close; [auto|]. eapply wlp_store; [exact Hp|]. apply HQ; [|by right]. intros d. set_solver by lia.
  - wgo. specialize (HQ (open_fds st) c). rewrite insert_id in HQ by done. destruct st. apply HQ; [|by left].
    intros d. split; [|tauto]. intros Hd. split; [done|]. lia.
Qed.

Lemma wlp_destroy p st c (Q : unit -> process -> Prop) :
  impl_data st !! p = Some c -> NoDup (base_fds c) -> (forall d, d ∈ base_fds c -> d ∈ open_fds st) ->
  (forall open', (forall d, d ∈ open' <-> d ∈ open_fds st /\ d ∉ base_fds c) ->
     Q tt (mk_process open' (delete p (impl_data st)) (bad_closes st))) ->
  wlp F (_network_destroy_context_socket p) Q st.
Proof.
  intros Hp Hnd Ho HQ. unfold _network_destroy_context_socket. setoid_rewrite elem_base_fds in Ho.
  setoid_rewrite elem_base_fds in HQ.
  destruct (base_fds_distinct c Hnd) as (D1 & D2 & D3). wgo.
  eapply wlp_close_field; [exact Hp|intros; apply Ho; auto|]. intros o1 c1 E1 C1. wgo.
  assert (X1 : exit_pipe c1 = exit_pipe c) by (by destruct C1 as [->| ->]).
  eapply wlp_close_field; [apply lookup_insert_eq|cbn [open_fds]; rewrite X1|].
  { intros Hd. apply E1. split; [apply Ho; auto|]. intros [? ?]. by apply D1. }
  intros o2 c2 E2 C2. cbn [open_fds impl_data bad_closes] in *. rewrite insert_insert_eq. wgo.
  assert (X2 : (exit_pipe c2).2 = (exit_pipe c).2) by (rewrite <- X1; by destruct C2 as [->| ->]).
  eapply wlp_close_field; [apply lookup_insert_eq|cbn [open_fds]; rewrite X2|].
  { intros Hd. apply E2. rewrite X1. split; [|intros [? ?]; by apply D3].
    apply E1. split; [apply Ho; auto|]. intros [? ?]. by apply D2. }
  intros o3 c3 E3 _. cbn [open_fds impl_data bad_closes] in *. rewrite insert_insert_eq, X2 in *.
  wgo. eapply wlp_load; [apply lookup_insert_eq|]. wgo. cbn [open_fds impl_data bad_closes].
  rewrite delete_insert_eq. apply HQ. intros d. rewrite E3, E2, E1, X1. naive_solver.
Qed.

(** A context's descriptors are open and different. *)
Lemma balanced_owns base st p c :
  balanced base st -> impl_data st !! p = Some c ->
  NoDup (fds c) /\ (forall d, d ∈ fds c -> d ∈ open_fds st) /\ -1 <= new_socket c.
Proof.
  intros [H1 _ H3 H4 _] Hp. rewrite (owned_delete _ _ _ Hp) in H1. apply NoDup_app in H1 as (N1 & _).
  split; [done|]. split; [|by apply (H4 p)]. intros d Hd. apply H3. right. rewrite (owned_delete _ _ _ Hp). by apply elem_of_app; left.
Qed.

Lemma balanced_close base st p c open' :
  balanced base st -> impl_data st !! p = Some c -> (forall d, d ∈ open' <-> d ∈ open_fds st /\ d ∉ fds c) ->
  balanced base (mk_process open' (delete p (impl_data st)) (bad_closes st)).
Proof.
  intros Hb Hp Ho. rewrite (own_good _ _ Hb).
  eapply (balanced_change base st (fds c) []); [done|by apply owned_delete|done|constructor|by intros d ?%elem_of_nil| |].
  - intros d. rewrite Ho. set_solver.
  - apply map_Forall_delete, (own_new _ _ Hb).
Qed.

Lemma wlp_network_close base p st c (Q : unit -> process -> Prop) :
  balanced base st -> impl_data st !! p = Some c ->
  (forall st', balanced base st' -> impl_data st' = delete p (impl_data st) -> Q tt st') ->
  wlp F (_network_close p) Q st.
Proof.
  intros Hb Hp HQ. destruct (balanced_owns _ _ _ _ Hb Hp) as (Hnd & Ho & Hn).
  assert (Hend : forall open', (forall d, d ∈ open' <-> d ∈ open_fds st /\ d ∉ fds c) ->
    Q tt (mk_process open' (delete p (impl_data st)) (bad_closes st))).
  { intros open' Hd. apply HQ; [|done]. by eapply balanced_close. }
  unfold _network_close, _network_close_socket. wgo. eapply wlp_load; [exact Hp|]. wgo.
  pose proof (fds_split c) as Hs. setoid_rewrite Hs in Ho. setoid_rewrite Hs in Hend. rewrite Hs in Hnd. clear Hs HQ.
  destruct (Z.eqb_spec (new_socket c) (-1)) as [E|Hne]; cbn [negb].
  - wgo. rewrite E in *. cbn [Z.leb Z.compare app] in *. by eapply wlp_destroy.
  - rewrite (proj2 (Z.leb_le _ _)) in * by lia. apply NoDup_cons in Hnd as [N1 N2].
    apply wlp_close; [apply Ho; set_solver|]. wgo. eapply wlp_destroy; [exact Hp|exact N2| |].
    + intros d Hd. cbn [open_fds]. assert (d <> new_socket c) by (by intros ->). set_solver.
    + cbn [open_fds impl_data bad_closes]. intros o Hd. apply Hend. intros d. rewrite Hd. set_solver.
Qed.
End rules.

(* ------------------------------------------------------------------ *)
(** * Every call keeps the balance *)

Section calls_ok.
Context {K : SocketCalls} {KOk : SocketCallsOk K}.

(** Changing what does not matter. *)
Lemma balanced_store base st p c c' :
  balanced base st -> impl_data st !! p = Some c -> fds c' = fds c -> -1 <= new_socket c' ->
  balanced base (mk_process (open_fds st) (<[p := c']> (impl_data st)) (bad_closes st)).
Proof.
  intros Hb Hp Hf Hn. destruct (balanced_owns _ _ _ _ Hb Hp) as (Hnd & Ho & _). rewrite (own_good _ _ Hb).
  eapply (balanced_change base st (fds c) (fds c')); [done|by apply owned_delete|apply owned_update|by rewrite Hf| | |].
  - intros d. rewrite Hf. by left.
  - intros d. rewrite Hf. specialize (Ho d). destruct (decide (d ∈ fds c)); tauto.
  - apply map_Forall_insert_2; [done|apply (own_new _ _ Hb)].
Qed.

Lemma init_balanced F base st (Q : Z -> process -> Prop) :
  F AssertFailed -> balanced base st ->
  (forall p c st', balanced base st' -> impl_data st !! p = None -> impl_data st' = <[p := c]> (impl_data st) -> 0 <= socket c ->
     Q p st') ->
  wlp F _network_init Q st.
Proof.
  intros HF Hb HQ. unfold _network_init, _network_alloc_context_socket. wgo.
  set (p := sys_calloc (dom (impl_data st))). pose proof (calloc_new (dom (impl_data st)) : p ∉ _) as Hp.
  apply not_elem_of_dom in Hp. destruct (sys_socket (open_fds st)) as [d|] eqn:Hd; [|by apply wlp_fail].
  apply socket_new in Hd as [Hd0 Hd]. unfold opened. wgo. cbn [open_fds impl_data bad_closes].
  repeat (eapply wlp_store; [apply lookup_insert_eq|]; cbn [open_fds impl_data bad_closes]; rewrite insert_insert_eq; wgo).
  destruct (sys_pipe _) as [[r w]|] eqn:Hpipe; [|by apply wlp_fail]. apply pipe_new in Hpipe as (Hr0 & Hw0 & Hrw & Hr & Hw).
  wgo. cbn [open_fds impl_data bad_closes] in *.
  repeat (eapply wlp_store; [apply lookup_insert_eq|]; cbn [open_fds impl_data bad_closes]; rewrite insert_insert_eq; wgo).
  eapply HQ; [|done|reflexivity|done]. rewrite (own_good _ _ Hb).
  apply (balanced_change base st [] [d; r; w] (owned (impl_data st))); [done|done| | | | |].
  - rewrite owned_insert by done. apply Permutation_app_tail. unfold fds. cbn.
    rewrite !decide_True by done. done.
  - rewrite !not_elem_of_union, !not_elem_of_singleton in Hr, Hw. rewrite !NoDup_cons, !not_elem_of_cons.
    destruct Hr, Hw. repeat split; try apply not_elem_of_nil; try apply NoDup_nil_2; congruence.
  - intros x. set_solver.
  - intros x. set_solver.
  - apply map_Forall_insert_2; [done|apply (own_new _ _ Hb)].
Qed.

(** The accepted connection goes from the listener to the new context. *)
Lemma pass_balanced F base st n a cn ca (Q : unit -> process -> Prop) :
  balanced base st -> impl_data st !! n = Some cn -> impl_data st !! a = Some ca -> n <> a -> 0 <= socket cn ->
  (forall st', balanced base st' -> dom (impl_data st') = dom (impl_data st) -> Q tt st') ->
  wlp F (_network_update_passive_state n a false false) Q st.
Proof.
  intros Hb Hn Ha Hne Hs HQ. unfold _network_update_passive_state. cbn [negb]. wgo. eapply wlp_load; [exact Hn|]. wgo.
  destruct (balanced_owns _ _ _ _ Hb Hn) as (Hnd & Ho & Hnn). destruct (balanced_owns _ _ _ _ Hb Ha) as (_ & _ & Hna).
  set (X := fds (set_socket (-1) cn)). set (Y := fds (set_new_socket (-1) ca)).
  set (N := filter (fun d => 0 <= d) [new_socket ca]).
  assert (En : fds cn = socket cn :: X) by (replace cn with (set_socket (socket cn) cn) at 1 by (by destruct cn); rewrite fds_socket, filter_cons, decide_True by done; done).
  assert (Ea : fds ca ≡ₚ N ++ Y) by (replace ca with (set_new_socket (new_socket ca) ca) at 1 by (by destruct ca); apply fds_new).
  apply wlp_close; [apply Ho; rewrite En; set_solver|]. wgo. eapply wlp_load; [exact Ha|]. wgo.
  eapply wlp_store; [exact Hn|]. wgo. eapply wlp_store; [apply lookup_insert_eq|]. cbn [open_fds impl_data bad_closes]. rewrite insert_insert_eq.
  eapply wlp_store; [cbn [impl_data]; rewrite lookup_insert_ne by done; exact Ha|]. cbn [open_fds impl_data bad_closes].
  apply HQ. 2:{ cbn [impl_data]. apply elem_of_dom_2 in Hn, Ha. rewrite !dom_insert_L. set_solver. }
  rewrite (own_good _ _ Hb). set (r := owned (delete a (delete n (impl_data st)))).
  assert (El : owned (impl_data st) ≡ₚ (socket cn :: N ++ X ++ Y) ++ r).
  { rewrite (owned_delete _ _ _ Hn), (owned_delete _ a ca) by (by rewrite lookup_delete_ne). rewrite En, Ea. fold r.
    rewrite (assoc_L (++) _ _ r). apply Permutation_app_tail. cbn [app]. apply Permutation_skip.
    rewrite !(assoc_L (++)). apply Permutation_app_tail, Permutation_app_comm. }
  assert (El' : owned (<[a := set_new_socket (-1) ca]> (<[n := set_connected true (set_socket (new_socket ca) cn)]> (impl_data st)))
    ≡ₚ (N ++ X ++ Y) ++ r).
  { rewrite owned_update, delete_insert_ne, owned_update, delete_delete by done. fold r Y.
    change (fds (set_connected true (set_socket (new_socket ca) cn))) with (fds (set_socket (new_socket ca) cn)).
    rewrite fds_socket. fold N X.
    rewrite (assoc_L (++) Y _ r), (assoc_L (++) N X Y). apply Permutation_app_tail, Permutation_app_comm. }
  eapply balanced_change; [exact Hb|exact El|exact El'| | | |].
  - pose proof (own_once _ _ Hb) as H. rewrite El in H. cbn [app] in H. by apply NoDup_cons in H as [_ [? _]%NoDup_app].
  - intros d Hd. left. by right.
  - pose proof (own_once _ _ Hb) as H. rewrite El in H. cbn [app] in H. apply NoDup_cons in H as [H _].
    assert (Hin : forall d, d ∈ N ++ X ++ Y -> d ∈ open_fds st).
    { intros d Hd. apply (own_all _ _ Hb). right. rewrite El, elem_of_app. left. by right. }
    intros d. specialize (Hin d). rewrite elem_of_difference, elem_of_singleton, elem_of_cons.
    destruct (decide (d ∈ N ++ X ++ Y)) as [Hd|]; [|tauto].
    assert (d <> socket cn) by (intros ->; apply H, elem_of_app; by left). tauto.
  - apply map_Forall_insert_2; [cbn; lia|]. apply map_Forall_insert_2; [exact Hnn|apply (own_new _ _ Hb)].
Qed.

(** Accepting a connection. *)
Lemma accept_balanced base st p c d :
  balanced base st -> impl_data st !! p = Some c -> new_socket c = -1 -> 0 <= d -> d ∉ open_fds st ->
  balanced base (mk_process ({[d]} ∪ open_fds st) (<[p := set_new_socket d c]> (impl_data st)) (bad_closes st)).
Proof.
  intros Hb Hp Hn Hd Ho. destruct (balanced_owns _ _ _ _ Hb Hp) as (Hnd & Hi & _). rewrite (own_good _ _ Hb).
  eapply (balanced_change base st (fds c) (d :: fds c)); [done|by apply owned_delete| | | | |].
  - rewrite owned_update. apply Permutation_app_tail. rewrite fds_new, filter_cons, decide_True, filter_nil by done.
    replace (set_new_socket (-1) c) with c by (destruct c; cbn in *; by subst). done.
  - constructor; [|done]. by intros ?%Hi.
  - intros x [->|Hx]%elem_of_cons; auto.
  - intros x. specialize (Hi x). rewrite elem_of_union, elem_of_singleton, elem_of_cons. destruct (decide (x ∈ fds c)); tauto.
  - apply map_Forall_insert_2; [cbn; lia|apply (own_new _ _ Hb)].
Qed.

Lemma wlp_load_any F p st (Q : network_context_socket_tcp_t -> process -> Prop) :
  F UseAfterFree -> (forall c, impl_data st !! p = Some c -> Q c st) -> wlp F (load p) Q st.
Proof. intros HF HQ. unfold load. wgo. destruct (impl_data st !! p) eqn:?; [by apply HQ|by apply wlp_fail]. Qed.

Lemma store_balanced F base p f st :
  F UseAfterFree -> balanced base st -> (forall c, fds (f c) = fds c /\ new_socket (f c) = new_socket c) ->
  wlp F (store p f) (fun _ st' => balanced base st') st.
Proof.
  intros HF Hb Hf. unfold store. wgo. apply wlp_load_any; [done|]. intros c Hp. wgo.
  destruct (Hf c) as [H1 H2]. apply (balanced_store base st p c); [done..|]. rewrite H2. exact (own_new _ _ Hb p c Hp).
Qed.

Lemma recv_round_balanced base p listening dispatched st :
  balanced base st -> wlp (fun _ => True) (recv_round p listening dispatched) (fun _ st' => balanced base st') st.
Proof.
  intros Hb. unfold recv_round, recv_socket, VERIFY_SOCKET. wgo.
  apply wlp_load_any; [done|]. intros c Hp. apply wlp_massert. destruct (0 <=? socket c); [|done]. wgo.
  apply wlp_load_any; [done|]. intros c' Hp'. simplify_eq. destruct listening.
  2:{ wgo. rewrite andb_false_r. by wgo. }
  wgo. destruct (sys_accept (open_fds st)) as [d|] eqn:Hd; [|by wgo]. apply accept_new in Hd as [Hd0 Hd].
  unfold opened. wgo. apply wlp_massert. destruct (Z.eqb_spec (new_socket c) (-1)) as [Hn|]; [|done].
  wgo. eapply wlp_store; [exact Hp|]. wgo. cbn [open_fds impl_data bad_closes].
  pose proof (accept_balanced _ _ _ _ _ Hb Hp Hn Hd0 Hd) as Hb'. destruct ((0 <=? d) && true && dispatched); [|by wgo].
  wgo. eapply init_balanced; [done|exact Hb'|]. intros n cn st2 Hb2 Hfresh Hst2 Hs. cbn [impl_data] in *.
  apply lookup_insert_None in Hfresh as [Hfresh Hne].
  eapply pass_balanced; [exact Hb2|rewrite Hst2; apply lookup_insert_eq|rewrite Hst2, lookup_insert_ne by done; apply lookup_insert_eq| |exact Hs|].
  - congruence.
  - by intros.
Qed.

Lemma run_call_balanced base o st :
  balanced base st -> wlp (fun _ => True) (run_call o) (fun _ st' => balanced base st') st.
Proof.
  intros Hb. destruct o as [|p|p l d|p|p]; cbn [run_call].
  - wgo. eapply init_balanced; [done|exact Hb|]. by intros.
  - destruct (impl_data st !! p) as [c|] eqn:Hp.
    + eapply wlp_network_close; [exact Hb|exact Hp|]. by intros.
    + unfold _network_close. wgo. apply wlp_load_any; [done|]. intros c Hc. congruence.
  - by apply recv_round_balanced.
  - by apply store_balanced.
  - unfold _network_stop_recv_thread. wgo. apply wlp_load_any; [done|]. intros c Hp. destruct (recv_thread_started c); [|by wgo].
    wgo. apply wlp_massert. destruct (bool_decide _); [|done]. wgo.
    eapply wlp_mono; [by apply (store_balanced _ base)|]. intros ? st' Hb'. by apply (store_balanced _ base).
Qed.

Lemma close_all_ok base st :
  balanced base st -> wlp (fun _ => False) close_all (fun _ st' => balanced base st' /\ impl_data st' = ∅) st.
Proof.
  intros Hb. unfold close_all. wgo.
  eapply wlp_mono; [apply (wlp_mfor _ _ _ (fun l st => balanced base st /\ NoDup l /\ dom (impl_data st) = list_to_set l))|].
  - split; [done|]. split; [apply NoDup_elements|]. by rewrite list_to_set_elements_L.
  - intros p l s (H1 & [Hnot H2]%NoDup_cons & H3).
    assert (exists c, impl_data s !! p = Some c) as [c Hc] by (apply elem_of_dom; rewrite H3; set_solver).
    eapply wlp_network_close; [exact H1|exact Hc|]. intros s' H1' ->. split; [done|]. split; [done|].
    rewrite dom_delete_L, H3. cbn [list_to_set]. set_solver.
  - intros _ s (H1 & _ & H2). split; [done|]. by apply dom_empty_iff_L.
Qed.
End calls_ok.

(* ------------------------------------------------------------------ *)
(** * A process whose descriptors count up *)

Definition next (s : gset Z) : Z := 1 + set_fold Z.max 2 s.

Lemma next_new s d : d ∈ s -> d < next s.
Proof.
  unfold next. revert d. apply (set_fold_ind_L (fun r s => forall d, d ∈ s -> d < 1 + r)); [set_solver|].
  intros x X r Hx IH d [->%elem_of_singleton|Hd]%elem_of_union; [lia|]. specialize (IH d Hd). lia.
Qed.

Lemma next_pos s : 3 <= next s.
Proof. unfold next. apply (set_fold_ind_L (fun r _ => 3 <= 1 + r)); [lia|]. intros. lia. Qed.

#[export] Instance demo_calls : SocketCalls := {
  sys_socket s := Some (next s);
  sys_pipe s := Some (next s, next s + 1);
  sys_accept s := Some (next s);
  sys_calloc s := next s;
}.

#[export] Instance demo_calls_ok : SocketCallsOk demo_calls.
Proof.
  split; cbn; intros s; pose proof (next_pos s).
  - intros d [= <-]. split; [lia|]. intros ?%next_new. lia.
  - intros r w [= <- <-]. repeat split; try lia; intros ?%next_new; lia.
  - intros d [= <-]. split; [lia|]. intros ?%next_new. lia.
  - intros ?%next_new. lia.
Qed.

(* ------------------------------------------------------------------ *)
(** * The property *)

(** C29: no descriptor of the network layer is leaked or closed twice. Whatever
    contexts are created, listen, accept, hand connections over, start and stop
    their threads and are closed, in any order: no close ever fails, every open
    descriptor is one the process started with or belongs to exactly one context,
    and closing the contexts that are left succeeds and leaves the process with
    the descriptors it started with. *)
Theorem descriptors_balanced {K : SocketCalls} {KOk : SocketCallsOk K} calls st st' :
  impl_data st = ∅ -> bad_closes st = [] -> mfor calls run_call st = Ok (tt, st') ->
  bad_closes st' = [] /\ NoDup (owned (impl_data st'))
  /\ (forall d, d ∈ open_fds st' <-> d ∈ open_fds st \/ d ∈ owned (impl_data st'))
  /\ (forall d, d ∈ owned (impl_data st') -> d ∉ open_fds st)
  /\ exists st'', close_all st' = Ok (tt, st'')
       /\ impl_data st'' = ∅ /\ open_fds st'' = open_fds st /\ bad_closes st'' = [].
Proof.
  intros Hi Hc Hrun. assert (Hb : balanced (open_fds st) st).
  { split; rewrite ?Hi; [constructor|by intros d ?%elem_of_nil| |done|done]. intros d. cbn. rewrite elem_of_nil. tauto. }
  assert (Hb' : balanced (open_fds st) st').
  { pose proof (wlp_mfor (fun _ => True) calls run_call (fun _ s => balanced (open_fds st) s) st Hb) as H.
    unfold wlp in H at 2. rewrite Hrun in H. apply H. intros. by apply run_call_balanced. }
  destruct (wlp_total _ _ _ (close_all_ok _ _ Hb')) as ([] & st'' & He & Hb'' & Hempty). destruct Hb' as [H1 H2 H3 _ H5].
  repeat split; try done; try apply H3. exists st''. split; [done|]. split; [done|]. split; [|apply (own_good _ _ Hb'')].
  apply set_eq. intros d. rewrite (own_all _ _ Hb''), Hempty. set_solver.
Qed.

(** A listener that accepts two connections, of which the second is dropped. *)
Definition demo_net_calls : list net_call :=
  [Init; Start 3; Recv 3 true true; Start 4; Stop 4; Recv 3 true false; Close 4; Init].
Definition demo_process : process := mk_process {[0; 1; 2]} ∅ [].

Lemma descriptors_balanced_witness :
  exists st', mfor demo_net_calls run_call demo_process = Ok (tt, st')
    /\ bad_closes st' = [] /\ NoDup (owned (impl_data st'))
    /\ exists st'', close_all st' = Ok (tt, st'') /\ impl_data st'' = ∅ /\ open_fds st'' = {[0; 1; 2]}.
Proof.
  eexists. split; [vm_compute; reflexivity|].
  edestruct (descriptors_balanced demo_net_calls demo_process) as (H1 & H2 & _ & _ & st'' & H3 & H4 & H5 & _);
    [reflexivity|reflexivity|vm_compute; reflexivity|].
  split; [exact H1|]. split; [exact H2|]. exists st''. split; [exact H3|]. split; [exact H4|exact H5].
Defined.
