(* ===== verification/TcpSum.v ===== *)
(** The TCP checksum of tcp_sum.c and what it guarantees. *)

From S2P Require Import Prelude Bytes MysockState.

Definition IPPROTO_TCP : Z := 6.

(** The pseudo header of RFC 793 as the packed struct lies in memory. *)
Definition pseudo_header (src_addr dst_addr len : Z) : bytes :=
  le32 src_addr ++ le32 dst_addr ++ [0; IPPROTO_TCP] ++ le16 (htons len).

(** [sum += w] over the 16-bit words [ks] of [b], in a 32-bit signed sum; the
    word [skip] is left out. *)
Definition add_words (b : bytes) (skip : option nat) (ks : list nat) (sum : Z) : Z :=
  foldl (fun sum k => if bool_decide (skip = Some k) then sum else s32 (sum + get16 b (2 * k))) sum ks.

(** [_mysock_tcp_checksum(src_addr, dst_addr, packet, len)] *)
Definition _mysock_tcp_checksum {S} (src_addr dst_addr : Z) (packet : bytes) (len : nat) : M S Z :=
  _ ← massert (Nat.leb Tcp.size len);
  _ ← massert (0 <? src_addr);
  _ ← massert (0 <? dst_addr);
  p ← rdn packet 0 len;
  let sum := add_words (pseudo_header src_addr dst_addr (Z.of_nat len)) None (seq 0 6) 0 in
  let sum := add_words p (Some (Tcp.sum / 2)%nat) (seq 0 (len / 2)) sum in
  let sum := if Nat.odd len then s32 (sum + get8 p (len - 1)) else sum in
  let sum := s32 (Z.shiftr sum 16 + Z.land sum 0xffff) in
  let sum := s32 (sum + Z.shiftr sum 16) in
  mret (u16 (Z.lnot sum)).

(** [_network_get_local_addr(ctx)] *)
Definition _network_get_local_addr {S} (net : network_context_t) : M S Z :=
  _ ← massert (peer_addr_valid net);
  _ ← massert (0 <? peer_addr_len net);
  _ ← massert (sa_family (peer_addr net) =? AF_INET);
  mret (net_interface_ip net).

(** [_mysock_set_checksum(ctx, packet, len)] *)
Definition _mysock_set_checksum {S} (net : network_context_t) (packet : bytes) (len : nat) : M S bytes :=
  _ ← massert (Nat.leb Tcp.size len);
  _ ← massert (sa_family (peer_addr net) =? AF_INET);
  src ← _network_get_local_addr net;
  c ← _mysock_tcp_checksum src (s_addr (peer_addr net)) packet len;
  wr16 packet Tcp.sum c.

(** [_mysock_verify_checksum(ctx, packet, len)] *)
Definition _mysock_verify_checksum {S} (net : network_context_t) (packet : bytes) (len : nat) : M S bool :=
  _ ← massert (Nat.leb Tcp.size len);
  _ ← massert (sa_family (peer_addr net) =? AF_INET);
  dst ← _network_get_local_addr net;
  my_sum ← _mysock_tcp_checksum (s_addr (peer_addr net)) dst packet len;
  th_sum ← rd16 packet Tcp.sum;
  mret (my_sum =? th_sum).

(* ------------------------------------------------------------------ *)
(** * What the sum is *)

(** Sum of the little-endian 16-bit words, an odd last byte padded with zero. *)
Fixpoint le_sum (data : bytes) : Z :=
  match data with
  | a :: b :: r => a + 256 * b + le_sum r
  | [a] => a
  | [] => 0
  end.

(** Everything the checksum covers: pseudo header, then the segment with a zero
    in place of the checksum. *)
Definition covered (src_addr dst_addr : Z) (packet : bytes) : bytes :=
  pseudo_header src_addr dst_addr (blen packet) ++ upd packet Tcp.sum (le16 0).

(** RFC 793: the one's-complement sum of pseudo header and segment, checksum
    included, is zero (all ones). *)
Definition tcp_sum_valid (src_addr dst_addr : Z) (packet : bytes) : Prop :=
  le_sum (pseudo_header src_addr dst_addr (blen packet) ++ packet) mod 65535 = 0.

(** Sum of the words [ks] of [b], the word [skip] left out, without a width. *)
Definition sum_words (b : bytes) (skip : option nat) (ks : list nat) : Z :=
  foldr (fun k s => (if bool_decide (skip = Some k) then 0 else get16 b (2 * k)) + s) 0 ks.

Lemma sum_words_bound b skip ks :
  wf_bytes b -> 0 <= sum_words b skip ks <= 65535 * Z.of_nat (length ks).
Proof.
  intros Hwf. induction ks as [|k ks IH]; [by split|]. cbn [sum_words foldr length].
  fold (sum_words b skip ks). pose proof (wf_get16 b (2 * k) Hwf) as Hg. destruct (bool_decide _); lia.
Qed.

Lemma add_words_exact b skip ks sum :
  wf_bytes b -> 0 <= sum -> sum + 65535 * Z.of_nat (length ks) < 2 ^ 31 ->
  add_words b skip ks sum = sum + sum_words b skip ks.
Proof.
  intros Hwf. unfold add_words. revert sum. induction ks as [|k ks IH]; intros sum Hs Hlt.
  { simpl. lia. }
  cbn [foldl sum_words foldr length] in *. fold (sum_words b skip ks).
  pose proof (wf_get16 b (2 * k) Hwf) as Hg.
  destruct (bool_decide _).
  - rewrite IH by lia. lia.
  - rewrite s32_small by lia. rewrite IH by lia. lia.
Qed.

Lemma sum_words_shift x y r skip n :
  sum_words (x :: y :: r) (S <$> skip) (seq 1 n) = sum_words r skip (seq 0 n).
Proof.
  rewrite <- fmap_S_seq. unfold sum_words. induction (seq 0 n) as [|k ks IH]; [done|].
  cbn [fmap list_fmap foldr]. rewrite IH. f_equal.
  replace (2 * S k)%nat with (S (S (2 * k)))%nat by lia.
  destruct skip as [j|]; simpl.
  - destruct (decide (j = k)) as [->|Hne].
    + by rewrite !bool_decide_eq_true_2.
    + rewrite !bool_decide_eq_false_2 by congruence. done.
  - done.
Qed.

Lemma le_sum_words data :
  le_sum data = sum_words data None (seq 0 (length data / 2))
                + (if Nat.odd (length data) then get8 data (length data - 1) else 0).
Proof.
  revert data. fix IH 1. intros [|x [|y r]]; [done|exact (eq_sym (Z.add_0_l x))|].
  cbn [le_sum length].
  replace (S (S (length r)) / 2)%nat with (S (length r / 2)).
  2:{ replace (S (S (length r))) with (length r + 1 * 2)%nat by lia. rewrite Nat.div_add by lia. lia. }
  change (seq 0 (S (length r / 2))) with (0%nat :: seq 1 (length r / 2)).
  cbn [sum_words foldr]. change (foldr _ 0 (seq 1 (length r / 2))) with (sum_words (x :: y :: r) (S <$> None) (seq 1 (length r / 2))).
  rewrite sum_words_shift, IH. cbn [Nat.odd Nat.even].
  replace (Nat.odd (S (S (length r)))) with (Nat.odd (length r)) by done.
  assert (Hl : (if Nat.odd (length r) then get8 (x :: y :: r) (S (S (length r)) - 1) else 0)
    = (if Nat.odd (length r) then get8 r (length r - 1) else 0)).
  { destruct r as [|z r]; [done|]. cbn [length]. destruct (Nat.odd _); [|done].
    replace (S (S (S (length r))) - 1)%nat with (S (S (S (length r) - 1))) by lia. done. }
  rewrite Hl, (bool_decide_eq_false_2 (None = Some 0%nat)) by done.
  change (get16 (x :: y :: r) (2 * 0)) with (x + 256 * y). lia.
Qed.

Lemma le_sum_app a b : Nat.even (length a) = true -> le_sum (a ++ b) = le_sum a + le_sum b.
Proof.
  revert a. fix IH 1. intros [|x [|y r]] He; [done|done|]. cbn [app le_sum]. rewrite IH by exact He. lia.
Qed.

Lemma le_sum_bound data : wf_bytes data -> 0 <= le_sum data <= 65535 * ((blen data + 1) / 2).
Proof.
  revert data. fix IH 1. intros [|x [|y r]] Hwf.
  - by vm_compute.
  - apply Forall_inv in Hwf. unfold is_byte in Hwf. unfold blen. simpl. Z.div_mod_to_equations. lia.
  - pose proof (Forall_inv Hwf) as Hx. pose proof (Forall_inv (Forall_inv_tail Hwf)) as Hy.
    specialize (IH r (Forall_inv_tail (Forall_inv_tail Hwf))). unfold is_byte, blen in *.
    cbn [le_sum length]. revert IH.
    replace (Z.of_nat (S (S (length r))) + 1) with (Z.of_nat (length r) + 1 + 1 * 2) by lia.
    rewrite Z.div_add by lia. lia.
Qed.

(** The two folding steps give the one's-complement sum. *)
Definition ones16 (s : Z) : Z := if s =? 0 then 0 else (s - 1) mod 65535 + 1.

Lemma fold16 s : 0 <= s < 2 ^ 31 ->
  let t := s32 (Z.shiftr s 16 + Z.land s 0xffff) in
  u16 (Z.lnot (s32 (t + Z.shiftr t 16))) = 65535 - ones16 s.
Proof.
  intros Hs. cbv zeta.
  assert (Hf : forall z, Z.land z 0xffff = z mod 65536 /\ Z.shiftr z 16 = z / 65536).
  { intros z. split; [|by rewrite Z.shiftr_div_pow2 by lia].
    change 0xffff with (Z.ones 16). by rewrite Z.land_ones by lia. }
  destruct (Hf s) as [-> ->]. set (t := s / 65536 + s mod 65536).
  assert (Ht : 0 <= t <= 98303) by (subst t; Z.div_mod_to_equations; lia).
  rewrite (s32_small t) by lia. destruct (Hf t) as [_ ->].
  assert (Hq : t / 65536 = 0 \/ t / 65536 = 1) by (Z.div_mod_to_equations; lia).
  rewrite s32_small by lia. set (v := t + t / 65536).
  unfold u16, Z.lnot. rewrite <- Z.sub_1_r.
  assert (Hv : ones16 s = v mod 65536).
  { unfold ones16. destruct (Z.eqb_spec s 0) as [->|Hne]; [done|].
    assert (Hs1 : s = 65536 * (s / 65536) + s mod 65536) by (apply Z.div_mod; lia).
    set (a := s / 65536) in *. set (b := s mod 65536) in *.
    assert (0 <= a < 32768 /\ 0 <= b < 65536) by (subst a b; Z.div_mod_to_equations; lia).
    clearbody a b. subst t v. clear Hf.
    assert ((s - 1) mod 65535 = (a + b - 1) mod 65535) as ->.
    { replace (s - 1) with (a + b - 1 + a * 65535) by lia. by rewrite Z.mod_add by lia. }
    Z.div_mod_to_equations. lia. }
  rewrite Hv. change (2 ^ 16) with 65536.
  Z.div_mod_to_equations. lia.
Qed.

Lemma ones16_range s : 0 <= s -> 0 <= ones16 s <= 65535 /\ (ones16 s = 0 <-> s = 0) /\ ones16 s mod 65535 = s mod 65535.
Proof.
  intros Hs. unfold ones16. destruct (Z.eqb_spec s 0) as [->|Hne]; [done|].
  pose proof (Z.mod_pos_bound (s - 1) 65535). split; [lia|]. split; [lia|].
  rewrite Zplus_mod_idemp_l. f_equal. lia.
Qed.

(** A segment of a length the stack sends. *)
Definition segment_ok (p : bytes) : Prop := wf_bytes p /\ 20 <= blen p <= MAX_IP_PAYLOAD_LEN.

Lemma wf_app a b : wf_bytes a -> wf_bytes b -> wf_bytes (a ++ b).
Proof. intros. apply Forall_app. done. Qed.

Lemma pseudo_wf src dst len : wf_bytes (pseudo_header src dst len).
Proof. unfold pseudo_header. repeat apply wf_app; auto with bytes. by repeat constructor. Qed.

Lemma covered_bound src dst p : segment_ok p -> 0 <= le_sum (covered src dst p) < 2 ^ 31.
Proof.
  intros [Hwf Hl]. unfold blen, MAX_IP_PAYLOAD_LEN in Hl.
  assert (Hu : length (upd p Tcp.sum (le16 0)) = length p) by (apply length_upd; simpl; unfold Tcp.sum; lia).
  pose proof (le_sum_bound (covered src dst p)) as Hb. unfold covered in *.
  destruct Hb as [H1 H2]; [apply wf_app; [apply pseudo_wf|auto with bytes]|].
  split; [done|]. unfold blen in H2 |- *. rewrite length_app, Hu in H2. simpl length in H2.
  assert ((Z.of_nat (12 + length p) + 1) / 2 <= 800) by (Z.div_mod_to_equations; lia). lia.
Qed.

(** The checksum field of a segment between two addresses. *)
Definition tcp_check (src_addr dst_addr : Z) (packet : bytes) : Z :=
  65535 - ones16 (le_sum (covered src_addr dst_addr packet)).

(** Closed form of the checksum of a whole segment. *)
Lemma wlp_tcp_checksum {S} F src dst p (Q : Z -> S -> Prop) s :
  segment_ok p -> 0 < src -> 0 < dst ->
  Q (tcp_check src dst p) s ->
  wlp F (_mysock_tcp_checksum src dst p (length p)) Q s.
Proof.
  intros Hok Hsrc Hdst HQ. pose proof (covered_bound src dst p Hok) as Hb.
  destruct Hok as [Hwf Hl]. unfold blen, MAX_IP_PAYLOAD_LEN in Hl.
  unfold _mysock_tcp_checksum. rewrite (proj2 (Nat.leb_le _ _)) by (unfold Tcp.size; lia).
  rewrite (proj2 (Z.ltb_lt 0 src)), (proj2 (Z.ltb_lt 0 dst)) by lia.
  wsteps. apply wlp_rdn; [lia|]. wsteps.
  replace (slice p 0 (length p)) with p by (unfold slice; rewrite drop_0, take_ge; done || lia).
  set (ph := pseudo_header src dst (Z.of_nat (length p))).
  assert (Hph : wf_bytes ph) by apply pseudo_wf.
  assert (Hdiv : (length p / 2 <= 750)%nat) by (apply Nat.Div0.div_le_upper_bound; lia).
  pose proof (sum_words_bound ph None (seq 0 6) Hph) as Hb1. rewrite length_seq in Hb1.
  pose proof (sum_words_bound p (Some 8%nat) (seq 0 (length p / 2)) Hwf) as Hb2. rewrite length_seq in Hb2.
  pose proof (wf_get8 p (length p - 1) Hwf) as Hb3. unfold is_byte in Hb3.
  rewrite (add_words_exact ph None) by (try done; rewrite ?length_seq; lia).
  change (Tcp.sum / 2)%nat with 8%nat.
  rewrite (add_words_exact p (Some 8%nat)) by (try done; rewrite ?length_seq; lia).
  set (total := if Nat.odd (length p) then _ else _).
  assert (Ht : total = le_sum (covered src dst p)).
  { unfold covered. rewrite le_sum_app by done. rewrite (le_sum_words (pseudo_header src dst (blen p))).
    rewrite (le_sum_words (upd p Tcp.sum (le16 0))).
    assert (Hu : length (upd p Tcp.sum (le16 0)) = length p) by (apply length_upd; simpl; unfold Tcp.sum; lia).
    rewrite Hu. change (length (pseudo_header src dst (blen p))) with 12%nat.
    change (12 / 2)%nat with 6%nat. change (Nat.odd 12) with false.
    change (blen p) with (Z.of_nat (length p)). fold ph.
    assert (Hs : sum_words p (Some 8%nat) (seq 0 (length p / 2))
      = sum_words (upd p Tcp.sum (le16 0)) None (seq 0 (length p / 2))).
    { assert (Hks : Forall (fun k => (2 * k + 2 <= length p)%nat) (seq 0 (length p / 2))).
      { apply Forall_seq. intros k Hk. pose proof (Nat.Div0.mul_div_le (length p) 2). lia. }
      clear -Hks Hl. induction Hks as [|k ks Hk Hks IH]; [done|]. cbn [sum_words foldr]. f_equal; [|exact IH].
      rewrite (bool_decide_eq_false_2 (None = Some k)) by done.
      destruct (decide (k = 8%nat)) as [->|Hne].
      - rewrite bool_decide_eq_true_2 by done. symmetry. apply get16_upd_eq; unfold Tcp.sum; lia.
      - rewrite bool_decide_eq_false_2 by congruence. symmetry.
        apply get16_upd_ne; unfold Tcp.sum; simpl length; lia. }
    subst total. rewrite Hs in *. unfold Tcp.sum in *.
    rewrite (get8_upd_ne p 16) by (simpl; lia).
    destruct (Nat.odd (length p)); [|lia]. rewrite s32_small by lia. lia. }
  rewrite Ht. rewrite fold16 by done. exact HQ.
Qed.

(** A socket that knows its peer. *)
Definition peered (a : network_context_t) : Prop :=
  peer_addr_valid a = true /\ 0 < peer_addr_len a /\ sa_family (peer_addr a) = AF_INET
  /\ 0 < net_interface_ip a < 4294967296 /\ 0 < s_addr (peer_addr a) < 4294967296.

(** The networks of the two ends of a connection: each knows the other's
    address as its peer's. *)
Definition facing (a b : network_context_t) : Prop :=
  peered a /\ peered b /\ net_interface_ip a = s_addr (peer_addr b) /\ net_interface_ip b = s_addr (peer_addr a).

Lemma facing_sym a b : facing a b -> facing b a.
Proof. unfold facing. tauto. Qed.

(** What the end [a] writes into the checksum field of [p]; what it expects
    there in a segment it receives; the segments it accepts. *)
Definition out_check (a : network_context_t) (p : bytes) : Z :=
  tcp_check (net_interface_ip a) (s_addr (peer_addr a)) p.
Definition in_check (a : network_context_t) (p : bytes) : Z :=
  tcp_check (s_addr (peer_addr a)) (net_interface_ip a) p.
Definition accepts (a : network_context_t) (p : bytes) : Prop :=
  segment_ok p /\ in_check a p = get16 p Tcp.sum.

Lemma upd_sum_covered src dst p c :
  (20 <= length p)%nat -> covered src dst (upd p Tcp.sum (le16 c)) = covered src dst p.
Proof.
  intros Hl. unfold covered, Tcp.sum. rewrite upd_upd by (simpl; lia).
  unfold blen. by rewrite length_upd by (simpl; lia).
Qed.

Lemma tcp_check_range src dst p : segment_ok p -> 0 <= tcp_check src dst p < 65536.
Proof.
  intros Hok. unfold tcp_check. pose proof (covered_bound src dst p Hok).
  pose proof (ones16_range (le_sum (covered src dst p))). lia.
Qed.

(** Storing the checksum keeps a segment well formed and stores that value. *)
Lemma upd_sum_segment src dst p c :
  segment_ok p -> segment_ok (upd p Tcp.sum (le16 c)) /\ tcp_check src dst (upd p Tcp.sum (le16 c)) = tcp_check src dst p.
Proof.
  intros [Hwf Hl]. unfold blen, MAX_IP_PAYLOAD_LEN in Hl. split.
  - split; [auto with bytes|]. unfold blen, MAX_IP_PAYLOAD_LEN.
    rewrite length_upd by (unfold Tcp.sum; simpl; lia). lia.
  - unfold tcp_check. by rewrite upd_sum_covered by lia.
Qed.

(** What one end fills in the other end accepts. *)
Lemma seal_accepted a b p :
  facing a b -> segment_ok p -> accepts b (upd p Tcp.sum (le16 (out_check a p))).
Proof.
  intros (_ & _ & E1 & E2) Hok.
  destruct (upd_sum_segment (s_addr (peer_addr b)) (net_interface_ip b) p (out_check a p) Hok) as [Hs Hc].
  split; [exact Hs|]. unfold in_check. rewrite Hc. destruct Hok as [Hwf Hl]. unfold blen in Hl.
  rewrite get16_upd_eq by (unfold Tcp.sum; lia || by apply tcp_check_range).
  unfold out_check. by rewrite E1, E2.
Qed.

Section checksum.
Context {S : Type} (F : fault -> Prop).

Lemma wlp_get_local_addr net (Q : Z -> S -> Prop) s :
  peered net -> Q (net_interface_ip net) s -> wlp F (_network_get_local_addr net) Q s.
Proof.
  intros (H1 & H2 & H3 & _) HQ. unfold _network_get_local_addr.
  rewrite H1, H3, (proj2 (Z.ltb_lt _ _)), Z.eqb_refl by lia. by wsteps.
Qed.

Lemma wlp_set_checksum net p (Q : bytes -> S -> Prop) s :
  segment_ok p -> peered net ->
  Q (upd p Tcp.sum (le16 (out_check net p))) s ->
  wlp F (_mysock_set_checksum net p (length p)) Q s.
Proof.
  intros Hok Hp HQ. pose proof Hok as [_ Hl]. unfold blen in Hl. unfold _mysock_set_checksum.
  rewrite (proj2 (Nat.leb_le _ _)) by (unfold Tcp.size; lia). pose proof Hp as (_ & _ & -> & H1 & H2). rewrite Z.eqb_refl. wsteps.
  apply wlp_get_local_addr; [done|]. wsteps.
  apply wlp_tcp_checksum; [done|lia..|]. apply wlp_wrn; [unfold Tcp.sum; simpl; lia|done].
Qed.

Lemma wlp_verify_checksum net p (Q : bool -> S -> Prop) s :
  segment_ok p -> peered net -> Q (in_check net p =? get16 p Tcp.sum) s ->
  wlp F (_mysock_verify_checksum net p (length p)) Q s.
Proof.
  intros Hok Hp HQ. pose proof Hok as [_ Hl]. unfold blen in Hl. unfold _mysock_verify_checksum.
  rewrite (proj2 (Nat.leb_le _ _)) by (unfold Tcp.size; lia). pose proof Hp as (_ & _ & -> & H1 & H2). rewrite Z.eqb_refl. wsteps.
  apply wlp_get_local_addr; [done|]. wsteps.
  apply wlp_tcp_checksum; [done|lia..|]. wsteps. apply wlp_rd16; [unfold Tcp.sum; lia|]. by wsteps.
Qed.

(** The checksum reads [len] bytes of the buffer it is given. *)
Lemma tcp_checksum_prefix src dst packet p (s : S) :
  (length p <= length packet)%nat -> slice packet 0 (length p) = p ->
  _mysock_tcp_checksum src dst packet (length p) s = _mysock_tcp_checksum src dst p (length p) s.
Proof.
  intros Hl Hs. unfold _mysock_tcp_checksum.
  assert (Hp : slice p 0 (length p) = p) by (unfold slice; rewrite drop_0, take_ge; done || lia).
  unfold rdn, in_range. simpl (0 + length p)%nat.
  by rewrite (proj2 (Nat.leb_le (length p) (length packet))), Nat.leb_refl, Hs, Hp by done.
Qed.

Lemma wlp_verify_prefix net packet p (Q : bool -> S -> Prop) s :
  (length p <= length packet)%nat -> slice packet 0 (length p) = p ->
  accepts net p -> peered net -> Q true s -> wlp F (_mysock_verify_checksum net packet (length p)) Q s.
Proof.
  intros Hl Hs [Hok He] Hp HQ. pose proof Hok as [_ Hlen]. unfold blen in Hlen. unfold _mysock_verify_checksum.
  rewrite (proj2 (Nat.leb_le _ _)) by (unfold Tcp.size; lia). pose proof Hp as (_ & _ & -> & H1 & H2).
  rewrite Z.eqb_refl. wsteps. apply wlp_get_local_addr; [done|]. wsteps.
  eapply wlp_eq; [by apply tcp_checksum_prefix|]. apply wlp_tcp_checksum; [done|lia..|]. wsteps. apply wlp_rd16; [unfold Tcp.sum; lia|]. wsteps.
  replace (get16 packet Tcp.sum) with (get16 p Tcp.sum).
  - unfold in_check in He. by rewrite He, Z.eqb_refl.
  - rewrite <- Hs at 1. unfold get16. rewrite !get8_slice by (unfold Tcp.sum; lia). done.
Qed.

Lemma wlp_verify_accepts net p (Q : bool -> S -> Prop) s :
  accepts net p -> peered net -> Q true s -> wlp F (_mysock_verify_checksum net p (length p)) Q s.
Proof. intros [Hok He] Hp HQ. apply wlp_verify_checksum; try done. by rewrite He, Z.eqb_refl. Qed.
End checksum.
