(* ===== verification/Mysock.v ===== *)
(** mysock.c: the table of mysockets. A descriptor indexes [global_ctx]; the
    operations on one mysocket run on its entry. Calls that block until another
    thread acts stop with [Blocked]. *)

From S2P Require Import Prelude.
From S2P Require Import Bytes.
From S2P Require Import MysockHash.
From S2P Require Import MysockState.
From S2P Require Import PacketQueue.

(** What a call of the socket interface returns: a value, or -1 with [errno]. *)
Definition ret_t : Type := Z + Z.

(** [m] on the mysocket context with descriptor [sd]. *)
Definition at_sock {A} (sd : Z) (m : M mysock_context A) : M stack A := fun st =>
  match global_ctx st !! sd with
  | None => Err UseAfterFree
  | Some s =>
      match m s with
      | Ok (a, s') => Ok (a, set_global_ctx (<[sd := s']> (global_ctx st)) st)
      | Err f => Err f
      end
  end.

(** [m] on a mysocket's network context. *)
Definition in_net {A} (m : M network_context_t A) : M mysock_context A := fun s =>
  match m (network_state s) with
  | Ok (a, n) => Ok (a, set_network_state n s)
  | Err f => Err f
  end.

(** [verify_mysocket_descriptor(NULL, my_sd)] *)
Definition verify_mysocket_descriptor (sd : Z) : M stack unit :=
  _ ← massert ((0 <=? sd) && (sd <? Z.of_nat MAX_NUM_CONNECTIONS));
  st ← get;
  match global_ctx st !! sd with
  | None => fail AssertFailed
  | Some s => massert (my_sd s =? sd)
  end.

(** [_mysock_get_context(sd)] *)
Definition _mysock_get_context (sd : Z) : M stack (option mysock_context) :=
  _ ← verify_mysocket_descriptor sd;
  st ← get;
  mret (if (0 <=? sd) && (sd <? Z.of_nat MAX_NUM_CONNECTIONS) then global_ctx st !! sd else None).

(** [ctx = _mysock_get_context(sd)], then used as a pointer. *)
Definition the_context (sd : Z) : M stack mysock_context :=
  c ← _mysock_get_context sd;
  deref c.

(** [_network_init(sock_ctx, net_ctx)]: the zeroed network context and its seed. *)
Definition _network_init (ip : Z) : network_context_t :=
  mk_net false sockaddr0 sockaddr0 0 false 0x632a false (zeros (Z.to_nat MAX_IP_PAYLOAD_LEN)) 0 false false 0 ip
    [] [] [] None.

(** [_mysock_allocate_context()] *)
Definition _mysock_allocate_context (ip : Z) : mysock_context :=
  mk_sock false (_network_init ip) false false 0 (-1) true 0 false false false [] [] [].

(** [_mysock_free_context(ctx)] of the context with descriptor [sd]. *)
Definition _mysock_free_context (sd : Z) : M stack unit :=
  modify (fun st => set_global_ctx (delete sd (global_ctx st)) st).

(** The loop of [_mysock_new_mysocket]: the first free descriptor from [k] on. *)
Fixpoint first_free (tbl : gmap Z mysock_context) (k : Z) (n : nat) : option Z :=
  match n with
  | O => None
  | Datatypes.S n' => match tbl !! k with None => Some k | Some _ => first_free tbl (k + 1) n' end
  end.

(** [_mysock_new_mysocket(is_reliable)] *)
Definition _mysock_new_mysocket (reliable : bool) : M stack ret_t :=
  st ← get;
  let c := _mysock_allocate_context (host_ip st) in
  let c := set_network_state (set_is_reliable reliable (network_state c)) c in
  match first_free (global_ctx st) 0 MAX_NUM_CONNECTIONS with
  | Some k =>
      _ ← put (set_global_ctx (<[k := set_my_sd k c]> (global_ctx st)) st);
      mret (inl k)
  | None => mret (inr EMFILE)
  end.

(** [_network_start_recv_thread(ctx)] *)
Definition _network_start_recv_thread (sd : Z) : M stack unit :=
  at_sock sd (in_net (modify (set_recv_thread_started true))).

(** [_mysock_transport_init(sd, is_active)] *)
Definition _mysock_transport_init (sd : Z) (active : bool) : M stack unit :=
  c ← the_context sd;
  _ ← massert (negb (listening c));
  _ ← at_sock sd (modify (set_is_active active));
  _ ← _network_start_recv_thread sd;
  _ ← modify (fun st => set_transports (<[sd := Starting]> (transports st)) st);
  at_sock sd (modify (set_transport_thread_started true)).

(** [_mysock_wait_for_connection(ctx)] *)
Definition _mysock_wait_for_connection (sd : Z) : M stack ret_t :=
  s ← at_sock sd get;
  if blocking s then fail Blocked
  else mret (if stcp_errno s =? 0 then inl 0 else inr (stcp_errno s)).

Section network_bind.
Context {K : Kernel}.

(** [_network_bind(ctx, addr, addrlen)] *)
Definition _network_bind (addr : sockaddr) : M network_context_t Z :=
  match bind_port (sin_port addr) with
  | Some p => _ ← modify (set_net_port p); mret 0
  | None => mret (-1)
  end.

(** [_mysock_bind_ephemeral(ctx)] *)
Definition _mysock_bind_ephemeral : M mysock_context Z :=
  ctx ← get;
  _ ← massert (negb (bound ctx));
  rc ← in_net (_network_bind (mk_sockaddr AF_INET 0 0));
  if rc <? 0 then fail AssertFailed
  else
    _ ← modify (set_bound true);
    mret 0.
End network_bind.

(** [_mysock_enqueue_buffer] on the three queues of a mysocket. *)
Definition enqueue_network_recv (packet : bytes) : M mysock_context unit :=
  modify (fun s => set_network_recv_queue (_mysock_enqueue_buffer (network_recv_queue s) packet) s).
Definition enqueue_app_send (packet : bytes) : M mysock_context unit :=
  modify (fun s => set_app_send_queue (_mysock_enqueue_buffer (app_send_queue s) packet) s).
Definition enqueue_app_recv (packet : bytes) : M mysock_context unit :=
  modify (fun s => set_app_recv_queue (_mysock_enqueue_buffer (app_recv_queue s) packet) s).

(** [_mysock_dequeue_buffer] on them: the result and the bytes copied. *)
Definition dequeue_network_recv (max_len : nat) : M mysock_context (nat * bytes) :=
  s ← get;
  '(n, data, q) ← _mysock_dequeue_buffer (network_recv_queue s) max_len false;
  _ ← modify (set_network_recv_queue q);
  mret (n, data).
Definition dequeue_app_recv (max_len : nat) : M mysock_context (nat * bytes) :=
  s ← get;
  '(n, data, q) ← _mysock_dequeue_buffer (app_recv_queue s) max_len true;
  _ ← modify (set_app_recv_queue q);
  mret (n, data).
Definition dequeue_app_send (max_len : nat) : M mysock_context (nat * bytes) :=
  s ← get;
  '(n, data, q) ← _mysock_dequeue_buffer (app_send_queue s) max_len true;
  _ ← modify (set_app_send_queue q);
  mret (n, data).

(* ------------------------------------------------------------------ *)
(** * The table's invariant and rules *)

(** Every entry is at the index it records, within the table. *)
Definition table_ok (st : stack) : Prop :=
  forall sd s, global_ctx st !! sd = Some s -> my_sd s = sd /\ 0 <= sd < Z.of_nat MAX_NUM_CONNECTIONS.

(** The stack [st] with [s] as its mysocket [sd]. *)
Definition sock_at (st : stack) (sd : Z) (s : mysock_context) : stack :=
  set_global_ctx (<[sd := s]> (global_ctx st)) st.

(** [s] may stand at [sd]. *)
Definition placed (sd : Z) (s : mysock_context) : Prop :=
  my_sd s = sd /\ 0 <= sd < Z.of_nat MAX_NUM_CONNECTIONS.

Lemma sock_at_same st sd s : global_ctx st !! sd = Some s -> sock_at st sd s = st.
Proof. intros Hs. unfold sock_at. rewrite insert_id by done. by destruct st. Qed.

Lemma sock_at_twice st sd s s' : sock_at (sock_at st sd s) sd s' = sock_at st sd s'.
Proof. unfold sock_at. simpl. by rewrite insert_insert_eq. Qed.

Lemma sock_at_lookup st sd s : global_ctx (sock_at st sd s) !! sd = Some s.
Proof. apply lookup_insert_eq. Qed.

Section rules.
Context (F : fault -> Prop).

Lemma wlp_at_sock {A} sd (m : M mysock_context A) (Q : A -> stack -> Prop) st s :
  wlp F m (fun a s' => Q a (sock_at st sd s')) s -> wlp F (at_sock sd m) Q (sock_at st sd s).
Proof.
  unfold wlp, at_sock. rewrite sock_at_lookup. destruct (m s) as [[a s']|f]; [|done].
  pose proof (sock_at_twice st sd s s') as Ht. unfold sock_at at 1 in Ht. by rewrite Ht.
Qed.

Lemma wlp_in_net {A} (m : M network_context_t A) (Q : A -> mysock_context -> Prop) s :
  wlp F m (fun a n => Q a (set_network_state n s)) (network_state s) -> wlp F (in_net m) Q s.
Proof. unfold wlp, in_net. by destruct (m (network_state s)) as [[a n]|f]. Qed.

Lemma wlp_verify_descriptor sd s st (Q : unit -> stack -> Prop) :
  placed sd s -> Q tt (sock_at st sd s) -> wlp F (verify_mysocket_descriptor sd) Q (sock_at st sd s).
Proof.
  intros [Hp Hr] HQ. unfold verify_mysocket_descriptor.
  rewrite (proj2 (Z.leb_le _ _)), (proj2 (Z.ltb_lt _ _)) by lia. cbn [andb]. wgo.
  rewrite sock_at_lookup, Hp, Z.eqb_refl. by wgo.
Qed.

Lemma wlp_get_context sd s st (Q : option mysock_context -> stack -> Prop) :
  placed sd s -> Q (Some s) (sock_at st sd s) -> wlp F (_mysock_get_context sd) Q (sock_at st sd s).
Proof.
  intros Hp HQ. unfold _mysock_get_context. wgo. apply wlp_verify_descriptor; [done|]. wgo.
  destruct Hp as [_ Hr]. rewrite (proj2 (Z.leb_le _ _)), (proj2 (Z.ltb_lt _ _)), sock_at_lookup by lia. done.
Qed.

Lemma wlp_the_context sd s st (Q : mysock_context -> stack -> Prop) :
  placed sd s -> Q s (sock_at st sd s) -> wlp F (the_context sd) Q (sock_at st sd s).
Proof. intros Hp HQ. unfold the_context. wgo. apply wlp_get_context; [done|]. by wgo. Qed.

Lemma first_free_spec tbl k n :
  match first_free tbl k n with
  | Some i => k <= i < k + Z.of_nat n /\ tbl !! i = None /\ forall j, k <= j < i -> is_Some (tbl !! j)
  | None => forall j, k <= j < k + Z.of_nat n -> is_Some (tbl !! j)
  end.
Proof.
  revert k. induction n as [|n IH]; intros k; cbn [first_free]; [lia|].
  destruct (tbl !! k) as [c|] eqn:Hk.
  - specialize (IH (k + 1)). destruct (first_free tbl (k + 1) n) as [i|].
    + destruct IH as (H1 & H2 & H3). split; [lia|]. split; [done|]. intros j Hj.
      destruct (decide (j = k)) as [->|]; [by eexists|]. apply H3. lia.
    + intros j Hj. destruct (decide (j = k)) as [->|]; [by eexists|]. apply IH. lia.
  - split; [lia|]. split; [done|]. lia.
Qed.
End rules.

(** The search looks at which descriptors are in use only. *)
Lemma first_free_dom t1 t2 k n : dom t1 = dom t2 -> first_free t1 k n = first_free t2 k n.
Proof.
  intros Hd. revert k. induction n as [|n IH]; intros k; [done|]. cbn [first_free]. rewrite IH.
  assert (Hk : is_Some (t1 !! k) <-> is_Some (t2 !! k)) by (by rewrite <- !elem_of_dom, Hd).
  destruct (t1 !! k), (t2 !! k); try done; exfalso.
  - by destruct (proj1 Hk ltac:(eauto)).
  - by destruct (proj2 Hk ltac:(eauto)).
Qed.
