(* ===== verification/ConnectionDemux.v ===== *)
(** connection_demux.c: the connection requests waiting on listening
    mysockets. A pointer into [connection_queue] is good as long as its block is
    the one [connection_queue] points to; stores through a pointer to a listen
    queue go to its entry of [listen_table]. *)

From S2P Require Import Prelude.
From S2P Require Import Bytes.
From S2P Require Import MysockHash.
From S2P Require Import MysockState.
From S2P Require Import PacketQueue.
From S2P Require Import NetworkIoTcp.
From S2P Require Import Mysock.

(** [_get_connection_queue(ctx)] *)
Definition _get_connection_queue (ctx : mysock_context) : M stack (option listen_queue_t) :=
  _ ← massert (listening ctx && bound ctx);
  st ← get;
  _hash_lookup_ptr (listen_table st) (my_sd ctx).

(** The listen queue [*q] of a mysocket after a store. *)
Definition store_queue (sd : Z) (q : listen_queue_t) : M stack unit :=
  st ← get;
  tbl ← _hash_set_entry (listen_table st) sd q;
  put (set_listen_table tbl st).

(** The address [&q->connection_queue[k]]. *)
Definition slot (q : listen_queue_t) (k : nat) : request_ptr := (queue_block q, k).

(** The load [*p] of a request of [q]: [realloc] ends the life of the block it is
    given. *)
Definition load_request (q : listen_queue_t) (p : request_ptr) : M stack connect_request_t :=
  if decide (p.1 = queue_block q) then
    match connection_queue q !! p.2 with
    | Some r => mret r
    | None => fail OutOfBounds
    end
  else fail UseAfterFree.

(** [_mysock_dequeue_connection(accept_ctx, &new_ctx)]: the descriptor of the
    new context. *)
Definition _mysock_dequeue_connection (accept_ctx : mysock_context) : M stack Z :=
  _ ← massert (listening accept_ctx && bound accept_ctx);
  q ← _get_connection_queue accept_ctx;
  q ← match q with Some q => mret q | None => fail AssertFailed end;
  match completed_queue q with
  | [] => fail Blocked
  | r :: rest =>
      request ← load_request q r;
      new_ctx ← the_context (rq_sd request);
      _ ← massert (0 <? cur_len q);
      _ ← store_queue (my_sd accept_ctx)
            (set_cur_len (cur_len q - 1)
              (set_connection_queue (<[r.2 := INVALIDATE_CONNECT_REQUEST]> (connection_queue q))
                (set_completed_queue rest q)));
      mret (my_sd new_ctx)
  end.

(** The search for a retransmission among the requests [rs]. *)
Fixpoint is_retransmission {S} (rs : list connect_request_t) (addr : sockaddr) (addr_len : Z) : M S bool :=
  match rs with
  | [] => mret false
  | r :: rs' =>
      _ ← massert ((rq_sd r =? -1) || (addr_len =? rq_peer_addr_len r));
      if bool_decide (rq_peer_addr r = addr) then mret true else is_retransmission rs' addr addr_len
  end.

(** Index of the first request with a property, from [k] on. *)
Fixpoint find_request (P : connect_request_t -> bool) (rs : list connect_request_t) (k : nat) : option nat :=
  match rs with
  | [] => None
  | r :: rs' => if P r then Some k else find_request P rs' (Datatypes.S k)
  end.

(** The requests [connection_queue[0 .. max_len)]. *)
Definition requests (q : listen_queue_t) : list connect_request_t := take (Z.to_nat (max_len q)) (connection_queue q).

(** Second half of [_mysock_enqueue_connection], once slot [k] was chosen and
    [cur_len] incremented (in [q]). *)
Definition establish (ctx : mysock_context) (q : listen_queue_t) (k : nat) (packet : bytes) (addr : sockaddr)
    (addr_len : Z) : M stack bool :=
  entry ← deref (connection_queue q !! k);
  _ ← massert (rq_sd entry =? -1);
  sd ← _mysock_new_mysocket (is_reliable (network_state ctx));
  match sd with
  | inr _ =>
      _ ← store_queue (my_sd ctx)
            (set_cur_len (cur_len q - 1)
              (set_connection_queue (<[k := INVALIDATE_CONNECT_REQUEST]> (connection_queue q)) q));
      mret false
  | inl sd =>
      _ ← the_context sd;
      _ ← at_sock sd (modify (fun s => set_network_state (set_peer addr addr_len true (network_state s))
                                         (set_listen_sd (my_sd ctx) s)));
      _ ← store_queue (my_sd ctx)
            (set_connection_queue (<[k := mk_request addr addr_len sd]> (connection_queue q)) q);
      new ← at_sock sd get;
      accept_ctx ← at_sock (my_sd ctx) get;
      '(new_net, accept_net) ←
        lift (_network_update_passive_state (listening new) (is_active new) (network_state new)
                (network_state accept_ctx));
      _ ← at_sock sd (modify (set_network_state new_net));
      _ ← at_sock (my_sd ctx) (modify (set_network_state accept_net));
      _ ← _mysock_transport_init sd false;
      _ ← at_sock sd (enqueue_network_recv packet);
      mret true
  end.

(** [_mysock_enqueue_connection(ctx, packet, packet_len, peer_addr, peer_addr_len, NULL)] *)
Definition _mysock_enqueue_connection (ctx : mysock_context) (packet : bytes) (addr : sockaddr) (addr_len : Z)
    : M stack bool :=
  _ ← massert (listening ctx && bound ctx);
  _ ← massert (0 <? addr_len);
  if (length packet <? Tcp.size)%nat || (Z.land (get8 packet Tcp.flags) TH_SYN =? 0) then mret false
  else
    q ← _get_connection_queue ctx;
    match q with
    | None => mret false
    | Some q =>
        retransmitted ← is_retransmission (requests q) addr addr_len;
        if (retransmitted : bool) then mret false
        else if cur_len q <? max_len q then
          match find_request (fun r => rq_sd r <? 0) (requests q) 0 with
          | None => fail AssertFailed
          | Some k =>
              let q := set_cur_len (u32 (cur_len q + 1)) q in
              _ ← store_queue (my_sd ctx) q;
              establish ctx q k packet addr addr_len
          end
        else mret false
    end.

(** [_mysock_passive_connection_complete(ctx)] *)
Definition _mysock_passive_connection_complete (ctx : mysock_context) : M stack unit :=
  _ ← massert (0 <=? listen_sd ctx);
  listener ← the_context (listen_sd ctx);
  q ← _get_connection_queue listener;
  match q with
  | None => mret tt
  | Some q =>
      match find_request (fun r => rq_sd r =? my_sd ctx) (requests q) 0 with
      | None => fail AssertFailed
      | Some k => store_queue (my_sd listener) (set_completed_queue (completed_queue q ++ [slot q k]) q)
      end
  end.

(** [_mysock_set_backlog(ctx, backlog)]; a larger [max_len] makes [realloc] move
    the requests to a new block. *)
Definition _mysock_set_backlog (ctx : mysock_context) (backlog : Z) : M stack unit :=
  let new_max := u32 (backlog + 1) in
  _ ← massert (listening ctx && bound ctx);
  let port := ntohs (net_port (network_state ctx)) in
  _ ← massert (0 <? port);
  q ← _get_connection_queue ctx;
  q ← match q with
      | Some q => mret q
      | None =>
          let q := mk_listen port 0 0 0 [] [] in
          st ← get;
          tbl ← _hash_insert (listen_table st) (my_sd ctx) q;
          _ ← put (set_listen_table tbl st);
          mret q
      end;
  _ ← massert (local_port q =? port);
  store_queue (my_sd ctx)
    (if max_len q <? new_max
     then mk_listen (local_port q) new_max (cur_len q) (S (queue_block q))
            (requests q ++ replicate (Z.to_nat new_max - Z.to_nat (max_len q)) INVALIDATE_CONNECT_REQUEST) (completed_queue q)
     else mk_listen (local_port q) new_max (cur_len q) (queue_block q) (connection_queue q) (completed_queue q)).

(** [_mysock_close_passive_socket(ctx)], which closes with [myclose] the
    mysockets that were never accepted. *)
Definition _mysock_close_passive_socket (myclose : Z -> M stack ret_t) (ctx : mysock_context) : M stack unit :=
  _ ← massert (listening ctx && bound ctx);
  q ← _get_connection_queue ctx;
  match q with
  | None => mret tt
  | Some q =>
      _ ← mfor (requests q) (fun r => if rq_sd r =? -1 then mret tt else _ ← myclose (rq_sd r); mret tt);
      st ← get;
      tbl ← _hash_delete (listen_table st) (my_sd ctx);
      put (set_listen_table tbl st)
  end.
