(* ===== verification/DemuxFacts.v ===== *)
(** Listening mysockets: the invariant of their queues of pending connections
    and what each operation of connection_demux.c does to them. *)

From S2P Require Import Prelude.
From S2P Require Import Bytes.
From S2P Require Import MysockHash.
From S2P Require Import MysockState.
From S2P Require Import PacketQueue.
From S2P Require Import NetworkIoTcp.
From S2P Require Import Mysock.
From S2P Require Import ConnectionDemux.

(** The listen table of [st] as a map from descriptors. *)
Definition listens (st : stack) (m : gmap Z listen_queue_t) : Prop :=
  hash_repr MAX_NUM_CONNECTIONS (listen_table st) m.

(** A mysocket in the table. *)
Definition has_sock (st : stack) (sd : Z) (s : mysock_context) : Prop :=
  global_ctx st !! sd = Some s /\ placed sd s.

(** The number of requests in use. *)
Fixpoint used (l : list connect_request_t) : nat :=
  match l with
  | [] => 0
  | r :: l' => (if rq_sd r =? -1 then 0 else 1) + used l'
  end.
Definition pending (q : listen_queue_t) : nat := used (connection_queue q).

(** A sound queue: [max_len] slots, [cur_len] of them in use, the completed
    connections among those, none listed twice. *)
Record queue_ok (q : listen_queue_t) : Prop := {
  queue_slots : Z.of_nat (length (connection_queue q)) = max_len q;
  queue_width : max_len q < 2 ^ 32;
  queue_count : cur_len q = Z.of_nat (pending q);
  queue_sds : Forall (fun r => rq_sd r = -1 \/ 0 <= rq_sd r /\ rq_peer_addr_len r = SOCKADDR_LEN) (connection_queue q);
  queue_nodup : NoDup (completed_queue q);
  queue_completed : Forall (fun p => p.1 = queue_block q /\ exists r, connection_queue q !! p.2 = Some r /\ rq_sd r <> -1) (completed_queue q);
}.

Lemma requests_all q : queue_ok q -> requests q = connection_queue q.
Proof. intros [H _ _ _ _ _]. unfold requests. rewrite take_ge; [done|lia]. Qed.

Lemma used_le l : (used l <= length l)%nat.
Proof. induction l as [|r l IH]; simpl; [done|]. destruct (rq_sd r =? -1); lia. Qed.

(** The backlog bound. *)
Lemma pending_le q : queue_ok q -> 0 <= cur_len q <= max_len q.
Proof.
  intros [H1 _ H3 _ _ _]. rewrite H3, <- H1. unfold pending. pose proof (used_le (connection_queue q)). lia.
Qed.

Lemma used_insert l k r r' :
  l !! k = Some r ->
  (used (<[k := r']> l) + (if (rq_sd r =? -1)%Z then 0 else 1) = used l + (if (rq_sd r' =? -1)%Z then 0 else 1))%nat.
Proof.
  revert k. induction l as [|x l IH]; intros [|k] Hk; try done; simpl in *.
  - injection Hk as ->. lia.
  - specialize (IH k Hk). lia.
Qed.

Lemma used_full l : (used l < length l)%nat -> exists k r, l !! k = Some r /\ rq_sd r = -1.
Proof.
  induction l as [|x l IH]; simpl; [lia|]. destruct (Z.eqb_spec (rq_sd x) (-1)) as [He|Hne].
  - intros _. by exists 0%nat, x.
  - intros Hl. destruct IH as (k & r & Hk & Hr); [lia|]. by exists (Datatypes.S k), r.
Qed.

Lemma find_request_spec P l k :
  match find_request P l k with
  | Some i => (k <= i)%nat /\ exists r, l !! (i - k)%nat = Some r /\ P r = true
  | None => Forall (fun r => P r = false) l
  end.
Proof.
  revert k. induction l as [|x l IH]; intros k; [constructor|]. simpl. destruct (P x) eqn:Hx.
  - split; [lia|]. exists x. rewrite Nat.sub_diag. done.
  - specialize (IH (Datatypes.S k)). destruct (find_request P l (Datatypes.S k)) as [i|].
    + destruct IH as (H1 & r & H2 & H3). split; [lia|]. exists r.
      replace (i - k)%nat with (Datatypes.S (i - Datatypes.S k)) by lia. done.
    + by constructor.
Qed.

Lemma find_request_unique P l k r :
  l !! k = Some r -> P r = true -> (forall j x, k <> j -> l !! j = Some x -> P x = false) ->
  find_request P l 0 = Some k.
Proof.
  intros Hk Hr Ho. pose proof (find_request_spec P l 0) as Hs. destruct (find_request P l 0) as [i|].
  - destruct Hs as (_ & x & Hx & HPx). rewrite Nat.sub_0_r in Hx.
    destruct (decide (k = i)) as [->|Hne]; [done|]. rewrite (Ho i x Hne Hx) in HPx. done.
  - rewrite Forall_forall in Hs. by rewrite (Hs r (list_elem_of_lookup_2 _ _ _ Hk)) in Hr.
Qed.

(** A free slot exists below the bound. *)
Lemma free_slot q :
  queue_ok q -> cur_len q < max_len q ->
  exists k r, find_request (fun r => rq_sd r <? 0) (requests q) 0 = Some k
    /\ connection_queue q !! k = Some r /\ rq_sd r = -1.
Proof.
  intros Hok Hlt. rewrite requests_all by done. pose proof Hok as [H1 _ H3 H4 _ _].
  rewrite Forall_forall in H4.
  pose proof (find_request_spec (fun r => rq_sd r <? 0) (connection_queue q) 0) as Hs.
  destruct (find_request _ _ _) as [k|].
  - destruct Hs as (_ & r & Hk & Hr%Z.ltb_lt). rewrite Nat.sub_0_r in Hk. exists k, r. split; [done|]. split; [done|].
    specialize (H4 r (list_elem_of_lookup_2 _ _ _ Hk)). lia.
  - exfalso. destruct (used_full (connection_queue q)) as (k & r & Hk & Hr).
    { rewrite H3, <- H1 in Hlt. unfold pending in Hlt. lia. }
    rewrite Forall_forall in Hs. specialize (Hs r (list_elem_of_lookup_2 _ _ _ Hk)). by rewrite Hr in Hs.
Qed.

(* ------------------------------------------------------------------ *)
(** * Rules *)

Section rules.
Context (F : fault -> Prop).

Lemma wlp_at_sock_lookup {A} sd (m : M mysock_context A) (Q : A -> stack -> Prop) st s :
  global_ctx st !! sd = Some s -> wlp F m (fun a s' => Q a (sock_at st sd s')) s -> wlp F (at_sock sd m) Q st.
Proof. intros Hs HQ. rewrite <- (sock_at_same st sd s Hs). by apply wlp_at_sock. Qed.

Lemma wlp_the_context_lookup sd s st (Q : mysock_context -> stack -> Prop) :
  has_sock st sd s -> Q s st -> wlp F (the_context sd) Q st.
Proof.
  intros [Hs Hp] HQ. rewrite <- (sock_at_same st sd s Hs). apply wlp_the_context; [done|].
  by rewrite (sock_at_same st sd s Hs).
Qed.

Lemma wlp_get_queue ctx m st (Q : option listen_queue_t -> stack -> Prop) :
  listens st m -> listening ctx = true -> bound ctx = true -> 0 <= my_sd ctx ->
  Q (m !! my_sd ctx) st -> wlp F (_get_connection_queue ctx) Q st.
Proof.
  intros Hm Hl Hb Hk HQ. unfold _get_connection_queue. rewrite Hl, Hb. cbn [andb]. wgo.
  unfold wlp. by rewrite (lookup_ptr_eq MAX_NUM_CONNECTIONS _ m).
Qed.

Lemma wlp_store_queue sd q m st (Q : unit -> stack -> Prop) :
  listens st m -> 0 <= sd ->
  (forall tbl, hash_repr MAX_NUM_CONNECTIONS tbl (<[sd := q]> m) -> Q tt (set_listen_table tbl st)) ->
  wlp F (store_queue sd q) Q st.
Proof.
  intros Hm Hk HQ. unfold store_queue. wgo.
  destruct (set_entry_eq MAX_NUM_CONNECTIONS _ m sd st Hm Hk q) as (tbl & He & Hr).
  apply (wlp_eq _ _ (mret tbl)); [exact He|]. wgo. by apply HQ.
Qed.
End rules.

(* ------------------------------------------------------------------ *)
(** * The queue after each operation *)

(** A free slot is given to a new connection. *)
Definition queue_taken (q : listen_queue_t) (k : nat) (addr : sockaddr) (sd : Z) : listen_queue_t :=
  set_connection_queue (<[k := mk_request addr SOCKADDR_LEN sd]> (connection_queue q))
    (set_cur_len (u32 (cur_len q + 1)) q).

Lemma queue_taken_ok q k r addr sd :
  queue_ok q -> cur_len q < max_len q -> connection_queue q !! k = Some r -> rq_sd r = -1 -> 0 <= sd ->
  queue_ok (queue_taken q k addr sd).
Proof.
  intros Hok Hlt Hk Hr Hsd. pose proof (pending_le q Hok) as Hp. destruct Hok as [H1 H2 H3 H4 H5 H6].
  set (r' := mk_request addr SOCKADDR_LEN sd).
  assert (Hu : used (<[k := r']> (connection_queue q)) = Datatypes.S (pending q)).
  { pose proof (used_insert (connection_queue q) k r r' Hk) as Hu. rewrite Hr in Hu. simpl in Hu.
    rewrite (proj2 (Z.eqb_neq sd (-1))) in Hu by lia. unfold pending. lia. }
  split; unfold queue_taken, pending; cbn [connection_queue queue_block max_len cur_len completed_queue set_connection_queue set_cur_len];
    fold r'.
  - by rewrite length_insert.
  - done.
  - rewrite Hu, u32_small by lia. lia.
  - apply Forall_insert; [done|]. right. split; [done|done].
  - done.
  - eapply Forall_impl; [exact H6|]. intros [b j] (Hb & x & Hj & Hx). split; [done|]. simpl in *.
    destruct (decide (j = k)) as [->|Hne].
    + exists r'. split; [|simpl; lia]. apply list_lookup_insert_eq. by eapply lookup_lt_Some.
    + exists x. by rewrite list_lookup_insert_ne.
Qed.

(** A pending connection is completed. *)
Lemma queue_completed_ok q k r :
  queue_ok q -> connection_queue q !! k = Some r -> rq_sd r <> -1 -> slot q k ∉ completed_queue q ->
  queue_ok (set_completed_queue (completed_queue q ++ [slot q k]) q).
Proof.
  intros [H1 H2 H3 H4 H5 H6] Hk Hr Hn. split; try done; simpl.
  - apply NoDup_app. split; [done|]. split; [|apply NoDup_singleton].
    intros j Hj ->%list_elem_of_singleton. done.
  - apply Forall_app. split; [done|]. constructor; [|constructor]. split; [done|]. by exists r.
Qed.

(** The first completed connection is handed out. *)
Definition queue_accepted (q : listen_queue_t) (k : nat) (rest : list request_ptr) : listen_queue_t :=
  set_cur_len (cur_len q - 1)
    (set_connection_queue (<[k := INVALIDATE_CONNECT_REQUEST]> (connection_queue q)) (set_completed_queue rest q)).

Lemma queue_accepted_ok q k r rest :
  queue_ok q -> completed_queue q = slot q k :: rest -> connection_queue q !! k = Some r ->
  queue_ok (queue_accepted q k rest) /\ 0 < cur_len q.
Proof.
  intros Hok Hc Hk. pose proof (pending_le q Hok) as Hp. destruct Hok as [H1 H2 H3 H4 H5 H6].
  rewrite Hc in H5, H6. apply NoDup_cons in H5 as [Hk' H5]. apply Forall_cons in H6 as [(_ & x & Hx & Hsd) H6].
  cbn in Hx. rewrite Hx in Hk. injection Hk as ->.
  pose proof (used_insert (connection_queue q) k r INVALIDATE_CONNECT_REQUEST Hx) as Hu.
  rewrite (proj2 (Z.eqb_neq _ _)) in Hu by done. simpl in Hu.
  split; [|rewrite H3; unfold pending; lia].
  split; unfold queue_accepted, pending;
    cbn [connection_queue queue_block max_len cur_len completed_queue set_connection_queue set_cur_len set_completed_queue].
  - by rewrite length_insert.
  - done.
  - rewrite H3. unfold pending. lia.
  - apply Forall_insert; [done|]. by left.
  - done.
  - rewrite Forall_forall in H6 |- *. intros [b j] Hj. destruct (H6 _ Hj) as (Hb & y & Hy & Hys). split; [done|]. exists y. simpl in *.
    rewrite list_lookup_insert_ne; [done|]. intros ->. by subst.
Qed.

(* ------------------------------------------------------------------ *)
(** * What no call can break *)

(** A queue whatever was done to its listener, [mylisten] a second time and
    [myclose] of a waiting connection included: the block holds the [max_len]
    slots, a slot is free or has a descriptor, at most [cur_len] are in use, and a
    completed entry points into the block, or into one that [realloc] replaced. *)
Record demux_ok (q : listen_queue_t) : Prop := {
  demux_slots : 0 <= max_len q < 2 ^ 32 /\ max_len q <= Z.of_nat (length (connection_queue q));
  demux_sds : Forall (fun r => -1 <= rq_sd r) (connection_queue q);
  demux_count : Z.of_nat (pending q) <= cur_len q;
  demux_completed : Forall (fun p => (p.1 <= queue_block q)%nat
    /\ (p.1 = queue_block q -> (p.2 < length (connection_queue q))%nat)) (completed_queue q);
}.

Lemma queue_demux_ok q : queue_ok q -> demux_ok q.
Proof.
  intros [H1 H2 H3 H4 _ H6]. split; [lia|eapply Forall_impl; [exact H4|]; cbn beta; lia|lia|].
  eapply Forall_impl; [exact H6|]. intros p (-> & r & Hr & _). split; [done|]. intros _. by eapply lookup_lt_Some.
Qed.

Lemma demux_new port : demux_ok (mk_listen port 0 0 0 [] []).
Proof. split; simpl; [lia|constructor|done|constructor]. Qed.

(** A request counted and not yet in its slot. *)
Lemma demux_counted q : demux_ok q -> cur_len q < max_len q ->
  let q' := set_cur_len (u32 (cur_len q + 1)) q in demux_ok q' /\ Z.of_nat (pending q') < cur_len q'.
Proof.
  intros [H1 H2 H3 H4] Hlt q'. assert (Hu : u32 (cur_len q + 1) = cur_len q + 1) by (apply u32_small; lia).
  split; [split; try done|]; subst q'; cbn; rewrite Hu; unfold pending in *; cbn; lia.
Qed.

(** A slot of the block stored to, the count adjusted. *)
Lemma demux_stored q k r r' n :
  demux_ok q -> connection_queue q !! k = Some r -> -1 <= rq_sd r' ->
  Z.of_nat (pending q) + (if rq_sd r' =? -1 then 0 else 1) <= n + (if rq_sd r =? -1 then 0 else 1) ->
  demux_ok (set_cur_len n (set_connection_queue (<[k := r']> (connection_queue q)) q)).
Proof.
  intros [H1 H2 H3 H4] Hk Hr' Hn. pose proof (used_insert (connection_queue q) k r r' Hk) as Hu.
  split; unfold pending in *; cbn [connection_queue max_len cur_len queue_block completed_queue set_connection_queue set_cur_len].
  - by rewrite length_insert.
  - by apply Forall_insert.
  - destruct (rq_sd r =? -1), (rq_sd r' =? -1); lia.
  - by rewrite length_insert.
Qed.

Lemma demux_finished q k : demux_ok q -> (k < length (connection_queue q))%nat ->
  demux_ok (set_completed_queue (completed_queue q ++ [slot q k]) q).
Proof.
  intros [H1 H2 H3 H4] Hk. split; [done..|]. cbn. apply Forall_app. split; [done|]. by repeat constructor.
Qed.

Lemma demux_rest q p rest : demux_ok q -> completed_queue q = p :: rest -> demux_ok (set_completed_queue rest q).
Proof. intros [H1 H2 H3 H4] Hc. split; [done..|]. cbn. rewrite Hc in H4. by apply Forall_cons in H4 as [_ H4]. Qed.

Lemma used_app l1 l2 : used (l1 ++ l2) = (used l1 + used l2)%nat.
Proof. induction l1 as [|r l1 IH]; [done|]. simpl. rewrite IH. lia. Qed.
Lemma used_replicate n : used (replicate n INVALIDATE_CONNECT_REQUEST) = 0%nat.
Proof. induction n; simpl; lia. Qed.
Lemma used_take n l : (used (take n l) <= used l)%nat.
Proof. rewrite <- (take_drop n l) at 2. rewrite used_app. lia. Qed.

(** The bound changed by [mylisten]. *)
Lemma demux_bound q n : demux_ok q -> 0 <= n < 2 ^ 32 ->
  demux_ok (if max_len q <? n
     then mk_listen (local_port q) n (cur_len q) (S (queue_block q))
            (requests q ++ replicate (Z.to_nat n - Z.to_nat (max_len q)) INVALIDATE_CONNECT_REQUEST) (completed_queue q)
     else mk_listen (local_port q) n (cur_len q) (queue_block q) (connection_queue q) (completed_queue q)).
Proof.
  intros [H1 H2 H3 H4] Hn. assert (Hl : length (requests q) = Z.to_nat (max_len q)) by (unfold requests; rewrite length_take; lia).
  destruct (Z.ltb_spec (max_len q) n) as [Hlt|Hge].
  - split; unfold pending in *; cbn [connection_queue max_len cur_len queue_block completed_queue].
    + rewrite length_app, length_replicate, Hl. lia.
    + apply Forall_app. split; [by apply Forall_take|]. apply Forall_replicate. done.
    + rewrite used_app, used_replicate. pose proof (used_take (Z.to_nat (max_len q)) (connection_queue q)). unfold requests. lia.
    + eapply Forall_impl; [exact H4|]. intros p [Hp _]. split; lia.
  - split; unfold pending in *; cbn [connection_queue max_len cur_len queue_block completed_queue]; try done. lia.
Qed.

(* ------------------------------------------------------------------ *)
(** * The operations *)

(** The mysocket created for an incoming connection. *)
Definition accepted_sock (ip : Z) (reliable : bool) (port lsd sd : Z) (addr : sockaddr) (b packet : bytes) : mysock_context :=
  mk_sock false
    (mk_net reliable sockaddr0 addr SOCKADDR_LEN true 0x632a false (zeros (Z.to_nat MAX_IP_PAYLOAD_LEN)) 0 true true
       port ip b [] [] None)
    false false sd lsd true 0 true false false [packet] [] [].

Lemma is_retransmission_spec {S} F rs addr (Q : bool -> S -> Prop) s :
  Forall (fun r => rq_sd r = -1 \/ 0 <= rq_sd r /\ rq_peer_addr_len r = SOCKADDR_LEN) rs ->
  Q (existsb (fun r => bool_decide (rq_peer_addr r = addr)) rs) s ->
  wlp F (is_retransmission rs addr SOCKADDR_LEN) Q s.
Proof.
  intros Hf HQ. induction Hf as [|r rs Hr Hf IH]; cbn [is_retransmission existsb] in *; [done|].
  replace ((rq_sd r =? -1) || (SOCKADDR_LEN =? rq_peer_addr_len r)) with true.
  2:{ destruct Hr as [->|[_ ->]]; [done|]. by rewrite orb_true_r. }
  wgo. revert HQ. destruct (bool_decide _); cbn [orb]; [by wgo|]. by auto.
Qed.

(** A stack with two of its mysockets and its listen table in view. *)
Definition two (st : stack) (tbl : hash_table listen_queue_t) (sd : Z) (s : mysock_context) (lsd : Z)
    (l : mysock_context) : stack :=
  mk_stack (host_ip st) (<[sd := s]> (<[lsd := l]> (global_ctx st))) tbl (transports st).

Section two.
Context (F : fault -> Prop) (st : stack) (tbl : hash_table listen_queue_t) (sd lsd : Z) (Hne : sd <> lsd).

Lemma wlp_fst {A} (m : M mysock_context A) (Q : A -> stack -> Prop) s l :
  wlp F m (fun a s' => Q a (two st tbl sd s' lsd l)) s -> wlp F (at_sock sd m) Q (two st tbl sd s lsd l).
Proof.
  intros H. apply (wlp_at_sock_lookup F sd m _ _ s); [apply lookup_insert_eq|].
  eapply wlp_mono; [exact H|]. intros a s' HQ. unfold sock_at, two, set_global_ctx. simpl.
  by rewrite insert_insert_eq.
Qed.

Lemma wlp_snd {A} (m : M mysock_context A) (Q : A -> stack -> Prop) s l :
  wlp F m (fun a l' => Q a (two st tbl sd s lsd l')) l -> wlp F (at_sock lsd m) Q (two st tbl sd s lsd l).
Proof.
  intros H. apply (wlp_at_sock_lookup F lsd m _ _ l).
  { simpl. rewrite lookup_insert_ne by done. apply lookup_insert_eq. }
  eapply wlp_mono; [exact H|]. intros a l' HQ. unfold sock_at, two, set_global_ctx. simpl.
  rewrite (insert_insert_ne _ lsd sd) by done. by rewrite insert_insert_eq.
Qed.

Lemma wlp_two_context (Q : mysock_context -> stack -> Prop) s l :
  placed sd s -> Q s (two st tbl sd s lsd l) -> wlp F (the_context sd) Q (two st tbl sd s lsd l).
Proof. intros Hp HQ. apply (wlp_the_context_lookup F sd s); [|done]. split; [apply lookup_insert_eq|done]. Qed.
End two.

Section operations.
Context (F : fault -> Prop).
Context (st : stack) (m : gmap Z listen_queue_t) (lsd : Z) (ls : mysock_context) (q : listen_queue_t).
Context (Hls : has_sock st lsd ls) (Hlis : listening ls = true) (Hbound : bound ls = true).
Context (Hm : listens st m) (Hq : m !! lsd = Some q) (Hok : queue_ok q).

Lemma lsd_range : my_sd ls = lsd /\ 0 <= lsd.
Proof. destruct Hls as [_ [H1 H2]]. lia. Qed.

(** A SYN from a new peer, below the backlog bound: a new mysocket. *)
Lemma wlp_enqueue_accept packet addr b sd (Q : bool -> stack -> Prop) :
  (20 <= length packet)%nat -> Z.land (get8 packet Tcp.flags) TH_SYN <> 0 ->
  Forall (fun r => rq_peer_addr r <> addr) (connection_queue q) -> cur_len q < max_len q ->
  new_socket (network_state ls) = Some b -> first_free (global_ctx st) 0 MAX_NUM_CONNECTIONS = Some sd ->
  (forall tbl k, hash_repr MAX_NUM_CONNECTIONS tbl (<[lsd := queue_taken q k addr sd]> m) ->
     queue_ok (queue_taken q k addr sd) -> connection_queue (queue_taken q k addr sd) !! k = Some (mk_request addr SOCKADDR_LEN sd) ->
     (exists r, connection_queue q !! k = Some r /\ rq_sd r = -1) ->
     Q true (mk_stack (host_ip st)
       (<[sd := accepted_sock (host_ip st) (is_reliable (network_state ls)) (net_port (network_state ls)) lsd sd addr b packet]>
         (<[lsd := set_network_state (set_new_socket None (network_state ls)) ls]> (global_ctx st)))
       tbl (<[sd := Starting]> (transports st)))) ->
  wlp F (_mysock_enqueue_connection ls packet addr SOCKADDR_LEN) Q st.
Proof.
  intros Hlen Hsyn Hnew Hlt Hns Hfree HQ. destruct lsd_range as [Hsd H0].
  pose proof (first_free_spec (global_ctx st) 0 MAX_NUM_CONNECTIONS) as Hff. rewrite Hfree in Hff.
  destruct Hff as (Hr & Hnone & _). destruct Hls as [Hg Hp].
  assert (Hne : sd <> lsd) by congruence.
  unfold _mysock_enqueue_connection. rewrite Hlis, Hbound. cbn [andb]. wgo. cbn [Z.ltb Z.compare SOCKADDR_LEN]. wgo.
  rewrite (proj2 (Nat.ltb_ge _ _)), (proj2 (Z.eqb_neq _ _)) by (done || unfold Tcp.size; lia). cbn [orb]. wgo.
  apply (wlp_get_queue F ls m); [done|done|done|lia|]. rewrite Hsd, Hq. wgo.
  apply is_retransmission_spec; [rewrite requests_all by done; by destruct Hok|].
  rewrite requests_all by done.
  replace (existsb _ (connection_queue q)) with false.
  2:{ symmetry. apply not_true_is_false. rewrite existsb_exists. intros (r & Hin & Hr'%bool_decide_eq_true).
      rewrite Forall_forall in Hnew. apply (Hnew r); [by apply list_elem_of_In|done]. }
  wgo. rewrite (proj2 (Z.ltb_lt _ _)) by done. destruct (free_slot q Hok Hlt) as (k & r & Hf & Hk & Hrs).
  rewrite requests_all in Hf by done. rewrite Hf. wgo.
  apply (wlp_store_queue F lsd _ m); [done|done|]. intros tbl1 Hr1. wgo.
  unfold establish. cbn [connection_queue set_cur_len]. rewrite Hk. wgo. rewrite Hrs, Z.eqb_refl. wgo.
  unfold _mysock_new_mysocket. wgo. cbn [global_ctx set_listen_table]. rewrite Hfree. wgo. rewrite Hsd.
  set (c0 := set_my_sd sd _).
  assert (Htwo : forall c, set_global_ctx (<[sd := c]> (global_ctx st)) (set_listen_table tbl1 st) = two st tbl1 sd c lsd ls).
  { intros c. unfold two, set_global_ctx. simpl. by rewrite (insert_id (global_ctx st) lsd ls). }
  rewrite Htwo. apply wlp_two_context; [split; [done|lia]|]. wgo.
  apply wlp_fst. wgo. set (c1 := set_network_state _ _).
  apply (wlp_store_queue F _ _ (<[lsd := set_cur_len (u32 (cur_len q + 1)) q]> m)); [exact Hr1|lia|].
  intros tbl Hr2. rewrite insert_insert_eq in Hr2.
  change (set_listen_table tbl (two st tbl1 sd c1 lsd ls)) with (two st tbl sd c1 lsd ls). wgo.
  apply wlp_fst. wgo. apply wlp_snd; [done|]. wgo. change (listening c1) with false. change (is_active c1) with false.
  unfold _network_update_passive_state. wgo. apply wlp_fst. wgo. apply wlp_snd; [done|]. wgo.
  unfold _mysock_transport_init. wgo. apply wlp_two_context; [split; [done|lia]|]. wgo.
  cbn [listening set_network_state]. change (listening c1) with false. cbn [negb]. wgo. apply wlp_fst. wgo.
  unfold _network_start_recv_thread. apply wlp_fst, wlp_in_net. wgo.
  lazymatch goal with |- wlp _ _ _ (set_transports _ (two _ _ _ ?X _ ?Y)) =>
    change (set_transports _ _) with (two (set_transports (<[sd := Starting]> (transports st)) st) tbl sd X lsd Y) end.
  apply wlp_fst. wgo. apply wlp_fst. unfold enqueue_network_recv. wgo.
  rewrite Hns. apply (HQ tbl k); [exact Hr2| | |by exists r].
  - apply (queue_taken_ok q k r); done || lia.
  - apply list_lookup_insert_eq. by eapply lookup_lt_Some.
Qed.

(** Anything but a SYN from a new peer below the bound is dropped, and nothing
    changes. *)
Lemma wlp_enqueue_drop packet addr (Q : bool -> stack -> Prop) :
  (length packet < 20)%nat \/ Z.land (get8 packet Tcp.flags) TH_SYN = 0
  \/ Exists (fun r => rq_peer_addr r = addr) (connection_queue q) \/ cur_len q = max_len q ->
  Q false st -> wlp F (_mysock_enqueue_connection ls packet addr SOCKADDR_LEN) Q st.
Proof.
  intros Hd HQ. destruct lsd_range as [Hsd H0].
  unfold _mysock_enqueue_connection. rewrite Hlis, Hbound. cbn [andb]. wgo. cbn [Z.ltb Z.compare SOCKADDR_LEN]. wgo.
  destruct ((length packet <? Tcp.size)%nat || (Z.land (get8 packet Tcp.flags) TH_SYN =? 0)) eqn:Hp; [by wgo|].
  apply orb_false_iff in Hp as [Hp1%Nat.ltb_ge Hp2%Z.eqb_neq]. unfold Tcp.size in Hp1. wgo.
  apply (wlp_get_queue F ls m); [done|done|done|lia|]. rewrite Hsd, Hq. wgo.
  apply is_retransmission_spec; [rewrite requests_all by done; by destruct Hok|].
  rewrite requests_all by done.
  destruct (existsb (fun r => bool_decide (rq_peer_addr r = addr)) (connection_queue q)) eqn:He; [by wgo|]. wgo.
  destruct Hd as [Hd|[Hd|[Hd|Hd]]]; [lia|done| |].
  - apply not_true_iff_false in He. exfalso. apply He. apply existsb_exists. apply Exists_exists in Hd as (r & Hr & Ha).
    exists r. split; [by apply list_elem_of_In|]. by apply bool_decide_eq_true.
  - rewrite (proj2 (Z.ltb_ge _ _)) by lia. by wgo.
Qed.

(** [myaccept]'s part: the oldest completed connection, or a wait. *)
Lemma wlp_dequeue_connection k rest sd s addr alen (Q : Z -> stack -> Prop) :
  completed_queue q = slot q k :: rest -> connection_queue q !! k = Some (mk_request addr alen sd) -> has_sock st sd s ->
  (forall tbl, hash_repr MAX_NUM_CONNECTIONS tbl (<[lsd := queue_accepted q k rest]> m) ->
     Q sd (set_listen_table tbl st)) ->
  wlp F (_mysock_dequeue_connection ls) Q st.
Proof.
  intros Hc Hk Hs HQ. destruct lsd_range as [Hsd H0].
  pose proof (queue_accepted_ok q k _ rest Hok Hc Hk) as [_ Hpos].
  unfold _mysock_dequeue_connection. rewrite Hlis, Hbound. cbn [andb]. wgo.
  apply (wlp_get_queue F ls m); [done|done|done|lia|]. rewrite Hsd, Hq. wgo. rewrite Hc.
  unfold load_request. cbn [slot fst snd]. rewrite decide_True, Hk by done. wgo. cbn [rq_sd].
  apply (wlp_the_context_lookup F sd s); [done|]. wgo. rewrite (proj2 (Z.ltb_lt _ _)) by lia. wgo.
  apply (wlp_store_queue F lsd _ m); [done|done|]. intros tbl Hr. wgo. destruct Hs as [_ [-> _]]. by apply HQ.
Qed.

(** A connection of this listener is established: it joins the end of the
    completed ones. *)
Lemma wlp_passive_complete sd s r k (Q : unit -> stack -> Prop) :
  my_sd s = sd -> listen_sd s = lsd ->
  find_request (fun r => rq_sd r =? sd) (connection_queue q) 0 = Some k ->
  connection_queue q !! k = Some r ->
  (forall tbl, hash_repr MAX_NUM_CONNECTIONS tbl (<[lsd := set_completed_queue (completed_queue q ++ [slot q k]) q]> m) ->
     Q tt (set_listen_table tbl st)) ->
  wlp F (_mysock_passive_connection_complete s) Q st.
Proof.
  intros Hs Hl Hf Hk HQ. destruct lsd_range as [Hsd H0].
  unfold _mysock_passive_connection_complete. rewrite Hl, (proj2 (Z.leb_le _ _)) by lia. wgo.
  apply (wlp_the_context_lookup F lsd ls); [done|]. wgo.
  apply (wlp_get_queue F ls m); [done|done|done|lia|]. rewrite Hsd, Hq. wgo.
  rewrite Hs, requests_all, Hf by done. apply (wlp_store_queue F lsd _ m); done.
Qed.
End operations.
