(* ===== verification/StcpApi.v ===== *)
(** stcp_api.c and network.c: what the transport layer calls. Segments are
    built, sealed with a checksum and sent, possibly unreliably; received ones are
    checked; the application's data waits in the mysocket's queues. *)

From S2P Require Import Prelude.
From S2P Require Import Bytes.
From S2P Require Import MysockState.
From S2P Require Import PacketQueue.
From S2P Require Import NetworkIoTcp.
From S2P Require Import TcpSum.
From S2P Require Import Mysock.
From S2P Require Import ConnectionDemux.

Section stcp.
Context {K : Kernel}.

(* ------------------------------------------------------------------ *)
(** * network.c *)

(** [_network_send(sd, buf, len)] on the mysocket's network context. *)
Definition _network_send (buf : bytes) : M network_context_t Z :=
  ctx ← get;
  if negb (is_reliable ctx) then
    let '(r, seed) := rand_r (random_seed ctx) in
    _ ← modify (set_random_seed seed);
    let c := Z.land r 0x1f in
    if c =? 0 then mret (blen buf)
    else if c =? 1 then
      _ ← _network_send_packet buf;
      _network_send_packet buf
    else if c =? 2 then
      ctx ← get;
      _ ← massert (blen buf <=? MAX_IP_PAYLOAD_LEN);
      cb ← wrn (copy_buffer ctx) 0 buf;
      _ ← modify (set_copy cb (length buf));
      mret (blen buf)
    else if c =? 3 then
      _ ← (if copied ctx
           then p ← rdn (copy_buffer ctx) 0 (copy_buf_len ctx); _network_send_packet p
           else _network_send_packet buf);
      mret (blen buf)
    else _network_send_packet buf
  else _network_send_packet buf.

(** [_network_recv(sd, dst, max_len)]: the result and [dst] afterwards. *)
Definition _network_recv (sd : Z) (dst : bytes) (max_len : nat) : M stack (nat * bytes) :=
  _ ← the_context sd;
  '(len, data) ← at_sock sd (dequeue_network_recv max_len);
  dst ← wrn dst 0 data;
  mret (len, dst).

(* ------------------------------------------------------------------ *)
(** * stcp_api.c *)

(** [stcp_unblock_application(sd)], with the thread's [errno]. *)
Definition stcp_unblock_application (sd errno : Z) : M stack unit :=
  ctx ← the_context sd;
  _ ← massert (blocking ctx);
  _ ← at_sock sd (modify (set_blocking false));
  _ ← at_sock sd (modify (set_stcp_errno (if errno =? EINTR then 0 else errno)));
  if negb (is_active ctx) then _mysock_passive_connection_complete ctx else mret tt.

(** The test in the loop of [stcp_wait_for_event]: the events of a mysocket. *)
Definition ready_events (flags : events) (s : mysock_context) : events :=
  mk_events (ev_app_data flags && match app_recv_queue s with [] => false | _ => true end)
    (ev_network_data flags && match network_recv_queue s with [] => false | _ => true end)
    (close_requested s && match app_recv_queue s with [] => true | _ => false end).

(** [stcp_wait_for_event(sd, flags, abstime)]; without events it waits, and with
    a deadline ([abstime]) returns empty-handed when that has passed. *)
Definition stcp_wait_for_event (sd : Z) (flags : events) (abstime : bool) : M stack events :=
  _ ← the_context sd;
  at_sock sd (
    s ← get;
    let ev := ready_events flags s in
    _ ← (if ev_close ev then modify (set_close_requested false) else mret tt);
    if ev_app_data ev || ev_network_data ev || ev_close ev then mret ev
    else if (abstime : bool) then mret ev
    else fail Blocked).

(** ANY_EVENT *)
Definition ANY_EVENT : events := mk_events true true true.

(** [stcp_network_recv(sd, dst, max_len)]: the result and [dst] afterwards. *)
Definition stcp_network_recv (sd : Z) (dst : bytes) (max_len : nat) : M stack (Z * bytes) :=
  '(len, dst) ← _network_recv sd dst max_len;
  ctx ← the_context sd;
  ok ← (if (len <=? 0)%nat then mret true else _mysock_verify_checksum (network_state ctx) dst len);
  _ ← massert ok;
  mret (Z.of_nat len, dst).

(** The loop over the variadic (buffer, length) pairs. *)
Fixpoint gather {S} (packet : bytes) (bufs : list bytes) : M S bytes :=
  match bufs with
  | [] => mret packet
  | b :: bufs' =>
      _ ← massert (blen packet + blen b <=? MAX_IP_PAYLOAD_LEN);
      gather (packet ++ b) bufs'
  end.

(** [stcp_network_send(sd, src, src_len, ..., NULL)]. [packet] is the filled part
    of the local buffer. *)
Definition stcp_network_send (sd : Z) (src : bytes) (bufs : list bytes) : M stack Z :=
  ctx ← the_context sd;
  _ ← massert (blen src <=? MAX_IP_PAYLOAD_LEN);
  packet ← gather src bufs;
  _ ← massert (Nat.leb Tcp.size (length packet));
  let net := network_state ctx in
  packet ← wr16 packet Tcp.sport (net_port net);
  _ ← massert (sa_family (peer_addr net) =? AF_INET);
  packet ← wr16 packet Tcp.dport (sin_port (peer_addr net));
  dport ← rd16 packet Tcp.dport;
  _ ← massert (0 <? dport);
  packet ← wr16 packet Tcp.sum 0;
  packet ← wr16 packet Tcp.urp 0;
  packet ← _mysock_set_checksum net packet (length packet);
  at_sock sd (in_net (_network_send packet)).

(** [stcp_app_recv(sd, dst, max_len)]: the result and [dst] afterwards, stored
    from offset [o] of the buffer [b] on. *)
Definition stcp_app_recv (sd : Z) (b : bytes) (o max_len : nat) : M stack (nat * bytes) :=
  _ ← the_context sd;
  '(len, data) ← at_sock sd (dequeue_app_recv max_len);
  b ← wrn b o data;
  mret (len, b).

(** [stcp_app_send(sd, src, src_len)] *)
Definition stcp_app_send (sd : Z) (src : bytes) : M stack unit :=
  _ ← the_context sd;
  if (0 <? length src)%nat then at_sock sd (enqueue_app_send src) else mret tt.

(** [stcp_fin_received(sd)] *)
Definition stcp_fin_received (sd : Z) : M stack unit :=
  _ ← the_context sd;
  at_sock sd (enqueue_app_send []).
End stcp.
