(* ===== verification/Transport.v ===== *)
(** transport.c: the STCP layer. [transport_init] blocks in every receive and
    wait; the model runs it from one wait to the next: [transport_start] up to the
    handshake loop, [handshake] one round of that loop, [establish_connection]
    from the loop's end into [control_loop], [control_iteration] one round of the
    control loop. [transport_thread_func] strings them together. *)

From S2P Require Import Prelude.
From S2P Require Import Bytes.
From S2P Require Import MysockState.
From S2P Require Import Mysock.
From S2P Require Import StcpApi.

Definition RECV_WINDOW_SIZE : Z := 3072.
Definition MSS : Z := 536.

(** [calloc(1, sizeof(struct tcphdr))] *)
Definition empty_header : bytes := zeros Tcp.size.

(** [calloc(1, sizeof(context_t))] with the initial sequence number. *)
Definition generate_initial_seq_num (c : context_t) : context_t :=
  mk_ctx (done c) (connection_state c) 1 (SWND c) (SWND_prev c) (CWND c) (RECV_WIN c) (SendBase c) (RecvBase c)
    (next_seqnum c) (rem c) (buffer c) (buffer_size c) (new_buffer_size c) (ACK_size c) (is_client c) (log c).
Definition new_context : context_t :=
  generate_initial_seq_num (mk_ctx false CSTATE_CLOSED 0 0 0 0 0 0 0 0 0 [] 0 0 0 false []).

(** A header with the fields the sending code sets. *)
Definition make_header {S} (seq : Z) (off : option Z) (flags win : Z) (payload : bytes) : M S bytes :=
  h ← wr32 (empty_header ++ payload) Tcp.seq seq;
  h ← wr16 h Tcp.win win;
  h ← match off with Some v => wr_th_off h v | None => mret h end;
  wr8 h Tcp.flags flags.

(** A size_t used as an offset or a length: no object of the program is larger
    than [2^32] bytes. *)
Definition offset {S} (z : Z) : M S nat := if z <? 2 ^ 32 then mret (Z.to_nat z) else fail OutOfBounds.

(** [rem = SWND - (next_seqnum - SendBase)] in size_t. *)
Definition recompute_rem (c : context_t) : context_t :=
  set_rem (u64 (SWND c - (next_seqnum c - SendBase c))) c.
Definition advance_next (n : Z) (c : context_t) : context_t :=
  recompute_rem (set_next_seqnum (u64 (next_seqnum c + n)) c).
Definition add_log (l : log_line) (c : context_t) : context_t := set_log (log c ++ [l]) c.

Section transport.
Context {K : Kernel}.
Context (sd : Z).

(* ------------------------------------------------------------------ *)
(** * Handshake *)

(** [transport_init], up to the handshake loop. *)
Definition transport_start (active : bool) : M stack context_t :=
  let ctx := new_context in
  if active then
    header ← make_header (initial_sequence_num ctx) (Some 5) TH_SYN RECV_WINDOW_SIZE [];
    _ ← stcp_network_send sd header [];
    mret (set_connection_state CSTATE_SYN_SENT ctx)
  else mret (set_connection_state CSTATE_LISTEN ctx).

(** One round of [while (connection_state != CSTATE_ESTABLISHED)]. *)
Definition handshake (ctx : context_t) : M stack context_t :=
  match connection_state ctx with
  | CSTATE_SYN_SENT =>
      '(_, p) ← stcp_network_recv sd empty_header Tcp.size;
      temp ← rd32 p Tcp.ack;
      seq ← rd32 p Tcp.seq;
      p ← wr32 p Tcp.ack (seq + 1);
      p ← wr32 p Tcp.seq temp;
      _ ← stcp_network_send sd p [];
      mret (set_connection_state CSTATE_ESTABLISHED ctx)
  | CSTATE_LISTEN =>
      '(_, p) ← stcp_network_recv sd empty_header Tcp.size;
      seq ← rd32 p Tcp.seq;
      p ← wr32 p Tcp.ack (seq + 1);
      p ← wr32 p Tcp.seq (initial_sequence_num ctx);
      _ ← stcp_network_send sd p [];
      mret (set_connection_state CSTATE_SYN_RCVD ctx)
  | CSTATE_SYN_RCVD =>
      '(_, _) ← stcp_network_recv sd empty_header Tcp.size;
      mret (set_connection_state CSTATE_ESTABLISHED ctx)
  | _ => fail OutOfFuel (* no case: the loop would spin *)
  end.

(** From the end of the handshake into [control_loop]: the windows, the logs, the
    waiting application and the send buffer. *)
Definition establish_connection (active : bool) (errno : Z) (ctx : context_t) : M stack context_t :=
  let isn := initial_sequence_num ctx in
  let ctx := recompute_rem
    (mk_ctx (done ctx) (connection_state ctx) isn MSS MSS MSS 3072 isn isn isn (rem ctx)
       (buffer ctx) MSS (new_buffer_size ctx) (ACK_size ctx) active []) in
  _ ← stcp_unblock_application sd errno;
  mret (set_buffer (zeros (Z.to_nat MSS)) ctx).

(* ------------------------------------------------------------------ *)
(** * The control loop *)

(** The branch [event & APP_DATA]. *)
Definition handle_app_data (ctx : context_t) : M stack context_t :=
  if rem ctx =? 0 then mret ctx
  else
    let max_size := Z.min (rem ctx) MSS in
    o ← offset (u64 (next_seqnum ctx - SendBase ctx));
    '(data_size, buf) ← stcp_app_recv sd (buffer ctx) o (Z.to_nat max_size);
    let ctx := set_buffer buf ctx in
    data ← rdn (buffer ctx) o data_size;
    packet ← make_header (next_seqnum ctx) (Some 5) 0 RECV_WINDOW_SIZE data;
    _ ← stcp_network_send sd packet [];
    let ctx := add_log (LogSend (SWND ctx) (rem ctx) (Z.of_nat data_size)) ctx in
    mret (advance_next (Z.of_nat data_size) ctx).

(** [header->th_flags == TH_ACK]: the window moves. *)
Definition handle_ack (th_ack : Z) (ctx : context_t) : M stack context_t :=
  let acked := u64 (th_ack - SendBase ctx) in
  let log' := log ctx ++ [LogRecv (SWND ctx) (rem ctx) acked] in
  let cwnd := if CWND ctx <? 4 * MSS then u64 (CWND ctx + MSS) else u64 (CWND ctx + MSS * MSS / CWND ctx) in
  let swnd_prev := SWND ctx in
  let swnd := Z.min cwnd (RECV_WIN ctx) in
  let rem' := u64 (swnd - (next_seqnum ctx - th_ack)) in
  let size' := u64 (buffer_size ctx + swnd - swnd_prev + acked) in
  o ← offset acked;
  n ← offset (u64 (swnd_prev - acked));
  kept ← rdn (buffer ctx) o n;
  new_buffer ← wrn (zeros (Z.to_nat swnd)) 0 kept;
  mret (mk_ctx (done ctx) (connection_state ctx) (initial_sequence_num ctx) swnd swnd_prev cwnd (RECV_WIN ctx)
          th_ack (RecvBase ctx) (next_seqnum ctx) rem' new_buffer (buffer_size ctx) size' acked (is_client ctx) log').

(** An acknowledgement of [ack] from [seq], as the receiving branches send it. *)
Definition send_ack (ack seq : Z) : M stack unit :=
  h ← wr8 empty_header Tcp.flags TH_ACK;
  h ← wr32 h Tcp.ack ack;
  h ← wr32 h Tcp.seq seq;
  _ ← stcp_network_send sd h [];
  mret tt.

(** [header->th_flags == TH_FIN]. *)
Definition handle_fin (th_seq : Z) (ctx : context_t) : M stack context_t :=
  let ctx := set_RecvBase (u64 (RecvBase ctx + 1)) ctx in
  _ ← send_ack (u32 (th_seq + 1)) (RecvBase ctx);
  let ctx := if is_client ctx then set_done true (set_connection_state CSTATE_CLOSED ctx)
             else set_connection_state CSTATE_CLOSE_WAIT ctx in
  _ ← stcp_fin_received sd;
  mret ctx.

(** Any other segment: data. *)
Definition handle_data (th_seq : Z) (data : bytes) (ctx : context_t) : M stack context_t :=
  let ctx := set_RecvBase (u64 (RecvBase ctx + blen data)) ctx in
  _ ← send_ack (u32 (th_seq + blen data)) (RecvBase ctx);
  _ ← stcp_app_send sd data;
  mret ctx.

(** The branch [event & NETWORK_DATA] outside FIN_WAIT_1 and LAST_ACK. *)
Definition handle_network_data (ctx : context_t) : M stack context_t :=
  '(len, packet) ← stcp_network_recv sd (zeros (Tcp.size + Z.to_nat MSS)) (Tcp.size + Z.to_nat MSS);
  let data_size := len - Z.of_nat Tcp.size in
  _ ← massert (0 <=? data_size);
  flags ← rd8 packet Tcp.flags;
  ack ← rd32 packet Tcp.ack;
  seq ← rd32 packet Tcp.seq;
  if flags =? TH_ACK then handle_ack ack ctx
  else if flags =? TH_FIN then handle_fin seq ctx
  else
    data ← rdn packet Tcp.size (Z.to_nat data_size);
    handle_data seq data ctx.

(** A FIN, and the state after it. *)
Definition send_fin (next : CSTATE) (ctx : context_t) : M stack context_t :=
  header ← make_header (next_seqnum ctx) None TH_FIN RECV_WINDOW_SIZE [];
  _ ← stcp_network_send sd header [];
  mret (set_connection_state next (advance_next 1 ctx)).

(** The block at [close:]. *)
Definition handle_close (ctx : context_t) : M stack context_t :=
  if negb (is_client ctx) then
    match connection_state ctx with
    | CSTATE_CLOSE_WAIT => send_fin CSTATE_LAST_ACK ctx
    | CSTATE_LAST_ACK =>
        '(_, p) ← stcp_network_recv sd empty_header Tcp.size;
        flags ← rd8 p Tcp.flags;
        if flags =? TH_ACK then mret (set_done true (set_connection_state CSTATE_CLOSED ctx)) else mret ctx
    | _ => mret ctx
    end
  else
    match connection_state ctx with
    | CSTATE_ESTABLISHED => send_fin CSTATE_FIN_WAIT_1 ctx
    | CSTATE_FIN_WAIT_1 =>
        '(_, p) ← stcp_network_recv sd empty_header Tcp.size;
        flags ← rd8 p Tcp.flags;
        if flags =? TH_ACK then mret (set_connection_state CSTATE_FIN_WAIT_2 ctx) else mret ctx
    | _ => mret ctx
    end.

(** One round of [while (!ctx->done)] in [control_loop]. *)
Definition control_iteration (ctx : context_t) : M stack context_t :=
  event ← stcp_wait_for_event sd ANY_EVENT false;
  ctx ← (if ev_app_data event then handle_app_data ctx else mret ctx);
  if ev_network_data event
     && (bool_decide (connection_state ctx = CSTATE_FIN_WAIT_1)
         || bool_decide (connection_state ctx = CSTATE_LAST_ACK))
  then handle_close ctx
  else
    ctx ← (if ev_network_data event then handle_network_data ctx else mret ctx);
    if ev_close event then handle_close ctx else mret ctx.

(* ------------------------------------------------------------------ *)
(** * The thread *)

(** [transport_thread_func] after [transport_init] returned. *)
Definition thread_exit (errno : Z) : M stack unit :=
  s ← at_sock sd get;
  _ ← (if blocking s then
         stcp_unblock_application sd
           (if (errno =? 0) || (errno =? EINTR) then (if is_active s then ECONNREFUSED else ECONNABORTED) else errno)
       else mret tt);
  at_sock sd (enqueue_app_send []).

(** In the handshake loop still. *)
Definition in_handshake (ctx : context_t) : bool :=
  match connection_state ctx with CSTATE_SYN_SENT | CSTATE_LISTEN | CSTATE_SYN_RCVD => true | _ => false end.

(** The transport thread from one wait to the next, its [errno] given. *)
Definition transport_thread_func (errno : Z) : M stack unit :=
  s ← the_context sd;
  st ← get;
  let set_thread t := modify (fun st => set_transports (<[sd := t]> (transports st)) st) in
  match transports st !! sd with
  | None => fail UseAfterFree
  | Some Starting =>
      ctx ← transport_start (is_active s);
      set_thread (Running ctx)
  | Some (Running ctx) =>
      if in_handshake ctx then
        ctx ← handshake ctx;
        ctx ← (if bool_decide (connection_state ctx = CSTATE_ESTABLISHED)
               then establish_connection (is_active s) errno ctx else mret ctx);
        set_thread (Running ctx)
      else
        ctx ← control_iteration ctx;
        if done ctx then
          _ ← thread_exit errno;
          set_thread Finished
        else set_thread (Running ctx)
  | Some Finished => fail Blocked
  end.
End transport.
