(* ===== verification/MysockApi.v ===== *)
(** mysock_api.c, what the application calls, and the network receive thread of
    network_io_socket.c. A failed MYSOCK_CHECK returns -1 with errno, an [inr]. *)

From S2P Require Import Prelude.
From S2P Require Import Bytes.
From S2P Require Import MysockState.
From S2P Require Import PacketQueue.
From S2P Require Import NetworkIoTcp.
From S2P Require Import Mysock.
From S2P Require Import ConnectionDemux.
From S2P Require Import StcpApi.

Section api.
Context {K : Kernel}.

(** [mysocket(is_reliable)] *)
Definition mysocket (reliable : bool) : M stack ret_t := _mysock_new_mysocket reliable.

(** [mybind(sd, addr, addrlen)] *)
Definition mybind (sd : Z) (addr : sockaddr) : M stack ret_t :=
  c ← _mysock_get_context sd;
  match c with
  | None => mret (inr EBADF)
  | Some ctx =>
      if negb (sa_family addr =? AF_INET) then mret (inr EADDRNOTAVAIL)
      else
        _ ← massert (negb (listening ctx));
        _ ← at_sock sd (modify (set_bound true));
        _ ← at_sock sd (in_net (modify (set_local_addr addr)));
        rc ← at_sock sd (in_net (_network_bind addr));
        mret (inl rc)
  end.

(** [myconnect(sd, name, namelen)], up to the wait for the handshake. *)
Definition myconnect_start (sd : Z) (name : sockaddr) (namelen : Z) : M stack ret_t :=
  c ← _mysock_get_context sd;
  match c with
  | None => mret (inr EINVAL)
  | Some ctx =>
      if negb (peer_addr_len (network_state ctx) =? 0) then mret (inr EISCONN)
      else
        _ ← at_sock sd (in_net (modify (set_peer name namelen true)));
        rc ← (if negb (bound ctx) then at_sock sd _mysock_bind_ephemeral else mret 0);
        if rc <? 0 then mret (inl rc)
        else
          _ ← _mysock_transport_init sd true;
          mret (inl 0)
  end.

(** [myaccept(sd, &addr, &addrlen)]: the new descriptor and the peer's address. *)
Definition myaccept (sd : Z) : M stack (ret_t * option (sockaddr * Z)) :=
  c ← _mysock_get_context sd;
  match c with
  | None => mret (inr EBADF, None)
  | Some accept_ctx =>
      if negb (listening accept_ctx) then mret (inr EINVAL, None)
      else
        new_sd ← _mysock_dequeue_connection accept_ctx;
        ctx ← at_sock new_sd get;
        let net := network_state ctx in
        _ ← (if stcp_errno ctx =? 0 then massert (0 <? peer_addr_len net) else mret tt);
        _ ← massert (listen_sd ctx =? sd);
        mret (if stcp_errno ctx =? 0 then (inl (my_sd ctx), Some (peer_addr net, peer_addr_len net))
              else (inr (stcp_errno ctx), None))
  end.

(** [mylisten(sd, backlog)] *)
Definition mylisten (sd backlog : Z) : M stack ret_t :=
  ctx ← the_context sd;
  _ ← massert (bound ctx);
  _ ← at_sock sd (modify (set_listening true));
  ctx ← at_sock sd get;
  _ ← _mysock_set_backlog ctx backlog;
  _ ← _network_start_recv_thread sd;
  mret (inl 0).

(** [myclose(sd)]; closing a listening mysocket closes those that wait on it,
    which are not listening themselves. *)
Fixpoint myclose (fuel : nat) (sd : Z) : M stack ret_t :=
  match fuel with
  | O => fail OutOfFuel
  | Datatypes.S fuel' =>
      c ← _mysock_get_context sd;
      match c with
      | None => mret (inr EBADF)
      | Some ctx =>
          _ ← at_sock sd (modify (set_close_requested true));
          st ← get;
          _ ← (if transport_thread_started ctx then
                 _ ← massert (negb (listening ctx));
                 _ ← massert (is_active ctx || negb (listen_sd ctx =? -1));
                 match transports st !! sd with
                 | Some Finished => at_sock sd (modify (set_transport_thread_started false))
                 | _ => fail Blocked
                 end
               else mret tt);
          _ ← at_sock sd (in_net (modify (set_recv_thread_started false)));
          _ ← (if listening ctx then _mysock_close_passive_socket (myclose fuel') ctx else mret tt);
          _ ← _mysock_free_context sd;
          mret (inl 0)
      end
  end.

(** The part of [myclose] another thread sees at once. *)
Definition myclose_request (sd : Z) : M stack unit :=
  _ ← the_context sd;
  at_sock sd (modify (set_close_requested true)).

(** [mywrite(sd, buf, buf_len)] *)
Definition mywrite (sd : Z) (buf : bytes) : M stack ret_t :=
  c ← _mysock_get_context sd;
  match c with
  | None => mret (inr EBADF)
  | Some ctx =>
      if listening ctx then mret (inr EINVAL)
      else
        _ ← massert (negb (close_requested ctx));
        _ ← at_sock sd (enqueue_app_recv buf);
        mret (inl (blen buf))
  end.

(** [myread(sd, buf, buf_len)]: the result and the bytes stored in [buf]. *)
Definition myread (sd : Z) (buf_len : nat) : M stack (ret_t * bytes) :=
  c ← _mysock_get_context sd;
  match c with
  | None => mret (inr EBADF, [])
  | Some ctx =>
      if listening ctx then mret (inr EINVAL, [])
      else
        _ ← massert (negb (close_requested ctx));
        if eof ctx then mret (inl 0, [])
        else
          '(len, data) ← at_sock sd (dequeue_app_send buf_len);
          _ ← (if (len =? 0)%nat then at_sock sd (modify (set_eof true)) else mret tt);
          mret (inl (Z.of_nat len), data)
  end.

(** [mygetsockname(sd, addr, addrlen)] *)
Definition mygetsockname (sd : Z) : M stack (ret_t * sockaddr) :=
  c ← _mysock_get_context sd;
  match c with
  | None => mret (inr EBADF, sockaddr0)
  | Some ctx =>
      let net := network_state ctx in
      let addr := local_addr net in
      _ ← massert ((sa_family addr =? 0) || (sa_family addr =? AF_INET));
      mret (inl 0, mk_sockaddr AF_INET (net_port net) (if peer_addr_valid net then net_interface_ip net else s_addr addr))
  end.

(** [mygetpeername(sd, name, namelen)] with room for a whole address. *)
Definition mygetpeername (sd : Z) : M stack (ret_t * (sockaddr * Z)) :=
  ctx ← the_context sd;
  let net := network_state ctx in
  let name := if 0 <? peer_addr_len net then peer_addr net else sockaddr0 in
  mret (if 0 <? peer_addr_len net then inl 0 else inr ENOTCONN, (name, peer_addr_len net)).

(* ------------------------------------------------------------------ *)
(** * The receive thread *)

(** One round of [network_recv_thread_func], its socket readable: whether the
    thread goes on. *)
Definition network_recv_thread_round (sd : Z) : M stack bool :=
  ctx ← at_sock sd get;
  '(bytes_read, packet_buf) ←
    at_sock sd (in_net (_network_recv_packet (is_active ctx) (listening ctx) (Z.to_nat MAX_IP_PAYLOAD_LEN)));
  if bytes_read <=? 0 then mret false
  else
    _ ← massert (bytes_read <=? MAX_IP_PAYLOAD_LEN);
    ctx ← at_sock sd get;
    _ ← (if listening ctx then
           _ ← _mysock_enqueue_connection ctx packet_buf (peer_addr (network_state ctx)) (peer_addr_len (network_state ctx));
           mret tt
         else at_sock sd (enqueue_network_recv packet_buf));
    mret true.
End api.
