(* ===== verification/NetworkIoSocket.v ===== *)
(** network_io_socket.c: the loop of the receive thread around the rounds of
    MysockApi.v, with what [poll] answers as its input, and the address of the
    host's interface. *)

From S2P Require Import Prelude.
From S2P Require Import Bytes.
From S2P Require Import MysockState.
From S2P Require Import MysockApi.
From Stdlib Require Import (notations) String.

(* ------------------------------------------------------------------ *)
(** * The receive thread *)

Definition POLLERR : Z := 8.

(** What [poll] returns: -1 with [errno], 0, or the [revents] of the exit pipe
    and of the socket. *)
Inductive poll_answer :=
  | PollFailed (errno : Z)
  | PollTimeout
  | PollEvents (exit_pipe socket : Z).

(** The loop around [poll] in [network_recv_thread_func]: whether the thread is to
    end, and the answers that are left. *)
Fixpoint poll_loop {S} (answers : list poll_answer) : M S (bool * list poll_answer) :=
  match answers with
  | [] => fail Blocked
  | PollFailed errno :: rest => _ ← massert (errno =? EINTR); poll_loop rest
  | PollTimeout :: _ => fail AssertFailed
  | PollEvents exit_pipe socket :: rest =>
      _ ← massert (negb (nz (Z.land exit_pipe POLLERR)));
      _ ← massert (negb (nz (Z.land socket POLLERR)));
      if nz socket || nz exit_pipe then mret (nz exit_pipe, rest) else poll_loop rest
  end.

Section thread.
Context {K : Kernel}.

(** [network_recv_thread_func(ctx)] *)
Fixpoint network_recv_thread_func (fuel : nat) (sd : Z) (answers : list poll_answer) : M stack (list poll_answer) :=
  match fuel with
  | O => fail OutOfFuel
  | Datatypes.S fuel' =>
      '(done, rest) ← poll_loop answers;
      if (done : bool) then mret rest
      else
        more ← network_recv_thread_round sd;
        if (more : bool) then network_recv_thread_func fuel' sd rest else mret rest
  end.

(** So many rounds, as long as they go on. *)
Fixpoint rounds (n : nat) (sd : Z) : M stack bool :=
  match n with
  | O => mret true
  | Datatypes.S n' => more ← network_recv_thread_round sd; if (more : bool) then rounds n' sd else mret false
  end.
End thread.

(* ------------------------------------------------------------------ *)
(** * The interface's address *)

(** What the system says about the host: its name, a socket for queries, the
    interfaces with their names and addresses, and the addresses of a name. *)
Class HostInfo := {
  gethostname : option bytes;
  query_socket : Z;
  SIOCGIFCONF : option (list (bytes * Z));
  gethostbyname_r : bytes -> option (list Z);
}.

Section interface.
Context {H : HostInfo}.

(** The entries of [my_ifreqs], which has room for ten. *)
Definition my_ifreqs : list (bytes * Z) :=
  match SIOCGIFCONF with Some l => take 10 l | None => [] end.

(** The loop over them: the address of the first Ethernet interface. *)
Fixpoint first_eth (ifs : list (bytes * Z)) : option Z :=
  match ifs with
  | [] => None
  | (name, addr) :: ifs' => if strncmp_eq name (str "eth") 3 then Some addr else first_eth ifs'
  end.

(** [_network_get_interface_ip(peer_addr)]; [h_addr_list] ends with a null
    pointer. *)
Definition _network_get_interface_ip : res Z :=
  match gethostname with
  | None => Err AssertFailed
  | Some hostname =>
      let found := if strncmp_eq hostname (str "localhost") 9 && (0 <? query_socket) then first_eth my_ifreqs else None in
      match found with
      | Some addr => Ok addr
      | None =>
          match gethostbyname_r hostname with
          | None => Err AssertFailed
          | Some [] => Err NullDeref
          | Some (addr :: _) => Ok addr
          end
      end
  end.
End interface.

(* ------------------------------------------------------------------ *)
(** * What the loop does *)

(** Answers that say nothing: interruptions, and events on neither. *)
Definition idle (a : poll_answer) : Prop := a = PollFailed EINTR \/ a = PollEvents 0 0.

Lemma poll_idle {S} l rest (s : S) : Forall idle l -> poll_loop (l ++ rest) s = poll_loop rest s.
Proof. induction 1 as [|a l [->| ->] _ IH]; [done|..]; exact IH. Qed.

Lemma poll_events {S} l r0 r1 rest (s : S) :
  Forall idle l -> Z.land r0 POLLERR = 0 -> Z.land r1 POLLERR = 0 -> r0 <> 0 \/ r1 <> 0 ->
  poll_loop (l ++ PollEvents r0 r1 :: rest) s = Ok ((nz r0, rest), s).
Proof.
  intros Hl H0 H1 Hr. rewrite poll_idle by done. cbn [poll_loop]. rewrite H0, H1. cbn.
  assert (nz r1 || nz r0 = true) as ->; [|done].
  unfold nz. destruct (Z.eqb_spec r0 0), (Z.eqb_spec r1 0); try done. lia.
Qed.

(** Answers up to and including one that says there is something to read. *)
Definition input (l : list poll_answer) : Prop :=
  exists w r, l = w ++ [PollEvents 0 r] /\ Forall idle w /\ Z.land r POLLERR = 0 /\ r <> 0.

Section thread_facts.
Context {K : Kernel}.

(** While there is input the thread runs one round for each; the exit pipe ends
    it at once, whatever is there to be read. *)
Lemma recv_thread_func_eq sd ins w r0 r1 rest fuel st :
  Forall input ins -> Forall idle w -> Z.land r0 POLLERR = 0 -> Z.land r1 POLLERR = 0 -> r0 <> 0 ->
  (length ins < fuel)%nat ->
  match rounds (length ins) sd st with
  | Ok (true, st') => network_recv_thread_func fuel sd (mjoin ins ++ w ++ PollEvents r0 r1 :: rest) st = Ok (rest, st')
  | Ok (false, st') => exists left, network_recv_thread_func fuel sd (mjoin ins ++ w ++ PollEvents r0 r1 :: rest) st = Ok (left, st')
  | Err f => network_recv_thread_func fuel sd (mjoin ins ++ w ++ PollEvents r0 r1 :: rest) st = Err f
  end.
Proof.
  intros Hins Hw H0 H1 Hr. revert fuel st. induction Hins as [|i ins (wi & ri & -> & Hwi & Hri & Hi) _ IH]; intros fuel st Hf;
    (destruct fuel as [|fuel]; [cbn in Hf; lia|]); cbn [length rounds network_recv_thread_func].
  - cbn [mjoin list_join app]. unfold mbind at 1, M_bind. rewrite poll_events by auto.
    cbn [mret M_ret]. rewrite (proj2 (negb_true_iff _) (proj2 (Z.eqb_neq r0 0) Hr) : nz r0 = true). done.
  - cbn [mjoin list_join]. rewrite <- !app_assoc. cbn [app].
    rewrite !(bind_ok _ _ _ _ _ (poll_events wi 0 ri _ st Hwi eq_refl Hri (or_intror Hi))). cbn [nz Z.eqb negb].
    destruct (network_recv_thread_round sd st) as [[more st']|f] eqn:He.
    + rewrite !(bind_ok _ _ _ _ _ He). destruct more.
      * apply IH. cbn in Hf. lia.
      * by eexists.
    + by rewrite !(bind_err _ _ _ _ He).
Qed.
End thread_facts.

(** The address is one of an Ethernet interface of the host, or the first one its
    name resolves to. *)
Lemma interface_ip_ok {H : HostInfo} a :
  _network_get_interface_ip = Ok a ->
  exists hostname, gethostname = Some hostname /\
    ((exists name, (name, a) ∈ my_ifreqs /\ strncmp_eq name (str "eth") 3 = true)
     \/ exists l, gethostbyname_r hostname = Some (a :: l)).
Proof.
  assert (He : forall ifs x, first_eth ifs = Some x -> exists name, (name, x) ∈ ifs /\ strncmp_eq name (str "eth") 3 = true).
  { induction ifs as [|[name addr] ifs IH]; intros x; cbn [first_eth]; [done|]. destruct (strncmp_eq _ _ _) eqn:E.
    - intros [= ->]. exists name. split; [by left|done].
    - intros (n & ? & ?)%IH. exists n. split; [by right|done]. }
  unfold _network_get_interface_ip. destruct gethostname as [hostname|]; [|done]. intros Ha. exists hostname. split; [done|].
  destruct (_ && _); [destruct (first_eth my_ifreqs) as [x|] eqn:Hx|].
  - injection Ha as <-. left. by apply He.
  - right. destruct (gethostbyname_r hostname) as [[|y l]|]; simplify_eq. by exists l.
  - right. destruct (gethostbyname_r hostname) as [[|y l]|]; simplify_eq. by exists l.
Qed.
