(* ===== verification/App.v ===== *)
(** Programs over the mysocket API: a program is a tree of the calls it makes,
    each with a continuation that takes what the call returns. *)

From S2P Require Import Prelude.
From S2P Require Import Bytes.
From S2P Require Import MysockState.
From S2P Require Import Mysock.

(* ------------------------------------------------------------------ *)
(** * Programs *)

Inductive prog (A : Type) :=
  | Done (a : A)
  | Crash (f : fault)
  | Mysocket (reliable : bool) (k : Z -> prog A)
  | Mybind (sd : Z) (addr : sockaddr) (k : Z -> prog A)
  | Mylisten (sd backlog : Z) (k : Z -> prog A)
  | Myaccept (sd : Z) (k : Z -> sockaddr -> prog A)
  | Myconnect (sd : Z) (addr : sockaddr) (k : Z -> prog A)
  | Mygetsockname (sd : Z) (k : Z -> sockaddr -> prog A)
  | Mywrite (sd : Z) (buf : bytes) (k : Z -> prog A)
  | Myread (sd : Z) (n : nat) (k : Z -> bytes -> prog A)
  | Myclose (sd : Z) (k : Z -> prog A).
Arguments Done {A} a.
Arguments Crash {A} f.
Arguments Mysocket {A} reliable k.
Arguments Mybind {A} sd addr k.
Arguments Mylisten {A} sd backlog k.
Arguments Myaccept {A} sd k.
Arguments Myconnect {A} sd addr k.
Arguments Mygetsockname {A} sd k.
Arguments Mywrite {A} sd buf k.
Arguments Myread {A} sd n k.
Arguments Myclose {A} sd k.

Fixpoint prog_bind {A B} (f : A -> prog B) (p : prog A) : prog B :=
  match p with
  | Done a => f a
  | Crash e => Crash e
  | Mysocket r k => Mysocket r (fun x => prog_bind f (k x))
  | Mybind sd a k => Mybind sd a (fun x => prog_bind f (k x))
  | Mylisten sd n k => Mylisten sd n (fun x => prog_bind f (k x))
  | Myaccept sd k => Myaccept sd (fun x a => prog_bind f (k x a))
  | Myconnect sd a k => Myconnect sd a (fun x => prog_bind f (k x))
  | Mygetsockname sd k => Mygetsockname sd (fun x a => prog_bind f (k x a))
  | Mywrite sd b k => Mywrite sd b (fun x => prog_bind f (k x))
  | Myread sd n k => Myread sd n (fun x d => prog_bind f (k x d))
  | Myclose sd k => Myclose sd (fun x => prog_bind f (k x))
  end.
#[export] Instance prog_ret : MRet prog := @Done.
#[export] Instance prog_mbind : MBind prog := @prog_bind.

(** The [int] a call returns: -1 where it failed and set errno. *)
Definition int_of (r : ret_t) : Z := match r with inl v => v | inr _ => -1 end.

(* ------------------------------------------------------------------ *)
(** * Lines *)

(** [strrchr(s, c)]: what is before and after the last [c]. *)
Fixpoint rsplit (c : Z) (s : bytes) : option (bytes * bytes) :=
  match s with
  | [] => None
  | x :: s' =>
      match rsplit c s' with
      | Some (a, b) => Some (x :: a, b)
      | None => if x =? c then Some ([], s') else None
      end
  end.

(** [get_nvt_line(sd, line)]: the string in the buffer when it returns 0, [None]
    when it returns -1. [room] bytes are free from [line] on, [acc] is what is
    before. *)
Fixpoint nvt_loop (sd : Z) (room : nat) (last_char : Z) (acc : bytes) : prog (option bytes) :=
  Myread sd 1 (fun len data =>
    if len <? 0 then Done None
    else if len =? 0 then (if (room =? 0)%nat then Crash OutOfBounds else Done (Some (cstr acc)))
    else
      let this_char := default 0 (head data) in
      if (last_char =? 13) && (this_char =? 10) then Done (Some (cstr (removelast acc)))
      else
        match room with
        | O => Crash OutOfBounds
        | Datatypes.S room' => nvt_loop sd room' this_char (acc ++ [this_char])
        end).
Definition get_nvt_line (sd : Z) (size : nat) : prog (option bytes) := nvt_loop sd size 0 [].

Lemma rsplit_none c s : Forall (fun x => x <> c) s -> rsplit c s = None.
Proof. induction 1 as [|x s Hx _ IH]; [done|]. cbn [rsplit]. by rewrite IH, (proj2 (Z.eqb_neq _ _)). Qed.
Lemma rsplit_last c s t : Forall (fun x => x <> c) t -> rsplit c (s ++ c :: t) = Some (s, t).
Proof.
  intros Ht. induction s as [|x s IH]; cbn [rsplit app]; [by rewrite rsplit_none, Z.eqb_refl|]. by rewrite IH.
Qed.
