(* ===== verification/FtServer.v ===== *)
(** server.c of assignment 4: the file server, a program over the mysocket API. *)

From S2P Require Import Prelude.
From S2P Require Import Bytes.
From S2P Require Import Stdio.
From S2P Require Import MysockState.
From S2P Require Import Mysock.
From S2P Require Import App.
From Stdlib Require Import (notations) String.

(** The files the server can see: whether [access(name, R_OK)] succeeds, the
    content of the file [open(name, O_RDONLY)] opens, what [read] of at most [n]
    bytes returns with [rest] not yet read. *)
Class FileSystem := {
  fs_access : bytes -> bool;
  fs_open : bytes -> option bytes;
  fs_read : bytes -> nat -> Z;
}.
(** Regular files: [read] returns 0 at the end and only there, and never fails. *)
Class FileSystemOk (F : FileSystem) := {
  fs_read_end : forall n, fs_read [] n = 0;
  fs_read_some : forall rest n, rest <> [] -> (0 < n)%nat -> 0 < fs_read rest n <= Z.of_nat (n `min` length rest);
}.

Section server.
Context {FS : FileSystem}.

(** The arrays [line] of [do_connection] and [resp] of [process_line]. *)
Definition LINE_SIZE : nat := 256.
Definition RESP_SIZE : nat := 5000.

(** The response line, and what of the file is to be sent: [fd == -1] is [None]. *)
Definition response (line : bytes) : bytes * option bytes :=
  if bool_decide (line = []) || negb (fs_access line)
  then (line ++ str ",-1,File does not exist or access denied" ++ crlf, None)
  else
    match fs_open line with
    | None => (line ++ str ",-1,File could not be opened" ++ crlf, None)
    | Some content => (line ++ str "," ++ print_u (blen content) ++ str ",Ok" ++ crlf, Some content)
    end.

(** The loop that copies the file to the mysocket. *)
Fixpoint send_file (sd : Z) (fuel : nat) (rest : bytes) : prog Z :=
  match fuel with
  | O => Crash OutOfFuel
  | Datatypes.S fuel' =>
      let length := fs_read rest RESP_SIZE in
      if length =? 0 then Done 0
      else if length =? -1 then Done (-1)
      else
        Mywrite sd (take (Z.to_nat length) rest) (fun r =>
          if r <? 0 then Done (-1) else send_file sd fuel' (drop (Z.to_nat length) rest))
  end.

(** [process_line(sd, line)] *)
Definition process_line (sd : Z) (line : bytes) : prog Z :=
  let '(resp, fd) := response line in
  if (RESP_SIZE <=? length resp)%nat then Crash OutOfBounds
  else
    Mywrite sd resp (fun r =>
      if r <? 0 then Done (-1)
      else
        match fd with
        | None => Done 0
        | Some content => send_file sd (Datatypes.S (length content)) content
        end).

(** The loop of [do_connection], for less than [fuel] requests. *)
Fixpoint serve_requests (sd : Z) (fuel : nat) : prog unit :=
  match fuel with
  | O => Crash OutOfFuel
  | Datatypes.S fuel' =>
      l ← get_nvt_line sd LINE_SIZE;
      match l with
      | None | Some [] => Done tt
      | Some line => rc ← process_line sd line; if rc <? 0 then Done tt else serve_requests sd fuel'
      end
  end.

(** [do_connection(sd)] *)
Definition do_connection (sd : Z) (fuel : nat) : prog unit :=
  _ ← serve_requests sd fuel;
  Myclose sd (fun _ => Done tt).

(** What [gethostname] stores, if it succeeds. *)
Context (hostname : option bytes).

(** [local_name(sd, name)], [name] being an array of 256 characters. *)
Definition local_name (sd : Z) : prog bytes :=
  Mygetsockname sd (fun r sin =>
    if r <? 0 then Crash AssertFailed
    else
      match hostname with
      | None => Crash AssertFailed
      | Some h =>
          let name := cstr h ++ str ":" ++ print_u (ntohs (sin_port sin)) in
          if (256 <=? length name)%nat then Crash OutOfBounds else Done name
      end).

(** The accepting loop of [main], for less than [conns] connections. *)
Fixpoint accept_loop (bindsd : Z) (conns fuel : nat) : prog Z :=
  match conns with
  | O => Crash OutOfFuel
  | Datatypes.S conns' =>
      Myaccept bindsd (fun sd sin =>
        if sd <? 0 then Done 1
        else if negb (sa_family sin =? AF_INET) then Crash AssertFailed
        else _ ← do_connection sd fuel; accept_loop bindsd conns' fuel)
  end.

(** [main], the options read: the exit status. *)
Definition server_main (reliable : bool) (conns fuel : nat) : prog Z :=
  Mysocket reliable (fun bindsd =>
    if bindsd <? 0 then Done 1
    else
      Mybind bindsd (mk_sockaddr AF_INET (htons 0) (htonl 0)) (fun r =>
        if r <? 0 then Done 1
        else
          Mylisten bindsd 5 (fun r =>
            if r <? 0 then Done 1
            else _ ← local_name bindsd; accept_loop bindsd conns fuel))).

(** The switch of [main]: [reliable] and [errflg]. *)
Definition server_option (o : bool * bool) (opt : Z * option bytes) : bool * bool :=
  let '(reliable, errflg) := o in
  if fst opt =? 85 then (false, errflg) else if fst opt =? 63 then (reliable, true) else (reliable, errflg).

(** [main(argc, argv)], [args] being the arguments behind the program's name. *)
Definition server_command (args : list bytes) (conns fuel : nat) : prog Z :=
  let '(opts, operands) := getopt (str "U") args in
  let '(reliable, errflg) := fold_left server_option opts (true, false) in
  if errflg || negb (bool_decide (operands = [])) then Done 1 else server_main reliable conns fuel.

(** Without arguments, or with [-U] alone, it serves; with anything else it does
    not start. *)
Lemma server_command_runs conns fuel :
  server_command [] conns fuel = server_main true conns fuel
  /\ server_command [str "-U"] conns fuel = server_main false conns fuel
  /\ forall a rest, head a <> Some 45 -> server_command (a :: rest) conns fuel = Done 1.
Proof.
  split; [done|]. split; [done|]. intros a rest Ha. unfold server_command. rewrite getopt_operand by done.
  destruct (getopt (str "U") rest) as [r operands]. destruct (fold_left server_option r (true, false)) as [reliable errflg].
  by rewrite bool_decide_eq_false_2, orb_true_r.
Qed.
End server.
