(* ===== verification/FtClient.v ===== *)
(** client.c of assignment 4: the program that asks the file server for files, a
    program over the mysocket API. *)

From S2P Require Import Prelude.
From S2P Require Import Bytes.
From S2P Require Import Stdio.
From S2P Require Import MysockState.
From S2P Require Import Mysock.
From S2P Require Import App.
From Stdlib Require Import (notations) String.

(** The array [line] of [loop_until_end]. *)
Definition CLIENT_LINE : nat := 1000.

(** How the loop ends: it returns, or the program exits with -1; with what was
    written to the file "rcvd", if it was opened. *)
Inductive loop_end :=
  | Left (rcvd : option bytes)
  | Exited (rcvd : option bytes).

Section client.
(** The options [-q] and [-f filename]. *)
Context (quiet_opt : bool) (filename : option bytes).
(** Whether "rcvd" can be opened for writing, and how many bytes [fwrite] writes
    of a buffer, when it was not interrupted. *)
Context (rcvd_opens : bool) (fwrite : bytes -> nat).

(** [isspace] characters removed at the end: what is before [pline + 1]. *)
Fixpoint strip (s : bytes) : bytes :=
  match s with
  | [] => []
  | c :: s' => match strip s' with [] => if isspace c then [] else [c] | t => c :: t end
  end.

(** A name followed by CR LF NUL in [line]: what is sent. *)
Definition request (name : bytes) : prog bytes :=
  if (CLIENT_LINE <? length name + 3)%nat then Crash OutOfBounds else Done (name ++ crlf).

(** Response line taken apart: the text of its last but one field. *)
Definition length_field (line : bytes) : option bytes :=
  match rsplit 44 line with
  | None => None
  | Some (line, _) => match rsplit 44 line with None => None | Some (_, lenstr) => Some lenstr end
  end.

(** [sscanf(lenstr, "%d", &length)]: [length] afterwards, [None] if nothing was
    ever stored; a number out of range of [int] is undefined. *)
Definition scan_length (lenstr : bytes) (length : option Z) : prog (option Z) :=
  match scan_int lenstr with
  | None => Done length
  | Some n => if (- 2 ^ 31 <=? n) && (n <? 2 ^ 31) then Done (Some n) else Crash Uninitialised
  end.

(** The loop [while (length)]: [length] at its end, and the file. *)
Fixpoint receive_file (sd : Z) (fuel : nat) (length : Z) (file : bytes) : prog (Z * bytes) :=
  match fuel with
  | O => Crash OutOfFuel
  | Datatypes.S fuel' =>
      if length =? 0 then Done (0, file)
      else
        let to_read := Z.min length (Z.of_nat CLIENT_LINE) in
        Myread sd (Z.to_nat (u64 to_read)) (fun got line =>
          if got <=? 0 then Done (length, file)
          else if (CLIENT_LINE <? List.length line)%nat then Crash OutOfBounds
          else
            let to_read := if got <? to_read then got else to_read in
            if quiet_opt then receive_file sd fuel' (length - to_read) file
            else if to_read <? 0 then Crash OutOfBounds
            else
              let data := take (Z.to_nat to_read) line in
              receive_file sd fuel' (length - to_read) (file ++ take (fwrite data) data))
  end.

(** A round of [loop_until_end] from the writing of the request on: how the loop
    ends, or [length] and the file with which it goes on. *)
Definition ask (sd : Z) (name : bytes) (length : option Z) (rcvd : option bytes) : prog (loop_end + Z * option bytes) :=
  buf ← request name;
  Mywrite sd buf (fun r =>
    if r <? 0 then Done (inl (Left rcvd))
    else
      l ← get_nvt_line sd CLIENT_LINE;
      match l ≫= length_field with
      | None => Done (inl (Left rcvd))
      | Some lenstr =>
          length ← scan_length lenstr length;
          match length with
          | None => Crash Uninitialised
          | Some length =>
              if length =? -1 then
                Done (match filename with None => inr (length, rcvd) | Some _ => inl (Left rcvd) end)
              else if negb rcvd_opens then Done (inl (Left rcvd))
              else
                '(length, file) ← receive_file sd (2 + Z.to_nat length) length [];
                if negb (length =? 0) then Myclose sd (fun _ => Done (inl (Exited (Some file))))
                else Done (match filename with None => inr (length, Some file) | Some _ => inl (Left (Some file)) end)
          end
      end).

(** [loop_until_end(sd)] from the top of its loop, [stdin] being what is left of
    the input, [length] and [rcvd] as the rounds before left them; less than
    [fuel] rounds. *)
Fixpoint loop_until_end (sd : Z) (fuel : nat) (stdin : bytes) (length : option Z) (rcvd : option bytes) : prog loop_end :=
  match fuel with
  | O => Crash OutOfFuel
  | Datatypes.S fuel' =>
      let round name stdin :=
        r ← ask sd name length rcvd;
        match r with
        | inl e => Done e
        | inr (length, rcvd) => loop_until_end sd fuel' stdin (Some length) rcvd
        end in
      match filename with
      | Some name =>
          if (CLIENT_LINE <=? List.length (cstr name))%nat then Crash OutOfBounds else round (cstr name) stdin
      | None =>
          match fgets CLIENT_LINE stdin with
          | None => Done (Left rcvd)
          | Some (line, stdin) =>
              let name := strip (cstr line) in
              if (List.length name <=? 1)%nat then loop_until_end sd fuel' stdin length rcvd else round name stdin
          end
      end
  end.

(** [inet_addr], [None] for its (in_addr_t)-1, and [gethostbyname], the address of
    a host that has one of four bytes. *)
Context (inet_addr gethostbyname : bytes -> option Z).

(** [sscanf(s, "%u", &h_port)] *)
Definition scan_port (s : bytes) : prog (option Z) :=
  match scan_int s with
  | None => Done None
  | Some n => if (- 2 ^ 32 <? n) && (n <? 2 ^ 32) then Done (Some (u32 n)) else Crash Uninitialised
  end.

(** [parse_address(address, sin)]: [None] when it returns -1. *)
Definition parse_address (address : bytes) : prog (option sockaddr) :=
  let address_copy := cstr address in
  let host := before 58 address_copy in
  port ← (if (length host =? length address_copy)%nat then Done (Some 0)
          else h_port ← scan_port (drop (length host + 1) address_copy); Done (htons <$> (u16 <$> h_port)));
  Done (port ← port;
        a ← match inet_addr host with Some a => Some a | None => gethostbyname host end;
        Some (mk_sockaddr AF_INET port a)).

(** [main], the options read: the exit status and the file. *)
Definition client_main (reliable : bool) (address : bytes) (fuel : nat) (stdin : bytes) : prog (Z * option bytes) :=
  sin ← parse_address address;
  match sin with
  | None => Done (1, None)
  | Some sin =>
      if sin_port sin =? 0 then Done (1, None)
      else
        Mysocket reliable (fun sd =>
          if sd <? 0 then Done (1, None)
          else
            Myconnect sd sin (fun sd =>
              if sd <? 0 then Done (1, None)
              else
                e ← loop_until_end sd fuel stdin None None;
                match e with
                | Exited rcvd => Done (255, rcvd)
                | Left rcvd => Myclose sd (fun _ => Done (0, rcvd))
                end))
  end.
End client.

(* ------------------------------------------------------------------ *)
(** * The command line *)

(** What the options leave: [filename], [quiet_opt], [reliable] and [errflg]. *)
Record client_opts := mk_client_opts {
  co_filename : option bytes;
  co_quiet : bool;
  co_reliable : bool;
  co_errflg : bool;
}.

(** The body of the switch. *)
Definition client_option (o : client_opts) (opt : Z * option bytes) : client_opts :=
  let '(c, optarg) := opt in
  if c =? 102 then mk_client_opts optarg (co_quiet o) (co_reliable o) (co_errflg o)
  else if c =? 113 then mk_client_opts (co_filename o) true (co_reliable o) (co_errflg o)
  else if c =? 85 then mk_client_opts (co_filename o) (co_quiet o) false (co_errflg o)
  else if c =? 63 then mk_client_opts (co_filename o) (co_quiet o) (co_reliable o) true
  else o.
Definition client_options (opts : list (Z * option bytes)) : client_opts :=
  fold_left client_option opts (mk_client_opts None false true false).

(** [main(argc, argv)], [args] being the arguments behind the program's name. *)
Definition client_command (rcvd_opens : bool) (fwrite : bytes -> nat) (inet_addr gethostbyname : bytes -> option Z)
    (args : list bytes) (fuel : nat) (stdin : bytes) : prog (Z * option bytes) :=
  let '(opts, operands) := getopt (str "f:qU") args in
  let o := client_options opts in
  match operands with
  | [address] =>
      if co_errflg o then Done (1, None)
      else client_main (co_quiet o) (co_filename o) rcvd_opens fwrite inet_addr gethostbyname (co_reliable o) address fuel stdin
  | _ => Done (1, None)
  end.

(** The options in any of their combinations, wherever the address stands. *)
Lemma client_command_runs rcvd_opens fwrite inet_addr gethostbyname (quiet unreliable : bool) filename address fuel stdin :
  head address <> Some 45 ->
  let options := (match filename with Some f => [str "-f"; f] | None => [] end)
    ++ (if quiet then [str "-q"] else []) ++ (if unreliable then [str "-U"] else []) in
  let program := client_main quiet filename rcvd_opens fwrite inet_addr gethostbyname (negb unreliable) address fuel stdin in
  client_command rcvd_opens fwrite inet_addr gethostbyname (options ++ [address]) fuel stdin = program
  /\ client_command rcvd_opens fwrite inet_addr gethostbyname (address :: options) fuel stdin = program.
Proof.
  intros Ha options program.
  subst options program. unfold client_command. rewrite (getopt_operand _ address) by done.
  change (str "-f") with [45; 102]. change (str "-q") with [45; 113]. change (str "-U") with [45; 85].
  assert (Hend : getopt (str "f:qU") [address] = ([], [address])) by by rewrite getopt_operand.
  destruct filename, quiet, unreliable; cbn [app];
    rewrite ?getopt_arg, ?getopt_flag, ?getopt_arg, ?getopt_flag, ?Hend by done; done.
Qed.
