(* ===== verification/StcpFacts.v ===== *)
(** Rules of the calls in stcp_api.c on a connected mysocket: what a sent
    segment is, what is received and when it is accepted. *)

From S2P Require Import Prelude.
From S2P Require Import Bytes.
From S2P Require Import MysockState.
From S2P Require Import PacketQueue.
From S2P Require Import NetworkIoTcp.
From S2P Require Import TcpSum.
From S2P Require Import Mysock.
From S2P Require Import StcpApi.

(** A network context that sends reliably to a known peer. *)
Definition online (net : network_context_t) : Prop :=
  peered net /\ reachable net /\ connected net = true /\ is_reliable net = true
  /\ 0 < sin_port (peer_addr net) < 65536.

(** The same before the socket is connected. *)
Definition callable (net : network_context_t) : Prop :=
  peered net /\ reachable net /\ is_reliable net = true /\ 0 < sin_port (peer_addr net) < 65536.

(** [s] with its socket connected. *)
Definition connects (s : mysock_context) : mysock_context :=
  set_network_state (set_connected true (network_state s)) s.

(** The addresses of a network context, all that checksums depend on. *)
Definition same_ends (a b : network_context_t) : Prop :=
  is_reliable b = is_reliable a /\ peer_addr b = peer_addr a /\ peer_addr_len b = peer_addr_len a
  /\ peer_addr_valid b = peer_addr_valid a /\ connected b = connected a /\ net_port b = net_port a
  /\ net_interface_ip b = net_interface_ip a.

Lemma same_ends_refl a : same_ends a a.
Proof. by repeat split. Qed.
Lemma same_ends_trans a b c : same_ends a b -> same_ends b c -> same_ends a c.
Proof. unfold same_ends. intros. naive_solver congruence. Qed.
Lemma same_ends_out a b : same_ends a (set_net_out b a).
Proof. by repeat split. Qed.
Lemma same_ends_in a b : same_ends a (set_net_in b a).
Proof. by repeat split. Qed.
Lemma same_ends_online a b : same_ends a b -> online a -> online b.
Proof.
  intros (E1 & E2 & E3 & E4 & E5 & _ & E7) (H1 & H2 & H3 & H4 & H5).
  unfold online, peered, reachable in *. by rewrite E1, E2, E3, E4, E5, E7.
Qed.
Lemma same_ends_facing a b a' : same_ends a a' -> facing a b -> facing a' b.
Proof. intros (_ & E2 & E3 & E4 & _ & _ & E7). unfold facing, peered. by rewrite E2, E3, E4, E7. Qed.
Lemma same_ends_accepts a a' p : same_ends a a' -> accepts a p -> accepts a' p.
Proof. intros (_ & E2 & _ & _ & _ & _ & E7). unfold accepts, in_check. by rewrite E2, E7. Qed.

(* ------------------------------------------------------------------ *)
(** * Sent segments *)

(** The fields [stcp_network_send] fills in, then the checksum. *)
Definition addressed (net : network_context_t) (src : bytes) : bytes :=
  upd (upd (upd (upd src Tcp.sport (le16 (net_port net))) Tcp.dport (le16 (sin_port (peer_addr net))))
         Tcp.sum (le16 0)) Tcp.urp (le16 0).
Definition sealed (net : network_context_t) (src : bytes) : bytes :=
  let p := addressed net src in upd p Tcp.sum (le16 (out_check net p)).

(** Offsets of the header [stcp_network_send] does not touch. *)
Definition untouched (i n : nat) : Prop := (4 <= i /\ i + n <= 16)%nat \/ (20 <= i)%nat.

Lemma length_addressed net src : (20 <= length src)%nat -> length (addressed net src) = length src.
Proof. intros Hl. unfold addressed, Tcp.sport, Tcp.dport, Tcp.sum, Tcp.urp. upd_len. Qed.

Lemma length_sealed net src : (20 <= length src)%nat -> length (sealed net src) = length src.
Proof.
  intros Hl. unfold sealed, addressed, Tcp.sport, Tcp.dport, Tcp.sum, Tcp.urp. upd_len.
Qed.

Lemma get8_sealed net src i : (20 <= length src)%nat -> untouched i 1 -> get8 (sealed net src) i = get8 src i.
Proof.
  intros Hl Hi. unfold untouched in Hi. unfold sealed.
  rewrite get8_upd_ne by (rewrite ?length_addressed by done; unfold Tcp.sum; simpl length; lia).
  unfold addressed, Tcp.sport, Tcp.dport, Tcp.sum, Tcp.urp.
  assert (Hs : forall b o v j, length b = length src -> (o + 2 <= 20)%nat -> (j < o \/ o + 2 <= j)%nat ->
    get8 (upd b o (le16 v)) j = get8 b j).
  { intros b o v j Hb Ho Hj. apply get8_upd_ne; simpl; lia. }
  rewrite !Hs; try done; try lia; upd_len.
Qed.

Lemma get32_sealed net src i : (20 <= length src)%nat -> untouched i 4 -> get32 (sealed net src) i = get32 src i.
Proof.
  intros Hl Hi. unfold get32, get16. unfold untouched in Hi.
  rewrite !get8_sealed; [done|done|unfold untouched; lia..].
Qed.

Lemma payload_sealed net src : (20 <= length src)%nat -> drop 20 (sealed net src) = drop 20 src.
Proof.
  intros Hl. apply bytes_ext; [by rewrite !length_drop, length_sealed|].
  rewrite length_drop, length_sealed by done. intros i Hi. unfold get8.
  change (drop 20 (sealed net src)) with (skipn 20 (sealed net src)). change (drop 20 src) with (skipn 20 src).
  rewrite !nth_skipn. apply get8_sealed; [done|]. right. lia.
Qed.

Lemma addressed_ok net src : segment_ok src -> segment_ok (addressed net src).
Proof.
  intros [Hwf Hl]. unfold blen in Hl. split.
  - unfold addressed. auto 10 with bytes.
  - unfold blen. by rewrite length_addressed by lia.
Qed.

(** The other end accepts what was sealed. *)
Lemma sealed_accepted a b src : facing a b -> segment_ok src -> accepts b (sealed a src).
Proof. intros Hf Hok. apply seal_accepted; [done|]. by apply addressed_ok. Qed.

(** Concatenation of the framed packets. *)
Definition frames (ps : list bytes) : bytes := mjoin (frame <$> ps).

Lemma frames_app ps qs : frames (ps ++ qs) = frames ps ++ frames qs.
Proof. unfold frames. by rewrite fmap_app, join_app. Qed.

(** [s] after sending the packets [ps]. *)
Definition sent (ps : list bytes) (s : mysock_context) : mysock_context :=
  set_network_state (set_net_out (net_out (network_state s) ++ frames ps) (network_state s)) s.

Lemma sent_nil s : sent [] s = s.
Proof. unfold sent, frames. simpl. rewrite app_nil_r. by destruct s as [? []]. Qed.
Lemma sent_sent ps qs s : sent qs (sent ps s) = sent (ps ++ qs) s.
Proof. unfold sent. rewrite frames_app. cbn. by rewrite app_assoc. Qed.

Section rules.
Context {K : Kernel} {KOk : KernelOk K} (F : fault -> Prop).

Lemma wlp_network_send_packet p (Q : Z -> network_context_t -> Prop) net :
  reachable net -> is_reliable net = true -> segment_ok p ->
  Q (blen p) (set_net_out (net_out net ++ frame p) (set_connected true net)) -> wlp F (_network_send p) Q net.
Proof.
  intros Hr Hrel [_ Hl] HQ. unfold MAX_IP_PAYLOAD_LEN in Hl.
  unfold _network_send. wgo. rewrite Hrel. cbn [negb]. apply wlp_send_packet; [done|lia|done].
Qed.

(** What is handed to the network is the sealed segment. *)
Lemma wlp_stcp_network_send_with sd st s src (Q : Z -> stack -> Prop) :
  placed sd s -> peered (network_state s) -> 0 < sin_port (peer_addr (network_state s)) < 65536 -> segment_ok src ->
  (segment_ok (sealed (network_state s) src) -> blen (sealed (network_state s) src) = blen src ->
   wlp F (_network_send (sealed (network_state s) src)) (fun r net => Q r (sock_at st sd (set_network_state net s))) (network_state s)) ->
  wlp F (stcp_network_send sd src []) Q (sock_at st sd s).
Proof.
  intros Hp Hpe Hport Hok HQ. pose proof Hok as [Hwf Hl]. unfold blen, MAX_IP_PAYLOAD_LEN in Hl.
  pose proof Hpe as (_ & _ & Hfam & _).
  unfold stcp_network_send. wgo. apply wlp_the_context; [done|]. wgo.
  rewrite (proj2 (Z.leb_le (blen src) _)) by (unfold blen, MAX_IP_PAYLOAD_LEN; lia). wgo. cbn [gather]. wgo.
  rewrite (proj2 (Nat.leb_le _ _)) by (unfold Tcp.size; lia). wgo.
  apply wlp_wrn; [unfold Tcp.sport; simpl; lia|]. rewrite Hfam, Z.eqb_refl. wgo.
  apply wlp_wrn; [rewrite length_upd by (unfold Tcp.sport; simpl; lia); unfold Tcp.dport; simpl; lia|]. wgo.
  set (p2 := upd (upd src Tcp.sport _) Tcp.dport _).
  assert (Hl2 : length p2 = length src).
  { subst p2. unfold Tcp.sport, Tcp.dport. upd_len. }
  apply wlp_rd16; [rewrite Hl2; unfold Tcp.dport; lia|].
  replace (get16 p2 Tcp.dport) with (sin_port (peer_addr (network_state s))).
  2:{ subst p2. rewrite get16_upd_eq; [done|rewrite length_upd by (unfold Tcp.sport; simpl; lia); unfold Tcp.dport; lia|lia]. }
  rewrite (proj2 (Z.ltb_lt _ _)) by lia. wgo.
  apply wlp_wrn; [rewrite Hl2; unfold Tcp.sum; simpl; lia|]. wgo.
  apply wlp_wrn; [rewrite length_upd by (rewrite Hl2; unfold Tcp.sum; simpl; lia); rewrite Hl2; unfold Tcp.urp; simpl; lia|]. wgo.
  change (upd (upd p2 Tcp.sum (le16 0)) Tcp.urp (le16 0)) with (addressed (network_state s) src).
  apply wlp_set_checksum; [by apply addressed_ok|done|]. wgo.
  change (upd (addressed _ src) Tcp.sum _) with (sealed (network_state s) src).
  apply wlp_at_sock, wlp_in_net, HQ; unfold blen; rewrite ?length_sealed by lia; [|done]. split.
  - unfold sealed, addressed. auto 10 with bytes.
  - unfold blen, MAX_IP_PAYLOAD_LEN. rewrite length_sealed by lia. lia.
Qed.

(** Sending connects the socket and appends the sealed segment to the stream. *)
Lemma wlp_stcp_network_send_first sd st s src (Q : Z -> stack -> Prop) :
  placed sd s -> callable (network_state s) -> segment_ok src ->
  Q (blen src) (sock_at st sd (sent [sealed (network_state s) src] (connects s))) ->
  wlp F (stcp_network_send sd src []) Q (sock_at st sd s).
Proof.
  intros Hp (Hpe & Hre & Hrel & Hport) Hok HQ. apply wlp_stcp_network_send_with; [done..|]. intros Hs Hb.
  apply wlp_network_send_packet; [done..|]. rewrite Hb. unfold sent, frames in HQ. simpl in HQ. by rewrite app_nil_r in HQ.
Qed.

(** On a connected socket sending appends the sealed segment. *)
Lemma wlp_stcp_network_send sd st s src (Q : Z -> stack -> Prop) :
  placed sd s -> online (network_state s) -> segment_ok src ->
  Q (blen src) (sock_at st sd (sent [sealed (network_state s) src] s)) ->
  wlp F (stcp_network_send sd src []) Q (sock_at st sd s).
Proof.
  intros Hp (H1 & H2 & H3 & H4 & H5) Hok HQ. apply wlp_stcp_network_send_first; [done|done|done|].
  replace (connects s) with s; [done|]. unfold connects. destruct s as [? []]; simpl in *; by subst.
Qed.

(** Receiving takes the packet at the head of the queue. *)
Lemma wlp_stcp_network_recv sd st s dst max_len p q (Q : Z * bytes -> stack -> Prop) :
  placed sd s -> peered (network_state s) -> network_recv_queue s = p :: q ->
  accepts (network_state s) p -> (length p <= max_len)%nat -> (length p <= length dst)%nat ->
  Q (blen p, upd dst 0 p) (sock_at st sd (set_network_recv_queue q s)) ->
  wlp F (stcp_network_recv sd dst max_len) Q (sock_at st sd s).
Proof.
  intros Hp Hpe Hq Hacc Hm Hd HQ. pose proof Hacc as [[_ Hl] _]. unfold blen in Hl.
  unfold stcp_network_recv, _network_recv. wgo. apply wlp_the_context; [done|]. wgo.
  apply wlp_at_sock. unfold dequeue_network_recv, _mysock_dequeue_buffer. wgo. rewrite Hq, andb_false_r. wgo.
  rewrite take_ge by lia. apply wlp_wrn; [simpl; lia|]. wgo.
  apply wlp_the_context; [done|]. wgo. rewrite (proj2 (Nat.leb_gt _ _)) by lia.
  assert (Hlu : length (upd dst 0 p) = length dst) by (apply length_upd; simpl; lia).
  apply wlp_verify_prefix; [lia| |done|done|].
  - by apply (slice_upd_eq dst 0 p).
  - wgo. exact HQ.
Qed.

(** Taking data from the application. *)
Lemma wlp_stcp_app_recv sd st s b o max_len data q (Q : nat * bytes -> stack -> Prop) :
  placed sd s -> app_recv_queue s = data :: q -> (o + max_len <= length b)%nat ->
  let n := (max_len `min` length data)%nat in
  let rest := if (max_len <? length data)%nat then drop max_len data :: q else q in
  Q (n, upd b o (take n data)) (sock_at st sd (set_app_recv_queue rest s)) ->
  wlp F (stcp_app_recv sd b o max_len) Q (sock_at st sd s).
Proof.
  intros Hp Hq Hb n rest HQ. unfold stcp_app_recv. wgo. apply wlp_the_context; [done|]. wgo.
  apply wlp_at_sock. unfold dequeue_app_recv, _mysock_dequeue_buffer. wgo. rewrite Hq, andb_true_r.
  subst n rest. destruct (Nat.ltb_spec max_len (length data)) as [Hlt|Hge]; wgo.
  - rewrite Nat.min_l in HQ by lia. apply wlp_wrn; [rewrite length_take; lia|]. by wgo.
  - rewrite Nat.min_r in HQ |- * by lia. apply wlp_wrn; [rewrite length_take; lia|]. by wgo.
Qed.

(** Passing data up, empty data excepted. *)
Lemma wlp_stcp_app_send sd st s src (Q : unit -> stack -> Prop) :
  placed sd s ->
  Q tt (sock_at st sd (set_app_send_queue (match src with [] => app_send_queue s | _ => app_send_queue s ++ [src] end) s)) ->
  wlp F (stcp_app_send sd src) Q (sock_at st sd s).
Proof.
  intros Hp HQ. unfold stcp_app_send. wgo. apply wlp_the_context; [done|]. wgo.
  destruct src as [|x src]; cbn [length Nat.ltb Nat.leb].
  - wgo. by replace (set_app_send_queue (app_send_queue s) s) with s in HQ by by destruct s.
  - apply wlp_at_sock. unfold enqueue_app_send. by wgo.
Qed.

Lemma wlp_stcp_fin_received sd st s (Q : unit -> stack -> Prop) :
  placed sd s -> Q tt (sock_at st sd (set_app_send_queue (app_send_queue s ++ [[]]) s)) ->
  wlp F (stcp_fin_received sd) Q (sock_at st sd s).
Proof.
  intros Hp HQ. unfold stcp_fin_received. wgo. apply wlp_the_context; [done|]. wgo.
  apply wlp_at_sock. unfold enqueue_app_send. by wgo.
Qed.

(** Waiting for any event. *)
Lemma wlp_wait_for_event sd st s (Q : events -> stack -> Prop) :
  placed sd s ->
  let ev := ready_events ANY_EVENT s in
  (if ev_app_data ev || ev_network_data ev || ev_close ev
   then Q ev (sock_at st sd (if ev_close ev then set_close_requested false s else s))
   else F Blocked) ->
  wlp F (stcp_wait_for_event sd ANY_EVENT false) Q (sock_at st sd s).
Proof.
  intros Hp ev HQ. unfold stcp_wait_for_event. wgo. apply wlp_the_context; [done|]. wgo.
  apply wlp_at_sock. wgo. fold ev. clearbody ev. destruct ev as [a n c]; cbn [ev_app_data ev_network_data ev_close] in *.
  destruct c; [wgo|wgo]; destruct (a || n); cbn [orb] in *; by wgo.
Qed.
End rules.
