(* ===== verification/TransportFacts.v ===== *)
(** The control loop's branches on an established connection: the segments
    they send and the window they keep. *)

From S2P Require Import Prelude.
From S2P Require Import Bytes.
From S2P Require Import MysockState.
From S2P Require Import PacketQueue.
From S2P Require Import NetworkIoTcp.
From S2P Require Import TcpSum.
From S2P Require Import Mysock.
From S2P Require Import StcpApi.
From S2P Require Import Transport.
From S2P Require Import StcpFacts.

(* ------------------------------------------------------------------ *)
(** * Segments *)

(** The header [make_header] builds, in front of its payload. *)
Definition segment (seq : Z) (off : option Z) (flags win : Z) (payload : bytes) : bytes :=
  let h := upd (upd (empty_header ++ payload) Tcp.seq (le32 seq)) Tcp.win (le16 win) in
  let h := match off with
           | Some v => upd h Tcp.off [u8 (Z.lor (Z.land (get8 h Tcp.off) 0x0f) (Z.shiftl (Z.land v 0x0f) 4))]
           | None => h
           end in
  upd h Tcp.flags [u8 flags].

(** The acknowledgement [send_ack] builds. *)
Definition ack_segment (ack seq : Z) : bytes :=
  upd (upd (upd empty_header Tcp.flags [u8 TH_ACK]) Tcp.ack (le32 ack)) Tcp.seq (le32 seq).

Ltac offs := unfold Tcp.sport, Tcp.dport, Tcp.seq, Tcp.ack, Tcp.off, Tcp.flags, Tcp.win, Tcp.sum, Tcp.urp, Tcp.size in *.

Lemma length_base payload : length (empty_header ++ payload) = (20 + length payload)%nat.
Proof. rewrite length_app. unfold empty_header. by rewrite length_zeros. Qed.

Lemma length_segment seq off flags win payload : length (segment seq off flags win payload) = (20 + length payload)%nat.
Proof.
  unfold segment. offs. pose proof (length_base payload) as Hl.
  destruct off as [v|]; repeat (apply length_upd_n; [cbn [length le16 le32]; lia|]); done.
Qed.

Lemma wf_segment seq off flags win payload : wf_bytes payload -> wf_bytes (segment seq off flags win payload).
Proof.
  intros Hp. unfold segment, empty_header.
  assert (Hb : wf_bytes (zeros Tcp.size ++ payload)) by (apply wf_app; auto with bytes).
  destruct off; auto 10 with bytes.
Qed.

Lemma segment_fields seq off flags win payload :
  let p := segment seq off flags win payload in
  get32 p Tcp.seq = u32 seq /\ get8 p Tcp.flags = u8 flags /\ drop 20 p = payload.
Proof.
  intros p. pose proof (length_base payload) as Hl.
  set (h1 := upd (empty_header ++ payload) Tcp.seq (le32 seq)).
  set (h2 := upd h1 Tcp.win (le16 win)).
  set (h3 := match off with
             | Some v => upd h2 Tcp.off [u8 (Z.lor (Z.land (get8 h2 Tcp.off) 0x0f) (Z.shiftl (Z.land v 0x0f) 4))]
             | None => h2 end).
  assert (Hp : p = upd h3 Tcp.flags [u8 flags]) by done.
  assert (H1 : length h1 = (20 + length payload)%nat) by (subst h1; offs; upd_len; exact Hl).
  assert (H2 : length h2 = (20 + length payload)%nat) by (subst h2; offs; upd_len; exact H1).
  assert (H3 : length h3 = (20 + length payload)%nat /\ forall i, i <> 12%nat -> get8 h3 i = get8 h2 i).
  { subst h3. destruct off as [v|]; [|done]. offs. split; [upd_len; exact H2|].
    intros i Hi. apply get8_upd_ne; simpl; lia. }
  destruct H3 as [H3 H3']. clearbody h3. offs. split; [|split].
  - rewrite Hp. rewrite get32_upd_ne by (simpl; lia). unfold get32, get16. rewrite !H3' by lia.
    change (get32 h2 4 = u32 seq). subst h2. rewrite get32_upd_ne by (simpl; lia).
    apply get32_upd_mod. lia.
  - rewrite Hp, get8_upd_eq by (simpl; lia). done.
  - apply bytes_ext; [rewrite length_drop; subst p; rewrite length_segment; lia|].
    rewrite length_drop. subst p. rewrite length_segment. intros i Hi. unfold get8 at 1.
    change (drop 20) with (@skipn Z 20). rewrite nth_skipn. change (get8 (segment seq off flags win payload) (20 + i) = get8 payload i).
    rewrite Hp, get8_upd_ne, H3' by (simpl; lia). subst h2 h1.
    rewrite !get8_upd_ne by (rewrite ?length_upd by (simpl; lia); simpl; lia).
    unfold get8. rewrite app_nth2; unfold empty_header; rewrite length_zeros; [f_equal; unfold Tcp.size; lia|unfold Tcp.size; lia].
Qed.

Lemma length_ack_segment ack seq : length (ack_segment ack seq) = 20%nat.
Proof. unfold ack_segment, empty_header. offs. upd_len. Qed.

Lemma wf_ack_segment ack seq : wf_bytes (ack_segment ack seq).
Proof. unfold ack_segment, empty_header. auto 10 with bytes. Qed.

Lemma ack_segment_fields ack seq :
  let p := ack_segment ack seq in get32 p Tcp.ack = u32 ack /\ get8 p Tcp.flags = TH_ACK.
Proof.
  intros p. subst p. unfold ack_segment, empty_header. offs. split.
  - rewrite get32_upd_ne by (rewrite ?length_upd by (simpl; lia); simpl; lia).
    apply get32_upd_mod. rewrite length_upd by (simpl; lia). simpl. lia.
  - rewrite !get8_upd_ne by (rewrite ?length_upd by (rewrite ?length_upd by (simpl; lia); simpl; lia); simpl; lia).
    rewrite get8_upd_eq by (simpl; lia). done.
Qed.

(** What a received segment means to the control loop. *)
Inductive seg_kind := KAck (ack : Z) | KFin (seq : Z) | KData (seq : Z) (payload : bytes).
Definition kind_of (p : bytes) : seg_kind :=
  if get8 p Tcp.flags =? TH_ACK then KAck (get32 p Tcp.ack)
  else if get8 p Tcp.flags =? TH_FIN then KFin (get32 p Tcp.seq)
  else KData (get32 p Tcp.seq) (drop 20 p).

Lemma kind_sealed net p : (20 <= length p)%nat -> kind_of (sealed net p) = kind_of p.
Proof.
  intros Hl. unfold kind_of. rewrite get8_sealed, !get32_sealed, payload_sealed; [done|done|done|..];
    unfold untouched; offs; lia.
Qed.

Lemma kind_ack ack seq : 0 <= ack < 2 ^ 32 -> kind_of (ack_segment ack seq) = KAck ack.
Proof.
  intros Ha. destruct (ack_segment_fields ack seq) as [H1 H2]. unfold kind_of. rewrite H1, H2, u32_small by lia. done.
Qed.
Lemma kind_data seq win payload :
  0 <= seq < 2 ^ 32 -> kind_of (segment seq (Some 5) 0 win payload) = KData seq payload.
Proof.
  intros Hs. destruct (segment_fields seq (Some 5) 0 win payload) as (H1 & H2 & H3).
  unfold kind_of. rewrite H1, H2, H3, u32_small by lia. done.
Qed.
Lemma kind_fin seq off win : 0 <= seq < 2 ^ 32 -> kind_of (segment seq off TH_FIN win []) = KFin seq.
Proof.
  intros Hs. destruct (segment_fields seq off TH_FIN win []) as (H1 & H2 & _).
  unfold kind_of. rewrite H1, H2, u32_small by lia. done.
Qed.

Lemma segment_segment_ok seq off flags win payload :
  wf_bytes payload -> blen payload <= 1480 -> segment_ok (segment seq off flags win payload).
Proof.
  intros Hwf Hl. split; [by apply wf_segment|]. unfold blen, MAX_IP_PAYLOAD_LEN in *. rewrite length_segment. lia.
Qed.
Lemma ack_segment_ok ack seq : segment_ok (ack_segment ack seq).
Proof. split; [apply wf_ack_segment|]. unfold blen, MAX_IP_PAYLOAD_LEN. rewrite length_ack_segment. lia. Qed.

(** What the peer reads of a bare header, sealed by the sender. *)
Definition header_to (na nb : network_context_t) (flags : Z) (p : bytes) : Prop :=
  accepts nb p /\ length p = 20%nat /\ get8 p Tcp.flags = flags.

Lemma sealed_header na nb src :
  facing na nb -> segment_ok src -> length src = 20%nat -> header_to na nb (get8 src Tcp.flags) (sealed na src).
Proof.
  intros Hf Hok Hl. split; [by apply sealed_accepted|]. split; [rewrite length_sealed; lia|].
  apply get8_sealed; unfold untouched, Tcp.flags; lia.
Qed.

Lemma segment_header na nb seq flags win :
  facing na nb -> header_to na nb (u8 flags) (sealed na (segment seq None flags win [])).
Proof.
  intros Hf. destruct (segment_fields seq None flags win []) as (_ & <- & _).
  apply sealed_header; [done| |by rewrite length_segment].
  apply segment_segment_ok; [constructor|unfold blen; simpl; lia].
Qed.

Lemma ack_segment_header na nb ack seq : facing na nb -> header_to na nb TH_ACK (sealed na (ack_segment ack seq)).
Proof.
  intros Hf. destruct (ack_segment_fields ack seq) as [_ <-].
  apply sealed_header; [done|apply ack_segment_ok|apply length_ack_segment].
Qed.

(* ------------------------------------------------------------------ *)
(** * The window *)

(** What the sender keeps on an established connection. *)
Definition window (c : context_t) : Prop :=
  RECV_WIN c = 3072 /\ 536 <= CWND c <= 290000 /\ SWND c = Z.min (CWND c) 3072
  /\ blen (buffer c) = SWND c /\ wf_bytes (buffer c)
  /\ 1 <= SendBase c <= next_seqnum c /\ next_seqnum c <= SendBase c + SWND c /\ next_seqnum c < 2 ^ 32
  /\ rem c = SWND c - (next_seqnum c - SendBase c).

(** The part of the context that data transfer leaves alone. *)
Definition phase (c : context_t) : bool * CSTATE * bool := (done c, connection_state c, is_client c).

Lemma window_size c : window c -> 536 <= SWND c <= 3072 /\ 0 <= rem c <= SWND c.
Proof. intros (H1 & H2 & H3 & H4 & H5 & H6 & H7 & H8 & H9). lia. Qed.

Section rules.
Context {K : Kernel} {KOk : KernelOk K} (F : fault -> Prop).

Lemma wlp_make_header {S} seq off flags win payload (Q : bytes -> S -> Prop) s :
  Q (segment seq off flags win payload) s -> wlp F (make_header seq off flags win payload) Q s.
Proof.
  intros HQ. unfold make_header. pose proof (length_base payload) as Hl. wgo. offs.
  apply wlp_wrn; [simpl; lia|]. wgo. apply wlp_wrn; [rewrite length_upd by (simpl; lia); simpl; lia|]. wgo.
  set (h2 := upd (upd _ 4 _) 14 _).
  assert (H2 : length h2 = (20 + length payload)%nat) by (subst h2; upd_len; exact Hl).
  destruct off as [v|].
  - unfold wr_th_off. wgo. offs. apply wlp_rd8; [lia|]. apply wlp_wrn; [simpl; lia|].
    apply wlp_wrn; [rewrite length_upd by (simpl; lia); simpl; lia|]. exact HQ.
  - wgo. apply wlp_wrn; [simpl; lia|]. exact HQ.
Qed.

(** [APP_DATA] with room in the window: one segment with the next bytes is handed
    to the network. *)
Lemma wlp_handle_app_data_with sd st s c data q (Q : context_t -> stack -> Prop) :
  placed sd s -> peered (network_state s) -> 0 < sin_port (peer_addr (network_state s)) < 65536 -> window c -> 0 < rem c ->
  app_recv_queue s = data :: q -> wf_bytes data -> next_seqnum c + blen data < 2 ^ 32 ->
  let n := (Z.to_nat (Z.min (rem c) MSS) `min` length data)%nat in
  let rest := if (Z.to_nat (Z.min (rem c) MSS) <? length data)%nat then drop n data :: q else q in
  let p := sealed (network_state s) (segment (next_seqnum c) (Some 5) 0 RECV_WINDOW_SIZE (take n data)) in
  (forall c', window c' -> phase c' = phase c -> SendBase c' = SendBase c -> RecvBase c' = RecvBase c ->
     next_seqnum c' = next_seqnum c + Z.of_nat n -> segment_ok p ->
     wlp F (_network_send p) (fun _ net => Q c' (sock_at st sd (set_network_state net (set_app_recv_queue rest s)))) (network_state s)) ->
  wlp F (handle_app_data sd c) Q (sock_at st sd s).
Proof.
  intros Hp Hpe Hport Hw Hrem Hq Hwf Hnext n rest p HQ. pose proof (window_size c Hw) as [Hs Hr].
  destruct Hw as (W1 & W2 & W3 & W4 & W5 & W6 & W7 & W8 & W9). unfold blen in *.
  unfold handle_app_data. rewrite (proj2 (Z.eqb_neq _ _)) by lia. wgo. unfold offset.
  rewrite u64_small, (proj2 (Z.ltb_lt _ _)) by lia. wgo.
  set (o := Z.to_nat (next_seqnum c - SendBase c)). unfold MSS in *.
  eapply wlp_stcp_app_recv; [done|exact Hq|lia|]. cbv zeta. fold n. wgo.
  assert (Hn : (n <= Z.to_nat (Z.min (rem c) 536))%nat /\ (n <= length data)%nat) by (subst n; lia).
  assert (Hlt : length (take n data) = n) by (rewrite length_take; lia).
  assert (Hlu : length (upd (buffer c) o (take n data)) = length (buffer c)) by (apply length_upd; lia).
  cbn [buffer set_buffer next_seqnum]. apply wlp_rdn; [lia|].
  replace (slice (upd (buffer c) o (take n data)) o n) with (take n data).
  2:{ symmetry. apply slice_upd_same; [done|lia]. }
  wgo. apply wlp_make_header. wgo.
  assert (Hdw : wf_bytes (take n data)) by by apply Forall_take.
  assert (Erest : (if (Z.to_nat (Z.min (rem c) 536) <? length data)%nat then drop (Z.to_nat (Z.min (rem c) 536)) data :: q else q) = rest).
  { subst rest. destruct (Nat.ltb_spec (Z.to_nat (Z.min (rem c) 536)) (length data)); [|done].
    by replace n with (Z.to_nat (Z.min (rem c) 536)) by (subst n; lia). }
  apply wlp_stcp_network_send_with; [done|done|done| |].
  { apply segment_segment_ok; [done|]. unfold blen. lia. }
  intros Hok _. set (c' := advance_next (Z.of_nat n) (add_log (LogSend (SWND c) (rem c) (Z.of_nat n)) (set_buffer (upd (buffer c) o (take n data)) c))).
  eapply wlp_mono; [apply (HQ c'); try done|].
  - unfold c', window, advance_next, recompute_rem, add_log, blen.
    cbn [RECV_WIN CWND SWND buffer SendBase next_seqnum rem set_rem set_next_seqnum set_log set_buffer log].
    rewrite (u64_small (next_seqnum c + _)), u64_small by lia.
    rewrite Hlu. repeat split; try lia. auto with bytes.
  - unfold c', advance_next, recompute_rem, add_log.
    cbn [next_seqnum set_rem set_next_seqnum set_log set_buffer]. apply u64_small. lia.
  - intros r net H. wgo. rewrite Erest. exact H.
Qed.

(** On a mysocket that sends reliably it goes out. *)
Lemma wlp_handle_app_data sd st s c data q (Q : context_t -> stack -> Prop) :
  placed sd s -> online (network_state s) -> window c -> 0 < rem c ->
  app_recv_queue s = data :: q -> wf_bytes data -> next_seqnum c + blen data < 2 ^ 32 ->
  let n := (Z.to_nat (Z.min (rem c) MSS) `min` length data)%nat in
  let rest := if (Z.to_nat (Z.min (rem c) MSS) <? length data)%nat then drop n data :: q else q in
  (forall c', window c' -> phase c' = phase c -> SendBase c' = SendBase c -> RecvBase c' = RecvBase c ->
     next_seqnum c' = next_seqnum c + Z.of_nat n ->
     Q c' (sock_at st sd (sent [sealed (network_state s) (segment (next_seqnum c) (Some 5) 0 RECV_WINDOW_SIZE (take n data))]
             (set_app_recv_queue rest s)))) ->
  wlp F (handle_app_data sd c) Q (sock_at st sd s).
Proof.
  intros Hp (H1 & H2 & H3 & H4 & H5) Hw Hrem Hq Hwf Hnext n rest HQ.
  eapply wlp_handle_app_data_with; [done|done|done|done|done|exact Hq|done|done|]. cbv zeta. fold n rest.
  intros c' Hw' Hph Hsb Hrb Hnx Hok. apply wlp_network_send_packet; [done|done|done|].
  specialize (HQ c' Hw' Hph Hsb Hrb Hnx). unfold sent, frames in HQ. cbn [fmap list_fmap mjoin list_join] in HQ.
  rewrite app_nil_r in HQ. replace (set_connected true (network_state s)) with (network_state s); [exact HQ|].
  destruct (network_state s); cbn in *; by subst.
Qed.

(** An acknowledgement of bytes in flight: the window slides and grows. *)
Lemma wlp_handle_ack st c a (Q : context_t -> stack -> Prop) :
  window c -> SendBase c <= a <= next_seqnum c ->
  (forall c', window c' -> phase c' = phase c -> SendBase c' = a -> RecvBase c' = RecvBase c ->
     next_seqnum c' = next_seqnum c -> Q c' st) ->
  wlp F (handle_ack a c) Q st.
Proof.
  intros Hw Ha HQ. pose proof (window_size c Hw) as [Hs Hr].
  destruct Hw as (W1 & W2 & W3 & W4 & W5 & W6 & W7 & W8 & W9). unfold blen in *.
  unfold handle_ack. wgo. rewrite (u64_small (a - SendBase c)) by lia. unfold offset.
  rewrite (u64_small (SWND c - _)) by lia.
  rewrite (proj2 (Z.ltb_lt (a - SendBase c) _)), (proj2 (Z.ltb_lt (SWND c - (a - SendBase c)) _)) by lia. wgo.
  set (cwnd := if CWND c <? 4 * MSS then _ else _).
  assert (Hc : CWND c <= cwnd <= 290000).
  { subst cwnd. unfold MSS in *. destruct (Z.ltb_spec (CWND c) (4 * 536)).
    - rewrite u64_small by lia. lia.
    - assert (0 <= 536 * 536 / CWND c <= 134).
      { split; [apply Z.div_pos; lia|]. apply Z.div_le_upper_bound; lia. }
      destruct (Z.ltb_spec 287296 (CWND c)).
      + replace (536 * 536 / CWND c) with 0 by (symmetry; apply Z.div_small; lia). rewrite u64_small; lia.
      + rewrite u64_small; lia. }
  clearbody cwnd. apply wlp_rdn; [lia|].
  assert (Hk : length (slice (buffer c) (Z.to_nat (a - SendBase c)) (Z.to_nat (SWND c - (a - SendBase c))))
               = Z.to_nat (SWND c - (a - SendBase c))) by (apply length_slice; lia).
  wgo. apply wlp_wrn; [rewrite length_zeros, Hk, W1; lia|]. wgo. apply HQ; try done.
  unfold window, blen. cbn [RECV_WIN CWND SWND buffer SendBase next_seqnum rem].
  rewrite length_upd by (rewrite length_zeros, Hk, W1; lia). rewrite length_zeros, W1.
  rewrite (u64_small (Z.min _ _ - _)) by lia. repeat split; try lia. auto with bytes.
Qed.

Lemma wlp_send_ack sd st s ack seq (Q : unit -> stack -> Prop) :
  placed sd s -> online (network_state s) ->
  Q tt (sock_at st sd (sent [sealed (network_state s) (ack_segment ack seq)] s)) ->
  wlp F (send_ack sd ack seq) Q (sock_at st sd s).
Proof.
  intros Hp Hon HQ. unfold send_ack. wgo. unfold empty_header. offs.
  apply wlp_wrn; [rewrite length_zeros; simpl; lia|]. wgo.
  apply wlp_wrn; [rewrite length_upd by (rewrite length_zeros; simpl; lia); rewrite length_zeros; simpl; lia|]. wgo.
  set (h2 := upd (upd _ 13 _) 8 _).
  assert (H2 : length h2 = 20%nat) by (subst h2; upd_len).
  apply wlp_wrn; [simpl; lia|]. wgo. apply wlp_stcp_network_send; [done|done|apply ack_segment_ok|]. by wgo.
Qed.

(** A data segment is acknowledged and its payload handed up. *)
Lemma wlp_handle_data sd st s c seq data (Q : context_t -> stack -> Prop) :
  placed sd s -> online (network_state s) ->
  let c' := set_RecvBase (u64 (RecvBase c + blen data)) c in
  Q c' (sock_at st sd
    (set_app_send_queue (match data with [] => app_send_queue s | _ => app_send_queue s ++ [data] end)
      (sent [sealed (network_state s) (ack_segment (u32 (seq + blen data)) (RecvBase c'))] s))) ->
  wlp F (handle_data sd seq data c) Q (sock_at st sd s).
Proof.
  intros Hp Hon c' HQ. unfold handle_data. fold c'. wgo. apply wlp_send_ack; [done|done|]. wgo.
  apply wlp_stcp_app_send; [done|]. by wgo.
Qed.

(** A segment at the head of the queue goes to the branch of its kind. *)
Lemma wlp_handle_network_data sd st s c p q (Q : context_t -> stack -> Prop) :
  placed sd s -> peered (network_state s) -> network_recv_queue s = p :: q ->
  accepts (network_state s) p -> (length p <= 556)%nat ->
  wlp F (match kind_of p with
         | KAck a => handle_ack a c
         | KFin n => handle_fin sd n c
         | KData n d => handle_data sd n d c
         end) Q (sock_at st sd (set_network_recv_queue q s)) ->
  wlp F (handle_network_data sd c) Q (sock_at st sd s).
Proof.
  intros Hp Hpeer Hq Hacc Hlen HQ. pose proof Hacc as [[_ H20] _]. unfold blen in H20.
  unfold handle_network_data. wgo. set (zs := zeros _).
  assert (Hz : length zs = 556%nat) by apply length_zeros.
  eapply wlp_stcp_network_recv; [done|done|exact Hq|done|unfold Tcp.size, MSS; lia|lia|]. wgo.
  unfold blen. rewrite (proj2 (Z.leb_le 0 _)) by (unfold Tcp.size; lia). wgo.
  assert (Hlu : length (upd zs 0 p) = 556%nat) by (rewrite length_upd; lia).
  assert (Hg : forall i, (i < length p)%nat -> get8 (upd zs 0 p) i = get8 p i).
  { intros i Hi. rewrite get8_upd_eq by lia. f_equal. lia. }
  assert (Hg32 : forall i, (i + 4 <= length p)%nat -> get32 (upd zs 0 p) i = get32 p i).
  { intros i Hi. unfold get32, get16. by rewrite !Hg by lia. }
  offs. apply wlp_rd8; [lia|]. wgo. apply wlp_rd32; [lia|]. wgo. apply wlp_rd32; [lia|]. wgo.
  rewrite Hg, !Hg32 by lia. unfold kind_of in HQ. offs.
  destruct (get8 p 13 =? TH_ACK); [exact HQ|]. destruct (get8 p 13 =? TH_FIN); [exact HQ|].
  replace (Z.to_nat (Z.of_nat (length p) - Z.of_nat 20)) with (length p - 20)%nat by lia. wgo.
  apply wlp_rdn; [lia|]. replace (slice (upd zs 0 p) 20 (length p - 20)) with (drop 20 p); [exact HQ|].
  apply bytes_ext; [rewrite length_drop, length_slice; lia|]. rewrite length_drop. intros i Hi.
  rewrite get8_slice, Hg by lia. unfold get8. change (drop 20 p) with (skipn 20 p). by rewrite nth_skipn.
Qed.
End rules.
