(* ===== verification/StcpSystem.v ===== *)
(** Two hosts joined by a TCP connection, an STCP connection between them
    established. The applications, the transport threads, the receive threads and
    the network take steps in any order; the invariant says where every byte is
    that was written and not yet read. *)

From S2P Require Import Prelude.
From S2P Require Import Bytes.
From S2P Require Import MysockState.
From S2P Require Import PacketQueue.
From S2P Require Import NetworkIoTcp.
From S2P Require Import TcpSum.
From S2P Require Import Mysock.
From S2P Require Import ConnectionDemux.
From S2P Require Import StcpApi.
From S2P Require Import Transport.
From S2P Require Import MysockApi.
From S2P Require Import StcpFacts.
From S2P Require Import TransportFacts.

(* ------------------------------------------------------------------ *)
(** * Steps *)

(** One host, with what its application wrote to and read from the connection. *)
Record endpoint := mk_ep { ep_stack : stack; ep_written : bytes; ep_read : bytes }.

(** Bytes written before sequence numbers run out. *)
Definition within (w : bytes) : Prop := 1 + blen w < 2 ^ 32.

(** [deliver sd1 sd2 k st1 st2]: the network moves [k] bytes from the socket of
    mysocket [sd1] of [st1] to that of [sd2] of [st2]. *)
Definition deliver (sd1 sd2 : Z) (k : nat) (st1 st2 : stack) : option (stack * stack) :=
  match global_ctx st1 !! sd1, global_ctx st2 !! sd2 with
  | Some s1, Some s2 =>
      let n1 := network_state s1 in
      let n2 := network_state s2 in
      Some (sock_at st1 sd1 (set_network_state (set_net_out (drop k (net_out n1)) n1) s1),
            sock_at st2 sd2 (set_network_state (set_net_in (net_in n2 ++ take k (net_out n1)) n2) s2))
  | _, _ => None
  end.

Section steps.
Context {K : Kernel}.

(** Steps of the threads of host 1 and of the network, the other being host 2. *)
Inductive env_step (sd1 sd2 : Z) : endpoint * endpoint -> endpoint * endpoint -> Prop :=
  | env_transport e1 e2 errno st' :
      transport_thread_func sd1 errno (ep_stack e1) = Ok (tt, st') ->
      env_step sd1 sd2 (e1, e2) (mk_ep st' (ep_written e1) (ep_read e1), e2)
  | env_receive e1 e2 b st' :
      network_recv_thread_round sd1 (ep_stack e1) = Ok (b, st') ->
      env_step sd1 sd2 (e1, e2) (mk_ep st' (ep_written e1) (ep_read e1), e2)
  | env_deliver e1 e2 k st1' st2' :
      deliver sd1 sd2 k (ep_stack e1) (ep_stack e2) = Some (st1', st2') ->
      env_step sd1 sd2 (e1, e2) (mk_ep st1' (ep_written e1) (ep_read e1), mk_ep st2' (ep_written e2) (ep_read e2)).

(** Steps of host 1, its application's included. *)
Inductive host_step (sd1 sd2 : Z) : endpoint * endpoint -> endpoint * endpoint -> Prop :=
  | step_write e1 e2 buf r st' :
      wf_bytes buf -> within (ep_written e1 ++ buf) ->
      mywrite sd1 buf (ep_stack e1) = Ok (r, st') ->
      host_step sd1 sd2 (e1, e2) (mk_ep st' (ep_written e1 ++ buf) (ep_read e1), e2)
  | step_read e1 e2 n r data st' :
      (0 < n)%nat -> myread sd1 n (ep_stack e1) = Ok ((r, data), st') ->
      host_step sd1 sd2 (e1, e2) (mk_ep st' (ep_written e1) (ep_read e1 ++ data), e2)
  | step_env w w' : env_step sd1 sd2 w w' -> host_step sd1 sd2 w w'.

Lemma step_transport sd1 sd2 e1 e2 errno st' :
  transport_thread_func sd1 errno (ep_stack e1) = Ok (tt, st') ->
  host_step sd1 sd2 (e1, e2) (mk_ep st' (ep_written e1) (ep_read e1), e2).
Proof. intros H. by eapply step_env, env_transport. Qed.
Lemma step_receive sd1 sd2 e1 e2 b st' :
  network_recv_thread_round sd1 (ep_stack e1) = Ok (b, st') ->
  host_step sd1 sd2 (e1, e2) (mk_ep st' (ep_written e1) (ep_read e1), e2).
Proof. intros H. by eapply step_env, env_receive. Qed.
Lemma step_deliver sd1 sd2 e1 e2 k st1' st2' :
  deliver sd1 sd2 k (ep_stack e1) (ep_stack e2) = Some (st1', st2') ->
  host_step sd1 sd2 (e1, e2) (mk_ep st1' (ep_written e1) (ep_read e1), mk_ep st2' (ep_written e2) (ep_read e2)).
Proof. intros H. by eapply step_env, env_deliver. Qed.

(** A step of either host. *)
Definition swap {A} (p : A * A) : A * A := (snd p, fst p).
Definition net_step (sdA sdB : Z) (w w' : endpoint * endpoint) : Prop :=
  host_step sdA sdB w w' \/ host_step sdB sdA (swap w) (swap w').

Definition reaches (sdA sdB : Z) : endpoint * endpoint -> endpoint * endpoint -> Prop := rtc (net_step sdA sdB).
End steps.

(* ------------------------------------------------------------------ *)
(** * Sequence numbers in flight *)

(** Acknowledgements and data among the segments [l]. *)
Definition ack_of (p : bytes) : option Z := match kind_of p with KAck a => Some a | _ => None end.
Definition data_of (p : bytes) : option (Z * bytes) := match kind_of p with KData q d => Some (q, d) | _ => None end.
Definition acks_of (l : list bytes) : list Z := omap ack_of l.
Definition datas_of (l : list bytes) : list (Z * bytes) := omap data_of l.
Definition payloads (l : list bytes) : bytes := mjoin (snd <$> datas_of l).

(** Acknowledgements on their way, none decreasing, the last one [edge]. *)
Fixpoint acks_from (base : Z) (acks : list Z) (edge : Z) : Prop :=
  match acks with
  | [] => base = edge
  | a :: l => base <= a /\ acks_from a l edge
  end.

(** Data on its way, without gap or overlap from [edge] to [next]. *)
Fixpoint data_from (edge : Z) (ds : list (Z * bytes)) (next : Z) : Prop :=
  match ds with
  | [] => edge = next
  | (q, d) :: l => q = edge /\ data_from (edge + blen d) l next
  end.

Lemma acks_from_le base acks edge : acks_from base acks edge -> base <= edge /\ Forall (fun a => base <= a <= edge) acks.
Proof.
  revert base. induction acks as [|a l IH]; simpl; intros base; [intros ->; split; [lia|constructor]|].
  intros [Ha Hl]. destruct (IH a Hl) as [H1 H2]. split; [lia|]. constructor; [lia|].
  eapply Forall_impl; [exact H2|]. simpl. lia.
Qed.

Lemma acks_from_snoc base acks edge a : acks_from base acks edge -> edge <= a -> acks_from base (acks ++ [a]) a.
Proof.
  revert base. induction acks as [|x l IH]; simpl; intros base; [intros -> ?; done|].
  intros [Hx Hl] Ha. split; [done|]. auto.
Qed.

Lemma data_from_le edge ds next : data_from edge ds next -> edge <= next.
Proof.
  revert edge. induction ds as [|[q d] l IH]; simpl; intros edge; [lia|].
  intros [_ Hl%IH]. unfold blen in Hl. lia.
Qed.

Lemma data_from_snoc edge ds next d :
  data_from edge ds next -> data_from edge (ds ++ [(next, d)]) (next + blen d).
Proof.
  revert edge. induction ds as [|[q e] l IH]; simpl; intros edge; [by intros ->|].
  intros [-> Hl]. split; [done|]. by apply IH.
Qed.

Lemma data_from_length edge ds next : data_from edge ds next -> next = edge + blen (mjoin (snd <$> ds)).
Proof.
  revert edge. induction ds as [|[q d] l IH]; simpl; intros edge; [intros ->; unfold blen; simpl; lia|].
  intros [_ Hl%IH]. rewrite Hl. unfold blen.
  rewrite (length_app d). change (list_fmap _ _ snd l) with (l.*2). lia.
Qed.

(* ------------------------------------------------------------------ *)
(** * The invariant *)

(** An end of an established connection, not closing. *)
Record local (sd : Z) (s : mysock_context) (c : context_t) : Prop := {
  local_placed : placed sd s;
  local_open : listening s = false /\ close_requested s = false /\ eof s = false /\ blocking s = false;
  local_online : online (network_state s);
  local_phase : phase c = (false, CSTATE_ESTABLISHED, is_client c);
  local_window : window c;
  local_bytes : Forall wf_bytes (app_recv_queue s);
  local_up : Forall (fun d => d <> []) (app_send_queue s);
}.

(** The mysocket and transport context of a descriptor. *)
Definition runs (sd : Z) (st : stack) (s : mysock_context) (c : context_t) : Prop :=
  global_ctx st !! sd = Some s /\ transports st !! sd = Some (Running c).

(** A segment that the end with network context [net] accepts and takes for data
    or an acknowledgement. *)
Definition carries (net : network_context_t) (p : bytes) : Prop :=
  accepts net p /\ (length p <= 556)%nat /\ match kind_of p with KFin _ => False | _ => True end.

(** One direction: [w] was written, [r] read at the other end, [up] waits there
    for the application, [pending] here for the window; [base] and [next] are the
    sender's, [l12] the segments on their way to the receiver, [l21] those on
    their way back. *)
Record flow (w : bytes) (base next : Z) (pending : bytes) (l12 l21 : list bytes) (up r : bytes) : Prop := {
  flow_bytes : w = r ++ up ++ payloads l12 ++ pending;
  flow_next : next + blen pending = 1 + blen w;
  flow_within : within w;
  flow_seq : exists edge, acks_from base (acks_of l21) edge /\ data_from edge (datas_of l12) next;
}.
Definition flow_of (w : bytes) (s1 : mysock_context) (c1 : context_t) (l12 l21 : list bytes) (s2 : mysock_context)
    (r : bytes) : Prop :=
  flow w (SendBase c1) (next_seqnum c1) (mjoin (app_recv_queue s1)) l12 l21 (mjoin (app_send_queue s2)) r.

(** Both ends and what is between them: [w1] was written and [r1] read at end 1,
    [wire12] are the packets of the byte stream from 1 to 2. *)
Definition linked_at (sd1 sd2 : Z) (s1 : mysock_context) (c1 : context_t) (w1 r1 : bytes)
    (s2 : mysock_context) (c2 : context_t) (w2 r2 : bytes) (wire12 wire21 : list bytes) : Prop :=
  local sd1 s1 c1 /\ local sd2 s2 c2 /\ facing (network_state s1) (network_state s2)
  /\ net_in (network_state s2) ++ net_out (network_state s1) = frames wire12
  /\ net_in (network_state s1) ++ net_out (network_state s2) = frames wire21
  /\ Forall (carries (network_state s2)) (network_recv_queue s2 ++ wire12)
  /\ Forall (carries (network_state s1)) (network_recv_queue s1 ++ wire21)
  /\ flow_of w1 s1 c1 (network_recv_queue s2 ++ wire12) (network_recv_queue s1 ++ wire21) s2 r2
  /\ flow_of w2 s2 c2 (network_recv_queue s1 ++ wire21) (network_recv_queue s2 ++ wire12) s1 r1.

Definition linked_ends (sd1 sd2 : Z) (s1 : mysock_context) (c1 : context_t) (w1 r1 : bytes)
    (s2 : mysock_context) (c2 : context_t) (w2 r2 : bytes) : Prop :=
  exists wire12 wire21, linked_at sd1 sd2 s1 c1 w1 r1 s2 c2 w2 r2 wire12 wire21.

Lemma linked_at_sym sd1 sd2 s1 c1 w1 r1 s2 c2 w2 r2 w12 w21 :
  linked_at sd1 sd2 s1 c1 w1 r1 s2 c2 w2 r2 w12 w21 -> linked_at sd2 sd1 s2 c2 w2 r2 s1 c1 w1 r1 w21 w12.
Proof.
  intros (H1 & H2 & H3 & H4 & H5 & H6 & H7 & H8 & H9). pose proof (facing_sym _ _ H3). done.
Qed.

Lemma linked_ends_sym sd1 sd2 s1 c1 w1 r1 s2 c2 w2 r2 :
  linked_ends sd1 sd2 s1 c1 w1 r1 s2 c2 w2 r2 -> linked_ends sd2 sd1 s2 c2 w2 r2 s1 c1 w1 r1.
Proof. intros (w12 & w21 & H%linked_at_sym). by exists w21, w12. Qed.

(* ------------------------------------------------------------------ *)
(** * The work left *)

(** Weight of a segment waiting to be handled, and of one still on the wire. *)
Definition weight (p : bytes) : nat := match kind_of p with KData _ _ => 5 | _ => 1 end.
Definition handling (l : list bytes) : nat := sum_list_with weight l.
Definition carrying (l : list bytes) : nat := sum_list_with (fun p => Datatypes.S (weight p)) l.
Definition sending (l : list bytes) : nat := sum_list_with (fun d => 8 * Datatypes.S (length d))%nat l.

(** What one end has yet to do. *)
Definition work (s : mysock_context) : nat :=
  sending (app_recv_queue s) + handling (network_recv_queue s) + length (app_send_queue s)
  + (match net_out (network_state s) with [] => 0 | _ => 1 end).

(** What both have, with the packets between them. *)
Definition load (s1 s2 : mysock_context) (w12 w21 : list bytes) : nat :=
  work s1 + work s2 + carrying w12 + carrying w21.

Lemma load_sym s1 s2 w12 w21 : load s1 s2 w12 w21 = load s2 s1 w21 w12.
Proof. unfold load. lia. Qed.

Lemma handling_app l m : handling (l ++ m) = (handling l + handling m)%nat.
Proof. apply sum_list_with_app. Qed.
Lemma carrying_app l m : carrying (l ++ m) = (carrying l + carrying m)%nat.
Proof. apply sum_list_with_app. Qed.
Lemma handling_cons p l : handling (p :: l) = (weight p + handling l)%nat.
Proof. done. Qed.
Lemma carrying_cons p l : carrying (p :: l) = (Datatypes.S (weight p) + carrying l)%nat.
Proof. done. Qed.

(** The whole connection between [sd1] of [e1] and [sd2] of [e2]. *)
Definition connection (sd1 sd2 : Z) (e1 e2 : endpoint) : Prop :=
  exists s1 c1 s2 c2, runs sd1 (ep_stack e1) s1 c1 /\ runs sd2 (ep_stack e2) s2 c2
    /\ linked_ends sd1 sd2 s1 c1 (ep_written e1) (ep_read e1) s2 c2 (ep_written e2) (ep_read e2).

Lemma connection_sym sd1 sd2 e1 e2 : connection sd1 sd2 e1 e2 -> connection sd2 sd1 e2 e1.
Proof.
  intros (s1 & c1 & s2 & c2 & H1 & H2 & H3%linked_ends_sym). by exists s2, c2, s1, c1.
Qed.

(* ------------------------------------------------------------------ *)
(** * What a step does to one direction *)

Lemma payloads_app l m : payloads (l ++ m) = payloads l ++ payloads m.
Proof. unfold payloads, datas_of. by rewrite omap_app, fmap_app, join_app. Qed.
Lemma acks_app l m : acks_of (l ++ m) = acks_of l ++ acks_of m.
Proof. apply omap_app. Qed.
Lemma datas_app l m : datas_of (l ++ m) = datas_of l ++ datas_of m.
Proof. apply omap_app. Qed.

Lemma kind_is_ack p a l : kind_of p = KAck a ->
  acks_of (p :: l) = a :: acks_of l /\ datas_of (p :: l) = datas_of l /\ payloads (p :: l) = payloads l.
Proof.
  intros Hk. unfold payloads, acks_of, datas_of. cbn [omap list_omap]. unfold ack_of, data_of. by rewrite Hk.
Qed.
Lemma kind_is_data p q d l : kind_of p = KData q d ->
  acks_of (p :: l) = acks_of l /\ datas_of (p :: l) = (q, d) :: datas_of l /\ payloads (p :: l) = d ++ payloads l.
Proof.
  intros Hk. unfold payloads, acks_of, datas_of. cbn [omap list_omap]. unfold ack_of, data_of. by rewrite Hk.
Qed.

Section flows.
Context (w : bytes) (base next : Z) (pending : bytes) (l12 l21 : list bytes) (up r : bytes).
Context (Hf : flow w base next pending l12 l21 up r).

(** The application writes. *)
Lemma flow_write buf : within (w ++ buf) -> flow (w ++ buf) base next (pending ++ buf) l12 l21 up r.
Proof.
  destruct Hf as [H1 H2 H3 H4]. intros Hw. split; [rewrite H1, <- !app_assoc; done| |done|done].
  unfold blen in *. rewrite !length_app. lia.
Qed.

(** The sender sends a prefix of what is pending. *)
Lemma flow_send p d pending' :
  kind_of p = KData next d -> pending = d ++ pending' ->
  flow w base (next + blen d) pending' (l12 ++ [p]) l21 up r.
Proof.
  destruct Hf as [H1 H2 H3 (edge & H4 & H5)]. intros Hk ->. destruct (kind_is_data p next d [] Hk) as (_ & Hd & Hp).
  split; [| |done|].
  - rewrite H1, payloads_app, Hp. unfold payloads at 2. simpl. rewrite app_nil_r, <- !app_assoc. done.
  - unfold blen in *. rewrite length_app in H2. lia.
  - exists edge. split; [done|]. rewrite datas_app, Hd. by apply data_from_snoc.
Qed.

(** The sender takes an acknowledgement. *)
Lemma flow_acked p a l : l21 = p :: l -> kind_of p = KAck a ->
  base <= a <= next /\ flow w a next pending l12 l up r.
Proof.
  intros -> Hk. destruct Hf as [H1 H2 H3 (edge & H4 & H5)]. destruct (kind_is_ack p a l Hk) as (Ha & _ & _).
  rewrite Ha in H4. destruct H4 as [Hb H4]. pose proof (acks_from_le _ _ _ H4) as [He _].
  pose proof (data_from_le _ _ _ H5). split; [lia|]. split; try done. by exists edge.
Qed.

(** Data on its way back is none of this direction's business. *)
Lemma flow_skip p q d l : l21 = p :: l -> kind_of p = KData q d -> flow w base next pending l12 l up r.
Proof.
  intros -> Hk. destruct Hf as [H1 H2 H3 H4]. destruct (kind_is_data p q d l Hk) as (Ha & _ & _).
  split; try done. by rewrite Ha in H4.
Qed.

(** Nor are acknowledgements and data going the other way. *)
Lemma flow_skip_ack p a l : l12 = p :: l -> kind_of p = KAck a -> flow w base next pending l l21 up r.
Proof.
  intros -> Hk. destruct Hf as [H1 H2 H3 H4]. destruct (kind_is_ack p a l Hk) as (_ & Hd & Hp).
  rewrite Hd in H4. rewrite Hp in H1. by split.
Qed.
Lemma flow_other_data p q d : kind_of p = KData q d -> flow w base next pending l12 (l21 ++ [p]) up r.
Proof.
  intros Hk. destruct Hf as [H1 H2 H3 H4]. destruct (kind_is_data p q d [] Hk) as (Ha & _ & _).
  split; try done. by rewrite acks_app, Ha, app_nil_r.
Qed.
Lemma flow_other_ack p a : kind_of p = KAck a -> flow w base next pending (l12 ++ [p]) l21 up r.
Proof.
  intros Hk. destruct Hf as [H1 H2 H3 H4]. destruct (kind_is_ack p a [] Hk) as (_ & Hd & Hp).
  rewrite <- (app_nil_r (datas_of l12)) in H4. change (@nil (Z * bytes)) with (datas_of []) in H4.
  split; try done.
  - rewrite payloads_app, Hp. unfold payloads at 2. simpl. by rewrite app_nil_r.
  - by rewrite datas_app, Hd.
Qed.

(** The receiver takes data and acknowledges it. *)
Lemma flow_received p q d l ackp :
  l12 = p :: l -> kind_of p = KData q d -> kind_of ackp = KAck (u32 (q + blen d)) -> 0 <= base ->
  flow w base next pending l (l21 ++ [ackp]) (up ++ d) r /\ 0 <= q + blen d < 2 ^ 32.
Proof.
  intros -> Hk Hack Hb. destruct Hf as [H1 H2 H3 (edge & H4 & H5)].
  destruct (kind_is_data p q d l Hk) as (_ & Hd & Hp).
  rewrite Hd in H5. destruct H5 as [-> H5]. pose proof (data_from_le _ _ _ H5) as Hle.
  pose proof (acks_from_le _ _ _ H4) as [He _]. unfold within, blen in *.
  rewrite u32_small in Hack by lia. destruct (kind_is_ack ackp _ [] Hack) as (Ha & _ & _).
  split; [|lia]. split; try done.
  - rewrite H1, Hp, <- !app_assoc. done.
  - exists (edge + Z.of_nat (length d)). split; [|done]. rewrite acks_app, Ha.
    eapply acks_from_snoc; [exact H4|]. lia.
Qed.

(** The application reads a prefix of what waits for it. *)
Lemma flow_read d up' : up = d ++ up' -> flow w base next pending l12 l21 up' (r ++ d).
Proof.
  intros ->. destruct Hf as [H1 H2 H3 H4]. split; try done. rewrite H1, <- !app_assoc. done.
Qed.
End flows.
