(* ===== verification/StcpInvariant.v ===== *)
(** Every step of an established connection keeps its invariant, and none
    hits undefined behaviour: an operation succeeds or waits. *)

From S2P Require Import Prelude.
From S2P Require Import Bytes.
From S2P Require Import MysockState.
From S2P Require Import PacketQueue.
From S2P Require Import NetworkIoTcp.
From S2P Require Import TcpSum.
From S2P Require Import Mysock.
From S2P Require Import ConnectionDemux.
From S2P Require Import StcpApi.
From S2P Require Import Transport.
From S2P Require Import MysockApi.
From S2P Require Import StcpFacts.
From S2P Require Import TransportFacts.
From S2P Require Import StcpSystem.

(** The only fault tolerated. *)
Definition waits (f : fault) : Prop := f = Blocked.

(** [s'] differs from [s] in its queues and what its socket sent and received. *)
Definition same_sock (s s' : mysock_context) : Prop :=
  my_sd s' = my_sd s /\ listening s' = listening s /\ close_requested s' = close_requested s /\ eof s' = eof s
  /\ blocking s' = blocking s /\ is_active s' = is_active s /\ same_ends (network_state s) (network_state s').

(** What an end of a connection is from its opening on. *)
Definition role (s : mysock_context) (c : context_t) : bool * Z * bool * bool :=
  (is_active s, listen_sd s, transport_thread_started s, is_client c).

(** Only mysocket [sd] and its thread differ. *)
Definition elsewhere (sd : Z) (st st' : stack) : Prop :=
  host_ip st' = host_ip st /\ listen_table st' = listen_table st
  /\ delete sd (global_ctx st') = delete sd (global_ctx st) /\ delete sd (transports st') = delete sd (transports st).

Lemma elsewhere_refl sd st : elsewhere sd st st.
Proof. done. Qed.
Lemma elsewhere_trans sd st1 st2 st3 : elsewhere sd st1 st2 -> elsewhere sd st2 st3 -> elsewhere sd st1 st3.
Proof. intros (A1 & A2 & A3 & A4) (B1 & B2 & B3 & B4). split; [|split; [|split]]; congruence. Qed.
Lemma elsewhere_sock sd st s : elsewhere sd st (sock_at st sd s).
Proof. split; [done|]. split; [done|]. split; [apply delete_insert_eq|done]. Qed.
Lemma elsewhere_socks sd st s s' : elsewhere sd (sock_at st sd s) (sock_at st sd s').
Proof. split; [done|]. split; [done|]. split; [|done]. simpl. by rewrite !delete_insert_eq. Qed.
Lemma elsewhere_thread sd st t : elsewhere sd st (set_transports (<[sd := t]> (transports st)) st).
Proof. split; [done|]. split; [done|]. split; [done|apply delete_insert_eq]. Qed.

Lemma local_keep sd s s' c c' :
  local sd s c -> same_sock s s' -> phase c' = phase c -> window c' ->
  Forall wf_bytes (app_recv_queue s') -> Forall (fun d => d <> []) (app_send_queue s') -> local sd s' c'.
Proof.
  intros [[H1 H1'] H2 H3 H4 H5 H6 H7] (E1 & E2 & E3 & E4 & E5 & E6 & E7) Hp Hw Hb Hu.
  assert (Hi : is_client c' = is_client c) by (unfold phase in Hp; congruence).
  split; try done.
  - by rewrite <- E1 in H1.
  - by rewrite E2, E3, E4, E5.
  - by apply (same_ends_online (network_state s)).
  - by rewrite Hp, Hi.
Qed.

Lemma role_phase s s' c c' :
  role s' c = role s c -> phase c' = phase c -> role s' c' = role s c.
Proof. unfold role, phase. congruence. Qed.

Lemma carries_same a b l : same_ends a b -> Forall (carries a) l -> Forall (carries b) l.
Proof.
  intros He Hl. eapply Forall_impl; [exact Hl|]. intros p (H1 & H2). split; [|done].
  by apply (same_ends_accepts a).
Qed.

Lemma sent_net s ps :
  network_state (sent ps s) = set_net_out (net_out (network_state s) ++ frames ps) (network_state s).
Proof. done. Qed.

(** A segment built here is carried there. *)
Lemma carries_sealed a b p :
  facing a b -> segment_ok p -> (length p <= 556)%nat ->
  match kind_of p with KFin _ => False | _ => True end -> carries b (sealed a p).
Proof.
  intros Hf Hok Hl Hk. pose proof Hok as [_ H20]. unfold blen in H20.
  split; [by apply sealed_accepted|]. split; [rewrite length_sealed by lia; done|].
  by rewrite kind_sealed by lia.
Qed.

Lemma mjoin_cons (d : bytes) (l : list bytes) : mjoin (d :: l) = d ++ mjoin l.
Proof. done. Qed.
Lemma mjoin_snoc (l : list bytes) (d : bytes) : mjoin (l ++ [d]) = mjoin l ++ d.
Proof. rewrite join_app. cbn. by rewrite app_nil_r. Qed.

Lemma window_base c : window c -> 1 <= SendBase c /\ 0 <= next_seqnum c < 2 ^ 32.
Proof. intros (H1 & H2 & H3 & H4 & H5 & H6 & H7 & H8 & H9). lia. Qed.

Section moves.
Context (sd1 sd2 : Z) (s1 : mysock_context) (c1 : context_t) (w1 r1 : bytes).
Context (s2 : mysock_context) (c2 : context_t) (w2 r2 : bytes).
Context (w12 w21 : list bytes) (Hl : linked_at sd1 sd2 s1 c1 w1 r1 s2 c2 w2 r2 w12 w21).

(** The transport layer sends the first [d] of the pending data. *)
Lemma linked_send c1' d data rest q win :
  app_recv_queue s1 = data :: q -> mjoin (data :: q) = d ++ mjoin rest -> wf_bytes d -> Forall wf_bytes rest ->
  blen d <= 536 -> window c1' -> phase c1' = phase c1 -> SendBase c1' = SendBase c1 ->
  next_seqnum c1' = next_seqnum c1 + blen d ->
  linked_at sd1 sd2
    (sent [sealed (network_state s1) (segment (next_seqnum c1) (Some 5) 0 win d)] (set_app_recv_queue rest s1))
    c1' w1 r1 s2 c2 w2 r2
    (w12 ++ [sealed (network_state s1) (segment (next_seqnum c1) (Some 5) 0 win d)]) w21.
Proof.
  destruct Hl as (H1 & H2 & H3 & H4 & H5 & H6 & H7 & H8 & H9).
  intros Hq Hm Hd Hr Hb Hw Hp Hsb Hn. set (seg := segment _ _ _ _ _).
  assert (Hk : kind_of (sealed (network_state s1) seg) = KData (next_seqnum c1) d).
  { rewrite kind_sealed by (subst seg; rewrite length_segment; lia). apply kind_data.
    destruct H1 as [_ _ _ _ Hw1 _ _]. by apply window_base. }
  split; [|split; [done|split; [|split; [|split; [|split; [|split; [|split]]]]]]].
  - apply (local_keep sd1 s1 _ c1); try done. by destruct H1.
  - by apply (same_ends_facing (network_state s1)).
  - cbn [network_state sent set_app_recv_queue set_network_state net_out set_net_out].
    by rewrite frames_app, <- H4, app_assoc.
  - done.
  - rewrite app_assoc. apply Forall_app. split; [done|]. constructor; [|constructor].
    apply carries_sealed; [done|by apply segment_segment_ok; [|lia]| |].
    + subst seg. rewrite length_segment. unfold blen in Hb. lia.
    + subst seg. rewrite kind_data; [done|]. destruct H1 as [_ _ _ _ Hw1 _ _]. by apply window_base.
  - by apply (carries_same (network_state s1)).
  - unfold flow_of in *. rewrite Hsb, Hn, app_assoc. eapply flow_send; [exact H8|exact Hk|].
    rewrite Hq. exact Hm.
  - unfold flow_of in *. rewrite app_assoc. eapply flow_other_data; [exact H9|exact Hk].
Qed.

(** The transport layer takes an acknowledgement. *)
Lemma linked_ack p a q :
  network_recv_queue s1 = p :: q -> kind_of p = KAck a ->
  SendBase c1 <= a <= next_seqnum c1 /\
  forall c1', window c1' -> phase c1' = phase c1 -> SendBase c1' = a -> next_seqnum c1' = next_seqnum c1 ->
    linked_at sd1 sd2 (set_network_recv_queue q s1) c1' w1 r1 s2 c2 w2 r2 w12 w21.
Proof.
  destruct Hl as (H1 & H2 & H3 & H4 & H5 & H6 & H7 & H8 & H9). intros Hq Hk.
  unfold flow_of in *. rewrite Hq in H7, H8, H9. simpl app in H7, H8, H9.
  destruct (flow_acked _ _ _ _ _ _ _ _ H8 _ _ _ eq_refl Hk) as [Ha Hf]. split; [done|].
  intros c1' Hw Hp Hsb Hn.
  split; [|split; [done|split; [done|split; [done|split; [done|split; [done|split; [|split]]]]]]].
  - apply (local_keep sd1 s1 _ c1); try done; by destruct H1.
  - by apply Forall_inv_tail in H7.
  - unfold flow_of. by rewrite Hsb, Hn.
  - unfold flow_of. eapply flow_skip_ack; [exact H9|done|exact Hk].
Qed.

(** The transport layer takes data, acknowledges it and hands it up. *)
Lemma linked_data p sq d q c1' z :
  network_recv_queue s1 = p :: q -> kind_of p = KData sq d ->
  window c1' -> phase c1' = phase c1 -> SendBase c1' = SendBase c1 -> next_seqnum c1' = next_seqnum c1 ->
  linked_at sd1 sd2
    (set_app_send_queue (match d with [] => app_send_queue s1 | _ => app_send_queue s1 ++ [d] end)
      (sent [sealed (network_state s1) (ack_segment (u32 (sq + blen d)) z)] (set_network_recv_queue q s1)))
    c1' w1 r1 s2 c2 w2 r2 (w12 ++ [sealed (network_state s1) (ack_segment (u32 (sq + blen d)) z)]) w21.
Proof.
  destruct Hl as (H1 & H2 & H3 & H4 & H5 & H6 & H7 & H8 & H9). intros Hq Hk Hw Hp Hsb Hn.
  set (seg := ack_segment _ _). unfold flow_of in *.
  rewrite Hq in H7, H8, H9. simpl app in H7, H8, H9.
  assert (Hka : kind_of (sealed (network_state s1) seg) = KAck (u32 (sq + blen d))).
  { rewrite kind_sealed by (subst seg; rewrite length_ack_segment; lia). apply kind_ack, u32_range. }
  pose proof (window_base c2 (local_window _ _ _ H2)) as [Hb2 _].
  destruct (flow_received _ _ _ _ _ _ _ _ H9 _ _ _ _ (sealed (network_state s1) seg) eq_refl Hk Hka) as [Hf Hr]; [lia|].
  assert (Hup : Forall (fun d => d <> []) (app_send_queue s1)) by by destruct H1.
  split; [|split; [done|split; [|split; [|split; [done|split; [|split; [|split]]]]]]].
  - apply (local_keep sd1 s1 _ c1); try done; [by destruct H1|].
    cbn [app_send_queue set_app_send_queue]. destruct d as [|x d]; [done|].
    apply Forall_app. split; [done|]. by constructor.
  - by apply (same_ends_facing (network_state s1)).
  - cbn [network_state sent set_app_send_queue set_network_recv_queue set_network_state net_out set_net_out].
    by rewrite frames_app, <- H4, app_assoc.
  - rewrite app_assoc. apply Forall_app. split; [done|]. constructor; [|constructor].
    apply carries_sealed; [done|apply ack_segment_ok|subst seg; rewrite length_ack_segment; lia|].
    subst seg. rewrite kind_ack by apply u32_range. done.
  - apply Forall_inv_tail in H7. by apply (carries_same (network_state s1)).
  - unfold flow_of. rewrite Hsb, Hn, app_assoc. eapply flow_other_ack; [|exact Hka].
    eapply flow_skip; [exact H8|done|exact Hk].
  - unfold flow_of. rewrite app_assoc.
    replace (mjoin (app_send_queue (set_app_send_queue _ _))) with (mjoin (app_send_queue s1) ++ d); [exact Hf|].
    cbn [app_send_queue set_app_send_queue]. destruct d as [|x d]; [apply app_nil_r|]. by rewrite mjoin_snoc.
Qed.

(** The application writes. *)
Lemma linked_write buf :
  wf_bytes buf -> within (w1 ++ buf) ->
  linked_at sd1 sd2 (set_app_recv_queue (app_recv_queue s1 ++ [buf]) s1) c1 (w1 ++ buf) r1 s2 c2 w2 r2 w12 w21.
Proof.
  destruct Hl as (H1 & H2 & H3 & H4 & H5 & H6 & H7 & H8 & H9). intros Hb Hw.
  split; [|split; [done|split; [done|split; [done|split; [done|split; [done|split; [done|split; [|done]]]]]]]].
  - apply (local_keep sd1 s1 _ c1); try done; [by destruct H1| |by destruct H1].
    cbn [app_recv_queue set_app_recv_queue]. apply Forall_app. split; [by destruct H1|]. by constructor.
  - unfold flow_of in *. cbn [app_recv_queue set_app_recv_queue]. rewrite mjoin_snoc. by apply flow_write.
Qed.

(** The application reads a prefix of what is there. *)
Lemma linked_read d up' :
  mjoin (app_send_queue s1) = d ++ mjoin up' -> Forall (fun d => d <> []) up' ->
  linked_at sd1 sd2 (set_app_send_queue up' s1) c1 w1 (r1 ++ d) s2 c2 w2 r2 w12 w21.
Proof.
  destruct Hl as (H1 & H2 & H3 & H4 & H5 & H6 & H7 & H8 & H9). intros Hd Hu.
  split; [|split; [done|split; [done|split; [done|split; [done|split; [done|split; [done|split; [done|]]]]]]]].
  - apply (local_keep sd1 s1 _ c1); try done; by destruct H1.
  - unfold flow_of in *. cbn [app_send_queue set_app_send_queue]. by eapply flow_read.
Qed.

End moves.

(** The receive thread takes a packet off the wire. *)
Lemma linked_receive sd1 sd2 s1 c1 w1 r1 s2 c2 w2 r2 p rest' w12 w21 :
  local sd1 s1 c1 -> local sd2 s2 c2 -> facing (network_state s1) (network_state s2) ->
  net_in (network_state s2) ++ net_out (network_state s1) = frames w12 ->
  net_in (network_state s1) = frame p ++ rest' -> rest' ++ net_out (network_state s2) = frames w21 ->
  Forall (carries (network_state s2)) (network_recv_queue s2 ++ w12) ->
  Forall (carries (network_state s1)) (network_recv_queue s1 ++ p :: w21) ->
  flow_of w1 s1 c1 (network_recv_queue s2 ++ w12) (network_recv_queue s1 ++ p :: w21) s2 r2 ->
  flow_of w2 s2 c2 (network_recv_queue s1 ++ p :: w21) (network_recv_queue s2 ++ w12) s1 r1 ->
  linked_at sd1 sd2
    (set_network_recv_queue (network_recv_queue s1 ++ [p]) (set_network_state (set_net_in rest' (network_state s1)) s1))
    c1 w1 r1 s2 c2 w2 r2 w12 w21.
Proof.
  intros H1 H2 H3 H4 Hin H5 H6 H7 H8 H9.
  unfold linked_at. cbn [network_recv_queue set_network_recv_queue]. rewrite <- !app_assoc. simpl app.
  split; [|split; [done|split; [|split; [done|split; [done|split; [done|split; [|split; [done|done]]]]]]]].
  - apply (local_keep sd1 s1 _ c1); try done; by destruct H1.
  - by apply (same_ends_facing (network_state s1)).
  - by apply (carries_same (network_state s1)).
Qed.

(* ------------------------------------------------------------------ *)
(** * The operations *)

Section operations.
Context {K : Kernel} {KOk : KernelOk K}.

(** After an operation at end 1: its mysocket and context again linked to end 2,
    their role [r] kept, and less to do, if [busy]. *)
Definition again sd1 sd2 w1 r1 s2 c2 w2 r2 (st : stack) r (before : nat) (busy : Prop) (c : context_t) (st' : stack)
    : Prop :=
  exists s' w12' w21', st' = sock_at st sd1 s' /\ role s' c = r /\ linked_at sd1 sd2 s' c w1 r1 s2 c2 w2 r2 w12' w21'
    /\ (load s' s2 w12' w21' <= before)%nat /\ (busy -> (load s' s2 w12' w21' < before)%nat).

Section end1.
Context (F : fault -> Prop) (sd1 sd2 : Z) (s1 : mysock_context) (c1 : context_t) (w1 r1 : bytes).
Context (s2 : mysock_context) (c2 : context_t) (w2 r2 : bytes) (st : stack) (w12 w21 : list bytes).
Context (Hl : linked_at sd1 sd2 s1 c1 w1 r1 s2 c2 w2 r2 w12 w21).

Lemma wlp_app_data_linked data q :
  app_recv_queue s1 = data :: q ->
  wlp F (handle_app_data sd1 c1)
    (fun c st' => exists s' w12', st' = sock_at st sd1 s' /\ network_recv_queue s' = network_recv_queue s1
       /\ role s' c = role s1 c1 /\ linked_at sd1 sd2 s' c w1 r1 s2 c2 w2 r2 w12' w21
       /\ (load s' s2 w12' w21 <= load s1 s2 w12 w21)%nat
       /\ (rem c1 <> 0 -> (load s' s2 w12' w21 < load s1 s2 w12 w21)%nat)) (sock_at st sd1 s1).
Proof.
  intros Hq. pose proof Hl as (H1 & _ & _ & _ & _ & _ & _ & H8 & _).
  destruct (decide (rem c1 = 0)) as [Hz|Hnz].
  { unfold handle_app_data. rewrite Hz. wgo. by exists s1, w12. }
  pose proof (window_size c1 (local_window _ _ _ H1)) as [Hs Hr].
  assert (Hbytes : Forall wf_bytes (data :: q)) by (rewrite <- Hq; by destruct H1).
  apply Forall_cons in Hbytes as [Hd Hqs]. destruct H8 as [_ Hn Hw _].
  rewrite Hq, mjoin_cons in Hn. unfold within, blen in *. rewrite length_app in Hn.
  eapply wlp_handle_app_data; [by destruct H1|by destruct H1|by destruct H1|lia|exact Hq|done|unfold blen; lia|].
  cbv zeta. set (k := Z.to_nat (Z.min (rem c1) MSS)). set (n := (k `min` length data)%nat).
  intros c' Hw' Hp Hsb Hrb Hnx. eexists _, _. split; [reflexivity|]. split; [done|]. split; [by apply role_phase|].
  assert (Hk : (0 < k)%nat) by (subst k; unfold MSS; lia).
  assert (Hlen : length (take n data) = n) by (rewrite length_take; lia).
  set (rest := if (k <? length data)%nat then drop n data :: q else q).
  assert (Hsend : (sending rest + 8 <= sending (data :: q))%nat).
  { subst rest. unfold sending. cbn [sum_list_with]. destruct (Nat.ltb_spec k (length data)); [|lia].
    cbn [sum_list_with]. rewrite length_drop. lia. }
  split.
  - eapply (linked_send _ _ _ _ _ _ _ _ _ _ _ _ Hl c' (take n data) data rest q); try done.
    + rewrite mjoin_cons. subst rest. destruct (Nat.ltb_spec k (length data)); [by rewrite mjoin_cons, app_assoc, take_drop|].
      by rewrite take_ge by lia.
    + by apply Forall_take.
    + subst rest. destruct (Nat.ltb_spec k (length data)); [|done]. constructor; [by apply Forall_drop|done].
    + unfold blen. rewrite Hlen. subst n k. unfold MSS. lia.
    + unfold blen. rewrite Hlen, Hnx. lia.
  - unfold load, work. rewrite carrying_app. cbn [app_recv_queue network_recv_queue app_send_queue network_state sent
      set_app_recv_queue set_network_state net_out set_net_out]. rewrite Hq.
    set (p := sealed _ _). assert (Hwt : (carrying [p] <= 6)%nat).
    { unfold carrying, weight. cbn [sum_list_with]. destruct (kind_of p); lia. }
    destruct (net_out (network_state s1) ++ frames [p]), (net_out (network_state s1)); split; intros; lia.
Qed.

Lemma wlp_network_data_linked p q :
  network_recv_queue s1 = p :: q ->
  wlp F (handle_network_data sd1 c1) (again sd1 sd2 w1 r1 s2 c2 w2 r2 st (role s1 c1) (load s1 s2 w12 w21) True) (sock_at st sd1 s1).
Proof.
  intros Hq. pose proof Hl as (H1 & _ & _ & _ & _ & _ & H7 & _).
  rewrite Hq in H7. apply Forall_inv in H7. destruct H7 as (Hacc & Hlen & Hkind).
  eapply wlp_handle_network_data; [by destruct H1|by destruct H1 as [_ _ [] _ _ _ _]|exact Hq|done|done|].
  destruct (kind_of p) as [a| |n d] eqn:Hk; [|done|].
  - destruct (linked_ack _ _ _ _ _ _ _ _ _ _ _ _ Hl _ _ _ Hq Hk) as [Ha Hnext].
    apply wlp_handle_ack; [by destruct H1|done|]. intros c' Hw Hp Hsb _ Hn.
    eexists _, w12, w21. split; [reflexivity|]. split; [by apply role_phase|]. split; [by apply Hnext|].
    unfold load, work. cbn [app_recv_queue network_recv_queue app_send_queue network_state set_network_recv_queue].
    rewrite Hq, handling_cons. unfold weight. rewrite Hk. split; intros; lia.
  - apply wlp_handle_data; [by destruct H1|by destruct H1|]. eexists _, _, w21. split; [reflexivity|]. split; [by destruct d|]. split.
    + by apply (linked_data _ _ _ _ _ _ _ _ _ _ _ _ Hl p n d q); try done; destruct H1.
    + unfold load, work. rewrite carrying_app. cbn [app_recv_queue network_recv_queue app_send_queue network_state
        set_network_recv_queue set_app_send_queue sent set_network_state net_out set_net_out].
      set (a := sealed _ _). assert (Hka : carrying [a] = 2%nat).
      { subst a. unfold carrying, weight. cbn [sum_list_with]. rewrite kind_sealed by (rewrite length_ack_segment; lia).
        by rewrite kind_ack by apply u32_range. }
      rewrite Hq, handling_cons, Hka. unfold weight. rewrite Hk.
      assert (Hup : (length (match d with [] => app_send_queue s1 | _ => app_send_queue s1 ++ [d] end)
                     <= length (app_send_queue s1) + 1)%nat).
      { destruct d; [lia|]. rewrite length_app. simpl. lia. }
      set (up := length (match d with [] => _ | _ => _ end)) in *. clearbody up.
      destruct (net_out (network_state s1) ++ frames [a]), (net_out (network_state s1)); split; intros; lia.
Qed.
End end1.

(** One round of the control loop; it waits only with nothing to do. *)
Lemma wlp_control_linked F sd1 sd2 s1 c1 w1 r1 s2 c2 w2 r2 st w12 w21 :
  linked_at sd1 sd2 s1 c1 w1 r1 s2 c2 w2 r2 w12 w21 ->
  (app_recv_queue s1 = [] -> network_recv_queue s1 = [] -> F Blocked) ->
  wlp F (control_iteration sd1 c1)
    (again sd1 sd2 w1 r1 s2 c2 w2 r2 st (role s1 c1) (load s1 s2 w12 w21)
       (network_recv_queue s1 <> [] \/ app_recv_queue s1 <> [] /\ rem c1 <> 0)) (sock_at st sd1 s1).
Proof.
  intros Hl HF. pose proof Hl as ([P1 (P2 & P3 & P4 & P5) P6 P7 P8 P9 P10] & _).
  unfold control_iteration. wgo. apply wlp_wait_for_event; [done|]. unfold ready_events.
  cbn [ev_app_data ev_network_data ev_close ANY_EVENT andb]. rewrite P3. cbn [andb]. rewrite orb_false_r.
  destruct (bool_decide (app_recv_queue s1 = [] /\ network_recv_queue s1 = [])) eqn:Hb.
  { apply bool_decide_eq_true in Hb as [H1 H2]. rewrite H1, H2. by apply HF. }
  apply bool_decide_eq_false in Hb.
  lazymatch goal with |- context [if ?b then _ else F Blocked] => replace b with true by
    (destruct (app_recv_queue s1), (network_recv_queue s1); naive_solver) end.
  wgo. apply (wlp_mono _ _ (fun c st' => exists s' w12', st' = sock_at st sd1 s' /\ network_recv_queue s' = network_recv_queue s1
       /\ role s' c = role s1 c1 /\ linked_at sd1 sd2 s' c w1 r1 s2 c2 w2 r2 w12' w21 /\ (load s' s2 w12' w21 <= load s1 s2 w12 w21)%nat
       /\ (app_recv_queue s1 <> [] -> rem c1 <> 0 -> (load s' s2 w12' w21 < load s1 s2 w12 w21)%nat))).
  { destruct (app_recv_queue s1) as [|data q] eqn:Ha; [wgo; by exists s1, w12|].
    eapply wlp_mono; [exact (wlp_app_data_linked F _ _ _ _ _ _ _ _ _ _ _ _ _ Hl data q Ha)|].
    intros c st' (s' & w12' & H2 & H3 & H4 & H5 & H6 & H7). exists s', w12'.
    split; [done|]. split; [congruence|]. split; [done|]. split; [done|]. split; [done|]. intros _. exact H7. }
  intros c st' (s' & w12' & -> & Hqs & Hro & Hl' & Hle & Hlt). pose proof Hl' as (H1' & _).
  destruct H1' as [_ _ _ P7' _ _ _]. unfold phase in P7'. injection P7' as Hdone Hst.
  rewrite Hst. rewrite (bool_decide_eq_false_2 (CSTATE_ESTABLISHED = CSTATE_FIN_WAIT_1)),
    (bool_decide_eq_false_2 (CSTATE_ESTABLISHED = CSTATE_LAST_ACK)) by done. rewrite andb_false_r. wgo.
  destruct (network_recv_queue s1) as [|p q] eqn:Hq.
  - wgo. exists s', w12', w21. split; [done|]. split; [done|]. split; [done|]. split; [lia|]. intros [?|[? ?]]; [done|]. by apply Hlt.
  - eapply wlp_mono; [exact (wlp_network_data_linked F _ _ _ _ _ _ _ _ _ _ _ _ _ Hl' p q Hqs)|].
    intros c' st' (s'' & w12'' & w21'' & -> & H2 & H3 & H4 & H5). wgo. exists s'', w12'', w21''.
    split; [done|]. split; [congruence|]. split; [done|]. specialize (H5 I). split; [lia|]. intros; lia.
Qed.

(** After an operation on the stack [st] of end 1: still linked to end 2, in the
    same role, nothing else of the host changed, and less to do, if [busy]. *)
Definition later sd1 sd2 w1 r1 s2 c2 w2 r2 (st : stack) r (before : nat) (busy : Prop) (st' : stack) : Prop :=
  exists s' c' w12' w21', runs sd1 st' s' c' /\ elsewhere sd1 st st' /\ role s' c' = r /\ linked_at sd1 sd2 s' c' w1 r1 s2 c2 w2 r2 w12' w21'
    /\ (load s' s2 w12' w21' <= before)%nat /\ (busy -> (load s' s2 w12' w21' < before)%nat).

Section host1.
Context (F : fault -> Prop) (sd1 sd2 : Z) (st : stack) (s1 : mysock_context) (c1 : context_t) (w1 r1 : bytes).
Context (s2 : mysock_context) (c2 : context_t) (w2 r2 : bytes) (w12 w21 : list bytes).
Context (Hrun : runs sd1 st s1 c1) (Hl : linked_at sd1 sd2 s1 c1 w1 r1 s2 c2 w2 r2 w12 w21).

Lemma runs_at s : runs sd1 (sock_at st sd1 s) s c1.
Proof. split; [apply lookup_insert_eq|]. by destruct Hrun. Qed.

(** The transport thread. *)
Lemma wlp_transport_linked errno :
  (app_recv_queue s1 = [] -> network_recv_queue s1 = [] -> F Blocked) ->
  wlp F (transport_thread_func sd1 errno)
    (fun _ => later sd1 sd2 w1 r1 s2 c2 w2 r2 st (role s1 c1) (load s1 s2 w12 w21)
       (network_recv_queue s1 <> [] \/ app_recv_queue s1 <> [] /\ rem c1 <> 0)) st.
Proof.
  intros HF. destruct Hrun as [Hs Ht]. rewrite <- (sock_at_same _ _ _ Hs).
  pose proof Hl as ([P1 _ _ P7 _ _ _] & _). unfold phase in P7. injection P7 as Hd Hst.
  unfold transport_thread_func. wgo. apply wlp_the_context; [done|]. wgo.
  replace (transports (sock_at st sd1 s1) !! sd1) with (Some (Running c1)).
  unfold in_handshake. rewrite Hst. wgo.
  eapply wlp_mono; [by apply (wlp_control_linked F _ _ _ _ _ _ _ _ _ _ _ _ _ Hl)|].
  intros c st' (s' & a & b & -> & Hro & Hl' & Hle & Hlt). pose proof Hl' as ([_ _ _ P7 _ _ _] & _).
  unfold phase in P7. injection P7 as Hd' Hst'. rewrite Hd'. wgo.
  exists s', c, a, b. split; [split; simpl; apply lookup_insert_eq|]. split; [|done].
  eapply elsewhere_trans; [|apply elsewhere_thread]. apply elsewhere_socks.
Qed.

(** [mywrite] *)
Lemma wlp_mywrite_linked buf :
  wf_bytes buf -> within (w1 ++ buf) ->
  wlp F (mywrite sd1 buf)
    (fun r st' => r = inl (blen buf) /\ exists s', runs sd1 st' s' c1 /\ elsewhere sd1 st st' /\ role s' c1 = role s1 c1
       /\ linked_at sd1 sd2 s' c1 (w1 ++ buf) r1 s2 c2 w2 r2 w12 w21) st.
Proof.
  intros Hb Hw. destruct Hrun as [Hs Ht]. rewrite <- (sock_at_same _ _ _ Hs).
  pose proof Hl as ([P1 (P2 & P3 & _) _ _ _ _ _] & _).
  unfold mywrite. wgo. apply wlp_get_context; [done|]. wgo. rewrite P2, P3. cbn [negb]. wgo.
  apply wlp_at_sock. unfold enqueue_app_recv, _mysock_enqueue_buffer. wgo. split; [done|].
  eexists. split; [apply runs_at|]. split; [apply elsewhere_socks|]. split; [done|]. by apply linked_write.
Qed.

(** [myread] with room for at least one byte. *)
Lemma wlp_myread_linked n :
  (0 < n)%nat -> (app_send_queue s1 = [] -> F Blocked) ->
  wlp F (myread sd1 n)
    (fun r st' => fst r = inl (blen (snd r)) /\ 0 < blen (snd r) <= Z.of_nat n
       /\ later sd1 sd2 w1 (r1 ++ snd r) s2 c2 w2 r2 st (role s1 c1) (load s1 s2 w12 w21)
            (forall d q, app_send_queue s1 = d :: q -> (length d <= n)%nat) st') st.
Proof.
  intros Hn HF. destruct Hrun as [Hs Ht]. rewrite <- (sock_at_same _ _ _ Hs).
  pose proof Hl as ([P1 (P2 & P3 & P4 & _) _ _ _ _ P10] & _).
  unfold myread. wgo. apply wlp_get_context; [done|]. wgo. rewrite P2, P3, P4. cbn [negb]. wgo.
  apply wlp_at_sock. unfold dequeue_app_send, _mysock_dequeue_buffer. wgo.
  destruct (app_send_queue s1) as [|d q] eqn:Hq; [by apply HF|]. rewrite andb_true_r.
  apply Forall_cons in P10 as [Hd Hu]. assert (Hd0 : (0 < length d)%nat) by (destruct d; [done|simpl; lia]).
  destruct (Nat.ltb_spec n (length d)) as [Hlt|Hge].
  - wgo. rewrite (proj2 (Nat.eqb_neq _ _)) by lia. wgo. cbn [fst snd]. unfold blen. rewrite length_take.
    split; [do 2 f_equal; lia|]. split; [lia|].
    eexists _, c1, w12, w21. split; [apply runs_at|]. split; [apply elsewhere_socks|]. split; [done|]. split; [apply (linked_read _ _ _ _ _ _ _ _ _ _ _ _ Hl)|].
    + rewrite Hq, !mjoin_cons, app_assoc, take_drop. done.
    + constructor; [|done]. intros Hnil. apply (f_equal length) in Hnil. rewrite length_drop in Hnil. simpl in Hnil. lia.
    + unfold load, work. cbn [app_recv_queue network_recv_queue app_send_queue network_state set_app_send_queue].
      rewrite Hq. cbn [length]. split; [lia|]. intros Hall. specialize (Hall d q eq_refl). lia.
  - wgo. rewrite (proj2 (Nat.eqb_neq _ _)) by lia. wgo. cbn [fst snd]. rewrite take_ge by lia.
    split; [done|]. unfold blen. split; [lia|].
    eexists _, c1, w12, w21. split; [apply runs_at|]. split; [apply elsewhere_socks|]. split; [done|]. split; [apply (linked_read _ _ _ _ _ _ _ _ _ _ _ _ Hl)|].
    + by rewrite Hq, mjoin_cons.
    + done.
    + unfold load, work. cbn [app_recv_queue network_recv_queue app_send_queue network_state set_app_send_queue].
      rewrite Hq. cbn [length]. split; intros; lia.
Qed.

(** The receive thread. *)
Lemma wlp_receive_linked :
  (w21 = [] \/ net_out (network_state s2) <> [] -> F Blocked) ->
  wlp F (network_recv_thread_round sd1)
    (fun b st' => b = true /\ later sd1 sd2 w1 r1 s2 c2 w2 r2 st (role s1 c1) (load s1 s2 w12 w21) True st') st.
Proof.
  intros HF. destruct Hrun as [Hs Ht]. rewrite <- (sock_at_same _ _ _ Hs).
  pose proof Hl as (H1 & Hr & H3 & H4 & H5 & H6 & H7 & H8 & H9).
  pose proof H1 as [P1 (P2 & P3 & P4 & _) P5 _ _ _ P10].
  unfold network_recv_thread_round. wgo. apply wlp_at_sock. wgo. rewrite P2.
  apply wlp_at_sock, wlp_in_net. destruct w21 as [|p w21'] eqn:Hw21.
  { (* nothing on its way *)
    assert (net_in (network_state s1) = []) as Hin by (by destruct (net_in (network_state s1))).
    unfold _network_recv_packet. wgo.
    assert (Hgo : wlp F (if is_active s1 then _tcp_connect else mret 0) (fun rc c => rc = 0 /\ c = network_state s1)
      (network_state s1)).
    { destruct (is_active s1); [|by wgo]. unfold _tcp_connect. wgo. destruct P5 as (_ & _ & -> & _). cbn [negb]. by wgo. }
    eapply wlp_mono; [exact Hgo|]. intros rc c [-> ->]. cbn [Z.ltb Z.compare]. wgo.
    unfold recv_frame. wgo. apply wlp_tcp_read_any; [apply HF; by left|]. rewrite Hin. simpl. lia. }
  assert (Hp : carries (network_state s1) p) by (apply Forall_app in H7 as [_ H7]; by apply Forall_inv in H7).
  destruct Hp as ([[_ Hlen] _] & Hlen' & _).
  apply (wlp_recv_partial F p (frames w21') (net_out (network_state s2))).
  { intros Hne. apply HF. by right. }
  { exact H5. }
  { unfold blen, MAX_IP_PAYLOAD_LEN in *. lia. }
  { unfold blen, MAX_IP_PAYLOAD_LEN in *. lia. }
  { by destruct P5 as (_ & _ & -> & _). }
  intros rest' Hin Hout. wgo. unfold blen, MAX_IP_PAYLOAD_LEN in *.
  rewrite (proj2 (Z.leb_gt _ _)), (proj2 (Z.leb_le _ _)) by lia. wgo. apply wlp_at_sock. wgo.
  cbn [listening set_network_state]. rewrite P2. wgo. apply wlp_at_sock. unfold enqueue_network_recv. wgo. split; [done|].
  unfold _mysock_enqueue_buffer. eexists _, c1, w12, w21'. split; [apply runs_at|]. split; [apply elsewhere_socks|]. split; [done|].
  split; [exact (linked_receive sd1 sd2 s1 c1 _ _ s2 c2 _ _ p rest' w12 w21' H1 Hr H3 H4 Hin Hout H6 H7 H8 H9)|].
  unfold load, work. cbn [app_recv_queue network_recv_queue app_send_queue network_state set_network_recv_queue
    set_network_state net_out set_net_in].
  rewrite handling_app, carrying_cons, (handling_cons p []). cbn [handling sum_list_with]. split; intros; lia.
Qed.

(** The network moves bytes from end 1 to end 2. *)
Lemma deliver_linked k st2 st1' st2' :
  runs sd2 st2 s2 c2 -> deliver sd1 sd2 k st st2 = Some (st1', st2') ->
  exists s1' s2', runs sd1 st1' s1' c1 /\ runs sd2 st2' s2' c2
    /\ (elsewhere sd1 st st1' /\ role s1' c1 = role s1 c1) /\ (elsewhere sd2 st2 st2' /\ role s2' c2 = role s2 c2)
    /\ linked_at sd1 sd2 s1' c1 w1 r1 s2' c2 w2 r2 w12 w21 /\ (load s1' s2' w12 w21 <= load s1 s2 w12 w21)%nat
    /\ (net_out (network_state s1) <> [] -> (length (net_out (network_state s1)) <= k)%nat ->
        (load s1' s2' w12 w21 < load s1 s2 w12 w21)%nat).
Proof.
  destruct Hrun as [Hs1 Ht1]. destruct Hl as (H1 & H2 & H3 & H4 & H5 & H6 & H7 & H8 & H9). intros [Hs2 Ht2] Hd.
  unfold deliver in Hd. rewrite Hs1, Hs2 in Hd. injection Hd as <- <-.
  eexists _, _. split; [apply runs_at|]. split; [split; [apply lookup_insert_eq|done]|].
  split; [split; [apply elsewhere_sock|done]|]. split; [split; [apply elsewhere_sock|done]|]. split.
  - split; [|split; [|split; [|split; [|split; [done|split; [|split; [|split; [done|done]]]]]]]].
    + apply (local_keep sd1 s1 _ c1); try done; by destruct H1.
    + apply (local_keep sd2 s2 _ c2); try done; by destruct H2.
    + apply (same_ends_facing (network_state s1)); [done|]. apply facing_sym.
      apply (same_ends_facing (network_state s2)); [done|]. by apply facing_sym.
    + cbn. by rewrite <- app_assoc, take_drop.
    + by apply (carries_same (network_state s2)).
    + by apply (carries_same (network_state s1)).
  - unfold load, work. cbn [app_recv_queue network_recv_queue app_send_queue network_state set_network_state
      net_out set_net_out set_net_in]. split.
    + destruct (net_out (network_state s1)) eqn:Ho; [rewrite drop_nil; lia|]. destruct (drop k _); lia.
    + intros Hne Hk. rewrite drop_ge by done. destruct (net_out (network_state s1)); [done|]. lia.
Qed.
End host1.

(* ------------------------------------------------------------------ *)
(** * Steps *)

Lemma later_connection sd1 sd2 w1 r1 s2 c2 e2 st r n busy st' :
  later sd1 sd2 w1 r1 s2 c2 (ep_written e2) (ep_read e2) st r n busy st' -> runs sd2 (ep_stack e2) s2 c2 ->
  connection sd1 sd2 (mk_ep st' w1 r1) e2.
Proof. intros (s' & c' & a & b & H1 & _ & _ & H2 & _) Hr. exists s', c', s2, c2. split; [done|]. split; [done|]. by exists a, b. Qed.

(** The invariant is kept by every step. *)
Lemma env_step_connection sd1 sd2 e1 e2 e1' e2' :
  env_step sd1 sd2 (e1, e2) (e1', e2') -> connection sd1 sd2 e1 e2 ->
  connection sd1 sd2 e1' e2' /\ ep_written e1' = ep_written e1 /\ ep_read e1' = ep_read e1
  /\ ep_written e2' = ep_written e2 /\ ep_read e2' = ep_read e2.
Proof.
  intros Hs (s1 & c1 & s2 & c2 & H1 & H2 & w12 & w21 & Hl). inversion Hs; subst; clear Hs; (split; [|done]).
  - pose proof (wlp_transport_linked waits _ _ _ _ _ _ _ _ _ _ _ _ _ H1 Hl errno) as Hw. unfold wlp in Hw.
    match goal with H : transport_thread_func _ _ _ = _ |- _ => rewrite H in Hw end.
    eapply later_connection; [by apply Hw|done].
  - pose proof (wlp_receive_linked waits _ _ _ _ _ _ _ _ _ _ _ _ _ H1 Hl) as Hw. unfold wlp in Hw.
    match goal with H : network_recv_thread_round _ _ = _ |- _ => rewrite H in Hw end.
    destruct Hw as (_ & Hw); [done|]. by eapply later_connection.
  - match goal with H : deliver _ _ _ _ _ = _ |- _ =>
      destruct (deliver_linked _ _ _ _ _ _ _ _ _ _ _ _ _ H1 Hl _ _ _ _ H2 H) as (s1' & s2' & H1' & H2' & _ & _ & Hl' & _) end.
    exists s1', c1, s2', c2. split; [done|]. split; [done|]. by exists w12, w21.
Qed.

Lemma host_step_connection sd1 sd2 e1 e2 e1' e2' :
  host_step sd1 sd2 (e1, e2) (e1', e2') -> connection sd1 sd2 e1 e2 -> connection sd1 sd2 e1' e2'.
Proof.
  intros Hs Hc. inversion Hs; subst; clear Hs; [| |by eapply env_step_connection].
  all: destruct Hc as (s1 & c1 & s2 & c2 & R1 & R2 & w12 & w21 & Hl).
  - pose proof (wlp_mywrite_linked waits _ _ _ _ _ _ _ _ _ _ _ _ _ R1 Hl buf) as Hw. unfold wlp in Hw.
    match goal with H : mywrite _ _ _ = _ |- _ => rewrite H in Hw end.
    destruct Hw as (_ & s' & Hr' & _ & _ & Hl'); [done|done|]. exists s', c1, s2, c2. split; [done|]. split; [done|]. by exists w12, w21.
  - pose proof (wlp_myread_linked waits _ _ _ _ _ _ _ _ _ _ _ _ _ R1 Hl n) as Hw. unfold wlp in Hw.
    match goal with H : myread _ _ _ = _ |- _ => rewrite H in Hw end.
    destruct Hw as (_ & _ & Hw); [done|done|]. by eapply later_connection.
Qed.

Lemma reaches_connection sdA sdB w w' :
  reaches sdA sdB w w' -> connection sdA sdB (fst w) (snd w) -> connection sdA sdB (fst w') (snd w').
Proof.
  induction 1 as [w|w1 w2 w3 Hs _ IH]; [done|]. intros Hc. apply IH.
  destruct w1 as [a b], w2 as [a' b']. destruct Hs as [Hs|Hs]; unfold swap in Hs; simpl in *.
  - by eapply host_step_connection.
  - apply connection_sym. eapply host_step_connection; [exact Hs|]. by apply connection_sym.
Qed.
End operations.
