(* ===== verification/StcpProgress.v ===== *)
(** An established connection gets rid of its work: unless everything written was
    read, some thread or the network can take a step that leaves less to do. *)

From S2P Require Import Prelude.
From S2P Require Import Bytes.
From S2P Require Import MysockState.
From S2P Require Import NetworkIoTcp.
From S2P Require Import Mysock.
From S2P Require Import Transport.
From S2P Require Import MysockApi.
From S2P Require Import StcpFacts.
From S2P Require Import TransportFacts.
From S2P Require Import StcpSystem.
From S2P Require Import StcpInvariant.

(** [connection] with [n] units of work left. *)
Definition loaded (sd1 sd2 : Z) (n : nat) (e1 e2 : endpoint) : Prop :=
  exists s1 c1 s2 c2 w12 w21, runs sd1 (ep_stack e1) s1 c1 /\ runs sd2 (ep_stack e2) s2 c2
    /\ linked_at sd1 sd2 s1 c1 (ep_written e1) (ep_read e1) s2 c2 (ep_written e2) (ep_read e2) w12 w21
    /\ load s1 s2 w12 w21 = n.

Lemma loaded_connection sd1 sd2 e1 e2 : connection sd1 sd2 e1 e2 <-> exists n, loaded sd1 sd2 n e1 e2.
Proof.
  split.
  - intros (s1 & c1 & s2 & c2 & H1 & H2 & w12 & w21 & H3). eexists. by exists s1, c1, s2, c2, w12, w21.
  - intros (n & s1 & c1 & s2 & c2 & w12 & w21 & H1 & H2 & H3 & _). exists s1, c1, s2, c2. do 2 (split; [done|]). by exists w12, w21.
Qed.

Lemma loaded_sym sd1 sd2 n e1 e2 : loaded sd1 sd2 n e1 e2 -> loaded sd2 sd1 n e2 e1.
Proof.
  intros (s1 & c1 & s2 & c2 & w12 & w21 & H1 & H2 & H3%linked_at_sym & <-).
  exists s2, c2, s1, c1, w21, w12. do 3 (split; [done|]). apply load_sym.
Qed.

(** What end 1 can do at once: a byte to deliver, data to read, a segment to
    handle, a packet to receive, data to send within the window. *)
Definition can_move (s1 : mysock_context) (c1 : context_t) (s2 : mysock_context) (w21 : list bytes) : Prop :=
  net_out (network_state s1) <> [] \/ app_send_queue s1 <> [] \/ network_recv_queue s1 <> []
  \/ (w21 <> [] /\ net_out (network_state s2) = []) \/ (app_recv_queue s1 <> [] /\ rem c1 <> 0).

Lemma work_zero s :
  work s = 0%nat -> mjoin (app_recv_queue s) = [] /\ network_recv_queue s = [] /\ app_send_queue s = []
    /\ app_recv_queue s = [].
Proof.
  unfold work. intros H. destruct (app_recv_queue s); [|unfold sending in H; cbn [sum_list_with] in H; lia].
  destruct (network_recv_queue s) as [|p l]; [|rewrite handling_cons in H; unfold weight in H; destruct (kind_of p); lia].
  destruct (app_send_queue s); [done|simpl in H; lia].
Qed.

Lemma carrying_zero l : carrying l = 0%nat -> l = [].
Proof. destruct l; [done|]. rewrite carrying_cons. lia. Qed.

(** Nothing left to do: everything written was read. *)
Lemma unloaded_read sd1 sd2 e1 e2 : loaded sd1 sd2 0 e1 e2 -> ep_read e2 = ep_written e1.
Proof.
  intros (s1 & c1 & s2 & c2 & w12 & w21 & _ & _ & Hl & Hz). unfold load in Hz.
  destruct (work_zero s1) as (P1 & P2 & P3 & P4); [lia|]. destruct (work_zero s2) as (Q1 & Q2 & Q3 & Q4); [lia|].
  rewrite (carrying_zero w12), (carrying_zero w21) in Hl by lia.
  destruct Hl as (_ & _ & _ & _ & _ & _ & _ & [H _ _ _] & _). rewrite Q2, Q3, P1 in H.
  rewrite H. unfold payloads. simpl. by rewrite app_nil_r.
Qed.

(** Otherwise one of the ends can move. *)
Lemma loaded_moves sd1 sd2 s1 c1 w1 r1 s2 c2 w2 r2 w12 w21 :
  linked_at sd1 sd2 s1 c1 w1 r1 s2 c2 w2 r2 w12 w21 -> load s1 s2 w12 w21 <> 0%nat ->
  can_move s1 c1 s2 w21 \/ can_move s2 c2 s1 w12.
Proof.
  intros (H1 & H2 & _ & _ & _ & _ & _ & H8 & H9) Hn. unfold can_move.
  destruct (net_out (network_state s1)) eqn:O1; [|naive_solver]. destruct (net_out (network_state s2)) eqn:O2; [|naive_solver].
  destruct (app_send_queue s1) eqn:U1; [|naive_solver]. destruct (app_send_queue s2) eqn:U2; [|naive_solver].
  destruct (network_recv_queue s1) eqn:N1; [|naive_solver]. destruct (network_recv_queue s2) eqn:N2; [|naive_solver].
  destruct w12; [|naive_solver]. destruct w21; [|naive_solver].
  pose proof (local_window _ _ _ H1) as Hw1. pose proof (local_window _ _ _ H2) as Hw2.
  destruct H8 as [_ _ _ (x & X1 & X2)], H9 as [_ _ _ (y & Y1 & Y2)]. simpl in X1, X2, Y1, Y2.
  assert (R1 : rem c1 <> 0) by (unfold window in Hw1; lia).
  assert (R2 : rem c2 <> 0) by (unfold window in Hw2; lia).
  destruct (app_recv_queue s1) eqn:P1; [|naive_solver]. destruct (app_recv_queue s2) eqn:P2; [|naive_solver].
  destruct Hn. unfold load, work. by rewrite O1, O2, U1, U2, N1, N2, P1, P2.
Qed.

Section progress.
Context {K : Kernel} {KOk : KernelOk K}.

(** The result of a step that leaves less to do and writes nothing. *)
Definition better (sd1 sd2 : Z) (e1 e2 : endpoint) (n : nat) (e1' e2' : endpoint) : Prop :=
  ep_written e1' = ep_written e1 /\ ep_written e2' = ep_written e2 /\ exists n', (n' < n)%nat /\ loaded sd1 sd2 n' e1' e2'.

Lemma later_better sd1 sd2 e1 e2 s1 s2 c2 w12 w21 (busy : Prop) st ro st' r :
  runs sd2 (ep_stack e2) s2 c2 -> busy ->
  later sd1 sd2 (ep_written e1) r s2 c2 (ep_written e2) (ep_read e2) st ro (load s1 s2 w12 w21) busy st' ->
  better sd1 sd2 e1 e2 (load s1 s2 w12 w21) (mk_ep st' (ep_written e1) r) e2.
Proof.
  intros H2 Hb (s1' & c1' & w12' & w21' & H1' & _ & _ & Hl' & _ & Hlt). split; [done|]. split; [done|].
  exists (load s1' s2 w12' w21'). split; [by apply Hlt|]. by exists s1', c1', s2, c2, w12', w21'.
Qed.

(** The threads and the network move, unless it is the application's turn to read. *)
Lemma can_move_env sd1 sd2 e1 e2 s1 c1 s2 c2 w12 w21 :
  runs sd1 (ep_stack e1) s1 c1 -> runs sd2 (ep_stack e2) s2 c2 ->
  linked_at sd1 sd2 s1 c1 (ep_written e1) (ep_read e1) s2 c2 (ep_written e2) (ep_read e2) w12 w21 ->
  can_move s1 c1 s2 w21 ->
  app_send_queue s1 <> []
  \/ exists e1' e2', env_step sd1 sd2 (e1, e2) (e1', e2') /\ better sd1 sd2 e1 e2 (load s1 s2 w12 w21) e1' e2'.
Proof.
  intros H1 H2 Hl Hm.
  assert (Htr : network_recv_queue s1 <> [] \/ app_recv_queue s1 <> [] /\ rem c1 <> 0 ->
    exists e1' e2', env_step sd1 sd2 (e1, e2) (e1', e2') /\ better sd1 sd2 e1 e2 (load s1 s2 w12 w21) e1' e2').
  { intros Hb. destruct (wlp_total _ _ _ (wlp_transport_linked _ _ _ _ _ _ _ _ _ _ _ _ _ _ H1 Hl 0 ltac:(naive_solver)))
      as ([] & st' & He & Hlt). eexists _, _. split; [by apply (env_transport _ _ e1 e2 0 st')|]. eapply later_better; [exact H2|exact Hb|exact Hlt]. }
  destruct Hm as [Ho|[Hu|[Hn|[[Hw Ho]|Hs]]]]; [right|by left|by right; apply Htr; left|right|by right; apply Htr; right].
  - destruct (deliver sd1 sd2 (length (net_out (network_state s1))) (ep_stack e1) (ep_stack e2)) as [[st1' st2']|] eqn:Hd.
    2:{ unfold deliver in Hd. destruct H1 as [H1 _], H2 as [H2 _]. by rewrite H1, H2 in Hd. }
    eexists _, _. split; [by eapply env_deliver|].
    destruct (deliver_linked _ _ _ _ _ _ _ _ _ _ _ _ _ H1 Hl _ _ _ _ H2 Hd) as (s1' & s2' & H1' & H2' & _ & _ & Hl' & _ & Hlt).
    split; [done|]. split; [done|]. eexists. split; [by apply Hlt|]. by exists s1', c1, s2', c2, w12, w21.
  - destruct (wlp_total _ _ _ (wlp_receive_linked _ _ _ _ _ _ _ _ _ _ _ _ _ _ H1 Hl ltac:(naive_solver)))
      as (b & st' & He & _ & Hlt).
    eexists _, _. split; [by eapply env_receive|]. eapply later_better; [exact H2|exact I|exact Hlt].
Qed.

Lemma can_move_step sd1 sd2 e1 e2 s1 c1 s2 c2 w12 w21 :
  runs sd1 (ep_stack e1) s1 c1 -> runs sd2 (ep_stack e2) s2 c2 ->
  linked_at sd1 sd2 s1 c1 (ep_written e1) (ep_read e1) s2 c2 (ep_written e2) (ep_read e2) w12 w21 ->
  can_move s1 c1 s2 w21 ->
  exists e1' e2', host_step sd1 sd2 (e1, e2) (e1', e2') /\ better sd1 sd2 e1 e2 (load s1 s2 w12 w21) e1' e2'.
Proof.
  intros H1 H2 Hl Hm. destruct (can_move_env _ _ _ _ _ _ _ _ _ _ H1 H2 Hl Hm) as [Hu|(x & y & Hs & Hb)].
  2:{ exists x, y. split; [by apply step_env|done]. }
  destruct (app_send_queue s1) as [|d q] eqn:Hq; [done|].
  assert (Hd : (0 < length d)%nat).
  { destruct Hl as ([_ _ _ _ _ _ Hup] & _). rewrite Hq in Hup. apply Forall_inv in Hup. destruct d; [done|simpl; lia]. }
  destruct (wlp_total _ _ _ (wlp_myread_linked _ _ _ _ _ _ _ _ _ _ _ _ _ _ H1 Hl (length d) Hd ltac:(congruence)))
    as ([r data] & st' & He & _ & _ & Hlt).
  eexists _, _. split; [by eapply step_read|]. eapply later_better; [exact H2| |exact Hlt].
  intros d' q' Hd'. rewrite Hq in Hd'. injection Hd' as <- _. lia.
Qed.

Lemma better_sym sd1 sd2 e1 e2 n e1' e2' : better sd1 sd2 e1 e2 n e1' e2' -> better sd2 sd1 e2 e1 n e2' e1'.
Proof. intros (H1 & H2 & n' & H3 & H4%loaded_sym). split; [done|]. split; [done|]. by exists n'. Qed.

Lemma progress sdA sdB eA eB n :
  loaded sdA sdB n eA eB -> n <> 0%nat ->
  exists eA' eB', net_step sdA sdB (eA, eB) (eA', eB') /\ better sdA sdB eA eB n eA' eB'.
Proof.
  intros (s1 & c1 & s2 & c2 & w12 & w21 & H1 & H2 & Hl & <-) Hn.
  destruct (loaded_moves _ _ _ _ _ _ _ _ _ _ _ _ Hl Hn) as [Hm|Hm].
  - destruct (can_move_step _ _ _ _ _ _ _ _ _ _ H1 H2 Hl Hm) as (x & y & Hs & Hb). exists x, y. split; [by left|done].
  - destruct (can_move_step _ _ _ _ _ _ _ _ _ _ H2 H1 (linked_at_sym _ _ _ _ _ _ _ _ _ _ _ _ Hl) Hm) as (x & y & Hs & Hb).
    exists y, x. split; [by right|]. rewrite load_sym. by apply better_sym.
Qed.

(** Left to themselves, threads and network finish. *)
Lemma finishes sdA sdB n eA eB :
  loaded sdA sdB n eA eB ->
  exists eA' eB', reaches sdA sdB (eA, eB) (eA', eB') /\ ep_written eA' = ep_written eA /\ ep_written eB' = ep_written eB
    /\ loaded sdA sdB 0 eA' eB'.
Proof.
  revert eA eB. induction (lt_wf n) as [n _ IH]. intros eA eB Hl. destruct (decide (n = 0%nat)) as [->|Hn].
  { exists eA, eB. split; [apply rtc_refl|done]. }
  destruct (progress _ _ _ _ _ Hl Hn) as (x & y & Hs & E1 & E2 & n' & Hlt & Hl').
  destruct (IH n' Hlt x y Hl') as (eA' & eB' & Hr & F1 & F2 & Hz). exists eA', eB'.
  split; [by eapply rtc_l|]. by rewrite F1, F2, E1, E2.
Qed.
End progress.
