(* ===== verification/StcpHandshake.v ===== *)
(** Opening a connection: the handshake's rounds, and the whole way from a
    client's thread and a listening mysocket to an established connection. *)

From S2P Require Import Prelude.
From S2P Require Import Bytes.
From S2P Require Import MysockHash.
From S2P Require Import MysockState.
From S2P Require Import PacketQueue.
From S2P Require Import NetworkIoTcp.
From S2P Require Import TcpSum.
From S2P Require Import Mysock.
From S2P Require Import ConnectionDemux.
From S2P Require Import DemuxFacts.
From S2P Require Import StcpApi.
From S2P Require Import Transport.
From S2P Require Import MysockApi.
From S2P Require Import StcpFacts.
From S2P Require Import TransportFacts.
From S2P Require Import StcpSystem.

(** The transport thread of [sd] put into a state. *)
Definition thread_at (st : stack) (sd : Z) (t : thread) : stack := set_transports (<[sd := t]> (transports st)) st.

Lemma thread_sock st sd s t t' :
  thread_at (sock_at (thread_at st sd t) sd s) sd t' = sock_at (thread_at st sd t') sd s.
Proof. unfold thread_at, sock_at, set_transports, set_global_ctx. simpl. by rewrite insert_insert_eq. Qed.

Lemma thread_lookup st sd s t : transports (sock_at (thread_at st sd t) sd s) !! sd = Some t.
Proof. apply lookup_insert_eq. Qed.

(** The context a connection starts with, as [establish_connection] leaves it. *)
Definition established_context (active : bool) : context_t :=
  mk_ctx false CSTATE_ESTABLISHED 1 536 536 536 3072 1 1 1 536 (zeros 536) 536 0 0 active [].

(** The two answers of the handshake, made from the segment received. *)
Definition syn_answer (p : bytes) : bytes := upd (upd p Tcp.ack (le32 (get32 p Tcp.seq + 1))) Tcp.seq (le32 1).
Definition ack_answer (p : bytes) : bytes :=
  upd (upd p Tcp.ack (le32 (get32 p Tcp.seq + 1))) Tcp.seq (le32 (get32 p Tcp.ack)).

Lemma answers_ok p : segment_ok p -> length p = 20%nat ->
  segment_ok (syn_answer p) /\ segment_ok (ack_answer p)
  /\ length (syn_answer p) = 20%nat /\ length (ack_answer p) = 20%nat.
Proof.
  intros [Hwf _] Hl. unfold syn_answer, ack_answer.
  assert (H1 : forall x y, length (upd (upd p Tcp.ack (le32 x)) Tcp.seq (le32 y)) = 20%nat).
  { intros x y. offs. upd_len. exact Hl. }
  split; [|split; [|by split]]; (split; [auto 10 with bytes|]; unfold blen, MAX_IP_PAYLOAD_LEN; rewrite H1; lia).
Qed.

Section rounds.
Context {K : Kernel} {KOk : KernelOk K} (F : fault -> Prop).

Definition SYN : bytes := segment 1 (Some 5) TH_SYN RECV_WINDOW_SIZE [].

Lemma SYN_ok : segment_ok SYN /\ length SYN = 20%nat.
Proof. split; [apply segment_segment_ok; [constructor|done]|apply length_segment]. Qed.

(** The client's thread starts by sending the SYN. *)
Lemma wlp_start_active sd errno st s (Q : unit -> stack -> Prop) :
  placed sd s -> callable (network_state s) -> is_active s = true ->
  Q tt (sock_at (thread_at st sd (Running (set_connection_state CSTATE_SYN_SENT new_context))) sd
          (sent [sealed (network_state s) SYN] (connects s))) ->
  wlp F (transport_thread_func sd errno) Q (sock_at (thread_at st sd Starting) sd s).
Proof.
  intros Hp Hc Ha HQ. unfold transport_thread_func. wgo. apply wlp_the_context; [done|]. wgo.
  rewrite thread_lookup. wgo. rewrite Ha. unfold transport_start. wgo. apply wlp_make_header. wgo.
  apply wlp_stcp_network_send_first; [done|done|apply SYN_ok|]. wgo.
  change (set_transports _ ?x) with (thread_at x sd (Running (set_connection_state CSTATE_SYN_SENT new_context))).
  by rewrite thread_sock.
Qed.

(** The server's thread starts by listening. *)
Lemma wlp_start_passive sd errno st s (Q : unit -> stack -> Prop) :
  placed sd s -> is_active s = false ->
  Q tt (sock_at (thread_at st sd (Running (set_connection_state CSTATE_LISTEN new_context))) sd s) ->
  wlp F (transport_thread_func sd errno) Q (sock_at (thread_at st sd Starting) sd s).
Proof.
  intros Hp Ha HQ. unfold transport_thread_func. wgo. apply wlp_the_context; [done|]. wgo.
  rewrite thread_lookup. wgo. rewrite Ha. unfold transport_start. wgo.
  change (set_transports _ ?x) with (thread_at x sd (Running (set_connection_state CSTATE_LISTEN new_context))).
  by rewrite thread_sock.
Qed.

(** What a handshake round receives. *)
Definition waiting (s : mysock_context) (p : bytes) (q : packet_queue_t) : Prop :=
  network_recv_queue s = p :: q /\ accepts (network_state s) p /\ length p = 20%nat.

Lemma upd_whole p : length p = 20%nat -> upd empty_header 0 p = p.
Proof.
  intros Hl. unfold upd, empty_header. rewrite take_0, drop_ge; [apply app_nil_r|].
  rewrite length_zeros, Hl. done.
Qed.

Lemma wlp_recv_header sd st s p q (Q : Z * bytes -> stack -> Prop) :
  placed sd s -> online (network_state s) -> waiting s p q ->
  Q (20, p) (sock_at st sd (set_network_recv_queue q s)) ->
  wlp F (stcp_network_recv sd empty_header Tcp.size) Q (sock_at st sd s).
Proof.
  intros Hp Hon (Hq & Ha & Hl) HQ.
  eapply wlp_stcp_network_recv; [done|by destruct Hon|exact Hq|done|unfold Tcp.size; lia| |].
  { unfold empty_header. rewrite length_zeros. unfold Tcp.size. lia. }
  unfold blen. rewrite upd_whole, Hl by done. exact HQ.
Qed.

(** LISTEN: the SYN is answered. *)
Lemma wlp_round_listen sd errno st s p q (Q : unit -> stack -> Prop) :
  placed sd s -> online (network_state s) -> waiting s p q ->
  Q tt (sock_at (thread_at st sd (Running (set_connection_state CSTATE_SYN_RCVD (set_connection_state CSTATE_LISTEN new_context)))) sd
          (sent [sealed (network_state s) (syn_answer p)] (set_network_recv_queue q s))) ->
  wlp F (transport_thread_func sd errno) Q
    (sock_at (thread_at st sd (Running (set_connection_state CSTATE_LISTEN new_context))) sd s).
Proof.
  intros Hp Hon Hw HQ. pose proof Hw as (_ & [Hok _] & Hl). destruct (answers_ok p Hok Hl) as (Ha & _ & _ & _).
  unfold transport_thread_func. wgo. apply wlp_the_context; [done|]. wgo. rewrite thread_lookup. wgo.
  cbn [in_handshake connection_state set_connection_state]. wgo. unfold handshake. cbn [connection_state set_connection_state].
  wgo. eapply wlp_recv_header; [done|done|exact Hw|]. wgo. offs. apply wlp_rd32; [lia|]. wgo.
  apply wlp_wrn; [simpl; lia|]. wgo. apply wlp_wrn; [rewrite length_upd by (simpl; lia); simpl; lia|]. wgo.
  apply wlp_stcp_network_send; [done|done|exact Ha|]. wgo. cbn [connection_state set_connection_state].
  rewrite bool_decide_eq_false_2 by done. wgo.
  change (set_transports _ ?x) with (thread_at x sd (Running (set_connection_state CSTATE_SYN_RCVD (set_connection_state CSTATE_LISTEN new_context)))).
  by rewrite thread_sock.
Qed.

(** The mysocket after [stcp_unblock_application]. *)
Definition unblocked (errno : Z) (s : mysock_context) : mysock_context :=
  set_stcp_errno (if errno =? EINTR then 0 else errno) (set_blocking false s).

(** SYN_SENT: the answer is acknowledged and the client is connected. *)
Lemma wlp_round_syn_sent sd errno st s p q (Q : unit -> stack -> Prop) :
  placed sd s -> online (network_state s) -> waiting s p q -> is_active s = true -> blocking s = true ->
  Q tt (sock_at (thread_at st sd (Running (established_context true))) sd
          (unblocked errno (sent [sealed (network_state s) (ack_answer p)] (set_network_recv_queue q s)))) ->
  wlp F (transport_thread_func sd errno) Q
    (sock_at (thread_at st sd (Running (set_connection_state CSTATE_SYN_SENT new_context))) sd s).
Proof.
  intros Hp Hon Hw Hact Hb HQ. pose proof Hw as (_ & [Hok _] & Hl). destruct (answers_ok p Hok Hl) as (_ & Ha & _ & _).
  unfold transport_thread_func. wgo. apply wlp_the_context; [done|]. wgo. rewrite thread_lookup. wgo.
  cbn [in_handshake connection_state set_connection_state]. wgo. unfold handshake. cbn [connection_state set_connection_state].
  wgo. eapply wlp_recv_header; [done|done|exact Hw|]. wgo. offs. apply wlp_rd32; [lia|]. wgo. apply wlp_rd32; [lia|]. wgo.
  apply wlp_wrn; [simpl; lia|]. wgo. apply wlp_wrn; [rewrite length_upd by (simpl; lia); simpl; lia|]. wgo.
  apply wlp_stcp_network_send; [done|done|exact Ha|]. wgo. cbn [connection_state set_connection_state].
  rewrite bool_decide_eq_true_2 by done. wgo. unfold establish_connection. wgo. unfold stcp_unblock_application. wgo.
  apply wlp_the_context; [done|]. wgo. cbn [blocking sent set_network_state set_network_recv_queue]. rewrite Hb. wgo.
  apply wlp_at_sock. wgo. apply wlp_at_sock. wgo. cbn [is_active sent set_network_state set_network_recv_queue]. rewrite Hact.
  cbn [negb]. wgo. lazymatch goal with |- Q tt (set_transports _ ?x) =>
    change (set_transports _ x) with (thread_at x sd (Running (established_context true))) end.
  by rewrite thread_sock.
Qed.

(** SYN_RCVD: the acknowledgement makes the connection complete for the listener. *)
Lemma wlp_round_syn_rcvd sd errno st s p pq lsd ls m q k r (Q : unit -> stack -> Prop) :
  placed sd s -> online (network_state s) -> waiting s p pq -> is_active s = false -> blocking s = true ->
  sd <> lsd -> listen_sd s = lsd -> has_sock st lsd ls -> listening ls = true -> bound ls = true ->
  listens st m -> m !! lsd = Some q -> queue_ok q ->
  find_request (fun r => rq_sd r =? sd) (connection_queue q) 0 = Some k -> connection_queue q !! k = Some r ->
  (forall tbl, hash_repr MAX_NUM_CONNECTIONS tbl (<[lsd := set_completed_queue (completed_queue q ++ [slot q k]) q]> m) ->
     Q tt (sock_at (thread_at (set_listen_table tbl st) sd (Running (established_context false))) sd
             (unblocked errno (set_network_recv_queue pq s)))) ->
  wlp F (transport_thread_func sd errno) Q
    (sock_at (thread_at st sd (Running (set_connection_state CSTATE_SYN_RCVD (set_connection_state CSTATE_LISTEN new_context)))) sd s).
Proof.
  intros Hp Hon Hw Hact Hb Hne Hls Hhas Hlis Hbd Hm Hq Hqok Hf Hk HQ.
  unfold transport_thread_func. wgo. apply wlp_the_context; [done|]. wgo. rewrite thread_lookup. wgo.
  cbn [in_handshake connection_state set_connection_state]. wgo. unfold handshake. cbn [connection_state set_connection_state].
  wgo. eapply wlp_recv_header; [done|done|exact Hw|]. wgo. cbn [connection_state set_connection_state].
  rewrite bool_decide_eq_true_2 by done. wgo. unfold establish_connection. wgo. unfold stcp_unblock_application. wgo.
  apply wlp_the_context; [done|]. wgo. cbn [blocking set_network_recv_queue]. rewrite Hb. wgo.
  apply wlp_at_sock. wgo. apply wlp_at_sock. wgo. cbn [is_active set_network_recv_queue]. rewrite Hact. cbn [negb].
  destruct Hhas as [Hg Hpl].
  eapply (wlp_passive_complete F _ m lsd ls q); [|done|done|exact Hm|done|done|by destruct Hp|done|exact Hf|exact Hk|].
  { split; [|done]. simpl. by rewrite lookup_insert_ne. }
  intros tbl Hr. wgo. lazymatch goal with |- Q tt (set_transports _ ?x) =>
    change (set_transports _ x) with (thread_at x sd (Running (established_context false))) end.
  specialize (HQ tbl Hr). rewrite <- (thread_sock _ _ _ (Running (set_connection_state CSTATE_SYN_RCVD (set_connection_state CSTATE_LISTEN new_context)))) in HQ.
  exact HQ.
Qed.
End rounds.

(* ------------------------------------------------------------------ *)
(** * The whole opening *)

Section opening.
Context {K : Kernel} {KOk : KernelOk K}.

(** The network connects the client's socket to the listening one: what was
    written waits to be accepted, under the client's address. *)
Definition arrive (a lsd : Z) (addr : sockaddr) (stA stB : stack) : option (stack * stack) :=
  match global_ctx stA !! a, global_ctx stB !! lsd with
  | Some sa, Some ls =>
      let na := network_state sa in
      let nl := network_state ls in
      Some (sock_at stA a (set_network_state (set_net_out [] na) sa),
            sock_at stB lsd (set_network_state (set_accept_queue (accept_queue nl ++ [(addr, net_out na)]) nl) ls))
  | _, _ => None
  end.

(** An operation that must end. *)
Definition run {A} (m : M stack A) (st : stack) : option stack :=
  match m st with Ok (_, st') => Some st' | Err _ => None end.

(** The last rounds: from the client in SYN_SENT and the server's thread about to
    start with the SYN in its queue. *)
Definition finish_opening (a b eA eB : Z) (stA stB : stack) : option (stack * stack) :=
  stB ← run (transport_thread_func b eB) stB;
  stB ← run (transport_thread_func b eB) stB;
  '(stB, stA) ← deliver b a 22 stB stA;
  stA ← run (network_recv_thread_round a) stA;
  stA ← run (transport_thread_func a eA) stA;
  '(stA, stB) ← deliver a b 22 stA stB;
  stB ← run (network_recv_thread_round b) stB;
  stB ← run (transport_thread_func b eB) stB;
  Some (stA, stB).

(** The steps of an opening: the client's thread of [a] against the listener
    [lsd], whose new mysocket is [b]; the threads' errno are [eA] and [eB]. *)
Definition open_connection (a lsd b eA eB : Z) (addr : sockaddr) (stA stB : stack) : option (stack * stack) :=
  stA ← run (transport_thread_func a eA) stA;
  '(stA, stB) ← arrive a lsd addr stA stB;
  stB ← run (network_recv_thread_round lsd) stB;
  finish_opening a b eA eB stA stB.

(** A client that called [myconnect]. *)
Record client_ready (st : stack) (a : Z) (s : mysock_context) : Prop := {
  client_sock : has_sock st a s;
  client_thread : transports st !! a = Some Starting /\ transport_thread_started s = true;
  client_flags : is_active s = true /\ listening s = false /\ close_requested s = false /\ eof s = false /\ blocking s = true;
  client_queues : network_recv_queue s = [] /\ app_send_queue s = [] /\ app_recv_queue s = [];
  client_net : callable (network_state s) /\ net_in (network_state s) = [] /\ net_out (network_state s) = [];
}.

(** A listener below its backlog, the next free descriptor being [b], that the
    client [na] has as its peer and that sees it as [addr]. *)
Record server_ready (st : stack) (lsd b : Z) (ls : mysock_context) (m : gmap Z listen_queue_t) (q : listen_queue_t)
    (na : network_context_t) (addr : sockaddr) : Prop := {
  server_sock : has_sock st lsd ls;
  server_flags : listening ls = true /\ bound ls = true /\ is_active ls = false;
  server_net : is_reliable (network_state ls) = true /\ accept_queue (network_state ls) = [] /\ new_socket (network_state ls) = None;
  server_table : listens st m /\ m !! lsd = Some q /\ queue_ok q /\ cur_len q < max_len q;
  server_new : first_free (global_ctx st) 0 MAX_NUM_CONNECTIONS = Some b
    /\ Forall (fun r => rq_peer_addr r <> addr /\ rq_sd r <> b) (connection_queue q);
  server_addr : sa_family addr = AF_INET /\ 0 < sin_port addr < 65536 /\ s_addr addr = net_interface_ip na
    /\ s_addr (peer_addr na) = host_ip st;
}.

Lemma run_ok {A} (m : M stack A) st (Q : A -> stack -> Prop) (k : stack -> option (stack * stack)) (R : stack -> stack -> Prop) :
  wlp (fun _ => False) m Q st ->
  (forall a st', Q a st' -> exists x y, k st' = Some (x, y) /\ R x y) ->
  exists x y, (run m st ≫= k) = Some (x, y) /\ R x y.
Proof.
  intros Hw Hk. destruct (wlp_total _ _ _ Hw) as (a & st' & He & HQ).
  destruct (Hk a st' HQ) as (x & y & H). exists x, y. unfold run. by rewrite He.
Qed.

(** Receiving a whole packet. *)
Lemma wlp_recv_round F sd st s p rest (Q : bool -> stack -> Prop) :
  listening s = false -> connected (network_state s) = true -> net_in (network_state s) = frame p ++ rest ->
  0 < blen p <= 1500 ->
  Q true (sock_at st sd (set_network_recv_queue (network_recv_queue s ++ [p])
            (set_network_state (set_net_in rest (network_state s)) s))) ->
  wlp F (network_recv_thread_round sd) Q (sock_at st sd s).
Proof.
  intros Hl Hc Hin Hp HQ. unfold network_recv_thread_round. wgo. apply wlp_at_sock. wgo. rewrite Hl.
  apply wlp_at_sock, wlp_in_net. eapply wlp_recv_packet; [exact Hin|lia|unfold MAX_IP_PAYLOAD_LEN; lia|done|].
  wgo. unfold blen, MAX_IP_PAYLOAD_LEN in *. rewrite (proj2 (Z.leb_gt _ _)), (proj2 (Z.leb_le _ _)) by lia. wgo.
  apply wlp_at_sock. wgo. cbn [listening set_network_state]. rewrite Hl. wgo. apply wlp_at_sock.
  unfold enqueue_network_recv. wgo. rewrite take_ge by lia. exact HQ.
Qed.

(** Accepting the first packet of a connection. *)
Lemma wlp_recv_round_listener F lsd st ls p addr others (Q : bool -> stack -> Prop) :
  listening ls = true -> is_active ls = false -> accept_queue (network_state ls) = (addr, frame p) :: others ->
  new_socket (network_state ls) = None -> 0 < blen p <= 1500 ->
  let ls' := set_network_state (set_new_socket (Some [])
    (set_peer addr SOCKADDR_LEN (peer_addr_valid (network_state ls)) (set_accept_queue others (network_state ls)))) ls in
  wlp F (_mysock_enqueue_connection ls' p addr SOCKADDR_LEN) (fun _ st' => Q true st') (sock_at st lsd ls') ->
  wlp F (network_recv_thread_round lsd) Q (sock_at st lsd ls).
Proof.
  intros Hl Ha Hq Hn Hp ls' HQ. unfold network_recv_thread_round. wgo. apply wlp_at_sock. wgo. rewrite Hl, Ha.
  apply wlp_at_sock, wlp_in_net.
  eapply (wlp_recv_accept F p []); [by rewrite app_nil_r|done|lia|unfold MAX_IP_PAYLOAD_LEN; lia|].
  wgo. unfold blen, MAX_IP_PAYLOAD_LEN in *. rewrite (proj2 (Z.leb_gt _ _)), (proj2 (Z.leb_le _ _)) by lia. wgo.
  apply wlp_at_sock. wgo. cbn [listening set_network_state]. rewrite Hl. wgo. rewrite take_ge by lia.
  eapply wlp_mono; [exact HQ|]. intros a st' H. by wgo.
Qed.

(** The network context of the mysocket created for the client. *)
Definition accepted_net (ip : Z) (port : Z) (addr : sockaddr) : network_context_t :=
  network_state (accepted_sock ip true port 0 0 addr [] []).

Lemma ends_facing st a s lsd b ls m q addr stB :
  client_ready st a s -> server_ready stB lsd b ls m q (network_state s) addr ->
  facing (network_state s) (accepted_net (host_ip stB) (net_port (network_state ls)) addr)
  /\ online (accepted_net (host_ip stB) (net_port (network_state ls)) addr)
  /\ online (set_connected true (network_state s)).
Proof.
  intros [_ _ _ _ [(Hp & Hr & Hrel & Hport) _]] [_ _ _ _ _ (A1 & A2 & A3 & A4)].
  pose proof Hp as (P1 & P2 & P3 & P4 & P5).
  assert (HpB : peered (accepted_net (host_ip stB) (net_port (network_state ls)) addr)).
  { repeat split; simpl; try done; lia || (rewrite ?A3, <- ?A4; lia). }
  split; [|split].
  - split; [exact Hp|]. split; [exact HpB|]. by split.
  - split; [exact HpB|]. split; [split; [done|by left]|]. done.
  - split; [exact Hp|]. split; [split; [by destruct Hr|by left]|]. done.
Qed.

(** One packet sent and then delivered leaves the sender as it was. *)
Lemma deliver_one sd1 sd2 st1 st2 s1 s2 p :
  length p = 20%nat -> net_out (network_state s1) = [] -> net_in (network_state s2) = [] ->
  deliver sd1 sd2 22 (sock_at st1 sd1 (sent [p] s1)) (sock_at st2 sd2 s2)
  = Some (sock_at st1 sd1 s1, sock_at st2 sd2 (set_network_state (set_net_in (frame p ++ []) (network_state s2)) s2)).
Proof.
  intros Hl Ho Hi. unfold deliver. rewrite !sock_at_lookup, !sock_at_twice.
  assert (Hf : frames [p] = frame p) by apply app_nil_r.
  assert (Hfl : length (frame p) = 22%nat) by (unfold frame; rewrite length_app, Hl; done).
  unfold sent. cbn [network_state set_network_state net_out set_net_out]. rewrite Ho, Hi, Hf. simpl app.
  rewrite take_ge, drop_ge by lia. rewrite app_nil_r. do 3 f_equal.
  destruct s1 as [? []]; simpl in *; by subst.
Qed.

(** The listener once it handed the connection over, and its host with the queues
    [tbl]. *)
Definition listener_after (ls : mysock_context) (addr : sockaddr) : mysock_context :=
  set_network_state (set_new_socket None
    (set_peer addr SOCKADDR_LEN (peer_addr_valid (network_state ls)) (set_accept_queue [] (network_state ls)))) ls.
Definition accepting (stB : stack) (lsd : Z) (ls : mysock_context) (addr : sockaddr) (tbl : hash_table listen_queue_t) : stack :=
  mk_stack (host_ip stB) (<[lsd := listener_after ls addr]> (global_ctx stB)) tbl (transports stB).

(** The queue [q] with the request of the new mysocket [b] in slot [k]. *)
Definition pending_at (q : listen_queue_t) (k : nat) (addr : sockaddr) (b : Z) : Prop :=
  queue_ok (queue_taken q k addr b)
  /\ connection_queue (queue_taken q k addr b) !! k = Some (mk_request addr SOCKADDR_LEN b)
  /\ exists r, connection_queue q !! k = Some r /\ rq_sd r = -1.

(** The listener's round on the client's SYN: the new mysocket [b]. *)
Lemma wlp_accept_round F stB lsd b ls m q na addr syn (Q : bool -> stack -> Prop) :
  server_ready stB lsd b ls m q na addr -> segment_ok syn -> length syn = 20%nat -> get8 syn Tcp.flags = TH_SYN ->
  (forall tbl k, hash_repr MAX_NUM_CONNECTIONS tbl (<[lsd := queue_taken q k addr b]> m) -> pending_at q k addr b ->
     Q true (sock_at (thread_at (accepting stB lsd ls addr tbl) b Starting) b
       (accepted_sock (host_ip stB) true (net_port (network_state ls)) lsd b addr [] syn))) ->
  wlp F (network_recv_thread_round lsd) Q
    (sock_at stB lsd (set_network_state (set_accept_queue [(addr, frame syn)] (network_state ls)) ls)).
Proof.
  intros [[Hgl Hpl] (S1 & S2 & S3) (N1 & N2 & N3) (T1 & T2 & T3 & T4) (U1 & U2) _] Hok Hl Hf HQ.
  eapply wlp_recv_round_listener; [done|done|reflexivity|done|unfold blen; rewrite Hl; lia|].
  set (ls2 := set_network_state _ _). cbv zeta. fold ls2.
  eapply (wlp_enqueue_accept F (sock_at stB lsd ls2) m lsd ls2 q) with (b := []) (sd := b); try done.
  - split; [apply sock_at_lookup|done].
  - lia.
  - by rewrite Hf.
  - eapply Forall_impl; [exact U2|]. by intros r [H _].
  - pose proof (first_free_spec (global_ctx stB) 0 MAX_NUM_CONNECTIONS) as Hff. rewrite U1 in Hff.
    rewrite <- U1. apply first_free_dom. unfold sock_at. simpl. by rewrite dom_insert_lookup_L by by eexists.
  - intros tbl k H1 H2 H3 H4. cbn [host_ip sock_at global_ctx set_global_ctx]. rewrite insert_insert_eq.
    change (is_reliable (network_state ls2)) with (is_reliable (network_state ls)). rewrite N1.
    exact (HQ tbl k H1 (conj H2 (conj H3 H4))).
Qed.

(** The windows and queues at the start of an established connection. *)
Lemma established_window active : window (established_context active).
Proof. unfold window. repeat split; try done. apply wf_zeros. Qed.

Lemma start_linked a b sa ca sb cb :
  local a sa ca -> local b sb cb -> facing (network_state sa) (network_state sb) ->
  ca = established_context (is_client ca) -> cb = established_context (is_client cb) ->
  net_in (network_state sa) = [] -> net_out (network_state sa) = [] ->
  net_in (network_state sb) = [] -> net_out (network_state sb) = [] ->
  network_recv_queue sa = [] -> app_send_queue sa = [] -> app_recv_queue sa = [] ->
  network_recv_queue sb = [] -> app_send_queue sb = [] -> app_recv_queue sb = [] ->
  linked_ends a b sa ca [] [] sb cb [] [].
Proof.
  intros Ha Hb Hf Eca Ecb I1 O1 I2 O2 A1 A2 A3 B1 B2 B3. exists [], [].
  unfold linked_at. rewrite I1, O1, I2, O2, A1, B1. unfold flow_of. rewrite A2, A3, B2, B3, Eca, Ecb.
  assert (Hflow : flow [] 1 1 [] [] [] [] []).
  { split; try done. exists 1. done. }
  split; [by rewrite <- Eca|]. split; [by rewrite <- Ecb|]. split; [done|].
  repeat (split; [done || constructor|]). done.
Qed.

Lemma local_start sd s active :
  placed sd s -> listening s = false -> close_requested s = false -> eof s = false -> blocking s = false ->
  online (network_state s) -> app_recv_queue s = [] -> app_send_queue s = [] -> local sd s (established_context active).
Proof.
  intros H1 H2 H3 H4 H5 H6 H7 H8. split; try done; [apply established_window|rewrite H7; constructor|rewrite H8; constructor].
Qed.

(** An end in the middle of its handshake. *)
Record opening_end (sd : Z) (s : mysock_context) (q : packet_queue_t) : Prop := {
  opening_placed : placed sd s;
  opening_flags : listening s = false /\ close_requested s = false /\ eof s = false /\ blocking s = true;
  opening_queues : network_recv_queue s = q /\ app_send_queue s = [] /\ app_recv_queue s = [];
  opening_net : online (network_state s) /\ net_in (network_state s) = [] /\ net_out (network_state s) = [];
}.

Lemma finish_opening_ok baseA baseB a b eA eB sA sB syn lsd ls m q k r :
  opening_end a sA [] -> opening_end b sB [syn] -> is_active sA = true -> is_active sB = false ->
  facing (network_state sA) (network_state sB) -> accepts (network_state sB) syn -> length syn = 20%nat ->
  b <> lsd -> listen_sd sB = lsd -> has_sock baseB lsd ls -> listening ls = true -> bound ls = true ->
  listens baseB m -> m !! lsd = Some q -> queue_ok q ->
  find_request (fun r => rq_sd r =? b) (connection_queue q) 0 = Some k -> connection_queue q !! k = Some r ->
  exists stA' stB',
    finish_opening a b eA eB
      (sock_at (thread_at baseA a (Running (set_connection_state CSTATE_SYN_SENT new_context))) a sA)
      (sock_at (thread_at baseB b Starting) b sB) = Some (stA', stB')
    /\ connection a b (mk_ep stA' [] []) (mk_ep stB' [] [])
    /\ stA' = sock_at (thread_at baseA a (Running (established_context true))) a (unblocked eA sA)
    /\ exists tbl, hash_repr MAX_NUM_CONNECTIONS tbl (<[lsd := set_completed_queue (completed_queue q ++ [slot q k]) q]> m)
         /\ stB' = sock_at (thread_at (set_listen_table tbl baseB) b (Running (established_context false))) b
                     (unblocked eB (set_network_recv_queue [] sB)).
Proof.
  intros [PA (A1 & A2 & A3 & A4) (A5 & A6 & A7) (A8 & A9 & A10)] [PB (B1 & B2 & B3 & B4) (B5 & B6 & B7) (B8 & B9 & B10)].
  intros HaA HaB Hfac Hsyn Hl Hne Hls Hhas Hlis Hbd Hm Hq Hqok Hfind Hk. unfold finish_opening.
  pose proof Hsyn as [Hsynok _].
  destruct (answers_ok syn Hsynok Hl) as (Hsa & _ & Hsal & _).
  set (reply := sealed (network_state sB) (syn_answer syn)).
  assert (Hrl : length reply = 20%nat) by (subst reply; rewrite length_sealed; lia).
  assert (Hra : accepts (network_state sA) reply) by (apply sealed_accepted; [by apply facing_sym|done]).
  destruct (answers_ok reply (proj1 Hra) Hrl) as (_ & Hok2 & _ & Hl2).
  set (ack := sealed (network_state sA) (ack_answer reply)).
  assert (Hal : length ack = 20%nat) by (subst ack; rewrite length_sealed; lia).
  assert (Haa : accepts (network_state sB) ack) by by apply sealed_accepted.
  (* the server listens and answers *)
  eapply (run_ok _ _ (fun _ st' => st' = _)); [eapply wlp_start_passive; done|]. intros _ ? ->.
  eapply (run_ok _ _ (fun _ st' => st' = _)).
  { eapply (wlp_round_listen _ _ _ _ _ syn []); done. }
  intros _ ? ->. fold reply. rewrite deliver_one by done. cbn [mbind option_bind].
  (* the client receives and acknowledges *)
  eapply (run_ok _ _ (fun _ st' => st' = _)).
  { eapply wlp_recv_round; [done|apply A8|reflexivity|unfold blen; rewrite Hrl; lia|reflexivity]. }
  intros _ ? ->. cbn [network_recv_queue set_network_state]. rewrite A5. cbn [app].
  eapply (run_ok _ _ (fun _ st' => st' = _)).
  { eapply (wlp_round_syn_sent _ _ _ _ _ reply []); try done. }
  intros _ ? ->.
  replace (unblocked eA _) with (sent [ack] (unblocked eA sA)).
  2:{ subst ack. destruct sA as [? [] ? ? ? ? ? ? ? ? ? ? ? ?]. simpl in *. by subst. }
  rewrite deliver_one by done. cbn [mbind option_bind].
  (* the server receives the acknowledgement *)
  eapply (run_ok _ _ (fun _ st' => st' = _)).
  { eapply wlp_recv_round; [done|apply B8|reflexivity|unfold blen; rewrite Hal; lia|reflexivity]. }
  intros _ ? ->. cbn [network_recv_queue set_network_state set_network_recv_queue app].
  replace (set_network_recv_queue [ack] _) with (set_network_recv_queue [ack] sB).
  2:{ clear Haa Hal. clearbody ack. destruct sB as [? [] ? ? ? ? ? ? ? ? ? ? ? ?]. simpl in *. by subst. }
  set (sB' := unblocked eB (set_network_recv_queue [] sB)).
  eapply (run_ok _ _ (fun _ st' => exists tbl,
    st' = sock_at (thread_at (set_listen_table tbl baseB) b (Running (established_context false))) b sB'
    /\ hash_repr MAX_NUM_CONNECTIONS tbl (<[lsd := set_completed_queue (completed_queue q ++ [slot q k]) q]> m))).
  { eapply (wlp_round_syn_rcvd _ _ _ _ _ ack [] lsd ls m q k r); try done. intros tbl Hr. by exists tbl. }
  intros _ ? (tbl & -> & Hr). eexists _, _. split; [reflexivity|].
  split; [|split; [reflexivity|by exists tbl]].
  exists (unblocked eA sA), (established_context true), sB', (established_context false).
  split; [split; [apply sock_at_lookup|apply thread_lookup]|]. split; [split; [apply sock_at_lookup|apply thread_lookup]|].
  apply start_linked; try done; apply local_start; done.
Qed.

(** [myaccept] hands out the one completed connection. *)
Lemma wlp_myaccept F lsd b ls st s m q k addr alen (Q : ret_t * option (sockaddr * Z) -> stack -> Prop) :
  has_sock st lsd ls -> listening ls = true -> bound ls = true -> listens st m -> m !! lsd = Some q -> queue_ok q ->
  completed_queue q = [slot q k] -> connection_queue q !! k = Some (mk_request addr alen b) ->
  has_sock st b s -> stcp_errno s = 0 -> listen_sd s = lsd -> 0 < peer_addr_len (network_state s) ->
  (forall tbl, hash_repr MAX_NUM_CONNECTIONS tbl (<[lsd := queue_accepted q k []]> m) ->
     Q (inl b, Some (peer_addr (network_state s), peer_addr_len (network_state s))) (set_listen_table tbl st)) ->
  wlp F (myaccept lsd) Q st.
Proof.
  intros [Hgl Hpl] Hlis Hbd Hm Hq Hok Hc Hk Hs He Hl Hlen HQ. unfold myaccept.
  rewrite <- (sock_at_same st lsd ls Hgl). wgo. apply wlp_get_context; [done|]. rewrite (sock_at_same st lsd ls Hgl).
  wgo. rewrite Hlis. cbn [negb]. wgo.
  eapply (wlp_dequeue_connection F st m lsd ls q); [done|done|done|done|done|done|exact Hc|exact Hk|exact Hs|].
  intros tbl Hr. destruct Hs as [Hgb [Hmy _]]. wgo. rewrite <- (sock_at_same (set_listen_table tbl st) b s Hgb). apply wlp_at_sock. wgo.
  rewrite (sock_at_same (set_listen_table tbl st) b s Hgb).
  rewrite He, Hl, Hmy. rewrite (proj2 (Z.ltb_lt _ _)), !Z.eqb_refl by done. wgo. by apply HQ.
Qed.

(** The request a new mysocket took is found by its descriptor. *)
Lemma find_taken q k addr b r :
  connection_queue q !! k = Some r -> Forall (fun r => rq_peer_addr r <> addr /\ rq_sd r <> b) (connection_queue q) ->
  connection_queue (queue_taken q k addr b) !! k = Some (mk_request addr SOCKADDR_LEN b) ->
  find_request (fun r => rq_sd r =? b) (connection_queue (queue_taken q k addr b)) 0 = Some k.
Proof.
  intros Hr Hall Hk. apply find_request_unique with (mk_request addr SOCKADDR_LEN b); [done|apply Z.eqb_refl|].
  intros j x Hj Hx. cbn [queue_taken connection_queue set_connection_queue set_cur_len] in Hx.
  rewrite list_lookup_insert_ne in Hx by done. rewrite Forall_forall in Hall.
  apply Z.eqb_neq. by apply (Hall x (list_elem_of_lookup_2 _ _ _ Hx)).
Qed.

(** [myaccept] once the connection is the only completed one. *)
Lemma myaccept_completed lsd b ls st s m q k addr :
  has_sock st lsd ls -> listening ls = true -> bound ls = true ->
  listens st (<[lsd := set_completed_queue (completed_queue q ++ [slot q k]) q]> m) -> queue_ok q -> completed_queue q = [] ->
  connection_queue q !! k = Some (mk_request addr SOCKADDR_LEN b) -> 0 <= b ->
  has_sock st b s -> stcp_errno s = 0 -> listen_sd s = lsd ->
  peer_addr (network_state s) = addr -> peer_addr_len (network_state s) = SOCKADDR_LEN ->
  exists tbl, myaccept lsd st = Ok ((inl b, Some (addr, SOCKADDR_LEN)), set_listen_table tbl st)
    /\ hash_repr MAX_NUM_CONNECTIONS tbl (<[lsd := queue_accepted q k []]> m).
Proof.
  intros Hls Hl Hb Hm Hok Hcq Hk Hb0 Hs He Hlsd P1 P2.
  destruct (wlp_total (myaccept lsd) (fun r st' => r = (inl b, Some (peer_addr (network_state s), peer_addr_len (network_state s)))
      /\ exists tbl, st' = set_listen_table tbl st /\ hash_repr MAX_NUM_CONNECTIONS tbl (<[lsd := queue_accepted q k []]> m)) st)
    as (? & st' & Hacc & -> & tbl & -> & Hr).
  { eapply (wlp_myaccept _ lsd b ls st s _ (set_completed_queue (completed_queue q ++ [slot q k]) q) k addr SOCKADDR_LEN); try done.
    - apply lookup_insert_eq.
    - apply (queue_completed_ok _ _ _ Hok Hk); [cbn [rq_sd]; lia|]. rewrite Hcq. apply not_elem_of_nil.
    - cbn [completed_queue set_completed_queue]. by rewrite Hcq.
    - by rewrite P2.
    - intros tbl Hr. split; [done|]. exists tbl. split; [done|]. by rewrite insert_insert_eq in Hr. }
  exists tbl. by rewrite Hacc, P1, P2.
Qed.

(** The client's thread has sent its SYN. *)
Lemma connects_sent sA p : net_out (network_state sA) = [] ->
  net_out (network_state (sent [p] (connects sA))) = frame p
  /\ set_network_state (set_net_out [] (network_state (sent [p] (connects sA)))) (sent [p] (connects sA)) = connects sA.
Proof.
  intros Hout. split.
  - cbn [sent connects network_state set_network_state net_out set_net_out set_connected]. rewrite Hout. apply app_nil_r.
  - destruct sA as [? []]; simpl in *; by subst.
Qed.

(** The two ends of a connection just opened. *)
Definition client_end (eA : Z) (sA : mysock_context) : mysock_context := unblocked eA (connects sA).
Definition server_end (ip port lsd b eB : Z) (addr : sockaddr) : mysock_context :=
  unblocked eB (set_network_recv_queue [] (accepted_sock ip true port lsd b addr [] [])).

(** What [open_connection] ends in: both threads established, the client's request
    completed in slot [k] of the listener's queue. *)
Definition opened (stA : stack) (a : Z) (sA : mysock_context) (stB : stack) (lsd b : Z) (ls : mysock_context)
    (m : gmap Z listen_queue_t) (q : listen_queue_t) (addr : sockaddr) (eA eB : Z) (stA' stB' : stack) : Prop :=
  stA' = sock_at (thread_at stA a (Running (established_context true))) a (client_end eA sA)
  /\ exists tbl k, pending_at q k addr b
       /\ hash_repr MAX_NUM_CONNECTIONS tbl
            (<[lsd := set_completed_queue (completed_queue q ++ [slot q k]) (queue_taken q k addr b)]> m)
       /\ stB' = sock_at (thread_at (accepting stB lsd ls addr tbl) b (Running (established_context false))) b
                   (server_end (host_ip stB) (net_port (network_state ls)) lsd b eB addr).

Lemma open_connection_ok stA a sA lsd b ls m q addr stB eA eB :
  client_ready stA a sA -> server_ready stB lsd b ls m q (network_state sA) addr ->
  exists stA' stB', open_connection a lsd b eA eB addr stA stB = Some (stA', stB')
    /\ connection a b (mk_ep stA' [] []) (mk_ep stB' [] [])
    /\ opened stA a sA stB lsd b ls m q addr eA eB stA' stB'.
Proof.
  intros Hc Hs. destruct (ends_facing _ _ _ _ _ _ _ _ _ _ Hc Hs) as (Hfac & HonB & HonA).
  pose proof Hs as [[Hgl Hpl] (S1 & S2 & S3) (N1 & N2 & N3) (T1 & T2 & T3 & T4) (U1 & U2) _].
  destruct Hc as [[Hga Hpa] [Hta _] (C1 & C2 & C3 & C4 & C5) (Q1 & Q2 & Q3) (Hcall & Hin & Hout)].
  assert (HA0 : stA = sock_at (thread_at stA a Starting) a sA).
  { unfold thread_at, sock_at, set_transports, set_global_ctx. simpl. rewrite !insert_id by done. by destruct stA. }
  unfold open_connection. set (stA0 := stA) at 1. change (stA0 = sock_at (thread_at stA a Starting) a sA) in HA0.
  clearbody stA0. subst stA0.
  set (netB := accepted_net (host_ip stB) (net_port (network_state ls)) addr) in *.
  set (syn := sealed (network_state sA) SYN). pose proof SYN_ok as [Hsok Hsl].
  assert (Hsynl : length syn = 20%nat) by (subst syn; rewrite length_sealed; lia).
  assert (Hsyna : accepts netB syn) by by apply sealed_accepted.
  assert (Hb : 0 <= b < Z.of_nat MAX_NUM_CONNECTIONS /\ global_ctx stB !! b = None).
  { pose proof (first_free_spec (global_ctx stB) 0 MAX_NUM_CONNECTIONS) as Hff. rewrite U1 in Hff. split; [lia|apply Hff]. }
  destruct Hb as [Hbr Hbn]. assert (Hne : b <> lsd) by congruence.
  (* the SYN leaves and arrives *)
  eapply (run_ok _ _ (fun _ st' => st' = _)).
  { eapply wlp_start_active; [done|done|done|]. reflexivity. }
  intros [] ? ->. unfold arrive. rewrite sock_at_lookup, Hgl, sock_at_twice. fold syn.
  destruct (connects_sent sA syn Hout) as [Hsent Hcl]. rewrite Hsent, Hcl, N2. cbn [app].
  cbn [mbind option_bind].
  (* a new mysocket for it *)
  set (sB := accepted_sock (host_ip stB) true (net_port (network_state ls)) lsd b addr [] syn).
  eapply (run_ok _ _ (fun _ st' => exists tbl k, hash_repr MAX_NUM_CONNECTIONS tbl (<[lsd := queue_taken q k addr b]> m)
    /\ pending_at q k addr b /\ st' = sock_at (thread_at (accepting stB lsd ls addr tbl) b Starting) b sB)).
  { eapply wlp_accept_round; [exact Hs|apply Hsyna|done| |].
    - subst syn. rewrite get8_sealed by (lia || (unfold untouched, Tcp.flags; lia)).
      destruct (segment_fields 1 (Some 5) TH_SYN RECV_WINDOW_SIZE []) as (_ & Hf & _). exact Hf.
    - intros tbl k H1 H2. by exists tbl, k. }
  intros _ ? (tbl & k & Hlb & Hpend & ->). pose proof Hpend as (Hqok & Hslot & (r & Hr & _)).
  assert (HoA : opening_end a (connects sA) []).
  { constructor; [done|done|done|]. split; [exact HonA|done]. }
  assert (HoB : opening_end b sB [syn]).
  { constructor; [by split|done|done|]. split; [exact HonB|done]. }
  assert (Hhas : has_sock (accepting stB lsd ls addr tbl) lsd (listener_after ls addr)) by (split; [apply lookup_insert_eq|exact Hpl]).
  destruct (finish_opening_ok stA (accepting stB lsd ls addr tbl) a b eA eB (connects sA) sB syn lsd (listener_after ls addr) _ _ k _
    HoA HoB C1 eq_refl Hfac Hsyna Hsynl Hne eq_refl Hhas S1 S2 Hlb (lookup_insert_eq _ _ _) Hqok (find_taken _ _ _ _ _ Hr U2 Hslot) Hslot)
    as (x & y & He & Hcon & Hx & tbl2 & Hr2 & Hy).
  exists x, y. split; [exact He|]. split; [exact Hcon|]. split; [exact Hx|].
  exists tbl2, k. rewrite insert_insert_eq in Hr2. split; [exact Hpend|]. split; [exact Hr2|exact Hy].
Qed.

(** [myaccept] then returns the server's end, and the listener's queue is as it
    was before. *)
Lemma opened_accept stA a sA stB lsd b ls m q addr eA eB stA' stB' na :
  server_ready stB lsd b ls m q na addr -> opened stA a sA stB lsd b ls m q addr eA eB stA' stB' ->
  completed_queue q = [] -> eB = 0 \/ eB = EINTR ->
  exists tbl k, myaccept lsd stB' = Ok ((inl b, Some (addr, SOCKADDR_LEN)), set_listen_table tbl stB')
    /\ pending_at q k addr b /\ hash_repr MAX_NUM_CONNECTIONS tbl (<[lsd := queue_accepted (queue_taken q k addr b) k []]> m).
Proof.
  intros [[Hgl Hpl] (S1 & S2 & S3) _ _ (U1 & _) _] (_ & tbl & k & Hpend & Hr & ->) Hcq Herr. pose proof Hpend as (Hok & Hslot & _).
  pose proof (first_free_spec (global_ctx stB) 0 MAX_NUM_CONNECTIONS) as Hff. rewrite U1 in Hff. destruct Hff as (Hb & Hbn & _).
  assert (Hne : b <> lsd) by congruence.
  destruct (myaccept_completed lsd b (listener_after ls addr)
    (sock_at (thread_at (accepting stB lsd ls addr tbl) b (Running (established_context false))) b
       (server_end (host_ip stB) (net_port (network_state ls)) lsd b eB addr))
    (server_end (host_ip stB) (net_port (network_state ls)) lsd b eB addr) m (queue_taken q k addr b) k addr)
    as (tbl2 & He & Hr2); try done.
  - split; [|exact Hpl]. simpl. rewrite lookup_insert_ne by done. apply lookup_insert_eq.
  - lia.
  - split; [apply sock_at_lookup|by split].
  - destruct Herr as [->| ->]; done.
  - by exists tbl2, k.
Qed.
End opening.
