(* ===== verification/StcpSetup.v ===== *)
(** What the two applications call before a connection opens: a server makes a
    mysocket, binds it and listens; a client makes one and connects. *)

From S2P Require Import Prelude.
From S2P Require Import Bytes.
From S2P Require Import MysockHash.
From S2P Require Import MysockState.
From S2P Require Import NetworkIoTcp.
From S2P Require Import TcpSum.
From S2P Require Import Mysock.
From S2P Require Import ConnectionDemux.
From S2P Require Import MysockApi.
From S2P Require Import DemuxFacts.
From S2P Require Import StcpFacts.
From S2P Require Import StcpSystem.
From S2P Require Import StcpInvariant.
From S2P Require Import StcpHandshake.

Section setup.
Context {K : Kernel}.

(** A client up to the wait of [myconnect]: the descriptor. *)
Definition dial (name : sockaddr) : M stack ret_t :=
  sd ← mysocket true;
  match sd with
  | inr e => mret (inr e)
  | inl a => rc ← myconnect_start a name SOCKADDR_LEN; mret (match rc with inl 0 => inl a | _ => rc end)
  end.

(** A server up to its first [myaccept]: the listening descriptor. *)
Definition serve (addr : sockaddr) (backlog : Z) : M stack ret_t :=
  sd ← mysocket true;
  match sd with
  | inr e => mret (inr e)
  | inl l =>
      rc ← mybind l addr;
      match rc with
      | inl 0 => rc ← mylisten l backlog; mret (match rc with inl 0 => inl l | _ => rc end)
      | _ => mret rc
      end
  end.

(** An Internet address with a port and a host. *)
Definition inet (a : sockaddr) : Prop :=
  sa_family a = AF_INET /\ 0 < sin_port a < 65536 /\ 0 < s_addr a < 4294967296.

(** A fresh mysocket at descriptor [k]. *)
Definition fresh_sock (ip k : Z) : mysock_context :=
  set_my_sd k (set_network_state (set_is_reliable true (_network_init ip)) (_mysock_allocate_context ip)).

Lemma wlp_mysocket F k st (Q : ret_t -> stack -> Prop) :
  first_free (global_ctx st) 0 MAX_NUM_CONNECTIONS = Some k ->
  (placed k (fresh_sock (host_ip st) k) -> global_ctx st !! k = None ->
   Q (inl k) (sock_at st k (fresh_sock (host_ip st) k))) ->
  wlp F (mysocket true) Q st.
Proof.
  intros Hk HQ. pose proof (first_free_spec (global_ctx st) 0 MAX_NUM_CONNECTIONS) as Hs. rewrite Hk in Hs.
  destruct Hs as (Hr & Hn & _). unfold mysocket, _mysock_new_mysocket. wgo. rewrite Hk. wgo.
  apply HQ; [|done]. by split.
Qed.

(** [myconnect] up to its wait, on a fresh mysocket: its thread is about to start. *)
Lemma wlp_myconnect_start F st a p name (Q : ret_t -> stack -> Prop) :
  placed a (fresh_sock (host_ip st) a) -> bind_port 0 = Some p -> 0 < host_ip st < 4294967296 -> inet name ->
  (forall s, let st' := sock_at (thread_at st a Starting) a s in
     client_ready st' a s -> peer_addr (network_state s) = name -> net_interface_ip (network_state s) = host_ip st ->
     Q (inl 0) st') ->
  wlp F (myconnect_start a name SOCKADDR_LEN) Q (sock_at st a (fresh_sock (host_ip st) a)).
Proof.
  intros Hpl Hp Hip (N1 & N2 & N3) HQ.
  unfold myconnect_start. wgo. apply wlp_get_context; [done|]. wgo. wif. apply wlp_at_sock, wlp_in_net. wgo.
  wif. apply wlp_at_sock. unfold _mysock_bind_ephemeral. wgo. wif. apply wlp_in_net. unfold _network_bind.
  cbn [sin_port]. rewrite Hp. wgo. wif. wif.
  unfold _mysock_transport_init. wgo. apply wlp_the_context; [done|]. wgo. wif.
  apply wlp_at_sock. wgo. unfold _network_start_recv_thread. apply wlp_at_sock, wlp_in_net. wgo.
  lazymatch goal with |- wlp _ _ _ (set_transports ?t (sock_at st a ?s)) =>
    change (set_transports t (sock_at st a s)) with (sock_at (thread_at st a Starting) a s) end.
  apply wlp_at_sock. wgo. eapply HQ.
  - constructor; [split; [apply sock_at_lookup|done]|split; [apply lookup_insert_eq|done]|done|done|].
    split; [|done]. split; [|split; [|done]]; unfold peered, reachable; simpl.
    + done.
    + split; [done|]. right. split; [done|]. split; [done|]. lia.
  - done.
  - done.
Qed.

Lemma wlp_dial F st a p name (Q : ret_t -> stack -> Prop) :
  first_free (global_ctx st) 0 MAX_NUM_CONNECTIONS = Some a -> bind_port 0 = Some p ->
  0 < host_ip st < 4294967296 -> inet name ->
  (forall st' s, client_ready st' a s -> peer_addr (network_state s) = name ->
     net_interface_ip (network_state s) = host_ip st -> Q (inl a) st') ->
  wlp F (dial name) Q st.
Proof.
  intros Ha Hp Hip Hn HQ. unfold dial. wgo. apply (wlp_mysocket F a); [done|]. intros Hpl _. wgo.
  eapply wlp_myconnect_start; [done..|]. intros s st' H1 H2 H3. wgo. by eapply HQ.
Qed.

(** [mybind] and [mylisten] on a mysocket. *)
Definition bound_to (p : Z) (addr : sockaddr) (s : mysock_context) : mysock_context :=
  set_network_state (set_net_port p (set_local_addr addr (network_state s))) (set_bound true s).
Definition listening_on (s : mysock_context) : mysock_context :=
  set_network_state (set_recv_thread_started true (network_state s)) (set_listening true s).

Lemma wlp_mybind F l p addr st s (Q : ret_t -> stack -> Prop) :
  placed l s -> listening s = false -> sa_family addr = AF_INET -> bind_port (sin_port addr) = Some p ->
  Q (inl 0) (sock_at st l (bound_to p addr s)) -> wlp F (mybind l addr) Q (sock_at st l s).
Proof.
  intros Hpl Hl Hfam Hp HQ. unfold mybind. wgo. apply wlp_get_context; [done|]. wgo. rewrite Hfam, Z.eqb_refl, Hl. cbn [negb]. wgo.
  apply wlp_at_sock. wgo. apply wlp_at_sock, wlp_in_net. wgo. apply wlp_at_sock, wlp_in_net. unfold _network_bind.
  rewrite Hp. wgo. exact HQ.
Qed.

Context {KOk : KernelOk K}.

(** An empty queue of a new listener. *)
Definition empty_queue (port backlog : Z) : listen_queue_t :=
  mk_listen port (backlog + 1) 0 1 (replicate (Z.to_nat (backlog + 1)) INVALIDATE_CONNECT_REQUEST) [].

Lemma empty_queue_ok port backlog : 0 <= backlog < 2 ^ 31 -> queue_ok (empty_queue port backlog).
Proof.
  intros Hb. split; simpl.
  - rewrite length_replicate. lia.
  - lia.
  - unfold pending. simpl. by rewrite used_replicate.
  - apply Forall_replicate. by left.
  - constructor.
  - constructor.
Qed.

(** The first [mylisten] on a mysocket makes an empty queue. *)
Lemma wlp_set_backlog_new F ctx m backlog st (Q : unit -> stack -> Prop) :
  listening ctx = true -> bound ctx = true -> 0 <= my_sd ctx -> 0 < ntohs (net_port (network_state ctx)) ->
  0 <= backlog < 2 ^ 31 -> listens st m -> m !! my_sd ctx = None ->
  (forall tbl, hash_repr MAX_NUM_CONNECTIONS tbl
     (<[my_sd ctx := empty_queue (ntohs (net_port (network_state ctx))) backlog]> m) -> Q tt (set_listen_table tbl st)) ->
  wlp F (_mysock_set_backlog ctx backlog) Q st.
Proof.
  intros Hl Hb Hk Hp Hbl Hm Hnone HQ. unfold _mysock_set_backlog. wgo. rewrite Hl, Hb. cbn [andb]. wgo.
  rewrite (proj2 (Z.ltb_lt 0 (ntohs _))) by done. wgo. apply (wlp_get_queue F _ m); [done..|]. rewrite Hnone. wgo.
  destruct (insert_eq MAX_NUM_CONNECTIONS (listen_table st) m (my_sd ctx) st Hm Hk
    (mk_listen (ntohs (net_port (network_state ctx))) 0 0 0 [] []) Hnone) as (tbl & He & Hr).
  apply (wlp_eq _ _ (mret tbl)); [exact He|]. wgo. cbn [local_port]. rewrite Z.eqb_refl. wgo.
  apply (wlp_store_queue F _ _ (<[my_sd ctx := mk_listen (ntohs (net_port (network_state ctx))) 0 0 0 [] []]> m));
    [exact Hr|done|]. cbn [max_len cur_len completed_queue]. rewrite u32_small by lia.
  rewrite (proj2 (Z.ltb_lt 0 _)) by lia. cbn [requests connection_queue]. rewrite insert_insert_eq. intros tbl' Hr'.
  apply HQ. unfold empty_queue. rewrite <- (Nat.sub_0_r (Z.to_nat (backlog + 1))). exact Hr'.
Qed.

Lemma wlp_mylisten F st m l s backlog (Q : ret_t -> stack -> Prop) :
  placed l s -> bound s = true -> recv_thread_started (network_state s) = false -> 0 < ntohs (net_port (network_state s)) ->
  0 <= backlog < 2 ^ 31 -> listens st m -> m !! l = None ->
  (forall tbl, hash_repr MAX_NUM_CONNECTIONS tbl (<[l := empty_queue (ntohs (net_port (network_state s))) backlog]> m) ->
     Q (inl 0) (sock_at (set_listen_table tbl st) l (listening_on s))) ->
  wlp F (mylisten l backlog) Q (sock_at st l s).
Proof.
  intros Hpl Hbd Hth Hp0 Hb Hm Hnone HQ. pose proof Hpl as [Hsd _]. unfold mylisten. wgo. apply wlp_the_context; [done|]. wgo. rewrite Hbd. wgo.
  apply wlp_at_sock. wgo. apply wlp_at_sock. wgo.
  apply (wlp_set_backlog_new F _ m); cbn [my_sd set_listening network_state]; rewrite ?Hsd; [done|done|apply Hpl|done|done|exact Hm|done|].
  intros tbl Hr. lazymatch goal with |- wlp _ _ _ (set_listen_table tbl (sock_at st l ?s)) =>
    change (set_listen_table tbl (sock_at st l s)) with (sock_at (set_listen_table tbl st) l s) end.
  unfold _network_start_recv_thread. wgo. apply wlp_at_sock, wlp_in_net. wgo. by apply HQ.
Qed.

Lemma wlp_serve F st m l p addr backlog (Q : ret_t -> stack -> Prop) :
  first_free (global_ctx st) 0 MAX_NUM_CONNECTIONS = Some l -> bind_port (sin_port addr) = Some p -> 0 < ntohs p ->
  sa_family addr = AF_INET -> 0 <= backlog < 2 ^ 31 -> listens st m -> m !! l = None ->
  (forall tbl ls, hash_repr MAX_NUM_CONNECTIONS tbl (<[l := empty_queue (ntohs p) backlog]> m) ->
     placed l ls -> listening ls = true /\ bound ls = true /\ is_active ls = false ->
     is_reliable (network_state ls) = true /\ accept_queue (network_state ls) = [] /\ new_socket (network_state ls) = None ->
     net_port (network_state ls) = p ->
     Q (inl l) (sock_at (set_listen_table tbl st) l ls)) ->
  wlp F (serve addr backlog) Q st.
Proof.
  intros Hl Hp Hp0 Hfam Hb Hm Hnone HQ. unfold serve. wgo. apply (wlp_mysocket F l); [done|]. intros Hpl _. wgo.
  eapply wlp_mybind; [done|done|done|exact Hp|]. wgo. eapply (wlp_mylisten F st m); [done..|]. intros tbl Hr. wgo. by apply HQ.
Qed.

(** The two together make a client and a server that can open a connection. *)
Lemma served st tbl l ls m p backlog b na addr :
  hash_repr MAX_NUM_CONNECTIONS tbl (<[l := empty_queue p backlog]> m) -> placed l ls -> 0 <= backlog < 2 ^ 31 ->
  listening ls = true /\ bound ls = true /\ is_active ls = false ->
  is_reliable (network_state ls) = true /\ accept_queue (network_state ls) = [] /\ new_socket (network_state ls) = None ->
  first_free (<[l := ls]> (global_ctx st)) 0 MAX_NUM_CONNECTIONS = Some b ->
  inet addr -> s_addr addr = net_interface_ip na -> s_addr (peer_addr na) = host_ip st ->
  server_ready (sock_at (set_listen_table tbl st) l ls) l b ls (<[l := empty_queue p backlog]> m) (empty_queue p backlog) na addr.
Proof.
  intros Hr Hpl Hb Hf Hn Hfree (A1 & A2 & A3) Ha Hp.
  pose proof (first_free_spec (<[l := ls]> (global_ctx st)) 0 MAX_NUM_CONNECTIONS) as Hs. rewrite Hfree in Hs.
  constructor; try done.
  - split; [apply sock_at_lookup|done].
  - split; [exact Hr|]. split; [apply lookup_insert_eq|]. split; [by apply empty_queue_ok|]. simpl. lia.
  - split; [exact Hfree|]. apply Forall_replicate. simpl. split; [|lia]. intros <-. simpl in A2. lia.
Qed.

(** A server that listens at [bind_addr] on host [stB] and a client on host [stA]
    that connects to [name], then the opening of the connection; the client's
    mysocket is [a], the listener [l], the server's end [b]. *)
Definition meet (bind_addr name addr : sockaddr) (backlog a l b eA eB : Z) (stA stB : stack) : option (stack * stack) :=
  stB ← run (serve bind_addr backlog) stB;
  stA ← run (dial name) stA;
  open_connection a l b eA eB addr stA stB.

(** Hosts with room for these mysockets, whose addresses fit each other: [addr]
    is the client as the server sees it. *)
Record can_meet (bind_addr name addr : sockaddr) (backlog a l b : Z) (stA stB : stack) : Prop := {
  meet_client : first_free (global_ctx stA) 0 MAX_NUM_CONNECTIONS = Some a;
  meet_listener : first_free (global_ctx stB) 0 MAX_NUM_CONNECTIONS = Some l;
  meet_end : forall s, first_free (<[l := s]> (global_ctx stB)) 0 MAX_NUM_CONNECTIONS = Some b;
  meet_listens : exists m, listens stB m /\ m !! l = None;
  meet_backlog : 0 <= backlog < 2 ^ 31;
  meet_bound : sa_family bind_addr = AF_INET /\ exists p, bind_port (sin_port bind_addr) = Some p /\ 0 < ntohs p;
  meet_ephemeral : is_Some (bind_port 0);
  meet_name : inet name /\ s_addr name = host_ip stB;
  meet_addr : inet addr /\ s_addr addr = host_ip stA;
}.

(** They meet: the connection stands, and [myaccept] returns its server's end. *)
Lemma meet_ok bind_addr name addr backlog a l b eA eB stA stB :
  can_meet bind_addr name addr backlog a l b stA stB ->
  exists stA' stB', meet bind_addr name addr backlog a l b eA eB stA stB = Some (stA', stB')
    /\ connection a b (mk_ep stA' [] []) (mk_ep stB' [] [])
    /\ (eB = 0 \/ eB = EINTR -> exists st'', myaccept l stB' = Ok ((inl b, Some (addr, SOCKADDR_LEN)), st'')).
Proof.
  intros [Ha Hl Hb (m & Hm & Hnone) Hbl (Hfam & p & Hp & Hp0) [p0 Hp0'] [Hn Hn'] [Hi Hi']]. unfold meet.
  destruct (wlp_total (serve bind_addr backlog) (fun _ st' => exists tbl ls, st' = sock_at (set_listen_table tbl stB) l ls
      /\ forall na, s_addr addr = net_interface_ip na -> s_addr (peer_addr na) = host_ip stB ->
         server_ready st' l b ls (<[l := empty_queue (ntohs p) backlog]> m) (empty_queue (ntohs p) backlog) na addr) stB)
    as (r & stB1 & HsB & tbl & ls & -> & Hsrv).
  { eapply (wlp_serve _ stB m l p); try done. intros tbl ls Hr Hpl Hf Hne _. exists tbl, ls. split; [done|].
    intros na Hna1 Hna2. by eapply served. }
  destruct (wlp_total (dial name) (fun _ st' => exists s, client_ready st' a s /\ peer_addr (network_state s) = name
      /\ net_interface_ip (network_state s) = host_ip stA) stA) as (r' & stA1 & HsA & s & Hcl & Hs1 & Hs2).
  { eapply (wlp_dial _ stA a p0); try done; [rewrite <- Hi'; apply Hi|]. intros st' s H1 H2 H3. by exists s. }
  assert (run (serve bind_addr backlog) stB = Some (sock_at (set_listen_table tbl stB) l ls)) as -> by (unfold run; by rewrite HsB).
  assert (run (dial name) stA = Some stA1) as E by (unfold run; by rewrite HsA). cbn [mbind option_bind]. rewrite E.
  cbn [mbind option_bind].
  destruct (open_connection_ok stA1 a s l b ls (<[l := empty_queue (ntohs p) backlog]> m) (empty_queue (ntohs p) backlog) addr (sock_at (set_listen_table tbl stB) l ls) eA eB Hcl)
    as (x & y & He & Hc & Hop).
  { apply Hsrv; [by rewrite Hs2|by rewrite Hs1]. }
  exists x, y. split; [exact He|]. split; [exact Hc|]. intros Herr.
  assert (Hrdy : server_ready (sock_at (set_listen_table tbl stB) l ls) l b ls (<[l := empty_queue (ntohs p) backlog]> m)
    (empty_queue (ntohs p) backlog) (network_state s) addr) by (apply Hsrv; [by rewrite Hs2|by rewrite Hs1]).
  destruct (opened_accept _ _ _ _ _ _ _ _ _ _ _ _ _ _ _ Hrdy Hop eq_refl Herr) as (tbl2 & k & Hacc & _). by eexists.
Qed.
End setup.

Section talk.
Context {K : Kernel} {KOk : KernelOk K}.

(** A state of two hosts whose mysockets [a] and [b] met, threads, applications
    and network having run since. *)
Definition talking (a b : Z) (w : endpoint * endpoint) : Prop :=
  exists bind_addr name addr backlog l eA eB stA stB stA' stB',
    can_meet bind_addr name addr backlog a l b stA stB
    /\ meet bind_addr name addr backlog a l b eA eB stA stB = Some (stA', stB')
    /\ reaches a b (mk_ep stA' [] [], mk_ep stB' [] []) w.

Lemma talking_connection a b w : talking a b w -> connection a b (fst w) (snd w).
Proof.
  intros (ba & nm & ad & bl & l & eA & eB & stA & stB & x & y & Hm & He & Hr).
  destruct (meet_ok _ _ _ _ _ _ _ eA eB _ _ Hm) as (x' & y' & He' & Hc & _). simplify_eq.
  by eapply reaches_connection.
Qed.
End talk.
