(* ===== verification/StcpDemo.v ===== *)
(** A concrete system: two hosts, a kernel on which every call succeeds in full,
    and a run of an echoed message, for the theorems' instances. *)

From S2P Require Import Prelude.
From S2P Require Import Bytes.
From S2P Require Import MysockHash.
From S2P Require Import MysockState.
From S2P Require Import Mysock.
From S2P Require Import NetworkIoTcp.
From S2P Require Import ConnectionDemux.
From S2P Require Import Transport.
From S2P Require Import MysockApi.
From S2P Require Import DemuxFacts.
From S2P Require Import StcpSystem.
From S2P Require Import StcpHandshake.
From S2P Require Import StcpSetup.

(** [write] and [read] move all they can, [connect] succeeds, [bind] gives the
    port asked for, or 40000. *)
Definition demo_kernel : Kernel := {|
  rand_r z := (z, z + 1);
  write_rc _ n := Z.of_nat n;
  read_rc s n := Z.of_nat (n `min` length s);
  connect_rc _ := 0;
  bind_port p := Some (if p =? 0 then htons 40000 else p);
|}.

Lemma demo_kernel_ok : @KernelOk demo_kernel.
Proof.
  split; simpl.
  - intros; lia.
  - intros s n Hn Hs. assert (0 < length s)%nat by (destruct s; simpl; [done|lia]). lia.
  - intros; lia.
Qed.

(** A host without mysockets. *)
Definition new_host (ip : Z) : stack := mk_stack ip ∅ (hash_empty MAX_NUM_CONNECTIONS) ∅.

Lemma new_host_listens ip : listens (new_host ip) ∅.
Proof. apply hash_empty_ok; [unfold MAX_NUM_CONNECTIONS; lia|done]. Qed.

(** 10.0.0.1 calls port 80 of 10.0.0.2; in network order. *)
Definition ipA : Z := 0x0100000a.
Definition ipB : Z := 0x0200000a.
Definition server_name : sockaddr := mk_sockaddr AF_INET (htons 80) ipB.
Definition any_name : sockaddr := mk_sockaddr AF_INET (htons 80) 0.
Definition client_name : sockaddr := mk_sockaddr AF_INET (htons 40000) ipA.

(** The state an operation ends in. *)
Definition state_of {S A} (d : S) (r : res (A * S)) : S := match r with Ok (_, s) => s | Err _ => d end.

(** A message that takes two segments. *)
Definition message : bytes := (fun k => Z.of_nat (k mod 256)) <$> seq 0 600.

#[local] Existing Instance demo_kernel.

(** The two hosts once they met: mysocket 0 of 10.0.0.1 with mysocket 1 of
    10.0.0.2, whose mysocket 0 listens. *)
Definition demo_met : stack * stack :=
  default (new_host ipA, new_host ipB) (meet any_name server_name client_name 5 0 0 1 0 0 (new_host ipA) (new_host ipB)).

Lemma demo_can_meet : can_meet any_name server_name client_name 5 0 0 1 (new_host ipA) (new_host ipB).
Proof.
  split; try done.
  - exists ∅. split; [apply new_host_listens|done].
  - split; [done|]. exists (htons 80). done.
Qed.

Lemma demo_meet :
  meet any_name server_name client_name 5 0 0 1 0 0 (new_host ipA) (new_host ipB) = Some demo_met.
Proof. vm_compute; reflexivity. Qed.

Lemma demo_met_talking : talking 0 1 (mk_ep (fst demo_met) [] [], mk_ep (snd demo_met) [] []).
Proof.
  exists any_name, server_name, client_name, 5, 0, 0, 0, (new_host ipA), (new_host ipB), (fst demo_met), (snd demo_met).
  split; [apply demo_can_meet|]. split; [rewrite demo_meet; by destruct demo_met|apply rtc_refl].
Qed.

(** The client writes the message and its first segment is on its way. *)
Definition demo_written : stack := state_of (new_host 0) (mywrite 0 message (fst demo_met)).
Definition demo_sent : stack := state_of (new_host 0) (transport_thread_func 0 0 demo_written).
Definition demo_delivered : stack * stack :=
  default demo_met (deliver 0 1 558 demo_sent (snd demo_met)).
Definition demo_received : stack := state_of (new_host 0) (network_recv_thread_round 1 (snd demo_delivered)).
Definition demo_handled : stack := state_of (new_host 0) (transport_thread_func 1 0 demo_received).
Definition demo_read : stack := state_of (new_host 0) (myread 1 100 demo_handled).

(** 100 bytes of it read. *)
Definition demo_world : endpoint * endpoint :=
  (mk_ep (fst demo_delivered) message [], mk_ep demo_read [] (take 100 message)).

Lemma message_ok : wf_bytes message.
Proof. apply Forall_fmap, Forall_forall. intros k _. unfold is_byte. simpl. pose proof (Nat.mod_upper_bound k 256). lia. Qed.

Lemma demo_talking : talking 0 1 demo_world.
Proof.
  exists any_name, server_name, client_name, 5, 0, 0, 0, (new_host ipA), (new_host ipB), (fst demo_met), (snd demo_met).
  split; [apply demo_can_meet|]. split; [rewrite demo_meet; by destruct demo_met|].
  pose (e0 := mk_ep (fst demo_met) [] []). pose (f0 := mk_ep (snd demo_met) [] []).
  pose (e1 := mk_ep demo_written message []). pose (e2 := mk_ep demo_sent message []).
  pose (e3 := mk_ep (fst demo_delivered) message []). pose (f3 := mk_ep (snd demo_delivered) [] []).
  pose (f4 := mk_ep demo_received [] []). pose (f5 := mk_ep demo_handled [] []).
  apply (rtc_l _ _ (e1, f0)).
  { left. apply (step_write 0 1 e0 f0 message (inl 600)); [apply message_ok|done|vm_compute; reflexivity]. }
  apply (rtc_l _ _ (e2, f0)).
  { left. apply (step_transport 0 1 e1 f0 0). vm_compute; reflexivity. }
  apply (rtc_l _ _ (e3, f3)).
  { left. apply (step_deliver 0 1 e2 f0 558). vm_compute; reflexivity. }
  apply (rtc_l _ _ (e3, f4)).
  { right. apply (step_receive 1 0 f3 e3 true). vm_compute; reflexivity. }
  apply (rtc_l _ _ (e3, f5)).
  { right. apply (step_transport 1 0 f4 e3 0). vm_compute; reflexivity. }
  apply (rtc_l _ _ demo_world); [|apply rtc_refl].
  right. apply (step_read 1 0 f5 e3 100 (inl 100) (take 100 message)); [lia|vm_compute; reflexivity].
Qed.
