(* ===== verification/StcpUnreliable.v ===== *)
(** STCP on a mysocket that is not reliable: what network.c puts on the wire,
    what the transport layer makes of a segment that comes twice, in the wrong
    place, or not at all. *)

From S2P Require Import Prelude.
From S2P Require Import Bytes.
From S2P Require Import MysockState.
From S2P Require Import PacketQueue.
From S2P Require Import NetworkIoTcp.
From S2P Require Import TcpSum.
From S2P Require Import Mysock.
From S2P Require Import ConnectionDemux.
From S2P Require Import StcpApi.
From S2P Require Import Transport.
From S2P Require Import MysockApi.
From S2P Require Import StcpFacts.
From S2P Require Import TransportFacts.
From S2P Require Import StcpSystem.
From S2P Require Import StcpInvariant.
From S2P Require Import StcpSetup.
From S2P Require Import StcpDemo.

(* ------------------------------------------------------------------ *)
(** * What goes on the wire *)

Section lossy.
Context {K : Kernel} {KOk : KernelOk K}.

(** The packet kept for later. *)
Definition kept (net : network_context_t) : bytes := take (copy_buf_len net) (copy_buffer net).

(** A connected network context that loses packets. *)
Record lossy (net : network_context_t) : Prop := {
  ly_reachable : reachable net;
  ly_connected : connected net = true;
  ly_unreliable : is_reliable net = false;
  ly_room : blen (copy_buffer net) = MAX_IP_PAYLOAD_LEN;
  ly_kept : copied net = true -> (copy_buf_len net <= length (copy_buffer net))%nat;
}.

(** The number drawn for the next packet, out of 32. *)
Definition draw (net : network_context_t) : Z := Z.land (fst (rand_r (random_seed net))) 31.

(** What becomes of a packet: it is lost, doubled, kept, replaced by the one
    kept before, or sent. *)
Definition fate (net : network_context_t) (p : bytes) : list bytes :=
  if draw net =? 0 then []
  else if draw net =? 1 then [p; p]
  else if draw net =? 2 then []
  else if draw net =? 3 then [if copied net then kept net else p]
  else [p].

(** [net'] is [net] after the packet [p] met its fate. *)
Record faced (net : network_context_t) (p : bytes) (net' : network_context_t) : Prop := {
  fd_out : net_out net' = net_out net ++ frames (fate net p);
  fd_in : net_in net' = net_in net;
  fd_ends : same_ends net net';
  fd_lossy : lossy net';
  fd_seed : random_seed net' = snd (rand_r (random_seed net));
  fd_kept : if draw net =? 2 then copied net' = true /\ kept net' = p else copied net' = copied net /\ kept net' = kept net;
}.

Lemma wlp_network_send_lossy F p (Q : Z -> network_context_t -> Prop) net :
  lossy net -> segment_ok p -> (forall r net', faced net p net' -> Q r net') -> wlp F (_network_send p) Q net.
Proof.
  intros [H1 H2 H3 H4 H5] [Hwf Hl] HQ. unfold _network_send. wgo. rewrite H3. cbn [negb].
  unfold blen, MAX_IP_PAYLOAD_LEN in *.
  destruct (rand_r (random_seed net)) as [r seed] eqn:Er. cbv beta iota. wgo.
  set (net1 := set_random_seed seed net).
  assert (R1 : reachable net1) by exact H1.
  assert (C1 : forall v, set_net_out v (set_connected true net1) = set_net_out v net1) by (destruct net; cbn in *; by subst).
  assert (Ed : Z.land r 0x1f = draw net) by (unfold draw; by rewrite Er). rewrite Ed.
  assert (Hfd : forall ps, fate net p = ps -> (draw net =? 2) = false -> faced net p (set_net_out (net_out net ++ frames ps) net1)).
  { intros ps Hps H2'. split; [cbn; by rewrite Hps|done|by repeat split|by split|by rewrite Er|by rewrite H2']. }
  assert (Hsend : forall ps (Q' : Z -> network_context_t -> Prop) q, blen q < 65536 ->
    Q' (blen q) (set_net_out (net_out net ++ frames (ps ++ [q])) net1) ->
    wlp F (_network_send_packet q) Q' (set_net_out (net_out net ++ frames ps) net1)).
  { intros ps Q' q Hq HQ'. apply wlp_send_packet; [exact R1|done|]. rewrite frames_app in HQ'.
    unfold frames at 2 in HQ'. cbn [fmap list_fmap mjoin list_join] in HQ'. rewrite app_nil_r, app_assoc in HQ'.
    destruct net; cbn in *; by subst. }
  assert (Hbase : net1 = set_net_out (net_out net ++ frames []) net1).
  { unfold frames. cbn. rewrite app_nil_r. by destruct net. }
  unfold fate in Hfd. destruct (Z.eqb_spec (draw net) 0) as [E|_].
  { wgo. apply HQ. rewrite Hbase. apply Hfd; [done|by rewrite E]. }
  destruct (Z.eqb_spec (draw net) 1) as [E|_].
  { wgo. rewrite Hbase. apply Hsend; [unfold blen; lia|]. wgo. apply Hsend; [unfold blen; lia|]. apply HQ, Hfd; [done|by rewrite E]. }
  destruct (Z.eqb_spec (draw net) 2) as [E|N2].
  { wgo. rewrite (proj2 (Z.leb_le _ _)) by (unfold blen; lia). wgo. apply wlp_wrn; [cbn; lia|]. wgo. apply HQ.
    split; cbn.
    - unfold fate. rewrite E. cbn. by rewrite app_nil_r.
    - done.
    - by repeat split.
    - assert (Hu : length (upd (copy_buffer net) 0 p) = length (copy_buffer net)) by (apply length_upd; lia).
      split; [exact H1|exact H2|exact H3|change (Z.of_nat (length (upd (copy_buffer net) 0 p)) = MAX_IP_PAYLOAD_LEN); by rewrite Hu|].
      intros _. change (length p <= length (upd (copy_buffer net) 0 p))%nat. rewrite Hu. lia.
    - by rewrite Er.
    - rewrite E. cbn. split; [done|]. change (slice (upd (copy_buffer net) 0 p) 0 (length p) = p). apply slice_upd_eq. lia. }
  assert (E2 : (draw net =? 2) = false) by by apply Z.eqb_neq.
  destruct (Z.eqb_spec (draw net) 3) as [E|_].
  - destruct (copied net) eqn:Ec.
    + wgo. apply wlp_rdn; [cbn; specialize (H5 eq_refl); lia|]. wgo. rewrite Hbase.
      apply Hsend; [unfold blen; rewrite length_slice; cbn; specialize (H5 eq_refl); lia|]. wgo. apply HQ, Hfd; [|done].
      cbn. unfold kept. done.
    + wgo. rewrite Hbase. apply Hsend; [unfold blen; lia|]. wgo. apply HQ, Hfd; [done|done].
  - wgo. rewrite Hbase. apply Hsend; [unfold blen; lia|]. apply HQ, Hfd; [done|done].
Qed.

(* ------------------------------------------------------------------ *)
(** * One round of a thread *)

(** The stack once the thread of [sd] waits again with the context [c]. *)
Definition waiting (sd : Z) (c : context_t) (st : stack) : stack :=
  set_transports (<[sd := Running c]> (transports st)) st.

Lemma wlp_thread_round F sd st s c errno (Q : unit -> stack -> Prop) :
  runs sd st s c -> placed sd s -> phase c = (false, CSTATE_ESTABLISHED, is_client c) -> close_requested s = false ->
  (let next c' st' := phase c' = phase c /\ Q tt (waiting sd c' st') in
   match app_recv_queue s, network_recv_queue s with
   | [], [] => F Blocked
   | _ :: _, [] => wlp F (handle_app_data sd c) next (sock_at st sd s)
   | [], _ :: _ => wlp F (handle_network_data sd c) next (sock_at st sd s)
   | _ :: _, _ :: _ => False
   end) ->
  wlp F (transport_thread_func sd errno) Q st.
Proof.
  intros [Hs Ht] Hp Hph Hcl HQ. rewrite <- (sock_at_same _ _ _ Hs). cbv zeta in HQ.
  pose proof Hph as E. unfold phase in E. injection E as Hd Hst.
  unfold transport_thread_func. wgo. apply wlp_the_context; [done|]. wgo.
  replace (transports (sock_at st sd s) !! sd) with (Some (Running c)).
  unfold in_handshake. rewrite Hst. wgo. unfold control_iteration. wgo. apply wlp_wait_for_event; [done|]. unfold ready_events.
  cbn [ev_app_data ev_network_data ev_close ANY_EVENT andb]. rewrite Hcl. cbn [andb].
  assert (Hend : forall c' st', phase c' = phase c /\ Q tt (waiting sd c' st') ->
    wlp F (if done c' then _ ← thread_exit sd errno; modify (fun st => set_transports (<[sd := Finished]> (transports st)) st)
           else modify (fun st => set_transports (<[sd := Running c']> (transports st)) st)) Q st').
  { intros c' st' [Hc' H]. rewrite Hph in Hc'. unfold phase in Hc'. injection Hc' as -> _ _. by wgo. }
  assert (Hfin : forall c', phase c' = phase c ->
    bool_decide (connection_state c' = CSTATE_FIN_WAIT_1) || bool_decide (connection_state c' = CSTATE_LAST_ACK) = false).
  { intros c' Hc'. rewrite Hph in Hc'. unfold phase in Hc'. injection Hc' as _ -> _. done. }
  destruct (app_recv_queue s) as [|d q], (network_recv_queue s) as [|p l]; cbn [orb andb].
  - exact HQ.
  - wgo. rewrite Hfin by done. wgo. eapply wlp_mono; [exact HQ|]. cbn beta. intros c' st' H. wgo. by apply Hend.
  - wgo. eapply wlp_mono; [exact HQ|]. cbn beta. intros c' st' H. wgo. by apply Hend.
  - done.
Qed.

(* ------------------------------------------------------------------ *)
(** * What arrives is handed up *)

(** A data segment that the end with network context [net] accepts. *)
Definition data_segment (net : network_context_t) (p : bytes) : Prop :=
  accepts net p /\ (length p <= 556)%nat /\ match kind_of p with KData _ _ => True | _ => False end.

(** The end [sd] of an established connection, with nothing to send and [ps] in
    its receive queue. *)
Record receiving (sd : Z) (st : stack) (s : mysock_context) (c : context_t) (ps : list bytes) : Prop := {
  rc_runs : runs sd st s c;
  rc_local : local sd s c;
  rc_quiet : app_recv_queue s = [];
  rc_queue : network_recv_queue s = ps;
}.

(** The transport thread takes the first segment whatever its sequence number. *)
Lemma wlp_receive_data F sd st s c p ps errno (Q : unit -> stack -> Prop) :
  receiving sd st s c (p :: ps) -> data_segment (network_state s) p ->
  (forall st' s' c', receiving sd st' s' c' ps -> same_sock s s' -> net_in (network_state s') = net_in (network_state s) ->
     mjoin (app_send_queue s') = mjoin (app_send_queue s) ++ payloads [p] -> Q tt st') ->
  wlp F (transport_thread_func sd errno) Q st.
Proof.
  intros [Hr Hl Hq Hn] (Hacc & Hlen & Hk) HQ. pose proof Hl as [P1 (P2 & P3 & P4 & P5) P6 P7 P8 P9 P10].
  eapply wlp_thread_round; [done|done|done|done|]. cbv zeta. rewrite Hq, Hn.
  eapply wlp_handle_network_data; [done|by destruct P6|exact Hn|done|done|].
  destruct (kind_of p) as [a|a|n d] eqn:Ek; [done|done|]. apply wlp_handle_data; [done|done|]. cbv zeta. split; [done|].
  set (s' := set_app_send_queue _ _). apply (HQ _ s' (set_RecvBase (u64 (RecvBase c + blen d)) c)).
  - split; [split; [apply lookup_insert_eq|apply lookup_insert_eq]| |done|done].
    apply (local_keep sd s _ c); try done. cbn. destruct d; [done|]. apply Forall_app. split; [done|]. by constructor.
  - by repeat split.
  - done.
  - assert (E : payloads [p] = d) by (unfold payloads, datas_of, data_of; cbn; rewrite Ek; cbn; apply app_nil_r).
    rewrite E. cbn. destruct d as [|x d]; [by rewrite app_nil_r|]. by rewrite mjoin_snoc.
Qed.

Definition thread_rounds (sd : Z) (n : nat) : M stack unit := mfor (replicate n tt) (fun _ => transport_thread_func sd 0).

Lemma wlp_receive_all F sd st s c ps (Q : unit -> stack -> Prop) :
  receiving sd st s c ps -> Forall (data_segment (network_state s)) ps ->
  (forall st' s' c', receiving sd st' s' c' [] -> same_sock s s' -> net_in (network_state s') = net_in (network_state s) ->
     mjoin (app_send_queue s') = mjoin (app_send_queue s) ++ payloads ps -> Q tt st') ->
  wlp F (thread_rounds sd (length ps)) Q st.
Proof.
  revert st s c Q. induction ps as [|p ps IH]; intros st s c Q Hr Hps HQ; unfold thread_rounds; cbn [length replicate mfor].
  - wgo. apply (HQ st s c); try done. by rewrite app_nil_r.
  - apply Forall_cons in Hps as [Hp Hps]. wgo. eapply wlp_receive_data; [done|done|].
    intros st1 s1 c1 H1 Hs1 Hi1 Hm1. eapply (IH st1 s1 c1); [done| |].
    + eapply Forall_impl; [exact Hps|]. intros x (A & B & C). split; [|done].
      eapply same_ends_accepts; [|exact A]. by destruct Hs1 as (_ & _ & _ & _ & _ & _ & ?).
    + intros st' s' c' H' Hs' Hi' Hm'. apply (HQ st' s' c' H'); [|congruence|].
      * destruct Hs1 as (A1 & A2 & A3 & A4 & A5 & A6 & A7), Hs' as (B1 & B2 & B3 & B4 & B5 & B6 & B7).
        repeat (split; [congruence|]). by eapply same_ends_trans.
      * rewrite Hm', Hm1, <- app_assoc. f_equal. change (p :: ps) with ([p] ++ ps). by rewrite payloads_app.
Qed.

(* ------------------------------------------------------------------ *)
(** * What is sent *)

(** The end [sd] of an established connection on an unreliable mysocket, with the
    piece [d] to send that fits a segment and the window. *)
Record lossy_end (sd : Z) (st : stack) (s : mysock_context) (c : context_t) : Prop := {
  le_runs : runs sd st s c;
  le_placed : placed sd s;
  le_phase : phase c = (false, CSTATE_ESTABLISHED, is_client c);
  le_open : listening s = false /\ close_requested s = false;
  le_peered : peered (network_state s);
  le_port : 0 < sin_port (peer_addr (network_state s)) < 65536;
  le_lossy : lossy (network_state s);
  le_window : window c;
  le_idle : network_recv_queue s = [];
}.
Definition fits (c : context_t) (d : bytes) : Prop :=
  d <> [] /\ wf_bytes d /\ blen d <= Z.min (rem c) MSS /\ next_seqnum c + blen d < 2 ^ 32.

(** The segment for [d]. *)
Definition data_of_app (net : network_context_t) (c : context_t) (d : bytes) : bytes :=
  sealed net (segment (next_seqnum c) (Some 5) 0 RECV_WINDOW_SIZE d).

Lemma data_of_app_segment net net' c d :
  window c -> fits c d -> facing net net' -> data_segment net' (data_of_app net c d) /\ payloads [data_of_app net c d] = d.
Proof.
  intros Hw (Hne & Hwf & Hl & Hn) Hf. pose proof Hw as (_ & _ & _ & _ & _ & W6 & _). unfold MSS, blen in *.
  assert (Hls : length (segment (next_seqnum c) (Some 5) 0 RECV_WINDOW_SIZE d) = (20 + length d)%nat) by apply length_segment.
  assert (Hk : kind_of (data_of_app net c d) = KData (next_seqnum c) d).
  { unfold data_of_app. rewrite kind_sealed by lia. apply kind_data. lia. }
  split.
  - split; [apply sealed_accepted; [done|]; apply segment_segment_ok; [done|unfold blen; lia]|].
    split; [unfold data_of_app; rewrite length_sealed by lia; lia|by rewrite Hk].
  - unfold payloads, datas_of, data_of. cbn [omap list_omap]. rewrite Hk. cbn. apply app_nil_r.
Qed.

(** The transport thread takes the data and leaves the segment to its fate. *)
Lemma wlp_send_data F sd st s c d errno (Q : unit -> stack -> Prop) :
  lossy_end sd st s c -> app_recv_queue s = [d] -> fits c d ->
  (forall st' s' c', lossy_end sd st' s' c' -> app_recv_queue s' = [] -> faced (network_state s) (data_of_app (network_state s) c d) (network_state s') ->
     SendBase c' = SendBase c -> next_seqnum c' = next_seqnum c + blen d -> Q tt st') ->
  wlp F (transport_thread_func sd errno) Q st.
Proof.
  intros [Hr Hp Hph [Hli Hcl] Hpe Hpo Hly Hw Hid] Hq (Hne & Hwf & Hl & Hn) HQ. unfold blen in *.
  eapply wlp_thread_round; [done|done|done|done|]. cbv zeta. rewrite Hq, Hid.
  assert (Hd0 : (0 < length d)%nat) by (destruct d; [done|simpl; lia]).
  eapply wlp_handle_app_data_with; [done|done|done|done|lia|exact Hq|done|unfold blen; lia|]. cbv zeta.
  rewrite (proj2 (Nat.ltb_ge _ _)) by lia. rewrite Nat.min_r by lia. rewrite take_ge by lia.
  intros c' Hw' Hp' Hsb Hrb Hnx Hok. apply wlp_network_send_lossy; [done|done|]. intros _ net' Hf. split; [done|].
  pose proof (fd_lossy _ _ _ Hf) as F4. pose proof (fd_ends _ _ _ Hf) as (E1 & E2 & E3 & E4 & E5 & E6 & E7).
  apply (HQ _ (set_network_state net' (set_app_recv_queue [] s)) c'); try done.
  split; try done.
  - split; apply lookup_insert_eq.
  - rewrite Hp', Hph. unfold phase in Hp'. congruence.
  - unfold peered in *. cbn. by rewrite E2, E3, E4, E7.
  - cbn. by rewrite E2.
Qed.

(* ------------------------------------------------------------------ *)
(** * From end to end *)

(** The receive thread takes a frame off the stream. *)
Lemma wlp_receive_frame F sd st s c ps p rest (Q : bool -> stack -> Prop) :
  receiving sd st s c ps -> net_in (network_state s) = frame p ++ rest -> segment_ok p ->
  (forall st' s', receiving sd st' s' c (ps ++ [p]) -> same_sock s s' -> net_in (network_state s') = rest ->
     app_send_queue s' = app_send_queue s -> Q true st') ->
  wlp F (network_recv_thread_round sd) Q st.
Proof.
  intros [[Hs Ht] Hl Hq Hn] Hin [_ Hlen] HQ. pose proof Hl as [P1 (P2 & P3 & P4 & P5) P6 P7 P8 P9 P10].
  rewrite <- (sock_at_same _ _ _ Hs). unfold MAX_IP_PAYLOAD_LEN in Hlen.
  unfold network_recv_thread_round. wgo. apply wlp_at_sock. wgo. rewrite P2.
  apply wlp_at_sock, wlp_in_net. apply (wlp_recv_packet _ p rest); [exact Hin|lia|unfold MAX_IP_PAYLOAD_LEN; lia|by destruct P6 as (_ & _ & -> & _)|].
  unfold blen in *. rewrite take_ge by (unfold MAX_IP_PAYLOAD_LEN; lia). wgo. unfold MAX_IP_PAYLOAD_LEN.
  rewrite (proj2 (Z.leb_gt _ _)), (proj2 (Z.leb_le _ _)) by lia. wgo. apply wlp_at_sock. wgo.
  cbn [listening set_network_state]. rewrite P2. wgo. apply wlp_at_sock. unfold enqueue_network_recv, _mysock_enqueue_buffer. wgo.
  set (s' := set_network_recv_queue _ _). apply (HQ _ s'); [|by repeat split|done|done].
  split; [split; [apply lookup_insert_eq|done]| |done|cbn; by rewrite Hn].
  by apply (local_keep sd s _ c).
Qed.

Lemma data_segment_same net net' p : same_ends net net' -> data_segment net p -> data_segment net' p.
Proof. intros Hs [H1 H2]. split; [by eapply same_ends_accepts|done]. Qed.

Lemma same_sock_trans s1 s2 s3 : same_sock s1 s2 -> same_sock s2 s3 -> same_sock s1 s3.
Proof.
  intros (A1 & A2 & A3 & A4 & A5 & A6 & A7) (B1 & B2 & B3 & B4 & B5 & B6 & B7).
  repeat (split; [congruence|]). by eapply same_ends_trans.
Qed.

(** Whatever data segments are on the stream, the receiving end's threads can
    hand their payloads up, one after the other. *)
Lemma stream_handed_up a b eA eB s c ws :
  receiving b (ep_stack eB) s c [] -> net_in (network_state s) = frames ws -> Forall (data_segment (network_state s)) ws ->
  exists eB' s' c', reaches a b (eA, eB) (eA, eB') /\ receiving b (ep_stack eB') s' c' [] /\ ep_written eB' = ep_written eB
    /\ ep_read eB' = ep_read eB /\ mjoin (app_send_queue s') = mjoin (app_send_queue s) ++ payloads ws.
Proof.
  revert eB s c. induction ws as [|p ws IH]; intros eB s c Hr Hin Hws.
  { exists eB, s, c. split; [apply rtc_refl|]. by rewrite app_nil_r. }
  apply Forall_cons in Hws as [Hp Hws].
  assert (H1 : wlp (fun _ => False) (network_recv_thread_round b) (fun _ st' => exists s', receiving b st' s' c [p] /\ same_sock s s'
    /\ net_in (network_state s') = frames ws /\ app_send_queue s' = app_send_queue s) (ep_stack eB)).
  { apply (wlp_receive_frame _ _ _ _ _ _ p (frames ws) _ Hr); [exact Hin|by destruct Hp as [[? _] _]|].
    intros st' s' A B C D. by exists s'. }
  apply wlp_total in H1 as (r1 & st1 & E1 & s1 & Hr1 & Hs1 & Hin1 & Hq1).
  assert (H2 : wlp (fun _ => False) (transport_thread_func b 0) (fun _ st' => exists s' c', receiving b st' s' c' [] /\ same_sock s1 s'
    /\ net_in (network_state s') = frames ws /\ mjoin (app_send_queue s') = mjoin (app_send_queue s1) ++ payloads [p]) st1).
  { apply (wlp_receive_data _ _ _ _ _ p [] 0 _ Hr1); [eapply data_segment_same; [apply Hs1|exact Hp]|].
    intros st' s' c' A B C D. exists s', c'. split; [exact A|]. split; [exact B|]. split; [congruence|exact D]. }
  apply wlp_total in H2 as ([] & st2 & E2 & s2 & c2 & Hr2 & Hs2 & Hin2 & Hm2).
  pose (e1 := mk_ep st1 (ep_written eB) (ep_read eB)). pose (e2 := mk_ep st2 (ep_written eB) (ep_read eB)).
  destruct (IH e2 s2 c2 Hr2 Hin2) as (eB' & s' & c' & Hreach & Hr' & Hw' & Hrd' & Hm').
  { eapply Forall_impl; [exact Hws|]. intros x. apply data_segment_same. apply (same_sock_trans _ _ _ Hs1 Hs2). }
  exists eB', s', c'. split; [|split; [exact Hr'|split; [exact Hw'|split; [exact Hrd'|]]]].
  - apply (rtc_l _ _ (eA, e1)); [right; exact (step_receive b a eB eA r1 st1 E1)|].
    apply (rtc_l _ _ (eA, e2)); [right; exact (step_transport b a e1 eA 0 st2 E2)|]. exact Hreach.
  - rewrite Hm', Hm2, Hq1, <- app_assoc. f_equal. change (p :: ws) with ([p] ++ ws). by rewrite payloads_app.
Qed.

(** C34: a piece of data sent on an unreliable mysocket to an end that has nothing
    else to do: the segment meets the fate that is drawn for it, and there is a
    run of the threads and the network after which what the wire carried waits
    for the application. The transport layer looks neither for a segment that
    comes twice, which is handed up twice, nor for one that comes late. *)
Theorem unreliable_delivery a b eA eB sA cA sB cB d :
  let net := network_state sA in
  lossy_end a (ep_stack eA) sA cA -> app_recv_queue sA = [d] -> fits cA d -> net_out net = [] ->
  receiving b (ep_stack eB) sB cB [] -> net_in (network_state sB) = [] -> facing net (network_state sB) ->
  (copied net = true -> data_segment (network_state sB) (kept net)) ->
  exists eA' eB' sB' cB', reaches a b (eA, eB) (eA', eB') /\ receiving b (ep_stack eB') sB' cB' []
    /\ ep_written eA' = ep_written eA
    /\ mjoin (app_send_queue sB') = mjoin (app_send_queue sB)
       ++ (if draw net =? 0 then [] else if draw net =? 1 then d ++ d else if draw net =? 2 then []
           else if (draw net =? 3) && copied net then payloads [kept net] else d).
Proof.
  intros net HA Hq Hfit Hout HB Hin Hf Hkept.
  destruct (data_of_app_segment net (network_state sB) cA d (le_window _ _ _ _ HA) Hfit Hf) as [Hseg Hpay].
  assert (H : wlp (fun _ => False) (transport_thread_func a 0) (fun _ st' => exists s' c', lossy_end a st' s' c'
    /\ faced net (data_of_app net cA d) (network_state s')) (ep_stack eA)).
  { eapply wlp_send_data; [exact HA|exact Hq|exact Hfit|]. intros st' s' c' A _ B _ _. by exists s', c'. }
  apply wlp_total in H as ([] & stA & EA & s' & c' & HA' & Hfd).
  set (ws := fate net (data_of_app net cA d)). pose proof (fd_out _ _ _ Hfd) as Ho. rewrite Hout in Ho. cbn [app] in Ho. fold ws in Ho.
  pose proof (proj1 (le_runs _ _ _ _ HA')) as LA. pose proof (proj1 (rc_runs _ _ _ _ _ HB)) as LB.
  set (sB1 := set_network_state (set_net_in (net_in (network_state sB) ++ take (length (frames ws)) (net_out (network_state s'))) (network_state sB)) sB).
  set (stA1 := sock_at stA a (set_network_state (set_net_out (drop (length (frames ws)) (net_out (network_state s'))) (network_state s')) s')).
  assert (ED : deliver a b (length (frames ws)) stA (ep_stack eB) = Some (stA1, sock_at (ep_stack eB) b sB1)).
  { unfold deliver. by rewrite LA, LB. }
  assert (HB1 : receiving b (sock_at (ep_stack eB) b sB1) sB1 cB []).
  { destruct HB as [[? ?] Hl ? ?]. split; [split; [apply lookup_insert_eq|done]| |done|done].
    apply (local_keep b sB _ cB); try done; by destruct Hl. }
  destruct (stream_handed_up a b (mk_ep stA1 (ep_written eA) (ep_read eA)) (mk_ep (sock_at (ep_stack eB) b sB1) (ep_written eB) (ep_read eB))
    sB1 cB ws HB1) as (eB' & sB' & cB' & Hreach & HB' & _ & _ & Hm).
  { cbn. rewrite Hin, Ho. cbn [app]. by rewrite take_ge. }
  { assert (H1 : Forall (data_segment (network_state sB)) [data_of_app net cA d]) by by apply Forall_singleton.
    unfold ws, fate. destruct (draw net =? 0); [by apply Forall_nil|]. destruct (draw net =? 1); [by apply Forall_cons|].
    destruct (draw net =? 2); [by apply Forall_nil|]. destruct (draw net =? 3); [|exact H1].
    destruct (copied net); [apply Forall_singleton; by apply Hkept|exact H1]. }
  exists (mk_ep stA1 (ep_written eA) (ep_read eA)), eB', sB', cB'. split; [|split; [exact HB'|split; [done|]]].
  - apply (rtc_l _ _ (mk_ep stA (ep_written eA) (ep_read eA), eB)); [left; exact (step_transport a b eA eB 0 stA EA)|].
    eapply rtc_l; [left; exact (step_deliver a b (mk_ep stA (ep_written eA) (ep_read eA)) eB (length (frames ws)) stA1 _ ED)|]. exact Hreach.
  - rewrite Hm. f_equal. unfold ws, fate. destruct (draw net =? 0); [done|]. destruct (draw net =? 1).
    { change [data_of_app net cA d; data_of_app net cA d] with ([data_of_app net cA d] ++ [data_of_app net cA d]). by rewrite payloads_app, Hpay. }
    destruct (draw net =? 2); [done|]. destruct (draw net =? 3); [|done]. by destruct (copied net).
Qed.

(** An end of an established connection at which there is nothing to do. *)
Record quiet (sd : Z) (st : stack) (s : mysock_context) (c : context_t) : Prop := {
  qt_runs : runs sd st s c;
  qt_placed : placed sd s;
  qt_phase : phase c = (false, CSTATE_ESTABLISHED, is_client c);
  qt_open : listening s = false /\ close_requested s = false;
  qt_queues : app_recv_queue s = [] /\ network_recv_queue s = [];
  qt_wire : connected (network_state s) = true /\ net_in (network_state s) = [] /\ net_out (network_state s) = [];
}.

Lemma quiet_thread sd st s c errno st' : quiet sd st s c -> transport_thread_func sd errno st <> Ok (tt, st').
Proof.
  intros [Hr Hp Hph [Hli Hcl] [Hq Hn] _] Hrun.
  assert (H : wlp (fun _ => True) (transport_thread_func sd errno) (fun _ _ => False) st).
  { eapply wlp_thread_round; [done..|]. cbv zeta. by rewrite Hq, Hn. }
  unfold wlp in H. by rewrite Hrun in H.
Qed.

Lemma quiet_receive sd st s c r st' : quiet sd st s c -> network_recv_thread_round sd st <> Ok (r, st').
Proof.
  intros [[Hs Ht] Hp _ [Hli _] _ (Hc & Hin & _)] Hrun.
  assert (H : wlp (fun _ => True) (network_recv_thread_round sd) (fun _ _ => False) st).
  { rewrite <- (sock_at_same _ _ _ Hs). unfold network_recv_thread_round. wgo. apply wlp_at_sock. wgo. rewrite Hli.
    apply wlp_at_sock, wlp_in_net. unfold _network_recv_packet. wgo.
    assert (Hgo : wlp (fun _ => True) (if is_active s then _tcp_connect else mret 0) (fun rc c => rc = 0 /\ c = network_state s) (network_state s)).
    { destruct (is_active s); [|by wgo]. unfold _tcp_connect. wgo. rewrite Hc. cbn [negb]. by wgo. }
    eapply wlp_mono; [exact Hgo|]. intros rc n [-> ->]. cbn [Z.ltb Z.compare]. wgo.
    unfold recv_frame. wgo. apply wlp_tcp_read_any; [done|]. rewrite Hin. simpl. lia. }
  unfold wlp in H. by rewrite Hrun in H.
Qed.

Lemma quiet_deliver sd1 sd2 k st1 st2 s1 c1 s2 c2 st1' st2' :
  quiet sd1 st1 s1 c1 -> quiet sd2 st2 s2 c2 -> deliver sd1 sd2 k st1 st2 = Some (st1', st2') -> st1' = st1 /\ st2' = st2.
Proof.
  intros [[H1 _] _ _ _ _ (_ & _ & O1)] [[H2 _] _ _ _ _ (_ & I2 & _)]. unfold deliver. rewrite H1, H2, O1, I2.
  rewrite drop_nil, take_nil. cbn [app]. intros [= <- <-].
  replace (set_network_state (set_net_out [] (network_state s1)) s1) with s1 by (destruct s1 as [? []]; cbn in *; by subst).
  replace (set_network_state (set_net_in [] (network_state s2)) s2) with s2 by (destruct s2 as [? []]; cbn in *; by subst).
  by rewrite !sock_at_same.
Qed.

(** A step that no application makes. *)
Definition background (a b : Z) (w w' : endpoint * endpoint) : Prop := env_step a b w w' \/ env_step b a (swap w) (swap w').

Lemma quiet_step a b eA eB sA cA sB cB w' :
  quiet a (ep_stack eA) sA cA -> quiet b (ep_stack eB) sB cB -> env_step a b (eA, eB) w' -> w' = (eA, eB).
Proof.
  intros HA HB Hst. remember (eA, eB) as w eqn:Ew. revert Ew.
  destruct Hst as [e1 e2 errno st' Hrun|e1 e2 r st' Hrun|e1 e2 k st1' st2' Hrun]; intros [= -> ->].
  - by apply (quiet_thread _ _ _ _ _ _ HA) in Hrun.
  - by apply (quiet_receive _ _ _ _ _ _ HA) in Hrun.
  - apply (quiet_deliver _ _ _ _ _ _ _ _ _ _ _ HA HB) in Hrun as [-> ->]. by destruct eA, eB.
Qed.

Lemma quiet_forever a b eA eB sA cA sB cB w' :
  quiet a (ep_stack eA) sA cA -> quiet b (ep_stack eB) sB cB -> rtc (background a b) (eA, eB) w' -> w' = (eA, eB).
Proof.
  intros HA HB Hr. remember (eA, eB) as w eqn:Ew. induction Hr as [|w1 w2 w3 Hst _ IH]; [done|]. rewrite Ew in *.
  assert (E : w2 = (eA, eB)); [|by rewrite (IH E), E].
  destruct Hst as [Hst|Hst]; [by apply (quiet_step a b eA eB sA cA sB cB)|].
  apply (quiet_step b a eB eA sB cB sA cA) in Hst; [|done|done]. destruct w2. unfold swap in Hst. cbn in Hst. congruence.
Qed.

(** C35: a segment that the unreliable mysocket loses is lost for good: the transport
    thread, which counts its bytes as sent and has no acknowledgement for them,
    has no timer, and from there on nothing happens at either end, in whatever
    order threads and network are let go, unless an application does something. *)
Theorem lost_segment_never_resent a b eA eB sA cA sB cB d :
  let net := network_state sA in
  lossy_end a (ep_stack eA) sA cA -> app_recv_queue sA = [d] -> fits cA d -> draw net = 0 ->
  net_in net = [] -> net_out net = [] -> quiet b (ep_stack eB) sB cB ->
  exists eA' sA' cA', transport_thread_func a 0 (ep_stack eA) = Ok (tt, ep_stack eA') /\ ep_written eA' = ep_written eA
    /\ runs a (ep_stack eA') sA' cA' /\ SendBase cA' + blen d <= next_seqnum cA'
    /\ forall w', rtc (background a b) (eA', eB) w' -> w' = (eA', eB).
Proof.
  intros net HA Hq Hfit Hdraw Hin Hout HB.
  assert (H : wlp (fun _ => False) (transport_thread_func a 0) (fun _ st' => exists s' c', lossy_end a st' s' c' /\ app_recv_queue s' = []
    /\ faced net (data_of_app net cA d) (network_state s') /\ SendBase c' = SendBase cA /\ next_seqnum c' = next_seqnum cA + blen d) (ep_stack eA)).
  { eapply wlp_send_data; [exact HA|exact Hq|exact Hfit|]. intros st' s' c' A B C D E. by exists s', c'. }
  apply wlp_total in H as ([] & stA & EA & s' & c' & HA' & Hq' & Hfd & Hsb & Hnx).
  destruct (le_window _ _ _ _ HA) as (_ & _ & _ & _ & _ & W6 & _).
  exists (mk_ep stA (ep_written eA) (ep_read eA)), s', c'. split; [exact EA|]. split; [done|]. split; [by destruct HA'|].
  split; [lia|]. intros w'. apply (quiet_forever _ _ _ _ s' c' sB cB); [|exact HB].
  destruct HA' as [R1 R2 R3 R4 R5 R6 [_ R7 _ _ _] R8 R9]. split; try done. split; [done|].
  split; [by rewrite (fd_in _ _ _ Hfd)|]. rewrite (fd_out _ _ _ Hfd), Hout. unfold fate. by rewrite Hdraw.
Qed.
End lossy.

(* ------------------------------------------------------------------ *)
(** * A run *)

#[local] Existing Instance demo_kernel.
#[local] Existing Instance demo_kernel_ok.

(** The two hosts that met, the client's mysocket made unreliable with a seed of
    [rand_r], and something to send. *)
Definition unreliable_net (seed : Z) (n : network_context_t) : network_context_t :=
  mk_net false (local_addr n) (peer_addr n) (peer_addr_len n) (peer_addr_valid n) seed (copied n) (copy_buffer n)
    (copy_buf_len n) (recv_thread_started n) (connected n) (net_port n) (net_interface_ip n) (net_in n) (net_out n)
    (accept_queue n) (new_socket n).
Definition hi : bytes := [104; 105].
Definition unreliable_sock (seed : Z) (s : mysock_context) : mysock_context :=
  set_network_state (unreliable_net seed (network_state s)) (set_app_recv_queue [hi] s).
Definition make_unreliable (seed : Z) (st : stack) : stack :=
  match global_ctx st !! 0 with Some s => sock_at st 0 (unreliable_sock seed s) | None => st end.
Definition unreliable_host (seed : Z) : stack := make_unreliable seed (fst demo_met).

Lemma runs_unreliable seed st s c : runs 0 st s c -> runs 0 (make_unreliable seed st) (unreliable_sock seed s) c.
Proof. intros [Hs Ht]. unfold make_unreliable. rewrite Hs. split; [apply lookup_insert_eq|exact Ht]. Qed.

(** What is not there yet. *)
Definition untouched_end (s : mysock_context) : bool :=
  bool_decide (app_recv_queue s = []) && bool_decide (network_recv_queue s = []) && bool_decide (app_send_queue s = [])
  && bool_decide (net_in (network_state s) = []) && bool_decide (net_out (network_state s) = []) && negb (copied (network_state s))
  && (blen (copy_buffer (network_state s)) =? MAX_IP_PAYLOAD_LEN).

Lemma demo_ends : exists s1 c1 s2 c2, runs 0 (fst demo_met) s1 c1 /\ runs 1 (snd demo_met) s2 c2
  /\ local 0 s1 c1 /\ local 1 s2 c2 /\ facing (network_state s1) (network_state s2)
  /\ untouched_end s1 = true /\ untouched_end s2 = true /\ rem c1 = 536 /\ next_seqnum c1 = 1.
Proof.
  destruct (talking_connection _ _ _ demo_met_talking) as (s1 & c1 & s2 & c2 & H1 & H2 & w12 & w21 & L1 & L2 & Hf & _). cbn [fst snd ep_stack] in *.
  exists s1, c1, s2, c2. do 5 (split; [done|]).
  assert (E : match global_ctx (fst demo_met) !! 0, transports (fst demo_met) !! 0, global_ctx (snd demo_met) !! 1 with
    | Some s1, Some (Running c1), Some s2 => untouched_end s1 && untouched_end s2 && (rem c1 =? 536) && (next_seqnum c1 =? 1)
    | _, _, _ => false end = true) by by vm_compute.
  destruct H1 as [G1 T1], H2 as [G2 _]. rewrite G1, T1, G2, !andb_true_iff in E. destruct E as (((E1 & E2) & E3) & E4).
  split; [done|]. split; [done|]. split; by apply Z.eqb_eq.
Qed.

#[local] Opaque demo_met.

Lemma demo_lossy seed : exists s1 c1 s2 c2,
  lossy_end 0 (unreliable_host seed) (unreliable_sock seed s1) c1 /\ fits c1 hi /\ receiving 1 (snd demo_met) s2 c2 []
  /\ quiet 1 (snd demo_met) s2 c2 /\ facing (network_state (unreliable_sock seed s1)) (network_state s2)
  /\ untouched_end s1 = true /\ untouched_end s2 = true.
Proof.
  destruct demo_ends as (s1 & c1 & s2 & c2 & R1 & R2 & L1 & L2 & Hf & U1 & U2 & Er & En).
  exists s1, c1, s2, c2. pose proof U1 as V1. pose proof U2 as V2. unfold untouched_end in V1, V2.
  rewrite !andb_true_iff, !bool_decide_eq_true, negb_true_iff, Z.eqb_eq in V1, V2.
  destruct V1 as ((((((A1 & A2) & A3) & A4) & A5) & A6) & A7), V2 as ((((((B1 & B2) & B3) & B4) & B5) & B6) & B7).
  destruct L1 as [P1 (P2 & P3 & P4 & P5) (Q1 & Q2 & Q3 & Q4 & Q5) P7 P8 P9 P10]. split; [|split; [|split; [|split; [|split; [|by split]]]]].
  - split; [|exact P1|exact P7|exact (conj P2 P3)|exact Q1|exact Q5| |exact P8|exact A2].
    + unfold unreliable_host. exact (runs_unreliable seed (fst demo_met) s1 c1 R1).
    + split; [exact Q2|exact Q3|reflexivity|exact A7|]. intros Hc. change (copied (network_state s1) = true) in Hc. by rewrite A6 in Hc.
  - split; [done|]. split; [repeat constructor; discriminate|]. rewrite Er, En. split; vm_compute; [discriminate|reflexivity].
  - split; [exact R2|exact L2|exact B1|exact B2].
  - destruct L2 as [L1 (L2 & L3 & _) (_ & _ & L4 & _) L5 _ _ _].
    split; [exact R2|exact L1|exact L5|exact (conj L2 L3)|exact (conj B1 B2)|exact (conj L4 (conj B4 B5))].
  - exact Hf.
Qed.

Lemma unreliable_delivery_witness : exists eA' eB' sB' cB',
  reaches 0 1 (mk_ep (unreliable_host 1) hi [], mk_ep (snd demo_met) [] []) (eA', eB')
  /\ receiving 1 (ep_stack eB') sB' cB' [] /\ ep_written eA' = [104; 105] /\ mjoin (app_send_queue sB') = [104; 105; 104; 105].
Proof.
  destruct (demo_lossy 1) as (s1 & c1 & s2 & c2 & H1 & H2 & H3 & _ & H4 & U1 & U2). unfold untouched_end in U1, U2.
  rewrite !andb_true_iff, !bool_decide_eq_true, negb_true_iff in U1, U2. destruct U1 as (((_ & A5) & A6) & _), U2 as (((((_ & B3) & B4) & _) & _) & _).
  destruct (unreliable_delivery 0 1 (mk_ep (unreliable_host 1) hi []) (mk_ep (snd demo_met) [] []) (unreliable_sock 1 s1) c1 s2 c2 hi)
    as (eA' & eB' & sB' & cB' & R & S & W & D).
  - exact H1.
  - reflexivity.
  - exact H2.
  - exact A5.
  - exact H3.
  - exact B4.
  - exact H4.
  - intros Hc. change (copied (network_state s1) = true) in Hc. rewrite A6 in Hc. discriminate Hc.
  - exists eA', eB', sB', cB'. split; [exact R|]. split; [exact S|]. split; [exact W|]. rewrite D, B3. reflexivity.
Defined.

Lemma lost_segment_never_resent_witness : exists eA' sA' cA',
  transport_thread_func 0 0 (unreliable_host 0) = Ok (tt, ep_stack eA') /\ ep_written eA' = [104; 105]
  /\ runs 0 (ep_stack eA') sA' cA' /\ SendBase cA' + 2 <= next_seqnum cA'
  /\ forall w', rtc (background 0 1) (eA', mk_ep (snd demo_met) [] []) w' -> w' = (eA', mk_ep (snd demo_met) [] []).
Proof.
  destruct (demo_lossy 0) as (s1 & c1 & s2 & c2 & H1 & H2 & _ & H3 & _ & U1 & _). unfold untouched_end in U1.
  rewrite !andb_true_iff, !bool_decide_eq_true in U1. destruct U1 as ((((_ & A4) & A5) & _) & _).
  apply (lost_segment_never_resent 0 1 (mk_ep (unreliable_host 0) hi []) (mk_ep (snd demo_met) [] []) (unreliable_sock 0 s1) c1 s2 c2 hi).
  - exact H1.
  - reflexivity.
  - exact H2.
  - reflexivity.
  - exact A4.
  - exact A5.
  - exact H3.
Defined.
