(* ===== verification/MysockThms.v ===== *)
(** The data structures of the mysocket layer against their specifications: the
    chained hash table is a finite map and the linked packet queue a list, over
    any sequence of operations. *)

From S2P Require Import Prelude.
From S2P Require Import Bytes.
From S2P Require Import MysockHash.
From S2P Require Import MysockState.
From S2P Require Import PacketQueue.

(* ------------------------------------------------------------------ *)
(** * The hash table *)

Section hash.
Context {A : Type}.

(** Calls to the functions of mysock_hash.h. *)
Inductive hash_call :=
  | HashInsert (key : Z) (data : A)
  | HashSet (key : Z) (data : A)
  | HashDelete (key : Z)
  | HashLookup (key : Z)
  | HashExists (key : Z).

Definition call_key (c : hash_call) : Z :=
  match c with HashInsert k _ | HashSet k _ | HashDelete k | HashLookup k | HashExists k => k end.

(** What a call returns: the pointer a lookup gives (its target), a truth value,
    or nothing. *)
Inductive hash_answer := Done | Found (p : option A) | Exists_ (b : bool).

(** The calls on a table, with their answers. *)
Definition run_hash (c : hash_call) : M (hash_table A) hash_answer :=
  tbl ← get;
  match c with
  | HashInsert k d => tbl' ← _hash_insert tbl k d; _ ← put tbl'; mret Done
  | HashSet k d => tbl' ← _hash_set_entry tbl k d; _ ← put tbl'; mret Done
  | HashDelete k => tbl' ← _hash_delete tbl k; _ ← put tbl'; mret Done
  | HashLookup k => p ← _hash_lookup_ptr tbl k; mret (Found p)
  | HashExists k => b ← _hash_entry_exists tbl k; mret (Exists_ b)
  end.

(** The same on a finite map. *)
Definition spec_hash (c : hash_call) (m : gmap Z A) : hash_answer * gmap Z A :=
  match c with
  | HashInsert k d | HashSet k d => (Done, <[k := d]> m)
  | HashDelete k => (Done, delete k m)
  | HashLookup k => (Found (m !! k), m)
  | HashExists k => (Exists_ (bool_decide (is_Some (m !! k))), m)
  end.

(** A call made as the header asks: keys are not negative, and [_hash_insert]
    is for keys that are not there. *)
Definition call_ok (c : hash_call) (m : gmap Z A) : Prop :=
  0 <= call_key c /\ match c with HashInsert k _ => m !! k = None | _ => True end.

Fixpoint run_calls (cs : list hash_call) : M (hash_table A) (list hash_answer) :=
  match cs with
  | [] => mret []
  | c :: cs' => a ← run_hash c; l ← run_calls cs'; mret (a :: l)
  end.
Fixpoint spec_calls (cs : list hash_call) (m : gmap Z A) : list hash_answer * gmap Z A :=
  match cs with
  | [] => ([], m)
  | c :: cs' => let '(a, m1) := spec_hash c m in let '(l, m2) := spec_calls cs' m1 in (a :: l, m2)
  end.
Fixpoint calls_ok (cs : list hash_call) (m : gmap Z A) : Prop :=
  match cs with
  | [] => True
  | c :: cs' => call_ok c m /\ calls_ok cs' (spec_hash c m).2
  end.

Lemma run_hash_refines size c tbl m :
  hash_repr size tbl m -> call_ok c m ->
  exists tbl', run_hash c tbl = Ok ((spec_hash c m).1, tbl') /\ hash_repr size tbl' (spec_hash c m).2.
Proof.
  intros Hr [Hk Hc]. unfold run_hash. rewrite (bind_ok _ _ _ tbl tbl) by done.
  destruct c as [k d|k d|k|k|k]; cbn [call_key spec_hash fst snd] in *.
  - destruct (insert_eq size tbl m k tbl Hr Hk d Hc) as (t & Ht & Hrt). exists t. by rewrite (bind_ok _ _ _ _ _ Ht).
  - destruct (set_entry_eq size tbl m k tbl Hr Hk d) as (t & Ht & Hrt). exists t. by rewrite (bind_ok _ _ _ _ _ Ht).
  - destruct (delete_eq size tbl m k tbl Hr Hk) as (t & Ht & Hrt). exists t. by rewrite (bind_ok _ _ _ _ _ Ht).
  - exists tbl. by rewrite (bind_ok _ _ _ _ _ (lookup_ptr_eq size tbl m k tbl Hr Hk)).
  - exists tbl. by rewrite (bind_ok _ _ _ _ _ (entry_exists_eq size tbl m k tbl Hr Hk)).
Qed.

Lemma run_calls_refines size cs tbl m :
  hash_repr size tbl m -> calls_ok cs m ->
  exists tbl', run_calls cs tbl = Ok ((spec_calls cs m).1, tbl') /\ hash_repr size tbl' (spec_calls cs m).2.
Proof.
  revert tbl m. induction cs as [|c cs IH]; intros tbl m Hr Hok; [by exists tbl|]. cbn [calls_ok] in Hok.
  destruct Hok as [Hc Hcs]. destruct (run_hash_refines size c tbl m Hr Hc) as (t1 & H1 & Hr1).
  cbn [run_calls spec_calls]. rewrite (bind_ok _ _ _ _ _ H1). destruct (spec_hash c m) as [a m1]. cbn [fst snd] in *.
  destruct (IH t1 m1 Hr1 Hcs) as (t2 & H2 & Hr2). rewrite (bind_ok _ _ _ _ _ H2).
  destruct (spec_calls cs m1) as [l m2]. by exists t2.
Qed.
End hash.
Arguments hash_call A : clear implicits.
Arguments hash_answer A : clear implicits.

(** C25: from an empty table of any number of chains, every sequence of calls
    returns what the calls on a finite map return and leaves a table that
    stands for that map, no assertion failing, as long as keys are not negative
    and only absent keys are inserted; a key inserted twice is the case left
    out: the second entry hides the first, and deleting the key then fails the
    function's own assertion. *)
Theorem hash_table_is_map {A} size (cs : list (hash_call A)) :
  (0 < size)%nat -> Z.of_nat size < 2 ^ 32 ->
  (calls_ok cs ∅ ->
     exists tbl, run_calls cs (hash_empty size) = Ok ((spec_calls cs ∅).1, tbl) /\ hash_repr size tbl (spec_calls cs ∅).2)
  /\ (forall k (d d' : A), 0 <= k ->
     run_calls [HashInsert k d; HashInsert k d'; HashDelete k] (hash_empty size) = Err AssertFailed).
Proof.
  intros H0 H1. split.
  - intros Hok. apply run_calls_refines; [by apply hash_empty_ok|done].
  - intros k d d' Hk. destruct (ndx_bucket size k H0 H1 Hk) as [He Hb].
    set (e := hash_empty size : hash_table A). set (b := bucket_of size k) in *.
    assert (Hn : forall S (tbl : hash_table A) (s : S), length tbl = size -> hash_ndx tbl k s = Ok (b, s)).
    { intros S tbl s Hl. unfold hash_ndx. rewrite Hl, He, (proj2 (Z.ltb_lt _ _)) by lia. rewrite Nat2Z.id. done. }
    assert (Hl : length e = size) by apply length_replicate.
    assert (Hch : forall S (tbl : hash_table A) (s : S) c, length tbl = size ->
      _hash_get_entry (<[b := c]> tbl) k s = Ok (option_map (fun i => (b, i)) (chain_find c k), s)).
    { intros S tbl s c Ht. unfold _hash_get_entry. rewrite (bind_ok _ _ _ _ _ (Hn _ _ _ (eq_trans (length_insert _ _ _) Ht))).
      rewrite chain_insert by lia. by rewrite decide_True. }
    assert (Hins : forall (tbl : hash_table A) x, length tbl = size ->
      _hash_insert tbl k x tbl = Ok (<[b := (k, x) :: chain tbl b]> tbl, tbl)).
    { intros tbl x Ht. unfold _hash_insert. rewrite (bind_ok _ _ _ _ _ (Hn _ tbl tbl Ht)).
      rewrite (bind_ok _ _ _ _ _ (Hch _ tbl _ _ Ht)). cbn [chain_find fst]. rewrite Z.eqb_refl. cbn [option_map].
      by rewrite bool_decide_eq_true_2. }
    assert (Hrun : forall (tbl : hash_table A) x, length tbl = size ->
      run_hash (HashInsert k x) tbl = Ok (Done, <[b := (k, x) :: chain tbl b]> tbl)).
    { intros tbl x Ht. unfold run_hash. rewrite (bind_ok _ _ _ tbl tbl) by done.
      by rewrite (bind_ok _ _ _ _ _ (Hins tbl x Ht)). }
    cbn [run_calls]. rewrite (bind_ok _ _ _ _ _ (Hrun e d Hl)). set (t1 := <[b := _]> e).
    assert (Ht1 : length t1 = size) by (subst t1; by rewrite length_insert).
    apply bind_err. rewrite (bind_ok _ _ _ _ _ (Hrun t1 d' Ht1)). set (t2 := <[b := _]> t1).
    assert (Ht2 : length t2 = size) by (subst t2; by rewrite length_insert).
    do 2 apply bind_err. unfold run_hash. rewrite (bind_ok _ _ _ t2 t2) by done. apply bind_err.
    unfold _hash_delete. rewrite (bind_ok _ _ _ _ _ (Hn _ t2 t2 Ht2)), (bind_ok _ _ _ _ _ (Hch _ t2 _ _ Ht2)).
    subst t2. rewrite chain_insert by lia. rewrite decide_True by done. cbn [chain_delete fst]. rewrite Z.eqb_refl.
    subst t1. rewrite chain_insert by lia. rewrite decide_True by done. cbn [chain_find fst]. by rewrite Z.eqb_refl.
Qed.

Lemma hash_table_is_map_witness :
  (exists tbl, run_calls [HashInsert 3 10; HashInsert 67 20; HashSet 3 30; HashLookup 67; HashDelete 67; HashExists 67; HashLookup 3]
       (hash_empty 64)
     = Ok ((spec_calls [HashInsert 3 10; HashInsert 67 20; HashSet 3 30; HashLookup 67; HashDelete 67; HashExists 67; HashLookup 3] ∅).1, tbl)
     /\ hash_repr 64 tbl
          (spec_calls [HashInsert 3 10; HashInsert 67 20; HashSet 3 30; HashLookup 67; HashDelete 67; HashExists 67; HashLookup 3] ∅).2)
  /\ run_calls [HashInsert 3 10; HashInsert 3 20; HashDelete 3] (hash_empty 64) = Err AssertFailed.
Proof.
  destruct (hash_table_is_map 64
    [HashInsert 3 10; HashInsert 67 20; HashSet 3 30; HashLookup 67; HashDelete 67; HashExists 67; HashLookup 3]
    ltac:(lia) ltac:(lia)) as [H1 H2].
  split; [apply H1; repeat split; discriminate|by apply H2].
Defined.

(* ------------------------------------------------------------------ *)
(** * Packet queues *)

(** Calls to the queue functions of mysock.c. *)
Inductive queue_call :=
  | Enqueue (packet : bytes)
  | Dequeue (max_len : nat) (remove_partial : bool)
  | FreeQueue.

(** Their answers: what a dequeue copied, or the flag of the freed queue. *)
Inductive queue_answer := Queued | Took (len : nat) (data : bytes) | Freed (nonempty : bool).

(** On a list. *)
Definition list_call (c : queue_call) : M packet_queue_t queue_answer :=
  pq ← get;
  match c with
  | Enqueue p => _ ← put (_mysock_enqueue_buffer pq p); mret Queued
  | Dequeue n partial => '(len, data, pq') ← _mysock_dequeue_buffer pq n partial; _ ← put pq'; mret (Took len data)
  | FreeQueue => _ ← put (snd (_mysock_free_queue pq)); mret (Freed (fst (_mysock_free_queue pq)))
  end.

(** On linked nodes; the loop of the last frees one node a round. *)
Definition linked_call (c : queue_call) : M linked queue_answer :=
  match c with
  | Enqueue p => _ ← linked_enqueue p; mret Queued
  | Dequeue n partial => '(len, data) ← linked_dequeue n partial; mret (Took len data)
  | FreeQueue => st ← get; b ← linked_free (Datatypes.S (size (nodes st))); mret (Freed b)
  end.

Fixpoint queue_calls {S} (call : queue_call -> M S queue_answer) (cs : list queue_call) : M S (list queue_answer) :=
  match cs with
  | [] => mret []
  | c :: cs' => a ← call c; l ← queue_calls call cs'; mret (a :: l)
  end.

(** Distinct allocated nodes are no more than there are nodes. *)
Lemma chained_size (m : gmap positive packet_queue_node_t) p l q : chained m p l q -> NoDup l.*1 -> (length l <= size m)%nat.
Proof.
  intros Hc Hnd. rewrite <- (length_fmap fst l), <- size_dom, <- (size_list_to_set (C := gset positive) _ Hnd).
  apply subseteq_size. intros i Hi%elem_of_list_to_set. apply elem_of_dom. by eapply chained_dom.
Qed.

(** One call does to the nodes what it does to the list. *)
Lemma linked_call_refines c st pq :
  queue_repr st pq ->
  match list_call c pq with
  | Ok (a, pq') => exists st', linked_call c st = Ok (a, st') /\ queue_repr st' pq'
  | Err f => linked_call c st = Err f
  end.
Proof.
  intros Hr. destruct c as [p|n partial|].
  - pose proof (linked_enqueue_refines (fun _ => False) st pq p Hr) as H.
    apply wlp_total in H as ([] & st' & H & Hr' & _). exists st'. cbn [linked_call]. by rewrite (bind_ok _ _ _ _ _ H).
  - pose proof (linked_dequeue_refines (fun _ => False) st pq n partial Hr) as H. unfold linked_call, list_call.
    rewrite (bind_ok _ _ _ pq pq) by done.
    assert (E : forall s : packet_queue_t, _mysock_dequeue_buffer pq n partial s
      = match _mysock_dequeue_buffer pq n partial tt with Ok (r, _) => Ok (r, s) | Err f => Err f end).
    { intros s. destruct pq as [|d pq]; [done|]. cbn [_mysock_dequeue_buffer]. by destruct (_ && _). }
    destruct (_mysock_dequeue_buffer pq n partial tt) as [[[[len data] pq'] []]|f].
    + rewrite (bind_ok _ _ _ _ _ (E pq)). apply wlp_total in H as ([len' data'] & st' & H & [= -> ->] & Hr' & _).
      exists st'. by rewrite (bind_ok _ _ _ _ _ H).
    + by rewrite (bind_err _ _ _ _ (E pq)), (bind_err _ _ _ _ H).
  - destruct Hr as (l & Hc & Hnd & Hd & Ht). unfold linked_call, list_call.
    pose proof (linked_free_refines (fun _ => False) (Datatypes.S (size (nodes st))) st l Hc Hnd) as H.
    specialize (H ltac:(pose proof (chained_size _ _ _ _ Hc Hnd); lia)).
    apply wlp_total in H as (b & st' & H & -> & Hr' & _). exists st'. rewrite Hd in *.
    by rewrite (bind_ok _ _ _ st st), (bind_ok _ _ _ _ _ H).
Qed.

(** C26: the linked queue implements the list: from an empty queue, among any
    other nodes, every sequence of enqueueing, partial or whole dequeueing and
    freeing gives on the nodes the answers it gives on a list of buffers, waits
    exactly where the list is empty, never touches a freed node or fails an
    assertion, and ends with nodes that hold the list. *)
Theorem linked_queue_is_list cs st :
  q_head st = None -> q_tail st = None ->
  match queue_calls list_call cs [] with
  | Ok (answers, pq) => exists st', queue_calls linked_call cs st = Ok (answers, st') /\ queue_repr st' pq
  | Err f => f = Blocked /\ queue_calls linked_call cs st = Err Blocked
  end.
Proof.
  intros Hh Ht. assert (Hr : queue_repr st []) by by apply queue_repr_nil. clear Hh Ht.
  revert st Hr. generalize ([] : packet_queue_t) as pq. induction cs as [|c cs IH]; intros pq st Hr; [by exists st|].
  cbn [queue_calls]. pose proof (linked_call_refines c st pq Hr) as Hc.
  assert (Hf : forall f, list_call c pq = Err f -> f = Blocked).
  { intros f. destruct c as [p|n partial|]; [done| |done]. destruct pq as [|d pq]; unfold list_call; rewrite (bind_ok _ _ _ _ _ eq_refl); [by intros [= <-]|].
    unfold mbind, M_bind, _mysock_dequeue_buffer. by destruct ((n <? length d)%nat && partial). }
  destruct (list_call c pq) as [[a pq1]|f] eqn:E.
  - destruct Hc as (st1 & H1 & Hr1). specialize (IH pq1 st1 Hr1).
    rewrite (bind_ok _ _ _ _ _ H1), (bind_ok _ _ _ _ _ E).
    destruct (queue_calls list_call cs pq1) as [[l pq2]|f] eqn:E2.
    + rewrite (bind_ok _ _ _ _ _ E2). destruct IH as (st2 & H2 & Hr2). exists st2. by rewrite (bind_ok _ _ _ _ _ H2).
    + rewrite (bind_err _ _ _ _ E2). destruct IH as [-> H2]. by rewrite (bind_err _ _ _ _ H2).
  - rewrite (bind_err _ _ _ _ E), (bind_err _ _ _ _ Hc). rewrite (Hf f) by done. done.
Qed.

Lemma linked_queue_is_list_witness :
  exists st', queue_calls linked_call [Enqueue [1; 2; 3]; Enqueue [4]; Dequeue 2 true; Dequeue 5 true; Dequeue 5 false; FreeQueue]
      (mk_linked ∅ None None)
    = Ok ([Queued; Queued; Took 2 [1; 2]; Took 1 [3]; Took 1 [4]; Freed false], st') /\ queue_repr st' [].
Proof.
  exact (linked_queue_is_list [Enqueue [1; 2; 3]; Enqueue [4]; Dequeue 2 true; Dequeue 5 true; Dequeue 5 false; FreeQueue]
    (mk_linked ∅ None None) eq_refl eq_refl).
Defined.
