(* ===== verification/NetworkThms.v ===== *)
(** The network layer of the mysockets: packets framed over the TCP stream, and
    the checksum that seals a segment. *)

From S2P Require Import Prelude.
From S2P Require Import Bytes.
From S2P Require Import MysockHash.
From S2P Require Import MysockState.
From S2P Require Import NetworkIoTcp.
From S2P Require Import TcpSum.
From S2P Require Import Mysock.
From S2P Require Import ConnectionDemux.
From S2P Require Import Transport.
From S2P Require Import MysockApi.
From S2P Require Import DemuxFacts.
From S2P Require Import StcpSystem.
From S2P Require Import StcpHandshake.
From S2P Require Import StcpSetup.
From S2P Require Import StcpDemo.

(* ------------------------------------------------------------------ *)
(** * Packets on the stream *)

Section framing.
Context {K : Kernel}.

(** Packets sent one after the other, and packets received one after the other. *)
Definition send_packets (ps : list bytes) : M network_context_t unit :=
  mfor ps (fun p => _ ← _network_send_packet p; mret tt).
Fixpoint recv_packets (n max_len : nat) : M network_context_t (list (Z * bytes)) :=
  match n with
  | O => mret []
  | S n' => r ← _network_recv_packet false false max_len; l ← recv_packets n' max_len; mret (r :: l)
  end.

Definition frames (ps : list bytes) : bytes := mjoin (frame <$> ps).
Definition packet_fits (p : bytes) : Prop := 0 < blen p < 65536.

Lemma wlp_send_packets {KOk : KernelOk K} F ps ctx :
  reachable ctx -> Forall packet_fits ps ->
  wlp F (send_packets ps) (fun _ ctx' => ps = [] /\ ctx' = ctx
    \/ ctx' = set_net_out (net_out ctx ++ frames ps) (set_connected true ctx)) ctx.
Proof.
  intros Hr Hps. revert ctx Hr. induction Hps as [|p ps Hp Hps IH]; intros ctx Hr; unfold send_packets; cbn [mfor].
  - wgo. by left.
  - wgo. unfold packet_fits in Hp. apply wlp_send_packet; [done|lia|]. wgo. set (ctx1 := set_net_out (net_out ctx ++ frame p) (set_connected true ctx)).
    assert (Hr1 : reachable ctx1) by (destruct Hr as [H _]; split; [exact H|by left]).
    eapply wlp_mono; [exact (IH ctx1 Hr1)|]. intros [] ctx2 Hc. right.
    change (frames (p :: ps)) with (frame p ++ frames ps). rewrite app_assoc.
    destruct Hc as [[-> ->]| ->]; [|done]. unfold frames. cbn. by rewrite app_nil_r.
Qed.

Lemma wlp_recv_packets {KOk : KernelOk K} F ps rest max_len ctx :
  connected ctx = true -> (0 < max_len)%nat -> Forall packet_fits ps -> net_in ctx = frames ps ++ rest ->
  wlp F (recv_packets (length ps) max_len)
    (fun l ctx' => l = (fun p => (blen p, take max_len p)) <$> ps /\ ctx' = set_net_in rest ctx) ctx.
Proof.
  intros Hc Hm Hps. revert ctx Hc. induction Hps as [|p ps Hp Hps IH]; intros ctx Hc Hin; cbn [recv_packets length].
  - wgo. split; [done|]. cbn in Hin. rewrite <- Hin. by destruct ctx.
  - change (frames (p :: ps)) with (frame p ++ frames ps) in Hin. rewrite <- app_assoc in Hin. wgo.
    apply (wlp_recv_packet F p (frames ps ++ rest)); try done. wgo.
    eapply wlp_mono; [by apply IH|]. intros l ctx' [-> ->]. by wgo.
Qed.
End framing.

(** C24: packets survive the byte stream: whatever part of each buffer [write]
    takes and [read] returns, packets of 1 to 65535 bytes sent one after the
    other and read from a connection to which exactly the sent bytes were
    carried are received one for one, in order, with their lengths, each cut to
    the receiver's buffer and none running into the next; what follows them in
    the stream stays. *)
Theorem packets_roundtrip {K : Kernel} {KOk : KernelOk K} ps rest max_len a b :
  reachable a -> net_out a = [] -> connected b = true -> (0 < max_len)%nat -> Forall packet_fits ps ->
  exists a', send_packets ps a = Ok (tt, a') /\
    (net_in b = net_out a' ++ rest ->
     recv_packets (length ps) max_len b = Ok ((fun p => (blen p, take max_len p)) <$> ps, set_net_in rest b)).
Proof.
  intros Hr Ho Hc Hm Hps. pose proof (wlp_send_packets (fun _ => False) ps a Hr Hps) as H.
  apply wlp_total in H as ([] & a' & H & Ha). exists a'. split; [done|]. intros Hin.
  assert (Hf : net_out a' = frames ps).
  { destruct Ha as [[-> ->]| ->]; [by rewrite Ho|]. cbn [net_out set_net_out]. by rewrite Ho. }
  rewrite Hf in Hin. pose proof (wlp_recv_packets (fun _ => False) ps rest max_len b Hc Hm Hps Hin) as H2.
  apply wlp_total in H2 as (l & b' & H2 & -> & ->). exact H2.
Qed.

(** A kernel that moves one byte at a time. *)
Definition slow_kernel : Kernel := {|
  rand_r z := (z, z + 1);
  write_rc _ n := 1;
  read_rc s n := 1;
  connect_rc _ := 0;
  bind_port p := Some p;
|}.

Lemma slow_kernel_ok : @KernelOk slow_kernel.
Proof.
  split; simpl; [lia| |lia]. intros s n Hn Hs. destruct s; [done|]. cbn [length]. lia.
Qed.

(** The two ends of a TCP connection. *)
Definition demo_net (a b : Z) (input : bytes) : network_context_t :=
  mk_net true sockaddr0 (mk_sockaddr AF_INET (htons 80) b) 16 true 0 false [] 0 true true (htons 80) a input [] [] None.

Lemma packets_roundtrip_witness :
  exists a', @send_packets slow_kernel [[1; 2; 3]; [4]] (demo_net ipA ipB []) = Ok (tt, a') /\
    (net_in (demo_net ipB ipA [0; 3; 1; 2; 3; 0; 1; 4; 9]) = net_out a' ++ [9] ->
     @recv_packets slow_kernel (length [[1; 2; 3]; [4]]) 2 (demo_net ipB ipA [0; 3; 1; 2; 3; 0; 1; 4; 9])
     = Ok ([(3, [1; 2]); (1, [4])], demo_net ipB ipA [9])).
Proof.
  apply (@packets_roundtrip slow_kernel slow_kernel_ok [[1; 2; 3]; [4]] [9] 2 (demo_net ipA ipB [])
    (demo_net ipB ipA [0; 3; 1; 2; 3; 0; 1; 4; 9])).
  - split; [reflexivity|left; reflexivity].
  - reflexivity.
  - reflexivity.
  - lia.
  - repeat constructor.
Defined.

(* ------------------------------------------------------------------ *)
(** * The checksum *)

(** What a byte contributes to the sum. *)
Lemma le_sum_upd b i v :
  (i < length b)%nat -> le_sum (upd b i [v]) = le_sum b + (v - get8 b i) * (if Nat.even i then 1 else 256).
Proof.
  revert b i. fix IH 1. intros [|x [|y r]] i Hi; [simpl in Hi; lia| |].
  - destruct i; [|simpl in Hi; lia]. unfold upd, get8. cbn. lia.
  - destruct i as [|[|i]].
    + unfold upd, get8. cbn [take app length Nat.add drop le_sum nth Nat.even]. rewrite ?drop_0. lia.
    + unfold upd, get8. cbn [take app length Nat.add drop le_sum nth Nat.even]. rewrite ?drop_0. lia.
    + change (upd (x :: y :: r) (S (S i)) [v]) with (x :: y :: upd r i [v]). cbn [le_sum Nat.even].
      change (get8 (x :: y :: r) (S (S i))) with (get8 r i). rewrite IH by (simpl in *; lia). lia.
Qed.

Lemma upd_le16 b o c : (o + 2 <= length b)%nat -> upd b o (le16 c) = upd (upd b o [c mod 256]) (o + 1) [(c / 256) mod 256].
Proof.
  intros Hl. apply bytes_ext.
  { rewrite !length_upd; rewrite ?length_upd; simpl; lia. }
  intros i Hi. destruct (decide (i = o)) as [->|N1].
  { rewrite get8_upd_eq by (simpl; lia). rewrite get8_upd_ne by (rewrite ?length_upd; simpl; lia). rewrite get8_upd_eq by (simpl; lia).
    by rewrite !Nat.sub_diag. }
  destruct (decide (i = o + 1)%nat) as [->|N2].
  { rewrite !get8_upd_eq by (rewrite ?length_upd; simpl; lia). rewrite Nat.sub_diag.
    by replace (o + 1 - o)%nat with 1%nat by lia. }
  by rewrite !get8_upd_ne by (rewrite ?length_upd; simpl; lia).
Qed.

Lemma blen_upd b o vs : (o + length vs <= length b)%nat -> blen (upd b o vs) = blen b.
Proof. intros H. unfold blen. by rewrite length_upd. Qed.

(** A sealed segment sums to zero. *)
Lemma seal_valid src dst p :
  segment_ok p -> tcp_sum_valid src dst (upd p Tcp.sum (le16 (tcp_check src dst p))).
Proof.
  intros Hok. pose proof (tcp_check_range src dst p Hok) as Hc. pose proof (covered_bound src dst p Hok) as Hb.
  destruct Hok as [Hwf Hl]. unfold blen in Hl. unfold tcp_sum_valid. rewrite blen_upd by (unfold Tcp.sum; simpl; lia).
  set (c := tcp_check src dst p) in *. set (ph := pseudo_header src dst (blen p)).
  assert (He : le_sum (ph ++ upd p Tcp.sum (le16 c)) = le_sum (covered src dst p) + c).
  { unfold covered. fold ph. rewrite !le_sum_app by done. rewrite !upd_le16 by (unfold Tcp.sum; lia).
    rewrite !le_sum_upd by (rewrite ?length_upd; unfold Tcp.sum; simpl; lia).
    rewrite !get8_upd_ne by (unfold Tcp.sum; simpl; lia). unfold Tcp.sum. cbn [Nat.even Nat.add].
    change (0 mod 256) with 0. change ((0 / 256) mod 256) with 0. Z.div_mod_to_equations; lia. }
  rewrite He. subst c. unfold tcp_check in *. destruct (ones16_range (le_sum (covered src dst p))) as (H1 & _ & H2); [lia|].
  set (o := ones16 _) in *. set (s := le_sum _) in *. clearbody o s.
  replace (s + (65535 - o)) with (s - o + 1 * 65535) by lia. rewrite Z.mod_add by lia.
  rewrite Zminus_mod, H2, Z.sub_diag. done.
Qed.

(** The sum a single other byte gives is another. *)
Lemma ones16_inj s t : 0 < s -> 0 < t -> ones16 s = ones16 t -> (s - t) mod 65535 = 0.
Proof.
  intros Hs Ht He. destruct (ones16_range s) as (_ & _ & H1); [lia|]. destruct (ones16_range t) as (_ & _ & H2); [lia|].
  rewrite Zminus_mod, <- H1, <- H2, He. by rewrite Z.sub_diag.
Qed.

Lemma covered_pos src dst p : segment_ok p -> 0 < le_sum (covered src dst p).
Proof.
  intros [Hwf Hl]. unfold covered. rewrite le_sum_app by done.
  assert (H1 : 0 < le_sum (pseudo_header src dst (blen p))).
  { unfold pseudo_header. rewrite app_assoc, le_sum_app by done.
    destruct (le_sum_bound (le32 src ++ le32 dst)) as [Hb _]; [auto using wf_app with bytes|].
    assert (0 < le_sum ([0; IPPROTO_TCP] ++ le16 (htons (blen p)))); [|lia].
    rewrite le_sum_app by done. destruct (le_sum_bound (le16 (htons (blen p)))) as [Hb' _]; [auto with bytes|].
    unfold IPPROTO_TCP. cbn [le_sum]. lia. }
  destruct (le_sum_bound (upd p Tcp.sum (le16 0))) as [Hb _]; [auto with bytes|]. lia.
Qed.

Lemma corrupt_rejected src dst p i v :
  segment_ok p -> tcp_check src dst p = get16 p Tcp.sum -> (i < length p)%nat -> is_byte v -> v <> get8 p i ->
  tcp_check src dst (upd p i [v]) <> get16 (upd p i [v]) Tcp.sum.
Proof.
  intros Hok He Hi Hv Hne. pose proof Hok as [Hwf Hl]. unfold blen in Hl.
  assert (Hok' : segment_ok (upd p i [v])).
  { split; [apply wf_upd; [done|by constructor]|]. by rewrite blen_upd by (simpl; lia). }
  pose proof (wf_get8 p i Hwf) as Hpi. unfold is_byte in *.
  destruct (decide (i = 16 \/ i = 17)%nat) as [Hs|Hs].
  - assert (Hc : tcp_check src dst (upd p i [v]) = tcp_check src dst p).
    { unfold tcp_check, covered, Tcp.sum. rewrite blen_upd by (simpl; lia). do 4 f_equal.
      apply bytes_ext; [rewrite !length_upd; rewrite ?length_upd; simpl; lia|]. intros j Hj.
      destruct (decide (16 <= j < 18)%nat).
      - by rewrite !get8_upd_eq by (rewrite ?length_upd; simpl; lia).
      - by rewrite !get8_upd_ne by (rewrite ?length_upd; simpl; lia). }
    rewrite Hc, He. unfold get16, Tcp.sum. change (16 + 1)%nat with 17%nat. destruct Hs as [-> | ->].
    + rewrite get8_upd_eq by (simpl; lia). rewrite (get8_upd_ne p 16 [v] 17) by (simpl; lia).
      rewrite Nat.sub_diag. cbn [nth get8]. unfold get8 in *. simpl. lia.
    + rewrite (get8_upd_ne p 17 [v] 16) by (simpl; lia). rewrite get8_upd_eq by (simpl; lia).
      rewrite Nat.sub_diag. unfold get8 in *. simpl. lia.
  - rewrite get16_upd_ne by (unfold Tcp.sum; simpl; lia). rewrite <- He. unfold tcp_check. intros Heq.
    pose proof (covered_pos src dst p Hok) as H1. pose proof (covered_pos src dst _ Hok') as H2.
    assert (Hd : le_sum (covered src dst (upd p i [v]))
      = le_sum (covered src dst p) + (v - get8 p i) * (if Nat.even i then 1 else 256)).
    { unfold covered, Tcp.sum. rewrite blen_upd by (simpl; lia). rewrite !le_sum_app by done.
      replace (upd (upd p i [v]) 16 (le16 0)) with (upd (upd p 16 (le16 0)) i [v]).
      2:{ apply bytes_ext; [rewrite !length_upd; rewrite ?length_upd; simpl; lia|]. intros j Hj.
          destruct (decide (16 <= j < 18)%nat).
          - rewrite get8_upd_ne by (rewrite ?length_upd; simpl; lia). by rewrite !get8_upd_eq by (rewrite ?length_upd; simpl; lia).
          - rewrite (get8_upd_ne _ 16) by (rewrite ?length_upd; simpl; lia). destruct (decide (i = j)) as [->|].
            + by rewrite !get8_upd_eq by (rewrite ?length_upd; simpl; lia).
            + by rewrite !get8_upd_ne by (rewrite ?length_upd; simpl; lia). }
      rewrite le_sum_upd by (rewrite length_upd; simpl; lia). rewrite (get8_upd_ne p 16) by (simpl; lia). lia. }
    assert (Hm : (le_sum (covered src dst (upd p i [v])) - le_sum (covered src dst p)) mod 65535 = 0) by (apply ones16_inj; lia).
    rewrite Hd in Hm. destruct (Nat.even i); Z.div_mod_to_equations; lia.
Qed.

(** C23: the checksum the sender stores in a segment makes pseudo header and
    segment sum to zero as RFC 793 asks, touches nothing but the two checksum
    bytes, and is accepted by the receiver; and any one byte changed on the way,
    to any other value, is found by the receiver. *)
Theorem checksum_roundtrip {S} a b p (s : S) :
  facing a b -> segment_ok p ->
  exists q, _mysock_set_checksum a p (length p) s = Ok (q, s)
    /\ length q = length p
    /\ (forall i, i <> 16%nat -> i <> 17%nat -> get8 q i = get8 p i)
    /\ tcp_sum_valid (net_interface_ip a) (s_addr (peer_addr a)) q
    /\ _mysock_verify_checksum b q (length q) s = Ok (true, s)
    /\ (forall i v, (i < length q)%nat -> is_byte v -> v <> get8 q i ->
          _mysock_verify_checksum b (upd q i [v]) (length q) s = Ok (false, s)).
Proof.
  intros Hf Hok. pose proof Hok as [Hwf Hl]. unfold blen in Hl. pose proof Hf as (Ha & Hb & E1 & E2).
  set (q := upd p Tcp.sum (le16 (out_check a p))). exists q.
  pose proof (seal_accepted a b p Hf Hok) as Hacc. fold q in Hacc.
  assert (Hlq : length q = length p) by (apply length_upd; unfold Tcp.sum; simpl; lia).
  assert (Hset : wlp (fun _ => False) (_mysock_set_checksum a p (length p)) (fun r s' => r = q /\ s' = s) s)
    by (by apply wlp_set_checksum).
  apply wlp_total in Hset as (r & s' & Hset & -> & ->). split; [done|]. split; [done|].
  split; [intros i N1 N2; subst q; apply get8_upd_ne; unfold Tcp.sum; simpl; lia|].
  split; [by apply seal_valid|].
  assert (Hver : forall q', segment_ok q' -> _mysock_verify_checksum b q' (length q') s = Ok (in_check b q' =? get16 q' Tcp.sum, s)).
  { intros q' Hq'. assert (H : wlp (fun _ => False) (_mysock_verify_checksum b q' (length q'))
      (fun r s' => r = (in_check b q' =? get16 q' Tcp.sum) /\ s' = s) s) by (by apply wlp_verify_checksum).
    by apply wlp_total in H as (r & s' & H & -> & ->). }
  destruct Hacc as [Hq He]. split; [by rewrite Hver, He, Z.eqb_refl|].
  intros i v Hi Hv Hne. assert (Hok' : segment_ok (upd q i [v])).
  { destruct Hq. split; [apply wf_upd; [done|by constructor]|]. by rewrite blen_upd by (simpl; lia). }
  assert (Hl' : length (upd q i [v]) = length q) by (apply length_upd; simpl; lia).
  rewrite <- Hl'. rewrite Hver by done. unfold in_check in *.
  by rewrite (proj2 (Z.eqb_neq _ _)) by (by apply corrupt_rejected).
Qed.

Definition demo_segment : bytes := zeros 20 ++ [104; 105; 33].

Lemma checksum_roundtrip_witness :
  exists q, _mysock_set_checksum (demo_net ipA ipB []) demo_segment (length demo_segment) tt = Ok (q, tt)
    /\ length q = length demo_segment
    /\ (forall i, i <> 16%nat -> i <> 17%nat -> get8 q i = get8 demo_segment i)
    /\ tcp_sum_valid ipA ipB q
    /\ _mysock_verify_checksum (demo_net ipB ipA []) q (length q) tt = Ok (true, tt)
    /\ (forall i v, (i < length q)%nat -> is_byte v -> v <> get8 q i ->
          _mysock_verify_checksum (demo_net ipB ipA []) (upd q i [v]) (length q) tt = Ok (false, tt)).
Proof.
  apply (checksum_roundtrip (demo_net ipA ipB []) (demo_net ipB ipA []) demo_segment tt).
  - repeat split; reflexivity.
  - split; [|vm_compute; split; discriminate]. apply wf_app; [apply wf_zeros|]. repeat constructor; discriminate.
Defined.
