(* ===== verification/DemuxThms.v ===== *)
(** The table of mysockets and the backlog of listening ones: what no call can
    break, and what an incoming connection request does. *)

From S2P Require Import Prelude.
From S2P Require Import Bytes.
From S2P Require Import MysockHash.
From S2P Require Import MysockState.
From S2P Require Import PacketQueue.
From S2P Require Import NetworkIoTcp.
From S2P Require Import TcpSum.
From S2P Require Import Mysock.
From S2P Require Import ConnectionDemux.
From S2P Require Import DemuxFacts.
From S2P Require Import StcpApi.
From S2P Require Import Transport.
From S2P Require Import MysockApi.
From S2P Require Import StcpSystem.
From S2P Require Import StcpHandshake.
From S2P Require Import StcpSetup.
From S2P Require Import StcpDemo.

(* ------------------------------------------------------------------ *)
(** * The backlog *)

(** A connection request the queue has room for. *)
Definition admits (q : listen_queue_t) (packet : bytes) (addr : sockaddr) : Prop :=
  (20 <= length packet)%nat /\ Z.land (get8 packet Tcp.flags) TH_SYN <> 0
  /\ Forall (fun r => rq_peer_addr r <> addr) (connection_queue q) /\ cur_len q < max_len q.

Lemma admits_or q packet addr :
  queue_ok q ->
  admits q packet addr \/
  ((length packet < 20)%nat \/ Z.land (get8 packet Tcp.flags) TH_SYN = 0
   \/ Exists (fun r => rq_peer_addr r = addr) (connection_queue q) \/ cur_len q = max_len q).
Proof.
  intros Hok. pose proof (pending_le q Hok). unfold admits.
  destruct (decide (20 <= length packet)%nat); [|right; left; lia].
  destruct (decide (Z.land (get8 packet Tcp.flags) TH_SYN = 0)); [by right; right; left|].
  destruct (decide (Exists (fun r => rq_peer_addr r = addr) (connection_queue q))) as [He|Hn]; [by right; right; right; left|].
  destruct (decide (cur_len q = max_len q)); [by right; right; right; right|].
  left. split; [done|]. split; [done|]. split; [|lia]. by apply not_Exists_Forall in Hn; [|intros r; apply _].
Qed.

(** A free slot taken and given back when there is no descriptor left. *)
Lemma queue_refused_ok q k r :
  queue_ok q -> cur_len q < max_len q -> connection_queue q !! k = Some r -> rq_sd r = -1 ->
  let q' := set_cur_len (u32 (cur_len q + 1) - 1) (set_connection_queue (<[k := INVALIDATE_CONNECT_REQUEST]> (connection_queue q)) q) in
  queue_ok q' /\ cur_len q' = cur_len q /\ max_len q' = max_len q.
Proof.
  intros Hok Hlt Hk Hr q'. pose proof (pending_le q Hok) as Hp. destruct Hok as [H1 H2 H3 H4 H5 H6].
  assert (Hu : used (<[k := INVALIDATE_CONNECT_REQUEST]> (connection_queue q)) = pending q).
  { pose proof (used_insert (connection_queue q) k r INVALIDATE_CONNECT_REQUEST Hk) as Hu. rewrite Hr in Hu. simpl in Hu.
    unfold pending. lia. }
  assert (Hc : u32 (cur_len q + 1) - 1 = cur_len q) by (rewrite u32_small by lia; lia).
  split; [|by split]. split; unfold q', pending; cbn [connection_queue queue_block max_len cur_len completed_queue set_connection_queue set_cur_len].
  - by rewrite length_insert.
  - done.
  - rewrite Hu, Hc. done.
  - apply Forall_insert; [done|]. by left.
  - done.
  - eapply Forall_impl; [exact H6|]. intros [b j] (Hb & x & Hj & Hx). split; [done|]. simpl in *.
    destruct (decide (j = k)) as [->|Hne].
    + rewrite Hk in Hj. injection Hj as ->. done.
    + exists x. by rewrite list_lookup_insert_ne.
Qed.

(** A connection request when no descriptor is left. *)
Lemma wlp_enqueue_full F st m lsd ls q packet addr (Q : bool -> stack -> Prop) :
  has_sock st lsd ls -> listening ls = true -> bound ls = true -> listens st m -> m !! lsd = Some q -> queue_ok q ->
  admits q packet addr -> first_free (global_ctx st) 0 MAX_NUM_CONNECTIONS = None ->
  (forall tbl q', hash_repr MAX_NUM_CONNECTIONS tbl (<[lsd := q']> m) -> queue_ok q' -> cur_len q' = cur_len q -> max_len q' = max_len q ->
     Q false (set_listen_table tbl st)) ->
  wlp F (_mysock_enqueue_connection ls packet addr SOCKADDR_LEN) Q st.
Proof.
  intros Hls Hlis Hbound Hm Hq Hok (Hlen & Hsyn & Hnew & Hlt) Hfree HQ.
  assert (Hsd : my_sd ls = lsd /\ 0 <= lsd) by (destruct Hls as [_ [H1 H2]]; lia). destruct Hsd as [Hsd H0].
  unfold _mysock_enqueue_connection. rewrite Hlis, Hbound. cbn [andb]. wgo. cbn [Z.ltb Z.compare SOCKADDR_LEN]. wgo.
  rewrite (proj2 (Nat.ltb_ge _ _)), (proj2 (Z.eqb_neq _ _)) by (done || unfold Tcp.size; lia). cbn [orb]. wgo.
  apply (wlp_get_queue F ls m); [done|done|done|lia|]. rewrite Hsd, Hq. wgo.
  apply is_retransmission_spec; [rewrite requests_all by done; by destruct Hok|]. rewrite requests_all by done.
  replace (existsb _ (connection_queue q)) with false.
  2:{ symmetry. apply not_true_is_false. rewrite existsb_exists. intros (r & Hin & Hr'%bool_decide_eq_true).
      rewrite Forall_forall in Hnew. apply (Hnew r); [by apply list_elem_of_In|done]. }
  wgo. rewrite (proj2 (Z.ltb_lt _ _)) by done. destruct (free_slot q Hok Hlt) as (k & r & Hf & Hk & Hrs).
  rewrite requests_all in Hf by done. rewrite Hf. wgo.
  apply (wlp_store_queue F lsd _ m); [done|done|]. intros tbl1 Hr1. wgo.
  unfold establish. cbn [connection_queue set_cur_len]. rewrite Hk. wgo. rewrite Hrs, Z.eqb_refl. wgo.
  unfold _mysock_new_mysocket. wgo. cbn [global_ctx set_listen_table]. rewrite Hfree. wgo. rewrite Hsd.
  destruct (queue_refused_ok q k r Hok Hlt Hk Hrs) as (Ho & Hc & Hx).
  apply (wlp_store_queue F _ _ (<[lsd := set_cur_len (u32 (cur_len q + 1)) q]> m)); [exact Hr1|lia|].
  intros tbl Hr2. rewrite insert_insert_eq in Hr2. wgo.
  change (set_listen_table tbl (set_listen_table tbl1 st)) with (set_listen_table tbl st). by eapply HQ.
Qed.

(** C27: the backlog is a bound: a packet for a listening mysocket becomes a
    pending connection exactly when it is a SYN from a peer with none pending,
    fewer than the backlog's number of connections are pending and a descriptor
    is free; it then has a mysocket of its own with the packet in its queue, and
    otherwise nothing is added. In every case the number of pending connections
    is at most the bound set by [mylisten], and the queue's records stay sound. *)
Theorem backlog_bounded st m lsd ls q packet addr :
  has_sock st lsd ls -> listening ls = true -> bound ls = true -> is_Some (new_socket (network_state ls)) ->
  listens st m -> m !! lsd = Some q -> queue_ok q ->
  exists r st' q', _mysock_enqueue_connection ls packet addr SOCKADDR_LEN st = Ok (r, st')
    /\ listens st' (<[lsd := q']> m) /\ queue_ok q' /\ max_len q' = max_len q /\ 0 <= cur_len q' <= max_len q'
    /\ cur_len q' = cur_len q + (if r then 1 else 0)
    /\ (r = true <-> admits q packet addr /\ exists sd, 0 <= sd < Z.of_nat MAX_NUM_CONNECTIONS /\ global_ctx st !! sd = None)
    /\ (r = true -> exists sd s, global_ctx st !! sd = None /\ has_sock st' sd s /\ network_recv_queue s = [packet]
          /\ peer_addr (network_state s) = addr /\ listen_sd s = lsd
          /\ exists k, connection_queue q' !! k = Some (mk_request addr SOCKADDR_LEN sd))
    /\ (r = false -> global_ctx st' = global_ctx st).
Proof.
  intros Hls Hlis Hb [b Hns] Hm Hq Hok. pose proof (pending_le q Hok) as Hle.
  assert (Hnot : forall r, ((length packet < 20)%nat \/ Z.land (get8 packet Tcp.flags) TH_SYN = 0
     \/ Exists (fun r => rq_peer_addr r = addr) (connection_queue q) \/ cur_len q = max_len q) -> r = false ->
     (r = true <-> admits q packet addr /\ exists sd, 0 <= sd < Z.of_nat MAX_NUM_CONNECTIONS /\ global_ctx st !! sd = None)).
  { intros r Hd ->. split; [done|]. intros [(A1 & A2 & A3 & A4) _]. exfalso.
    destruct Hd as [Hd|[Hd|[Hd|Hd]]]; [lia|done| |lia]. apply Exists_exists in Hd as (x & Hx & Hxa).
    rewrite Forall_forall in A3. by apply (A3 x). }
  assert (H : wlp (fun _ => False) (_mysock_enqueue_connection ls packet addr SOCKADDR_LEN)
    (fun r st' => exists q', listens st' (<[lsd := q']> m) /\ queue_ok q' /\ max_len q' = max_len q
    /\ cur_len q' = cur_len q + (if r then 1 else 0)
    /\ (r = true <-> admits q packet addr /\ exists sd, 0 <= sd < Z.of_nat MAX_NUM_CONNECTIONS /\ global_ctx st !! sd = None)
    /\ (r = true -> exists sd s, global_ctx st !! sd = None /\ has_sock st' sd s /\ network_recv_queue s = [packet]
          /\ peer_addr (network_state s) = addr /\ listen_sd s = lsd
          /\ exists k, connection_queue q' !! k = Some (mk_request addr SOCKADDR_LEN sd))
    /\ (r = false -> global_ctx st' = global_ctx st)) st).
  { destruct (admits_or q packet addr Hok) as [Ha|Hd].
    - pose proof (first_free_spec (global_ctx st) 0 MAX_NUM_CONNECTIONS) as Hff.
      destruct (first_free (global_ctx st) 0 MAX_NUM_CONNECTIONS) as [sd|] eqn:Hfree.
      + destruct Hff as (Hr & Hnone & _). pose proof Ha as (A1 & A2 & A3 & A4).
        eapply wlp_enqueue_accept; try done. intros tbl k Hrep Hqok Hk _.
        exists (queue_taken q k addr sd). split; [exact Hrep|]. split; [done|]. split; [done|].
        split; [cbn; rewrite u32_small; [lia|]; destruct Hok; lia|].
        split; [split; [intros _; split; [done|]; by exists sd|done]|]. split; [|done]. intros _.
        eexists sd, _. split; [done|]. split; [split; [apply lookup_insert_eq|by split]|]. split; [done|]. split; [done|].
        split; [done|]. by exists k.
      + eapply wlp_enqueue_full; try done. intros tbl q' Hrep Hqok Hc Hx. exists q'.
        split; [exact Hrep|]. split; [done|]. split; [done|]. split; [lia|].
        split; [|split; [done|by intros _]]. split; [done|]. intros [_ (sd & Hsd & Hnone)].
        destruct (Hff sd Hsd) as [c Hc']. congruence.
    - eapply wlp_enqueue_drop; try done. exists q. rewrite insert_id by done.
      split; [done|]. split; [done|]. split; [done|]. split; [lia|]. split; [by apply Hnot|]. split; [done|by intros _]. }
  apply wlp_total in H as (r & st' & H & q' & H1 & H2 & H3 & H4 & H5 & H6 & H7). exists r, st', q'.
  split; [done|]. split; [done|]. split; [done|]. split; [done|]. split; [by apply pending_le|]. done.
Qed.

(** A host with mysocket 0 listening, a connection just accepted for it. *)
Definition demo_queue : listen_queue_t := mk_listen 80 2 0 1 [INVALIDATE_CONNECT_REQUEST; INVALIDATE_CONNECT_REQUEST] [].
Definition demo_table : hash_table listen_queue_t :=
  match _hash_insert (hash_empty MAX_NUM_CONNECTIONS) 0 demo_queue tt with Ok (t, _) => t | Err _ => [] end.
Definition demo_listener : mysock_context :=
  mk_sock false
    (mk_net true any_name sockaddr0 0 false 0 false [] 0 true false (htons 80) ipB [] [] [] (Some [7]))
    true true 0 (-1) true 0 false false false [] [] [].
Definition demo_listening : stack := mk_stack ipB {[0 := demo_listener]} demo_table ∅.
Definition demo_syn : bytes := [0; 0; 0; 0; 1; 0; 0; 0; 0; 0; 0; 0; 0x50; 2; 0; 12; 0; 0; 0; 0].

Lemma demo_listens : listens demo_listening {[0 := demo_queue]}.
Proof.
  destruct (insert_eq MAX_NUM_CONNECTIONS (hash_empty MAX_NUM_CONNECTIONS) ∅ 0 tt (new_host_listens 0) (Z.le_refl 0) demo_queue
    (lookup_empty _)) as (t & Ht & Hr).
  unfold listens, demo_listening, demo_table. cbn [listen_table]. by rewrite Ht.
Qed.

Lemma demo_queue_ok : queue_ok demo_queue.
Proof. split; try done; repeat constructor. Qed.

Lemma backlog_bounded_witness :
  exists r st' q', _mysock_enqueue_connection demo_listener demo_syn client_name SOCKADDR_LEN demo_listening = Ok (r, st')
    /\ listens st' (<[0 := q']> {[0 := demo_queue]}) /\ queue_ok q' /\ max_len q' = max_len demo_queue /\ 0 <= cur_len q' <= max_len q'
    /\ cur_len q' = cur_len demo_queue + (if r then 1 else 0)
    /\ (r = true <-> admits demo_queue demo_syn client_name
          /\ exists sd, 0 <= sd < Z.of_nat MAX_NUM_CONNECTIONS /\ global_ctx demo_listening !! sd = None)
    /\ (r = true -> exists sd s, global_ctx demo_listening !! sd = None /\ has_sock st' sd s /\ network_recv_queue s = [demo_syn]
          /\ peer_addr (network_state s) = client_name /\ listen_sd s = 0
          /\ exists k, connection_queue q' !! k = Some (mk_request client_name SOCKADDR_LEN sd))
    /\ (r = false -> global_ctx st' = global_ctx demo_listening).
Proof.
  apply (backlog_bounded demo_listening {[0 := demo_queue]} 0 demo_listener demo_queue demo_syn client_name).
  - split; [reflexivity|split; [reflexivity|split; [discriminate|reflexivity]]].
  - reflexivity.
  - reflexivity.
  - exists [7]. reflexivity.
  - exact demo_listens.
  - reflexivity.
  - exact demo_queue_ok.
Defined.

(* ------------------------------------------------------------------ *)
(** * [mylisten] a second time *)

(** A call of [mylisten] with a larger backlog, while a connection is waiting to
    be accepted, leaves the entry of that connection with a pointer into the
    block [realloc] has taken away: the next [myaccept] loads from it. *)
Theorem relisten_dangles {K : Kernel} st m lsd ls q p rest backlog :
  has_sock st lsd ls -> listening ls = true -> bound ls = true -> listens st m -> m !! lsd = Some q -> queue_ok q ->
  completed_queue q = p :: rest -> local_port q = ntohs (net_port (network_state ls)) -> 0 < local_port q ->
  max_len q < backlog + 1 < 2 ^ 32 ->
  exists st', mylisten lsd backlog st = Ok (inl 0, st') /\ myaccept lsd st' = Err UseAfterFree.
Proof.
  intros [Hg Hp] Hl Hb Hm Hq Hok Hc Hport H0 Hlt. destruct Hp as [Hsd Hr]. pose proof (pending_le q Hok) as Hle.
  assert (Hpast : p.1 = queue_block q) by (destruct Hok as [_ _ _ _ _ H6]; rewrite Hc in H6; by apply Forall_cons in H6 as [[? _] _]).
  set (net := set_recv_thread_started true (network_state ls)).
  set (ls' := set_network_state net (set_listening true ls)).
  assert (H : wlp (fun _ => False) (mylisten lsd backlog) (fun r st' => r = inl 0 /\ exists tbl q',
    st' = sock_at (set_listen_table tbl st) lsd ls' /\ listens st' (<[lsd := q']> m)
    /\ queue_block q' = S (queue_block q) /\ completed_queue q' = p :: rest) st).
  { lazymatch goal with |- wlp ?F ?m ?Q _ => cut (wlp F m Q (sock_at st lsd ls)); [by rewrite (sock_at_same st lsd ls Hg)|] end. unfold mylisten. wgo. apply wlp_the_context; [by split|]. wgo. rewrite Hb. wgo.
    apply wlp_at_sock. wgo. apply wlp_at_sock. wgo. unfold _mysock_set_backlog. cbn [listening bound set_listening network_state]. rewrite Hb. cbn [andb]. wgo.
    rewrite <- Hport, (proj2 (Z.ltb_lt _ _)) by done. wgo.
    apply (wlp_get_queue _ _ m); [exact Hm|done|done|cbn [my_sd set_listening]; lia|]. cbn [my_sd set_listening]. rewrite Hsd, Hq. wgo.
    rewrite Z.eqb_refl. wgo. rewrite u32_small by lia. rewrite (proj2 (Z.ltb_lt _ _)) by lia.
    apply (wlp_store_queue _ _ _ m); [exact Hm|lia|]. intros tbl Htbl.
    lazymatch goal with |- wlp _ _ _ (set_listen_table tbl (sock_at st lsd ?s)) =>
      change (set_listen_table tbl (sock_at st lsd s)) with (sock_at (set_listen_table tbl st) lsd s) end.
    unfold _network_start_recv_thread. wgo. apply wlp_at_sock, wlp_in_net. wgo. split; [done|]. eexists tbl, _.
    split; [reflexivity|]. split; [exact Htbl|]. by split. }
  apply wlp_total in H as (r & st' & Hrun & -> & tbl & q' & -> & Hm' & Hblk & Hc'). eexists. split; [exact Hrun|].
  assert (H : wlp (fun f => f = UseAfterFree) (myaccept lsd) (fun _ _ => False) (sock_at (set_listen_table tbl st) lsd ls')).
  { unfold myaccept. wgo. apply wlp_get_context; [split; [exact Hsd|exact Hr]|]. wgo. cbn [listening ls' set_network_state set_listening negb]. wgo.
    unfold _mysock_dequeue_connection. cbn [listening bound ls' set_network_state set_listening]. rewrite Hb. cbn [andb]. wgo.
    apply (wlp_get_queue _ _ (<[lsd := q']> m)); [exact Hm'|done|done|cbn; lia|]. cbn [my_sd ls' set_network_state set_listening].
    rewrite Hsd, lookup_insert_eq. wgo. rewrite Hc'. unfold load_request. rewrite decide_False by (rewrite Hblk; lia). by wgo. }
  unfold wlp in H. destruct (myaccept _ _) as [[? ?]|f]; [done|by subst].
Qed.

(* ------------------------------------------------------------------ *)
(** * The table of mysockets *)

(** A host whose tables are well formed: the mysockets at the indices they
    record, and the listen table a map from descriptors to queues. *)
Definition host_ok (st : stack) : Prop := table_ok st /\ exists m, listens st m /\ map_Forall (fun _ => demux_ok) m.

(** [m] may fail, but leaves sound tables if it ends. *)
Definition kept {A} (m : M stack A) : Prop :=
  forall st, host_ok st -> wlp (fun _ => True) m (fun _ st' => host_ok st') st.
(** [m] keeps a mysocket's descriptor. *)
Definition same_sd {A} (m : M mysock_context A) : Prop :=
  forall s, wlp (fun _ => True) m (fun _ s' => my_sd s' = my_sd s) s.

Lemma kept_ret {A} (a : A) : kept (mret a).
Proof. by intros st H. Qed.
Lemma kept_fail {A} f : kept (fail f : M stack A).
Proof. by intros st H. Qed.
Lemma kept_bind {A B} (m : M stack A) (k : A -> M stack B) : kept m -> (forall a, kept (k a)) -> kept (m ≫= k).
Proof. intros Hm Hk st H. apply wlp_bind. eapply wlp_mono; [by apply Hm|]. intros a st' H'. by apply Hk. Qed.
Lemma kept_get : kept (get : M stack stack).
Proof. by intros st H. Qed.
Lemma kept_lift {A} (r : res A) : kept (lift r).
Proof. intros st H. unfold wlp, lift. by destruct r. Qed.
Lemma kept_massert c : kept (massert c).
Proof. intros st H. by destruct c. Qed.
Lemma kept_deref {A} (p : option A) : kept (deref p).
Proof. intros st H. by destruct p. Qed.
Lemma kept_modify f : (forall st, host_ok st -> host_ok (f st)) -> kept (modify f).
Proof. intros Hf st H. by apply Hf. Qed.
Lemma kept_at_sock {A} sd (m : M mysock_context A) : same_sd m -> kept (at_sock sd m).
Proof.
  intros Hm st H. unfold wlp, at_sock. destruct (global_ctx st !! sd) as [s|] eqn:Hs; [|done].
  specialize (Hm s). unfold wlp in Hm. destruct (m s) as [[a s']|f]; [|done].
  destruct H as [H Hl]. split; [|exact Hl]. intros i c. cbn [global_ctx set_global_ctx]. rewrite lookup_insert_Some. intros [[<- <-]|[_ Hi]]; [|by apply H].
  rewrite Hm. by apply H.
Qed.
Lemma kept_mfor {A} (l : list A) (body : A -> M stack unit) : (forall x, kept (body x)) -> kept (mfor l body).
Proof.
  intros Hb st H. apply (wlp_mfor (fun _ => True) l body (fun _ => host_ok)); [done|]. intros x l' s Hs. by apply Hb.
Qed.
(** What is known of a value read goes to what follows. *)
Lemma kept_bind_of {A B} (R : A -> Prop) (m : M stack A) (k : A -> M stack B) :
  (forall st, host_ok st -> wlp (fun _ => True) m (fun a st' => R a /\ host_ok st') st) ->
  (forall a, R a -> kept (k a)) -> kept (m ≫= k).
Proof. intros Hm Hk st H. apply wlp_bind. eapply wlp_mono; [by apply Hm|]. intros a st' [Ha H']. by apply Hk. Qed.
Lemma kept_get_bind {B} (k : stack -> M stack B) : (forall st, host_ok st -> kept (k st)) -> kept (get ≫= k).
Proof. apply kept_bind_of. intros st H. by apply wlp_get. Qed.
Lemma kept_massert_bind {B} c (k : unit -> M stack B) : (c = true -> kept (k tt)) -> kept (massert c ≫= k).
Proof. intros Hk. apply (kept_bind_of (fun _ => c = true)); [by destruct c|]. intros [] Hc. by apply Hk. Qed.
Lemma kept_deref_bind {A B} (p : option A) (k : A -> M stack B) : (forall a, p = Some a -> kept (k a)) -> kept (deref p ≫= k).
Proof. apply kept_bind_of. intros st H. by destruct p. Qed.
(** A mysocket of the table has a descriptor. *)
Lemma kept_read_bind {B} sd (k : mysock_context -> M stack B) :
  (forall s, 0 <= my_sd s -> kept (k s)) -> kept (at_sock sd get ≫= k).
Proof.
  intros Hk. apply (kept_bind_of (fun s => 0 <= my_sd s)); [|done].
  intros st H. unfold wlp, at_sock, get. destruct (global_ctx st !! sd) as [s|] eqn:Hs; [|done].
  destruct (proj1 H _ _ Hs) as [-> Hr]. split; [lia|]. fold (sock_at st sd s). by rewrite sock_at_same.
Qed.
Lemma wlp_the_context_kept sd st :
  host_ok st -> wlp (fun _ => True) (_mysock_get_context sd)
    (fun c st' => (forall s, c = Some s -> 0 <= my_sd s) /\ st' = st) st.
Proof.
  intros [Ht _]. unfold _mysock_get_context, verify_mysocket_descriptor, massert. wgo. destruct (_ && _); wgo; [|done].
  destruct (global_ctx st !! sd) as [s|] eqn:Hs; [|done]. destruct (Ht _ _ Hs) as [E Hr]. rewrite E, Z.eqb_refl. wgo.
  rewrite Hs. split; [|done]. intros s' [= <-]. rewrite E. lia.
Qed.
Lemma kept_context_bind {B} sd (k : option mysock_context -> M stack B) :
  (forall c, (forall s, c = Some s -> 0 <= my_sd s) -> kept (k c)) -> kept (_mysock_get_context sd ≫= k).
Proof. apply kept_bind_of. intros st H. eapply wlp_mono; [by apply wlp_the_context_kept|]. by intros c st' [Hc ->]. Qed.
Lemma kept_the_context_bind {B} sd (k : mysock_context -> M stack B) :
  (forall s, 0 <= sd -> 0 <= my_sd s -> kept (k s)) -> kept (the_context sd ≫= k).
Proof.
  intros Hk. apply (kept_bind_of (fun s => 0 <= sd /\ 0 <= my_sd s)); [|intros s [H1 H2]; by apply Hk].
  intros st H. unfold the_context. apply wlp_bind. destruct (decide (0 <= sd)) as [Hsd|Hsd].
  - eapply wlp_mono; [by apply wlp_the_context_kept|]. intros [s|] st' [Hc ->]; [|done]. split; [|done]. split; [done|by apply Hc].
  - unfold _mysock_get_context, verify_mysocket_descriptor, massert. by rewrite (proj2 (Z.leb_gt 0 sd)) by lia.
Qed.

Lemma same_in_net {A} (m : M network_context_t A) : same_sd (in_net m).
Proof. intros s. unfold wlp, in_net. by destruct (m (network_state s)) as [[a n]|f]. Qed.
Lemma same_modify f : (forall s, my_sd (f s) = my_sd s) -> same_sd (modify f).
Proof. intros Hf s. apply Hf. Qed.
Lemma same_get : same_sd get.
Proof. by intros s. Qed.
Lemma same_ret {A} (a : A) : same_sd (mret a).
Proof. by intros s. Qed.
Lemma same_fail {A} f : same_sd (fail f : M mysock_context A).
Proof. by intros s. Qed.
Lemma same_massert c : same_sd (massert c).
Proof. intros s. by destruct c. Qed.
Lemma same_bind {A B} (m : M mysock_context A) (k : A -> M mysock_context B) :
  same_sd m -> (forall a, same_sd (k a)) -> same_sd (m ≫= k).
Proof.
  intros Hm Hk s. apply wlp_bind. eapply wlp_mono; [apply Hm|]. intros a s' H'. eapply wlp_mono; [apply Hk|].
  intros b s2 H2. cbn beta in *. congruence.
Qed.

Create HintDb kept discriminated.
#[local] Hint Constants Opaque : kept.
#[local] Hint Transparent ret_t : kept.
#[local] Hint Resolve kept_ret kept_fail kept_get kept_lift same_in_net same_get same_ret same_fail : kept.

(** Follow the structure of an operation. *)
Ltac keeps :=
  repeat lazymatch goal with
  | |- kept (mret _) => apply kept_ret
  | |- kept (fail _) => apply kept_fail
  | |- kept (mbind _ get) => apply kept_get_bind; intros ? ?
  | |- kept (mbind _ (at_sock _ get)) => apply kept_read_bind; intros ? ?
  | |- kept (mbind _ (the_context _)) => apply kept_the_context_bind; intros ? ? ?
  | |- kept (mbind _ (_mysock_get_context _)) => apply kept_context_bind; intros ? ?
  | |- kept (mbind _ (massert _)) => apply kept_massert_bind; intros ?
  | |- kept (mbind _ (deref _)) => apply kept_deref_bind; intros ? ?
  | |- kept (mbind _ _) => apply kept_bind; [|intros ?]
  | |- same_sd (mbind _ _) => apply same_bind; [|intros ?]
  | |- kept (at_sock _ _) => apply kept_at_sock
  | |- same_sd (modify _) => apply same_modify; reflexivity
  | |- kept (modify _) => apply kept_modify; intros ? ?; done
  | |- kept (mfor _ _) => apply kept_mfor; intros ?
  | |- kept (if ?c then _ else _) => destruct c
  | |- kept (match ?c with _ => _ end) => destruct c
  | |- same_sd (if ?c then _ else _) => destruct c
  | |- same_sd (match ?c with _ => _ end) => destruct c
  | |- kept (massert _) => apply kept_massert
  | |- same_sd (massert _) => apply same_massert
  | |- kept (deref _) => apply kept_deref
  | |- kept (lift _) => apply kept_lift
  | |- _ => solve [auto 4 with kept]
  end.

Lemma kept_the_context sd : kept (the_context sd).
Proof. unfold the_context, _mysock_get_context, verify_mysocket_descriptor. keeps. Qed.
Lemma kept_get_context sd : kept (_mysock_get_context sd).
Proof. unfold _mysock_get_context, verify_mysocket_descriptor. keeps. Qed.
Lemma kept_new_mysocket r : kept (_mysock_new_mysocket r).
Proof.
  intros st H. unfold _mysock_new_mysocket. wgo. pose proof (first_free_spec (global_ctx st) 0 MAX_NUM_CONNECTIONS) as Hf.
  destruct (first_free (global_ctx st) 0 MAX_NUM_CONNECTIONS) as [k|]; wgo; [|done]. destruct Hf as (Hk & _ & _).
  destruct H as [H Hl]. split; [|exact Hl]. intros i c. cbn [global_ctx set_global_ctx]. rewrite lookup_insert_Some. intros [[<- <-]|[_ Hi]]; [|by apply H]. by split; [|lia].
Qed.
Lemma kept_transport_init sd a : kept (_mysock_transport_init sd a).
Proof. pose proof kept_the_context. unfold _mysock_transport_init, _network_start_recv_thread. keeps. Qed.
#[local] Hint Resolve kept_the_context kept_get_context kept_new_mysocket kept_transport_init : kept.

(** The descriptor of a new mysocket. *)
Lemma kept_new_bind {B} r (k : ret_t -> M stack B) :
  (forall sd, 0 <= sd -> kept (k (inl sd))) -> (forall e, kept (k (inr e))) -> kept (_mysock_new_mysocket r ≫= k).
Proof.
  intros H1 H2. apply (kept_bind_of (fun v => match v with inl sd => 0 <= sd | inr _ => True end)); [|intros [sd|e] Hv; auto].
  intros st H. pose proof (kept_new_mysocket r st H) as Hk. unfold wlp, _mysock_new_mysocket, mbind, M_bind, get, put, mret, M_ret in *.
  pose proof (first_free_spec (global_ctx st) 0 MAX_NUM_CONNECTIONS) as Hf.
  destruct (first_free (global_ctx st) 0 MAX_NUM_CONNECTIONS) as [sd|]; (split; [|exact Hk]); [lia|done].
Qed.

(** The queue of a listener. *)
Lemma kept_queue_bind {B} ctx (k : option listen_queue_t -> M stack B) : 0 <= my_sd ctx ->
  (forall q, (forall q', q = Some q' -> demux_ok q') -> kept (k q)) -> kept (_get_connection_queue ctx ≫= k).
Proof.
  intros Hsd. apply kept_bind_of. intros st [Ht (m & Hm & Hall)]. unfold _get_connection_queue. apply wlp_bind.
  destruct (listening ctx && bound ctx) eqn:E; [|done]. cbn [massert]. wgo.
  unfold wlp. rewrite (lookup_ptr_eq MAX_NUM_CONNECTIONS _ m) by done. split; [|split; [done|by exists m]].
  intros q' Hq. by eapply Hall.
Qed.
Lemma kept_store_queue sd q : 0 <= sd -> demux_ok q -> kept (store_queue sd q).
Proof.
  intros Hsd Hq st [Ht (m & Hm & Hall)]. apply (wlp_store_queue _ _ _ m); [done|done|]. intros tbl Hr.
  split; [exact Ht|]. exists (<[sd := q]> m). split; [exact Hr|]. by apply map_Forall_insert_2.
Qed.
(** Its removal from the table. *)
Lemma kept_unregister sd : 0 <= sd ->
  kept (st ← get; tbl ← _hash_delete (listen_table st) sd; put (set_listen_table tbl st)).
Proof.
  intros Hsd st [Ht (m & Hm & Hall)]. wgo. destruct (delete_eq MAX_NUM_CONNECTIONS (listen_table st) m sd st Hm Hsd) as (tbl & He & Hr).
  apply (wlp_eq _ _ (mret tbl)); [exact He|]. wgo. split; [exact Ht|]. exists (delete sd m). split; [exact Hr|].
  by apply map_Forall_delete.
Qed.

Lemma kept_retransmission rs addr len : kept (is_retransmission rs addr len).
Proof. induction rs as [|r rs IH]; cbn [is_retransmission]; keeps. Qed.
#[local] Hint Resolve kept_retransmission : kept.

Lemma kept_establish_request ctx q k packet addr len :
  0 <= my_sd ctx -> demux_ok q -> Z.of_nat (pending q) < cur_len q -> kept (establish ctx q k packet addr len).
Proof.
  intros Hsd Hq Hn. unfold establish, enqueue_network_recv. apply kept_deref_bind. intros r Hk. apply kept_massert_bind.
  intros Hr%Z.eqb_eq. apply kept_new_bind; [intros sd Hs|intros errno]; cbn iota.
  - keeps. apply kept_store_queue; [done|].
    replace (set_connection_queue _ q) with (set_cur_len (cur_len q) (set_connection_queue (<[k := mk_request addr len sd]> (connection_queue q)) q)) by by destruct q.
    apply (demux_stored _ _ r); [done|done|simpl; lia|]. rewrite Hr. cbn [rq_sd]. rewrite (proj2 (Z.eqb_neq sd _)) by lia. simpl. lia.
  - keeps. apply kept_store_queue; [done|]. apply (demux_stored _ _ r); [done|done|done|]. rewrite Hr. simpl. lia.
Qed.

Lemma kept_enqueue_connection ctx packet addr len : 0 <= my_sd ctx -> kept (_mysock_enqueue_connection ctx packet addr len).
Proof.
  intros Hsd. unfold _mysock_enqueue_connection. apply kept_massert_bind. intros _. apply kept_massert_bind. intros _.
  destruct (_ || _); [keeps|]. apply kept_queue_bind; [done|]. intros [q|] Hq; [|keeps]. specialize (Hq q eq_refl).
  apply kept_bind; [keeps|]. intros []; [keeps|]. destruct (Z.ltb_spec (cur_len q) (max_len q)) as [Hlt|]; [|keeps].
  destruct (find_request _ _ _) as [k|]; [|keeps]. destruct (demux_counted q Hq Hlt) as [Hq' Hn].
  apply kept_bind; [by apply kept_store_queue|]. intros _. by apply kept_establish_request.
Qed.

Lemma kept_load_bind {B} q p (k : connect_request_t -> M stack B) :
  (forall r, connection_queue q !! p.2 = Some r -> kept (k r)) -> kept (load_request q p ≫= k).
Proof.
  apply kept_bind_of. intros st H. unfold load_request. destruct (decide _); [|done]. by destruct (connection_queue q !! p.2).
Qed.

Lemma kept_dequeue_connection ctx : 0 <= my_sd ctx -> kept (_mysock_dequeue_connection ctx).
Proof.
  intros Hsd. unfold _mysock_dequeue_connection. apply kept_massert_bind. intros _. apply kept_queue_bind; [done|].
  intros [q|] Hq; [|intros st H; done]. specialize (Hq q eq_refl). intros st H. wgo. revert st H.
  lazymatch goal with |- forall st, host_ok st -> wlp _ ?m _ st => change (kept m) end.
  destruct (completed_queue q) as [|p rest] eqn:Hc; [keeps|]. apply kept_load_bind. intros r Hr.
  apply kept_the_context_bind. intros s Hs Hp. apply kept_massert_bind. intros _. apply kept_bind; [|keeps].
  apply kept_store_queue; [done|]. pose proof (demux_rest _ _ _ Hq Hc) as Hq'.
  apply (demux_stored _ p.2 r INVALIDATE_CONNECT_REQUEST _ Hq' Hr); [done|]. cbn [rq_sd INVALIDATE_CONNECT_REQUEST].
  rewrite (proj2 (Z.eqb_neq (rq_sd r) _)) by lia. simpl. pose proof (demux_count _ Hq'). cbn in *. lia.
Qed.

Lemma kept_passive_complete ctx : kept (_mysock_passive_connection_complete ctx).
Proof.
  unfold _mysock_passive_connection_complete. apply kept_massert_bind. intros _. apply kept_the_context_bind. intros l Hl Hp.
  apply kept_queue_bind; [done|]. intros [q|] Hq; [|keeps]. specialize (Hq q eq_refl).
  pose proof (find_request_spec (fun r => rq_sd r =? my_sd ctx) (requests q) 0) as Hf. destruct (find_request _ _ _) as [k|]; [|keeps].
  destruct Hf as (_ & r & Hr & _). rewrite Nat.sub_0_r in Hr. apply kept_store_queue; [done|]. apply demux_finished; [done|].
  apply lookup_lt_Some in Hr. unfold requests in Hr. rewrite length_take in Hr. lia.
Qed.

Lemma kept_set_backlog ctx n : 0 <= my_sd ctx -> kept (_mysock_set_backlog ctx n).
Proof.
  intros Hsd. unfold _mysock_set_backlog. apply kept_massert_bind. intros E%andb_true_iff. destruct E as [E1 E2].
  apply kept_massert_bind. intros _. set (port := ntohs _).
  intros st [Ht (m & Hm & Hall)]. wgo. apply (wlp_get_queue _ _ m); [done..|]. wgo.
  assert (Hu : 0 <= u32 (n + 1) < 2 ^ 32) by apply u32_range.
  destruct (m !! my_sd ctx) as [q|] eqn:Hq; wgo.
  - revert st Ht Hm. assert (Hk : demux_ok q) by by eapply Hall. intros st Ht Hm.
    destruct (local_port q =? port); [|done]. wgo. apply (wlp_store_queue _ _ _ m); [done|done|]. intros tbl Hr.
    split; [exact Ht|]. eexists. split; [exact Hr|]. apply map_Forall_insert_2; [by apply demux_bound|done].
  - destruct (insert_eq MAX_NUM_CONNECTIONS (listen_table st) m (my_sd ctx) st Hm Hsd (mk_listen port 0 0 0 [] []) Hq) as (tbl & He & Hr).
    apply (wlp_eq _ _ (mret tbl)); [exact He|]. wgo. cbn [local_port]. rewrite Z.eqb_refl. wgo.
    apply (wlp_store_queue _ _ _ (<[my_sd ctx := mk_listen port 0 0 0 [] []]> m)); [exact Hr|done|]. intros tbl' Hr'.
    split; [exact Ht|]. eexists. split; [exact Hr'|]. apply map_Forall_insert_2; [apply demux_bound; [apply demux_new|done]|].
    apply map_Forall_insert_2; [apply demux_new|done].
Qed.
Lemma kept_free_context sd : kept (_mysock_free_context sd).
Proof.
  unfold _mysock_free_context. apply kept_modify. intros st [H Hl]. split; [|exact Hl]. intros i c. cbn [global_ctx set_global_ctx].
  rewrite lookup_delete_Some. intros [_ Hi]. by apply H.
Qed.
#[local] Hint Resolve kept_enqueue_connection kept_dequeue_connection kept_passive_complete kept_set_backlog kept_free_context : kept.
Lemma kept_close_passive close ctx :
  (forall sd, kept (close sd)) -> 0 <= my_sd ctx -> kept (_mysock_close_passive_socket close ctx).
Proof.
  intros Hc Hsd. unfold _mysock_close_passive_socket. apply kept_massert_bind. intros _. apply kept_queue_bind; [done|].
  intros [q|] _; [|keeps]. apply kept_bind; [keeps|]. intros _. by apply kept_unregister.
Qed.
Lemma kept_myclose n sd : kept (myclose n sd).
Proof.
  revert sd. induction n as [|n IH]; intros sd; cbn [myclose]; [keeps|].
  pose proof (fun ctx => kept_close_passive (myclose n) ctx IH). keeps.
Qed.
#[local] Hint Resolve kept_myclose : kept.

Section calls.
Context {K : Kernel}.

Lemma kept_wrn b o vs : kept (wrn b o vs).
Proof. apply kept_lift. Qed.
Lemma kept_make_header seq off flags win payload : kept (make_header seq off flags win payload).
Proof. unfold make_header, wr_th_off, wr32, wr16, wr8, wrn, rd8. keeps. Qed.
Lemma kept_checksum src dst p n : kept (_mysock_tcp_checksum src dst p n).
Proof. unfold _mysock_tcp_checksum, rdn. keeps. Qed.
#[local] Hint Resolve kept_wrn kept_make_header kept_checksum : kept.
Lemma kept_set_checksum net p n : kept (_mysock_set_checksum net p n).
Proof. unfold _mysock_set_checksum, _network_get_local_addr, wr16. keeps. Qed.
Lemma kept_verify_checksum net p n : kept (_mysock_verify_checksum net p n).
Proof. unfold _mysock_verify_checksum, _network_get_local_addr, rd16. keeps. Qed.
Lemma kept_gather p bufs : kept (gather p bufs).
Proof. revert p. induction bufs as [|b bufs IH]; intros p; cbn [gather]; keeps. Qed.
#[local] Hint Resolve kept_set_checksum kept_verify_checksum kept_gather : kept.

Lemma kept_network_send sd src bufs : kept (stcp_network_send sd src bufs).
Proof. unfold stcp_network_send, wr16, rd16. keeps. Qed.
Lemma same_dequeue_recv n : same_sd (dequeue_network_recv n).
Proof. unfold dequeue_network_recv, _mysock_dequeue_buffer. keeps. Qed.
Lemma same_dequeue_app_recv n : same_sd (dequeue_app_recv n).
Proof. unfold dequeue_app_recv, _mysock_dequeue_buffer. keeps. Qed.
Lemma same_dequeue_app_send n : same_sd (dequeue_app_send n).
Proof. unfold dequeue_app_send, _mysock_dequeue_buffer. keeps. Qed.
#[local] Hint Resolve kept_network_send same_dequeue_recv same_dequeue_app_recv same_dequeue_app_send : kept.
Lemma kept_network_recv sd dst n : kept (stcp_network_recv sd dst n).
Proof. unfold stcp_network_recv, _network_recv. keeps. Qed.
Lemma kept_app_recv sd b o n : kept (stcp_app_recv sd b o n).
Proof. unfold stcp_app_recv. keeps. Qed.
Lemma kept_app_send sd src : kept (stcp_app_send sd src).
Proof. unfold stcp_app_send, enqueue_app_send. keeps. Qed.
Lemma kept_fin_received sd : kept (stcp_fin_received sd).
Proof. unfold stcp_fin_received, enqueue_app_send. keeps. Qed.
Lemma kept_unblock sd errno : kept (stcp_unblock_application sd errno).
Proof. unfold stcp_unblock_application. keeps. Qed.
Lemma kept_wait sd flags t : kept (stcp_wait_for_event sd flags t).
Proof. unfold stcp_wait_for_event. keeps. Qed.
#[local] Hint Resolve kept_network_recv kept_app_recv kept_app_send kept_fin_received kept_unblock kept_wait : kept.

Lemma kept_send_ack sd ack seq : kept (send_ack sd ack seq).
Proof. unfold send_ack, wr8, wr32. keeps. Qed.
Lemma kept_send_fin sd next ctx : kept (send_fin sd next ctx).
Proof. unfold send_fin. keeps. Qed.
Lemma kept_offset z : kept (offset z).
Proof. unfold offset. keeps. Qed.
#[local] Hint Resolve kept_send_ack kept_send_fin kept_offset : kept.
Lemma kept_handshake sd ctx : kept (handshake sd ctx).
Proof. unfold handshake, rd32, wr32. keeps. Qed.
Lemma kept_handle_close sd ctx : kept (handle_close sd ctx).
Proof. unfold handle_close, rd8. keeps. Qed.
Lemma kept_handle_ack ack ctx : kept (handle_ack ack ctx).
Proof. unfold handle_ack, rdn. keeps. Qed.
#[local] Hint Resolve kept_handshake kept_handle_close kept_handle_ack : kept.
Lemma kept_network_data sd ctx : kept (handle_network_data sd ctx).
Proof. unfold handle_network_data, handle_fin, handle_data, rd8, rd32, rdn. keeps. Qed.
Lemma kept_handle_app_data sd ctx : kept (handle_app_data sd ctx).
Proof. unfold handle_app_data, rdn. keeps. Qed.
#[local] Hint Resolve kept_network_data kept_handle_app_data : kept.
Lemma kept_control_iteration sd ctx : kept (control_iteration sd ctx).
Proof. unfold control_iteration. keeps. Qed.
Lemma kept_establish sd a errno ctx : kept (establish_connection sd a errno ctx).
Proof. unfold establish_connection. keeps. Qed.
Lemma kept_thread_exit sd errno : kept (thread_exit sd errno).
Proof. unfold thread_exit, enqueue_app_send. keeps. Qed.
Lemma kept_start sd a : kept (transport_start sd a).
Proof. unfold transport_start. keeps. Qed.
#[local] Hint Resolve kept_control_iteration kept_establish kept_thread_exit kept_start : kept.
Lemma kept_transport_thread sd errno : kept (transport_thread_func sd errno).
Proof. unfold transport_thread_func. keeps. Qed.
#[local] Hint Resolve kept_transport_thread : kept.

(** What may happen to a host: a call of the socket interface, or a round of a
    mysocket's receive thread or transport thread. *)
Inductive event :=
  | Mysocket (reliable : bool)
  | Mybind (sd : Z) (addr : sockaddr)
  | Myconnect (sd : Z) (name : sockaddr) (namelen : Z)
  | Mylisten (sd backlog : Z)
  | Myaccept (sd : Z)
  | Mywrite (sd : Z) (buf : bytes)
  | Myread (sd : Z) (n : nat)
  | Myclose (sd : Z)
  | Mygetsockname (sd : Z)
  | Mygetpeername (sd : Z)
  | ReceiveRound (sd : Z)
  | TransportRound (sd errno : Z).

(** The calls; a listening mysocket and those waiting on it make two levels of [myclose]. *)
Definition happen (ev : event) : M stack unit :=
  match ev with
  | Mysocket r => _ ← mysocket r; mret tt
  | Mybind sd addr => _ ← mybind sd addr; mret tt
  | Myconnect sd name len => _ ← myconnect_start sd name len; mret tt
  | Mylisten sd backlog => _ ← mylisten sd backlog; mret tt
  | Myaccept sd => _ ← myaccept sd; mret tt
  | Mywrite sd buf => _ ← mywrite sd buf; mret tt
  | Myread sd n => _ ← myread sd n; mret tt
  | Myclose sd => _ ← myclose 2 sd; mret tt
  | Mygetsockname sd => _ ← mygetsockname sd; mret tt
  | Mygetpeername sd => _ ← mygetpeername sd; mret tt
  | ReceiveRound sd => _ ← network_recv_thread_round sd; mret tt
  | TransportRound sd errno => transport_thread_func sd errno
  end.

Lemma kept_happen ev : kept (happen ev).
Proof.
  destruct ev; unfold happen, mysocket, mybind, myconnect_start, mylisten, myaccept, mywrite, myread, mygetsockname, mygetpeername,
    network_recv_thread_round, enqueue_app_recv, enqueue_network_recv, _mysock_bind_ephemeral, _network_start_recv_thread; keeps.
Qed.
End calls.

Lemma new_host_ok ip : host_ok (new_host ip).
Proof.
  split; [intros sd s Hs; cbn [global_ctx new_host] in Hs; by rewrite lookup_empty in Hs|].
  exists ∅. split; [apply new_host_listens|apply map_Forall_empty].
Qed.

(** C28: the tables of the mysocket layer stay well formed: after any sequence of
    socket calls and rounds of the receive and transport threads, every mysocket
    is at the index it records, below 64, and the listen table is a map from
    descriptors to queues whose block holds the slots they count, with at most
    [cur_len] slots in use and completed entries that point into this block or one
    that [realloc] replaced. Opening a mysocket then takes the least free
    descriptor and changes no other, or reports EMFILE when all are taken; and
    a descriptor that is not open stops the program at an assertion, so that no
    call can report EBADF for it. *)
Theorem mysockets_well_formed {K : Kernel} evs st st' :
  host_ok st -> mfor evs happen st = Ok (tt, st') ->
  host_ok st'
  /\ (forall reliable, exists r st2, mysocket reliable st' = Ok (r, st2) /\ host_ok st2 /\
        match r with
        | inl sd => 0 <= sd < Z.of_nat MAX_NUM_CONNECTIONS /\ global_ctx st' !! sd = None
            /\ (forall j, 0 <= j < sd -> is_Some (global_ctx st' !! j))
            /\ is_Some (global_ctx st2 !! sd) /\ delete sd (global_ctx st2) = global_ctx st'
        | inr errno => errno = EMFILE /\ st2 = st' /\ forall j, 0 <= j < Z.of_nat MAX_NUM_CONNECTIONS -> is_Some (global_ctx st' !! j)
        end)
  /\ (forall sd, global_ctx st' !! sd = None -> _mysock_get_context sd st' = Err AssertFailed).
Proof.
  intros Hok Hrun. assert (Hok' : host_ok st').
  { assert (Hk : kept (mfor evs happen)) by (apply kept_mfor, kept_happen). specialize (Hk st Hok). unfold wlp in Hk.
    by rewrite Hrun in Hk. }
  split; [done|]. split.
  - intros reliable. pose proof (kept_new_mysocket reliable st' Hok') as Hk. unfold wlp, mysocket in *.
    unfold _mysock_new_mysocket, mbind, M_bind, get, put, mret, M_ret in *.
    pose proof (first_free_spec (global_ctx st') 0 MAX_NUM_CONNECTIONS) as Hf.
    destruct (first_free (global_ctx st') 0 MAX_NUM_CONNECTIONS) as [sd|]; eexists _, _; (split; [reflexivity|]).
    + destruct Hf as (H1 & H2 & H3). split; [exact Hk|]. split; [lia|]. split; [done|]. split; [done|].
      cbn [global_ctx set_global_ctx]. split; [rewrite lookup_insert_eq; by eexists|]. by rewrite delete_insert_id.
    + by split.
  - intros sd Hsd. unfold _mysock_get_context, verify_mysocket_descriptor. unfold massert.
    destruct ((0 <=? sd) && (sd <? Z.of_nat MAX_NUM_CONNECTIONS)); [|done].
    unfold mbind, M_bind, mret, M_ret, get. by rewrite Hsd.
Qed.

#[local] Existing Instance demo_kernel.

Definition demo_events : list event := [Mysocket true; Mysocket false; Mybind 0 any_name; Mylisten 0 5; Myconnect 1 server_name 16; TransportRound 1 0].
Definition demo_after : stack := state_of (new_host ipA) (mfor demo_events happen (new_host ipA)).

Lemma mysockets_well_formed_witness :
  mfor demo_events happen (new_host ipA) = Ok (tt, demo_after) /\ is_Some (global_ctx demo_after !! 1)
  /\ host_ok demo_after
  /\ (forall reliable, exists r st2, mysocket reliable demo_after = Ok (r, st2) /\ host_ok st2 /\
        match r with
        | inl sd => 0 <= sd < Z.of_nat MAX_NUM_CONNECTIONS /\ global_ctx demo_after !! sd = None
            /\ (forall j, 0 <= j < sd -> is_Some (global_ctx demo_after !! j))
            /\ is_Some (global_ctx st2 !! sd) /\ delete sd (global_ctx st2) = global_ctx demo_after
        | inr errno => errno = EMFILE /\ st2 = demo_after
            /\ forall j, 0 <= j < Z.of_nat MAX_NUM_CONNECTIONS -> is_Some (global_ctx demo_after !! j)
        end)
  /\ (forall sd, global_ctx demo_after !! sd = None -> _mysock_get_context sd demo_after = Err AssertFailed).
Proof.
  assert (E : mfor demo_events happen (new_host ipA) = Ok (tt, demo_after)) by (vm_compute; reflexivity).
  split; [exact E|]. split; [vm_compute; by eexists|].
  apply (mysockets_well_formed demo_events (new_host ipA) demo_after); [apply new_host_ok|exact E].
Defined.

(** A listener with one connection that waits for [myaccept]. *)
Definition demo_waiting_queue : listen_queue_t :=
  mk_listen 80 2 1 1 [mk_request client_name SOCKADDR_LEN 5; INVALIDATE_CONNECT_REQUEST] [(1%nat, 0%nat)].
Definition demo_waiting_table : hash_table listen_queue_t :=
  match _hash_insert (hash_empty MAX_NUM_CONNECTIONS) 0 demo_waiting_queue tt with Ok (t, _) => t | Err _ => [] end.

Lemma relisten_dangles_witness :
  exists st', mylisten 0 5 (mk_stack ipB {[0 := demo_listener]} demo_waiting_table ∅) = Ok (inl 0, st')
    /\ myaccept 0 st' = Err UseAfterFree.
Proof.
  apply (relisten_dangles _ {[0 := demo_waiting_queue]} 0 demo_listener demo_waiting_queue (1%nat, 0%nat) [] 5).
  - split; [reflexivity|split; [reflexivity|split; [discriminate|reflexivity]]].
  - reflexivity.
  - reflexivity.
  - destruct (insert_eq MAX_NUM_CONNECTIONS (hash_empty MAX_NUM_CONNECTIONS) ∅ 0 tt (new_host_listens 0) (Z.le_refl 0) demo_waiting_queue
      (lookup_empty _)) as (t & Ht & Hr).
    unfold listens, demo_waiting_table. cbn [listen_table]. by rewrite Ht.
  - reflexivity.
  - split; [done|done|done| | |].
    + constructor; [right; split; [simpl; lia|done]|]. constructor; [by left|constructor].
    + apply NoDup_singleton.
    + constructor; [|constructor]. split; [done|]. eexists. split; [reflexivity|discriminate].
  - reflexivity.
  - reflexivity.
  - reflexivity.
  - simpl. lia.
Defined.
