(* ===== verification/StcpClose.v ===== *)
(** Closing an STCP connection: the rounds of the transport thread that send and
    take FINs, and the whole exchange between a client that closes first and its
    server. *)

From S2P Require Import Prelude.
From S2P Require Import Bytes.
From S2P Require Import MysockHash.
From S2P Require Import MysockState.
From S2P Require Import PacketQueue.
From S2P Require Import NetworkIoTcp.
From S2P Require Import TcpSum.
From S2P Require Import Mysock.
From S2P Require Import ConnectionDemux.
From S2P Require Import DemuxFacts.
From S2P Require Import StcpApi.
From S2P Require Import Transport.
From S2P Require Import MysockApi.
From S2P Require Import StcpFacts.
From S2P Require Import TransportFacts.
From S2P Require Import StcpSystem.
From S2P Require Import StcpInvariant.
From S2P Require Import StcpHandshake.
From S2P Require Import StcpSetup.
From S2P Require Import StcpDemo.

(* ------------------------------------------------------------------ *)
(** * Rounds of the closing states *)

(** The mysocket of a connection that is not in its handshake. *)
Record live (sd : Z) (s : mysock_context) (c : context_t) : Prop := {
  live_placed : placed sd s;
  live_online : online (network_state s);
  live_flags : listening s = false /\ blocking s = false;
  live_ctx : done c = false /\ in_handshake c = false;
  live_pending : app_recv_queue s = [];
}.

Lemma next_fin seq : get8 (segment seq None TH_FIN RECV_WINDOW_SIZE []) Tcp.flags = TH_FIN.
Proof. apply segment_fields. Qed.

Section rounds.
Context {K : Kernel} {KOk : KernelOk K} (F : fault -> Prop).
Context (sd errno : Z) (st : stack).

(** A mysocket with its thread in the control loop. *)
Abbreviation at_loop c s := (sock_at (thread_at st sd (Running c)) sd s).
Abbreviation ended s := (sock_at (thread_at st sd Finished) sd s).

Lemma wlp_control_thread s c (Q : unit -> stack -> Prop) :
  live sd s c ->
  wlp F (control_iteration sd c) (fun c' st' => if done c'
     then wlp F (_ ← thread_exit sd errno; modify (fun st => set_transports (<[sd := Finished]> (transports st)) st)) Q st'
     else Q tt (thread_at st' sd (Running c'))) (at_loop c s) ->
  wlp F (transport_thread_func sd errno) Q (at_loop c s).
Proof.
  intros [H1 _ _ [_ H4] _] HQ. unfold transport_thread_func. wgo. apply wlp_the_context; [done|]. wgo.
  rewrite thread_lookup, H4. wgo. eapply wlp_mono; [exact HQ|]. intros c' st' H. cbn beta in H. by destruct (done c').
Qed.

(** The end of the thread once the application was unblocked. *)
Lemma wlp_exit s c (Q : unit -> stack -> Prop) :
  placed sd s -> blocking s = false -> Q tt (ended (set_app_send_queue (app_send_queue s ++ [[]]) s)) ->
  wlp F (_ ← thread_exit sd errno; modify (fun st => set_transports (<[sd := Finished]> (transports st)) st)) Q (at_loop c s).
Proof.
  intros Hp Hb HQ. wgo. unfold thread_exit. wgo. apply wlp_at_sock. wgo. rewrite Hb. wgo.
  apply wlp_at_sock. unfold enqueue_app_send. wgo.
  change (set_transports _ ?x) with (thread_at x sd Finished). rewrite thread_sock. exact HQ.
Qed.

(** The close request is taken up with a FIN. *)
Lemma wlp_round_fin s c next (Q : unit -> stack -> Prop) :
  live sd s c -> close_requested s = true -> network_recv_queue s = [] ->
  handle_close sd c = send_fin sd next c ->
  (forall c', done c' = false -> connection_state c' = next -> is_client c' = is_client c ->
     Q tt (at_loop c' (sent [sealed (network_state s) (segment (next_seqnum c) None TH_FIN RECV_WINDOW_SIZE [])]
                        (set_close_requested false s)))) ->
  wlp F (transport_thread_func sd errno) Q (at_loop c s).
Proof.
  intros Hl Hc Hn Hh HQ. pose proof Hl as [H1 H2 H3 [H4 _] H6]. apply wlp_control_thread; [done|].
  unfold control_iteration. wgo. apply wlp_wait_for_event; [done|]. unfold ready_events. rewrite H6, Hn, Hc.
  cbn [ev_app_data ev_network_data ev_close ANY_EVENT andb orb]. wgo.
  rewrite Hh. unfold send_fin. wgo.
  apply wlp_make_header. wgo. apply wlp_stcp_network_send; [done|done|apply segment_segment_ok; [constructor|unfold blen; simpl; lia]|]. wgo.
  cbn [done set_connection_state advance_next recompute_rem set_rem set_next_seqnum]. rewrite H4.
  rewrite thread_sock. by apply HQ.
Qed.

(** An acknowledgement of the FIN. *)
Lemma wlp_round_acked s c p q (Q : unit -> stack -> Prop) :
  live sd s c -> close_requested s = false -> waiting s p q -> get8 p Tcp.flags = TH_ACK ->
  (if is_client c then
     connection_state c = CSTATE_FIN_WAIT_1 /\
     Q tt (at_loop (set_connection_state CSTATE_FIN_WAIT_2 c) (set_network_recv_queue q s))
   else
     connection_state c = CSTATE_LAST_ACK /\
     Q tt (ended (set_app_send_queue (app_send_queue s ++ [[]]) (set_network_recv_queue q s)))) ->
  wlp F (transport_thread_func sd errno) Q (at_loop c s).
Proof.
  intros Hl Hc Hw Hp HQ. pose proof Hl as [H1 H2 [H3 H3'] [H4 _] H6]. pose proof Hw as (Hn & _ & Hlen). apply wlp_control_thread; [done|].
  unfold control_iteration. wgo. apply wlp_wait_for_event; [done|]. unfold ready_events. rewrite H6, Hn, Hc.
  cbn [ev_app_data ev_network_data ev_close ANY_EVENT andb orb]. wgo.
  assert (Hs : bool_decide (connection_state c = CSTATE_FIN_WAIT_1) || bool_decide (connection_state c = CSTATE_LAST_ACK) = true).
  { destruct (is_client c); destruct HQ as [-> _]; done. }
  rewrite Hs. unfold handle_close. destruct (is_client c); cbn [negb]; destruct HQ as [-> HQ].
  - wgo. eapply wlp_recv_header; [done|done|exact Hw|]. wgo. apply wlp_rd8; [rewrite Hlen; unfold Tcp.flags; lia|]. wgo.
    rewrite Hp, Z.eqb_refl. wgo. cbn [done set_connection_state]. rewrite H4, thread_sock. exact HQ.
  - wgo. eapply wlp_recv_header; [done|done|exact Hw|]. wgo. apply wlp_rd8; [rewrite Hlen; unfold Tcp.flags; lia|]. wgo.
    rewrite Hp, Z.eqb_refl. wgo. cbn [done set_connection_state set_done]. apply wlp_exit; [done|done|exact HQ].
Qed.

(** The other end's FIN: acknowledged, and the end of the stream passed up. *)
Lemma wlp_round_fin_received s c p q (Q : unit -> stack -> Prop) :
  live sd s c -> close_requested s = false -> waiting s p q -> get8 p Tcp.flags = TH_FIN ->
  connection_state c <> CSTATE_FIN_WAIT_1 -> connection_state c <> CSTATE_LAST_ACK ->
  (forall c' ack base, done c' = false -> connection_state c' = CSTATE_CLOSE_WAIT -> is_client c' = is_client c ->
     let s' := set_app_send_queue (app_send_queue s ++ [[]])
                 (sent [sealed (network_state s) (ack_segment ack base)] (set_network_recv_queue q s)) in
     if is_client c then Q tt (ended (set_app_send_queue (app_send_queue s' ++ [[]]) s')) else Q tt (at_loop c' s')) ->
  wlp F (transport_thread_func sd errno) Q (at_loop c s).
Proof.
  intros Hl Hc Hw Hk N1 N2 HQ. pose proof Hl as [H1 H2 [H3 H3'] [H4 _] H6]. pose proof Hw as (Hn & Hacc & Hlen). apply wlp_control_thread; [done|].
  unfold control_iteration. wgo. apply wlp_wait_for_event; [done|]. unfold ready_events. rewrite H6, Hn, Hc.
  cbn [ev_app_data ev_network_data ev_close ANY_EVENT andb orb]. wgo. rewrite !bool_decide_eq_false_2 by done. cbn [orb]. wgo.
  unfold handle_network_data. wgo. unfold MSS. change (Tcp.size + Z.to_nat 536)%nat with 556%nat.
  eapply wlp_stcp_network_recv; [done|apply H2|exact Hn|done|lia|rewrite length_zeros; lia|]. wgo.
  set (packet := upd (zeros 556) 0 p).
  assert (Hpl : length packet = 556%nat) by (subst packet; rewrite length_upd; rewrite length_zeros; lia).
  assert (H8 : forall i, (i < 20)%nat -> get8 packet i = get8 p i).
  { intros i Hi. subst packet. rewrite get8_upd_eq by (rewrite ?length_zeros; lia). by rewrite Nat.sub_0_r. }
  unfold blen. rewrite Hlen. change (Z.of_nat 20 - Z.of_nat Tcp.size) with 0. wif. offs.
  apply wlp_rd8; [lia|]. wgo. apply wlp_rd32; [lia|]. wgo. apply wlp_rd32; [lia|]. wgo. rewrite H8 by lia.
  rewrite Hk. do 2 wif. unfold handle_fin. wgo. apply wlp_send_ack; [done|done|]. wgo.
  cbn [is_client set_RecvBase RecvBase]. 
  specialize (HQ (set_connection_state CSTATE_CLOSE_WAIT (set_RecvBase (u64 (RecvBase c + 1)) c)) (u32 (get32 packet 4 + 1)) (u64 (RecvBase c + 1))).
  cbn [done connection_state is_client set_connection_state set_RecvBase] in HQ. specialize (HQ H4 eq_refl eq_refl).
  cbv zeta in HQ. destruct (is_client c).
  - apply wlp_stcp_fin_received; [done|]. wgo. cbn [done set_done]. apply wlp_exit; [done|done|exact HQ].
  - apply wlp_stcp_fin_received; [done|]. wgo. cbn [done set_connection_state set_RecvBase]. rewrite H4, thread_sock. exact HQ.
Qed.
End rounds.

(* ------------------------------------------------------------------ *)
(** * The exchange *)

Section closing.
Context {K : Kernel}.

(** A read that must find the end of the stream. *)
Definition read_eof (sd : Z) (n : nat) (st : stack) : option stack :=
  match myread sd n st with Ok ((inl 0, []), st') => Some st' | _ => None end.

(** A client [a] calls [myclose]; the server's application reads the end of the
    stream, then closes [b]. The calls of [myclose] block while the threads and
    the network do the rest, and return at the end. *)
Definition orderly_close (a b eA eB : Z) (n : nat) (stA stB : stack) : option (stack * stack) :=
  stA ← run (myclose_request a) stA;
  stA ← run (transport_thread_func a eA) stA;
  '(stA, stB) ← deliver a b 22 stA stB;
  stB ← run (network_recv_thread_round b) stB;
  stB ← run (transport_thread_func b eB) stB;
  stB ← read_eof b n stB;
  '(stB, stA) ← deliver b a 22 stB stA;
  stA ← run (network_recv_thread_round a) stA;
  stA ← run (transport_thread_func a eA) stA;
  stB ← run (myclose_request b) stB;
  stB ← run (transport_thread_func b eB) stB;
  '(stB, stA) ← deliver b a 22 stB stA;
  stA ← run (network_recv_thread_round a) stA;
  stA ← run (transport_thread_func a eA) stA;
  '(stA, stB) ← deliver a b 22 stA stB;
  stB ← run (network_recv_thread_round b) stB;
  stB ← run (transport_thread_func b eB) stB;
  stA ← run (myclose 2 a) stA;
  stB ← run (myclose 2 b) stB;
  Some (stA, stB).
End closing.

(** One end of an established connection with nothing on its way. *)
Record quiet (sd : Z) (s : mysock_context) (c : context_t) (active : bool) : Prop := {
  quiet_live : live sd s c;
  quiet_flags : close_requested s = false /\ eof s = false /\ transport_thread_started s = true;
  quiet_side : is_active s = active /\ is_client c = active /\ (active = true \/ listen_sd s <> -1);
  quiet_state : connection_state c = CSTATE_ESTABLISHED;
  quiet_queues : network_recv_queue s = [] /\ app_send_queue s = [];
  quiet_wire : net_in (network_state s) = [] /\ net_out (network_state s) = [];
}.

Section facts.
Context {K : Kernel} {KOk : KernelOk K} (F : fault -> Prop).

Lemma wlp_myclose_request sd st s (Q : unit -> stack -> Prop) :
  placed sd s -> Q tt (sock_at st sd (set_close_requested true s)) -> wlp F (myclose_request sd) Q (sock_at st sd s).
Proof. intros Hp HQ. unfold myclose_request. wgo. apply wlp_the_context; [done|]. wgo. apply wlp_at_sock. wgo. exact HQ. Qed.

(** [myclose] after the thread ended. *)
Lemma wlp_myclose_finished sd st s n (Q : ret_t -> stack -> Prop) :
  placed sd s -> listening s = false -> is_active s = true \/ listen_sd s <> -1 ->
  Q (inl 0) (thread_at (set_global_ctx (delete sd (global_ctx st)) st) sd Finished) ->
  wlp F (myclose (S n) sd) Q (sock_at (thread_at st sd Finished) sd s).
Proof.
  intros Hp Hl Hs HQ. cbn [myclose]. wgo. apply wlp_get_context; [done|]. wgo. apply wlp_at_sock. wgo.
  rewrite thread_lookup, Hl. cbn [negb].
  assert (Ha : is_active s || negb (listen_sd s =? -1) = true).
  { destruct Hs as [->|Hs]; [done|]. rewrite (proj2 (Z.eqb_neq _ _) Hs). apply orb_true_r. }
  rewrite Ha. set (t := if transport_thread_started s then _ else _).
  assert (Ht : wlp F t (fun _ st' => exists s', st' = sock_at (thread_at st sd Finished) sd s') (sock_at (thread_at st sd Finished) sd (set_close_requested true s))).
  { subst t. destruct (transport_thread_started s); wgo; [apply wlp_at_sock; wgo|]; by eexists. }
  eapply wlp_mono; [exact Ht|]. intros [] st' (s' & ->). apply wlp_bind, wlp_at_sock, wlp_in_net. wgo. unfold _mysock_free_context. wgo.
  unfold thread_at, sock_at, set_global_ctx, set_transports in *. cbn in *. by rewrite delete_insert_eq.
Qed.

(** A packet of 20 bytes sent, carried over and received. *)
Lemma carry_header sd1 sd2 st1 st2 s1 s2 p R :
  length p = 20%nat -> net_out (network_state s1) = [] -> net_in (network_state s2) = [] ->
  listening s2 = false -> connected (network_state s2) = true -> network_recv_queue s2 = [] ->
  forall k : stack -> stack -> option (stack * stack),
  (exists x y, k (sock_at st1 sd1 s1) (sock_at st2 sd2 (set_network_recv_queue [p] s2)) = Some (x, y) /\ R x y) ->
  exists x y, ('(st1, st2) ← deliver sd1 sd2 22 (sock_at st1 sd1 (sent [p] s1)) (sock_at st2 sd2 s2);
               st2 ← run (network_recv_thread_round sd2) st2; k st1 st2) = Some (x, y) /\ R x y.
Proof.
  intros Hl Ho Hi Hlis Hc Hq k Hk. rewrite deliver_one by done. cbn [mbind option_bind].
  eapply (run_ok _ _ (fun _ st' => st' = sock_at st2 sd2 (set_network_recv_queue [p] s2))); [|by intros _ ? ->].
  eapply (wlp_recv_round _ _ _ _ p []); [done|done|reflexivity|unfold blen; rewrite Hl; lia|].
  cbn [network_recv_queue set_network_state]. rewrite Hq. cbn [app].
  destruct s2 as [? [] ? ? ? ? ? ? ? ? ? ? ? ?]. simpl in *. by subst.
Qed.
End facts.

Lemma close_flag_back s : close_requested s = false -> set_close_requested false (set_close_requested true s) = s.
Proof. destruct s. simpl. by intros ->. Qed.
Lemma recv_queue_back s p : network_recv_queue s = [] -> set_network_recv_queue [] (set_network_recv_queue p s) = s.
Proof. destruct s. simpl. by intros ->. Qed.

Lemma runs_shape sd st s c : runs sd st s c -> st = sock_at (thread_at st sd (Running c)) sd s.
Proof.
  intros [H1 H2]. unfold sock_at, thread_at, set_transports, set_global_ctx. simpl.
  rewrite !insert_id by done. by destruct st.
Qed.

(** What a step keeps of a live mysocket. *)
Lemma live_keep sd s s' c c' :
  live sd s c -> my_sd s' = my_sd s -> network_state s' = network_state s -> listening s' = listening s ->
  blocking s' = blocking s -> app_recv_queue s' = app_recv_queue s -> done c' = false -> in_handshake c' = false -> live sd s' c'.
Proof.
  intros [[H1 H1'] H2 [H3 H3'] [H4 H4'] H6] E1 E2 E3 E4 E5 D1 D2.
  split; rewrite ?E2, ?E3, ?E4, ?E5; try done. split; [by rewrite E1|done].
Qed.

(** The server's mysocket after its application read the end of the stream. *)
Lemma read_eof_ok {K : Kernel} sd st s n :
  placed sd s -> listening s = false -> close_requested s = false -> eof s = false -> app_send_queue s = [[]] ->
  read_eof sd n (sock_at st sd s) = Some (sock_at st sd (set_eof true (set_app_send_queue [] s))).
Proof.
  intros Hp Hl Hc He Hq.
  assert (H : wlp (fun _ => False) (myread sd n)
    (fun r st' => r = (inl 0, []) /\ st' = sock_at st sd (set_eof true (set_app_send_queue [] s))) (sock_at st sd s)).
  { unfold myread. wgo. apply wlp_get_context; [done|]. wgo. rewrite Hl, Hc. cbn [negb]. wgo. rewrite He.
    apply wlp_bind, wlp_at_sock. unfold dequeue_app_send, _mysock_dequeue_buffer. wgo. rewrite Hq. cbn [length Nat.ltb Nat.leb].
    replace (n <? 0)%nat with false by (symmetry; apply Nat.ltb_ge; lia). cbn [andb]. wgo. 
    rewrite Nat.min_0_r. wif. apply wlp_at_sock. wgo. done. }
  apply wlp_total in H as (r & st' & H & -> & ->). unfold read_eof. by rewrite H.
Qed.

Section close.
Context {K : Kernel} {KOk : KernelOk K}.

(** From the server's acknowledgement of the client's FIN on: the client is in
    FIN_WAIT_1, the server in CLOSE_WAIT with the end of the stream read. *)
Lemma close_second_half baseA baseB a b eA eB sA sB cA cB ack (R : stack -> stack -> Prop) :
  live a sA cA -> live b sB cB -> facing (network_state sA) (network_state sB) ->
  close_requested sA = false -> close_requested sB = false ->
  network_recv_queue sA = [] -> network_recv_queue sB = [] ->
  net_in (network_state sA) = [] -> net_out (network_state sA) = [] ->
  net_in (network_state sB) = [] -> net_out (network_state sB) = [] ->
  is_client cA = true -> is_client cB = false -> connection_state cA = CSTATE_FIN_WAIT_1 -> connection_state cB = CSTATE_CLOSE_WAIT ->
  is_active sA = true -> listen_sd sB <> -1 ->
  accepts (network_state sA) ack -> length ack = 20%nat -> get8 ack Tcp.flags = TH_ACK ->
  R (thread_at (set_global_ctx (delete a (global_ctx baseA)) baseA) a Finished)
    (thread_at (set_global_ctx (delete b (global_ctx baseB)) baseB) b Finished) ->
  exists x y,
    ('(stB, stA) ← deliver b a 22 (sock_at (thread_at baseB b (Running cB)) b (sent [ack] sB)) (sock_at (thread_at baseA a (Running cA)) a sA);
     stA ← run (network_recv_thread_round a) stA;
     stA ← run (transport_thread_func a eA) stA;
     stB ← run (myclose_request b) stB;
     stB ← run (transport_thread_func b eB) stB;
     '(stB, stA) ← deliver b a 22 stB stA;
     stA ← run (network_recv_thread_round a) stA;
     stA ← run (transport_thread_func a eA) stA;
     '(stA, stB) ← deliver a b 22 stA stB;
     stB ← run (network_recv_thread_round b) stB;
     stB ← run (transport_thread_func b eB) stB;
     stA ← run (myclose 2 a) stA;
     stB ← run (myclose 2 b) stB;
     Some (stA, stB)) = Some (x, y) /\ R x y.
Proof.
  intros LA LB Hf CA CB NA NB IA OA IB OB KA KB SA SB Act Lsd Hacc Hlen Hfl HR.
  pose proof LA as [PA OnA [LisA BlA] [DA HA] _]. pose proof LB as [PB OnB [LisB BlB] [DB HB] _].
  pose proof OnA as (_ & _ & ConA & _). pose proof OnB as (_ & _ & ConB & _).
  (* the client takes the acknowledgement *)
  eapply carry_header; [exact Hlen|done..|].
  eapply (run_ok _ _ (fun _ st' => st' = _)).
  { eapply (wlp_round_acked _ a eA _ _ cA ack []).
    - by eapply (live_keep a sA).
    - done.
    - by split.
    - done.
    - rewrite KA. split; [done|reflexivity]. }
  intros _ ? ->. rewrite recv_queue_back by done. set (cA2 := set_connection_state CSTATE_FIN_WAIT_2 cA).
  assert (LA2 : live a sA cA2) by by eapply (live_keep a sA).
  (* the server closes *)
  eapply (run_ok _ _ (fun _ st' => st' = _)); [eapply wlp_myclose_request; [done|reflexivity]|]. intros _ ? ->.
  set (fin := sealed (network_state sB) (segment (next_seqnum cB) None TH_FIN RECV_WINDOW_SIZE [])).
  eapply (run_ok _ _ (fun _ st' => exists cB2, done cB2 = false /\ connection_state cB2 = CSTATE_LAST_ACK /\ is_client cB2 = false
    /\ st' = sock_at (thread_at baseB b (Running cB2)) b (sent [fin] sB))).
  { eapply (wlp_round_fin _ b eB _ _ cB CSTATE_LAST_ACK); [by eapply (live_keep b sB)|done|done| |].
    - unfold handle_close. by rewrite KB, SB.
    - intros cB2 D2 S2 K2. rewrite close_flag_back by done. exists cB2. by rewrite K2. }
  intros _ ? (cB2 & DB2 & SB2 & KB2 & ->).
  destruct (segment_header _ _ (next_seqnum cB) TH_FIN RECV_WINDOW_SIZE (facing_sym _ _ Hf)) as (Hfa & Hfl2 & Hfin). fold fin in Hfa, Hfl2, Hfin.
  clearbody fin.
  (* the client takes it and ends *)
  eapply carry_header; [exact Hfl2|done..|].
  eapply (run_ok _ _ (fun _ st' => exists k base, st' = sock_at (thread_at baseA a Finished) a
    (sent [sealed (network_state sA) (ack_segment k base)] (set_app_send_queue (app_send_queue sA ++ [[]; []]) sA)))).
  { eapply (wlp_round_fin_received _ a eA _ _ cA2 fin []); [by eapply (live_keep a sA)|done|by split|done|done|done|].
    intros c' k base D S K' s'. cbn [is_client set_connection_state cA2]. rewrite KA. exists k, base. subst s'.
    rewrite recv_queue_back by done. f_equal. destruct sA; cbn. by rewrite <- app_assoc. }
  intros _ ? (k & base & ->). set (last := sealed (network_state sA) (ack_segment k base)).
  destruct (ack_segment_header _ _ k base Hf) as (Hla & Hll & Hlf). fold last in Hla, Hll, Hlf.
  clearbody last.
  (* the server takes the last acknowledgement and ends *)
  eapply carry_header; [exact Hll|done..|].
  eapply (run_ok _ _ (fun _ st' => st' = sock_at (thread_at baseB b Finished) b (set_app_send_queue (app_send_queue sB ++ [[]]) sB))).
  { eapply (wlp_round_acked _ b eB _ _ cB2 last []); [eapply (live_keep b sB); try done; unfold in_handshake; by rewrite SB2|done|by split|done|].
    rewrite KB2. split; [done|]. by rewrite recv_queue_back. }
  intros _ ? ->.
  eapply (run_ok _ _ (fun _ st' => st' = _)); [eapply wlp_myclose_finished; [done|done|by left|reflexivity]|]. intros _ ? ->.
  eapply (run_ok _ _ (fun _ st' => st' = _)); [eapply wlp_myclose_finished; [done|done|by right|reflexivity]|]. intros _ ? ->.
  by eexists _, _.
Qed.

(** The client's FIN and the server's answer. *)
Lemma orderly_close_ok stA stB a b eA eB n sA sB cA cB :
  runs a stA sA cA -> runs b stB sB cB -> quiet a sA cA true -> quiet b sB cB false -> facing (network_state sA) (network_state sB) ->
  orderly_close a b eA eB n stA stB
  = Some (thread_at (set_global_ctx (delete a (global_ctx stA)) stA) a Finished,
          thread_at (set_global_ctx (delete b (global_ctx stB)) stB) b Finished).
Proof.
  intros RA%runs_shape RB%runs_shape [LA (CA & EA & TA) (Act & KA & _) SA (NA & UA) (IA & OA)]
    [LB (CB & EB & TB) (Pas & KB & Lsd) SB (NB & UB) (IB & OB)] Hf. destruct Lsd as [|Lsd]; [done|].
  pose proof LA as [PA OnA [LisA BlA] [DA HA] _]. pose proof LB as [PB OnB [LisB BlB] [DB HB] _].
  pose proof OnA as (_ & _ & ConA & _). pose proof OnB as (_ & _ & ConB & _).
  assert (H : exists x y, orderly_close a b eA eB n (sock_at (thread_at stA a (Running cA)) a sA) (sock_at (thread_at stB b (Running cB)) b sB) = Some (x, y)
    /\ x = thread_at (set_global_ctx (delete a (global_ctx stA)) stA) a Finished
    /\ y = thread_at (set_global_ctx (delete b (global_ctx stB)) stB) b Finished).
  2:{ rewrite <- RA, <- RB in H. by destruct H as (x & y & -> & -> & ->). }
  unfold orderly_close.
  eapply (run_ok _ _ (fun _ st' => st' = _)); [eapply wlp_myclose_request; [done|reflexivity]|]. intros _ ? ->.
  set (fin := sealed (network_state sA) (segment (next_seqnum cA) None TH_FIN RECV_WINDOW_SIZE [])).
  eapply (run_ok _ _ (fun _ st' => exists cA2, done cA2 = false /\ connection_state cA2 = CSTATE_FIN_WAIT_1 /\ is_client cA2 = true
    /\ st' = sock_at (thread_at stA a (Running cA2)) a (sent [fin] sA))).
  { eapply (wlp_round_fin _ a eA _ _ cA CSTATE_FIN_WAIT_1); [by eapply (live_keep a sA)|done|done| |].
    - unfold handle_close. by rewrite KA, SA.
    - intros cA2 D2 S2 K2. rewrite close_flag_back by done. exists cA2. by rewrite K2. }
  intros _ ? (cA2 & DA2 & SA2 & KA2 & ->).
  destruct (segment_header _ _ (next_seqnum cA) TH_FIN RECV_WINDOW_SIZE Hf) as (Hfa & Hfl2 & Hfin). fold fin in Hfa, Hfl2, Hfin.
  clearbody fin.
  eapply carry_header; [exact Hfl2|done..|].
  eapply (run_ok _ _ (fun _ st' => exists cB2 k base, done cB2 = false /\ connection_state cB2 = CSTATE_CLOSE_WAIT /\ is_client cB2 = false
    /\ st' = sock_at (thread_at stB b (Running cB2)) b
         (set_app_send_queue [[]] (sent [sealed (network_state sB) (ack_segment k base)] sB)))).
  { eapply (wlp_round_fin_received _ b eB _ _ cB fin []); [by eapply (live_keep b sB)|done|by split|done|by rewrite SB|by rewrite SB|].
    intros c' k base D S K' s'. rewrite KB. exists c', k, base. split; [done|]. split; [done|]. split; [congruence|].
    subst s'. rewrite recv_queue_back by done. cbn [app_send_queue set_network_recv_queue]. by rewrite UB. }
  intros _ ? (cB2 & k & base & DB2 & SB2 & KB2 & ->). set (ack := sealed (network_state sB) (ack_segment k base)).
  rewrite read_eof_ok by done. cbn [mbind option_bind].
  set (sB' := set_eof true sB).
  replace (set_eof true _) with (sent [ack] sB').
  2:{ clear -UB. clearbody ack. destruct sB. simpl in *. by subst. }
  apply close_second_half with (ack := ack); try done.
  - eapply (live_keep a sA); try done. unfold in_handshake. by rewrite SA2.
  - eapply (live_keep b sB); try done. unfold in_handshake. by rewrite SB2.
  - apply sealed_accepted; [by apply facing_sym|apply ack_segment_ok].
Qed.
End close.

(* ------------------------------------------------------------------ *)
(** * Properties *)

Section thms.
Context {K : Kernel} {KOk : KernelOk K}.

(** C36: a server that closes first never closes: its transport thread takes the
    close request, sends nothing, stays in ESTABLISHED and from then on waits
    for events, and its [myclose] waits for the thread. *)
Theorem server_close_lost st b e e' s c :
  runs b st s c -> quiet b s c false ->
  exists st', run (myclose_request b) st ≫= run (transport_thread_func b e) = Some st'
    /\ global_ctx st' = global_ctx st /\ transports st' = transports st
    /\ transport_thread_func b e' st' = Err Blocked
    /\ forall n, myclose (S n) b st' = Err Blocked.
Proof.
  intros HR [L (C & E & T) (P & Kc & Ls) Se (N & U) (I & O)]. pose proof HR as [Hg Ht]. pose proof (runs_shape _ _ _ _ HR) as HS.
  destruct Ls as [|Ls]; [done|]. pose proof L as [PB OnB [LisB BlB] [DB HB] Pe].
  set (st' := sock_at (thread_at st b (Running c)) b s).
  assert (H1 : run (myclose_request b) st = Some (sock_at (thread_at st b (Running c)) b (set_close_requested true s))).
  { rewrite HS at 1. unfold run. assert (W : wlp (fun _ => False) (myclose_request b) (fun _ st' => st' = sock_at (thread_at st b (Running c)) b (set_close_requested true s)) (sock_at (thread_at st b (Running c)) b s)).
    { by apply wlp_myclose_request. }
    apply wlp_total in W as ([] & x & -> & ->). done. }
  assert (H2 : run (transport_thread_func b e) (sock_at (thread_at st b (Running c)) b (set_close_requested true s)) = Some st').
  { assert (W : wlp (fun _ => False) (transport_thread_func b e) (fun _ x => x = st') (sock_at (thread_at st b (Running c)) b (set_close_requested true s))).
    { apply wlp_control_thread; [by eapply (live_keep b s)|]. unfold control_iteration. wgo. apply wlp_wait_for_event; [done|].
      unfold ready_events. cbn [app_recv_queue set_close_requested network_recv_queue close_requested]. rewrite Pe, N.
      cbn [ev_app_data ev_network_data ev_close ANY_EVENT andb orb]. wgo. unfold handle_close. rewrite Kc, Se. cbn [negb]. wgo.
      rewrite DB, thread_sock, close_flag_back by done. done. }
    unfold run. by apply wlp_total in W as ([] & x & -> & ->). }
  exists st'. rewrite H1. cbn [mbind option_bind]. split; [exact H2|]. subst st'. rewrite <- HS. split; [done|]. split; [done|].
  assert (Hb : forall A (m : M stack A), wlp (fun f => f = Blocked) m (fun _ _ => False) (sock_at (thread_at st b (Running c)) b s) -> m st = Err Blocked).
  { intros A m W. rewrite HS. unfold wlp in W. destruct (m _) as [[? ?]|f]; [done|by rewrite W]. }
  split.
  - apply Hb. unfold transport_thread_func. wgo. apply wlp_the_context; [done|]. wgo. rewrite thread_lookup, HB. wgo.
    unfold control_iteration. wgo. apply wlp_wait_for_event; [done|]. unfold ready_events. rewrite Pe, N, C.
    cbn [ev_app_data ev_network_data ev_close ANY_EVENT andb orb]. done.
  - intros n. apply Hb. cbn [myclose]. wgo. apply wlp_get_context; [done|]. wgo. apply wlp_at_sock. wgo.
    rewrite T, LisB. cbn [negb]. wgo. rewrite (proj2 (Z.eqb_neq _ _) Ls), orb_true_r. wgo. rewrite thread_lookup. done.
Qed.
End thms.

#[local] Existing Instance demo_kernel.
#[local] Existing Instance demo_kernel_ok.

(** The two ends of the connection [demo_met]. *)
Definition demo_client : mysock_context := default (fresh_sock 0 0) (global_ctx (fst demo_met) !! 0).
Definition demo_server : mysock_context := default (fresh_sock 0 0) (global_ctx (snd demo_met) !! 1).

Lemma demo_client_quiet : runs 0 (fst demo_met) demo_client (established_context true) /\ quiet 0 demo_client (established_context true) true.
Proof.
  split; [split; vm_compute; reflexivity|].
  split; [split; [repeat split; vm_compute; congruence| |repeat split; vm_compute; reflexivity..]| | | | |].
  - repeat split; try (vm_compute; reflexivity). left. vm_compute. reflexivity.
  - repeat split; vm_compute; reflexivity.
  - split; [vm_compute; reflexivity|]. split; [reflexivity|by left].
  - reflexivity.
  - split; vm_compute; reflexivity.
  - split; vm_compute; reflexivity.
Qed.

Lemma demo_server_quiet : runs 1 (snd demo_met) demo_server (established_context false) /\ quiet 1 demo_server (established_context false) false.
Proof.
  split; [split; vm_compute; reflexivity|].
  split; [split; [repeat split; vm_compute; congruence| |repeat split; vm_compute; reflexivity..]| | | | |].
  - repeat split; try (vm_compute; reflexivity). left. vm_compute. reflexivity.
  - repeat split; vm_compute; reflexivity.
  - split; [vm_compute; reflexivity|]. split; [reflexivity|right; vm_compute; discriminate].
  - reflexivity.
  - split; vm_compute; reflexivity.
  - split; vm_compute; reflexivity.
Qed.

Lemma server_close_lost_witness :
  exists st', run (myclose_request 1) (snd demo_met) ≫= run (transport_thread_func 1 0) = Some st'
    /\ transport_thread_func 1 0 st' = Err Blocked /\ myclose 2 1 st' = Err Blocked.
Proof.
  destruct (server_close_lost (snd demo_met) 1 0 0 demo_server (established_context false)
    (proj1 demo_server_quiet) (proj2 demo_server_quiet)) as (x & H1 & _ & _ & H2 & H3).
  exists x. split; [exact H1|]. split; [exact H2|apply (H3 1%nat)].
Defined.
