(* ===== verification/CloseSystem.v ===== *)
(** Closing an STCP connection, in any order of steps. The client's application
    calls [myclose], the server's reads on to the end of the stream and then calls
    it; meanwhile the transport threads, the receive threads and the network,
    which moves bytes in pieces of any size, take their turns as they like. Where
    each end is in the exchange is its stage; the invariant says which segments
    follow from the two stages, and every step takes one off the steps left. The
    bytes of a socket are carried over after it was closed too. The end of the TCP
    stream that the other receive thread sees then is not modelled: it waits. *)

From S2P Require Import Prelude.
From S2P Require Import Bytes.
From S2P Require Import MysockState.
From S2P Require Import PacketQueue.
From S2P Require Import NetworkIoTcp.
From S2P Require Import TcpSum.
From S2P Require Import Mysock.
From S2P Require Import ConnectionDemux.
From S2P Require Import StcpApi.
From S2P Require Import Transport.
From S2P Require Import MysockApi.
From S2P Require Import StcpFacts.
From S2P Require Import TransportFacts.
From S2P Require Import StcpSystem.
From S2P Require Import StcpInvariant.
From S2P Require Import StcpHandshake.
From S2P Require Import StcpDemo.
From S2P Require Import StcpClose.

(* ------------------------------------------------------------------ *)
(** * Steps *)

(** What the application has done: nothing yet, read the end of the stream,
    called [myclose], and got back from it. *)
Inductive progress_t := Open | Eof_read | Closing | Closed.

(** One host: its stack, its application, and what the kernel has still to send
    of a socket the program closed. *)
Record closer := mk_closer { cl_stack : stack; cl_app : progress_t; cl_late : bytes }.

Section steps.
Context {K : Kernel}.

(** A step of host 1, whose mysocket is [sd1] and whose application is the client
    or the server; the other end is [sd2] of host 2. A call is a step once it can
    return; [myclose] is two, the request that its thread sees at once and the
    return after that thread ended. *)
Inductive close_step (client : bool) (sd1 sd2 : Z) : closer * closer -> closer * closer -> Prop :=
  | close_read n r data st st' late h2 :
      (0 < n)%nat -> myread sd1 n st = Ok ((r, data), st') ->
      close_step client sd1 sd2 (mk_closer st Open late, h2)
        (mk_closer st' (if bool_decide (r = inl 0) then Eof_read else Open) late, h2)
  | close_call app st st' late h2 :
      app = (if client then Open else Eof_read) -> myclose_request sd1 st = Ok (tt, st') ->
      close_step client sd1 sd2 (mk_closer st app late, h2) (mk_closer st' Closing late, h2)
  | close_return s st st' late h2 :
      global_ctx st !! sd1 = Some s -> myclose 2 sd1 st = Ok (inl 0, st') ->
      close_step client sd1 sd2 (mk_closer st Closing late, h2) (mk_closer st' Closed (net_out (network_state s)), h2)
  | close_transport errno st st' app late h2 :
      transport_thread_func sd1 errno st = Ok (tt, st') ->
      close_step client sd1 sd2 (mk_closer st app late, h2) (mk_closer st' app late, h2)
  | close_receive b st st' app late h2 :
      network_recv_thread_round sd1 st = Ok (b, st') ->
      close_step client sd1 sd2 (mk_closer st app late, h2) (mk_closer st' app late, h2)
  | close_deliver k s st st' app late st2 st2' app2 late2 :
      (0 < k)%nat -> global_ctx st !! sd1 = Some s -> net_out (network_state s) <> [] ->
      deliver sd1 sd2 k st st2 = Some (st', st2') ->
      close_step client sd1 sd2 (mk_closer st app late, mk_closer st2 app2 late2)
        (mk_closer st' app late, mk_closer st2' app2 late2)
  | close_deliver_late k s2 st late st2 app2 late2 :
      (0 < k)%nat -> late <> [] -> global_ctx st2 !! sd2 = Some s2 ->
      close_step client sd1 sd2 (mk_closer st Closed late, mk_closer st2 app2 late2)
        (mk_closer st Closed (drop k late),
         mk_closer (sock_at st2 sd2 (set_network_state (set_net_in (net_in (network_state s2) ++ take k late) (network_state s2)) s2))
           app2 late2).

(** A step of the client's host [a] or the server's host [b]. *)
Definition closing_step (a b : Z) (w w' : closer * closer) : Prop :=
  close_step true a b w w' \/ close_step false b a (swap w) (swap w').
End steps.

(* ------------------------------------------------------------------ *)
(** * Stages *)

(** How far an end has come: the FIN taken, the end of the stream read, [myclose]
    called, the FIN sent, the FIN acknowledged, the thread at its end, the
    mysocket freed. A client goes from [Idle] to [Asked], a server from
    [Fin_sent] to [Ended]. *)
Inductive stage := Idle | Told | Eof_taken | Asked | Fin_sent | Acked | Ended | Freed.

#[global] Instance stage_eq_dec : EqDecision stage.
Proof. solve_decision. Defined.

Definition fits (client : bool) (k : stage) : bool :=
  match k with Told | Eof_taken => negb client | Acked => client | _ => true end.

Definition state_of (client : bool) (k : stage) : CSTATE :=
  match k with
  | Idle => CSTATE_ESTABLISHED
  | Told | Eof_taken => CSTATE_CLOSE_WAIT
  | Asked => if client then CSTATE_ESTABLISHED else CSTATE_CLOSE_WAIT
  | Fin_sent => if client then CSTATE_FIN_WAIT_1 else CSTATE_LAST_ACK
  | Acked => CSTATE_FIN_WAIT_2
  | Ended | Freed => CSTATE_CLOSED
  end.

Definition app_of (k : stage) : progress_t :=
  match k with Idle | Told => Open | Eof_taken => Eof_read | Freed => Closed | _ => Closing end.

(** The flags of the segments sent so far, and how many were taken. *)
Definition sent_by (client : bool) (k : stage) : list Z :=
  if client then match k with Idle | Told | Eof_taken | Asked => [] | Fin_sent | Acked => [TH_FIN] | _ => [TH_FIN; TH_ACK] end
  else match k with Idle => [] | Told | Eof_taken | Asked => [TH_ACK] | _ => [TH_ACK; TH_FIN] end.
Definition taken_by (client : bool) (k : stage) : nat :=
  if client then match k with Idle | Told | Eof_taken | Asked | Fin_sent => 0 | Acked => 1 | _ => 2 end
  else match k with Idle => 0 | Ended | Freed => 2 | _ => 1 end.

(** What the transport thread does next with segments of these flags waiting. *)
Definition turn (client : bool) (k : stage) (got : list Z) : option (stage * list Z) :=
  match k, got with
  | Idle, fl :: got' => if negb client && (fl =? TH_FIN) then Some (Told, got') else None
  | Asked, [] => Some (Fin_sent, [])
  | Fin_sent, fl :: got' => if fl =? TH_ACK then Some (if client then Acked else Ended, got') else None
  | Acked, fl :: got' => if fl =? TH_FIN then Some (Ended, got') else None
  | _, _ => None
  end.

(** The stages an end has before it. *)
Definition left (client : bool) (k : stage) : nat :=
  match k with
  | Idle => if client then 5 else 6
  | Told => 5
  | Eof_taken => 4
  | Asked => if client then 4 else 3
  | Fin_sent => if client then 3 else 2
  | Acked => 2
  | Ended => 1
  | Freed => 0
  end.

(** The mysocket at a stage: [q] waits for the thread, [i] on its socket to be
    received and [o] to be sent. *)
Record sock_ok (client : bool) (sd : Z) (n0 : network_context_t) (k : stage) (q : list bytes) (i o : bytes)
    (s : mysock_context) : Prop := {
  ok_placed : placed sd s;
  ok_flags : listening s = false /\ blocking s = false /\ app_recv_queue s = [] /\ transport_thread_started s = true;
  ok_side : is_active s = client /\ (client = true \/ listen_sd s <> -1);
  ok_net : same_ends n0 (network_state s) /\ net_in (network_state s) = i /\ net_out (network_state s) = o;
  ok_queue : network_recv_queue s = q;
  ok_asked : close_requested s = bool_decide (k = Asked);
  ok_up : match k with
          | Idle => eof s = false /\ app_send_queue s = []
          | Told => eof s = false /\ app_send_queue s = [[]]
          | _ => True
          end;
}.

(** Its thread. *)
Definition thread_ok (client : bool) (k : stage) (t : thread) : Prop :=
  match k with
  | Ended => t = Finished
  | _ => exists c, t = Running c /\ done c = false /\ is_client c = client /\ connection_state c = state_of client k
  end.

(** The stack [base] with such an end at [sd], and with none any more. *)
Definition end_at (client : bool) (sd : Z) (base : stack) (n0 : network_context_t) (k : stage) (q : list bytes) (i o : bytes)
    (st : stack) : Prop :=
  exists s t, st = sock_at (thread_at base sd t) sd s /\ sock_ok client sd n0 k q i o s /\ thread_ok client k t.
Definition freed (sd : Z) (base : stack) : stack :=
  thread_at (set_global_ctx (delete sd (global_ctx base)) base) sd Finished.

Definition host_at (client : bool) (sd : Z) (base : stack) (n0 : network_context_t) (k : stage) (q : list bytes) (i o : bytes)
    (h : closer) : Prop :=
  cl_app h = app_of k /\ fits client k = true
  /\ match k with
     | Freed => cl_stack h = freed sd base /\ cl_late h = o /\ q = [] /\ i = []
     | _ => cl_late h = [] /\ end_at client sd base n0 k q i o (cl_stack h)
     end.

(* ------------------------------------------------------------------ *)
(** * One end *)

(** A mysocket whose queues or flags change. *)
Lemma sock_ok_keep client sd n0 k k' q q' i i' o o' s s' :
  sock_ok client sd n0 k q i o s -> my_sd s' = my_sd s -> listening s' = listening s -> blocking s' = blocking s ->
  app_recv_queue s' = app_recv_queue s -> transport_thread_started s' = transport_thread_started s -> is_active s' = is_active s -> listen_sd s' = listen_sd s ->
  same_ends (network_state s) (network_state s') -> net_in (network_state s') = i' -> net_out (network_state s') = o' ->
  network_recv_queue s' = q' -> close_requested s' = bool_decide (k' = Asked) ->
  match k' with
  | Idle => eof s' = false /\ app_send_queue s' = []
  | Told => eof s' = false /\ app_send_queue s' = [[]]
  | _ => True
  end -> sock_ok client sd n0 k' q' i' o' s'.
Proof.
  intros [[P P'] (A1 & A2 & A3 & A4) (B1 & B2) (N1 & N2 & N3) _ _ _] E1 E2 E3 E4 E4' E5 E6 E7 E8 E9 E10 E11 E12.
  split; try done.
  - split; [by rewrite E1|done].
  - by rewrite E2, E3, E4, E4'.
  - by rewrite E5, E6.
  - split; [by eapply same_ends_trans|done].
Qed.

Lemma sock_ok_live client sd n0 k q i o s c :
  online n0 ->
  sock_ok client sd n0 k q i o s -> k <> Ended -> k <> Freed -> done c = false -> connection_state c = state_of client k -> live sd s c.
Proof.
  intros Hon [P (A1 & A2 & A3 & A4) _ (N1 & _) _ _ _] Ke Kf D S. split; try done.
  - by eapply same_ends_online.
  - split; [done|]. unfold in_handshake. rewrite S. by destruct k, client.
Qed.

Lemma facing_sock client sd n0 n2 k q i o s :
  facing n0 n2 -> sock_ok client sd n0 k q i o s -> facing (network_state s) n2.
Proof. intros Hf [_ _ _ (N1 & _) _ _ _]. by apply (same_ends_facing n0). Qed.

Section one_end.
Context {K : Kernel} {KOk : KernelOk K} (F : fault -> Prop).
Context (client : bool) (sd : Z) (base : stack) (n0 n2 : network_context_t).
Context (Hon : online n0) (Hf : facing n0 n2).
Context (i o : bytes).

Notation ok_headers n := (Forall2 (fun fl p => header_to n0 n fl p)).

(** What a round of the thread leaves at an end at stage [k], with segments of the
    flags [got] waiting. *)
Definition turned (k : stage) (got : list Z) (st' : stack) : Prop :=
  exists k' q' got' ps,
    turn client k got = Some (k', got') /\ fits client k' = true /\ end_at client sd base n0 k' q' i (o ++ frames ps) st'
    /\ ok_headers n0 got' q' /\ ok_headers n2 (drop (length (sent_by client k)) (sent_by client k')) ps.

(** Nothing to do: the thread waits. *)
Lemma wlp_turn_waits k s c errno (Q : unit -> stack -> Prop) :
  F Blocked -> sock_ok client sd n0 k [] i o s -> k <> Asked -> k <> Ended -> k <> Freed -> done c = false ->
  connection_state c = state_of client k ->
  wlp F (transport_thread_func sd errno) Q (sock_at (thread_at base sd (Running c)) sd s).
Proof.
  intros HF Hs Ka Ke Kf D S. pose proof Hs as [P (_ & _ & A3 & A4) _ _ Nq Cr _].
  apply wlp_control_thread; [by eapply sock_ok_live|]. unfold control_iteration. wgo. apply wlp_wait_for_event; [done|].
  unfold ready_events. rewrite A3, Nq, Cr, bool_decide_eq_false_2 by done. done.
Qed.

(** The FIN of a close request. *)
Lemma wlp_turn_asked s c errno :
  sock_ok client sd n0 Asked [] i o s -> done c = false -> is_client c = client ->
  connection_state c = state_of client Asked ->
  wlp F (transport_thread_func sd errno) (fun _ => turned Asked []) (sock_at (thread_at base sd (Running c)) sd s).
Proof.
  intros Hs D Cl S. pose proof Hs as [P _ _ (N1 & N2 & N3) Nq Cr _].
  eapply (wlp_round_fin _ sd errno _ _ c (if client then CSTATE_FIN_WAIT_1 else CSTATE_LAST_ACK)).
  - by eapply sock_ok_live.
  - by rewrite Cr.
  - done.
  - unfold handle_close. rewrite Cl, S. by destruct client.
  - intros c' D' S' Cl'. exists Fin_sent, [], [], [sealed (network_state s) (segment (next_seqnum c) None TH_FIN RECV_WINDOW_SIZE [])].
    split; [done|]. split; [done|]. split; [|split; [constructor|]].
    + eexists _, _. split; [reflexivity|]. split; [|exists c'; by rewrite Cl'].
      eapply sock_ok_keep; [exact Hs|try done..]. by rewrite <- N3.
    + replace (drop _ _) with [TH_FIN] by by destruct client. constructor; [|constructor].
      apply (segment_header (network_state s) n2). by eapply facing_sock.
Qed.

(** The acknowledgement of the FIN. *)
Lemma wlp_turn_acked s c errno p q got :
  sock_ok client sd n0 Fin_sent (p :: q) i o s -> done c = false -> is_client c = client ->
  connection_state c = state_of client Fin_sent -> header_to n0 n0 TH_ACK p -> ok_headers n0 got q ->
  wlp F (transport_thread_func sd errno) (fun _ => turned Fin_sent (TH_ACK :: got)) (sock_at (thread_at base sd (Running c)) sd s).
Proof.
  intros Hs D Cl S (H1 & H2 & H3) Hq. pose proof Hs as [P _ _ (N1 & N2 & N3) Nq Cr _].
  eapply (wlp_round_acked _ sd errno _ _ c p q).
  - by eapply sock_ok_live.
  - by rewrite Cr.
  - split; [done|]. split; [by eapply same_ends_accepts|done].
  - done.
  - unfold turned. rewrite Cl, S. destruct client; (split; [done|]).
    + exists Acked, q, got, []. split; [done|]. split; [done|]. split; [|split; [done|constructor]].
      eexists _, _. split; [reflexivity|]. split; [|by eexists].
      eapply sock_ok_keep; [exact Hs|try done..]. cbn. by rewrite N3, app_nil_r.
    + exists Ended, q, got, []. split; [done|]. split; [done|]. split; [|split; [done|constructor]].
      eexists _, _. split; [reflexivity|]. split; [|done].
      eapply sock_ok_keep; [exact Hs|try done..]. cbn. by rewrite N3, app_nil_r.
Qed.

(** The other end's FIN. *)
Lemma wlp_turn_fin k s c errno p q got :
  k = (if client then Acked else Idle) ->
  sock_ok client sd n0 k (p :: q) i o s -> done c = false -> is_client c = client ->
  connection_state c = state_of client k -> header_to n0 n0 TH_FIN p -> ok_headers n0 got q ->
  wlp F (transport_thread_func sd errno) (fun _ => turned k (TH_FIN :: got)) (sock_at (thread_at base sd (Running c)) sd s).
Proof.
  intros -> Hs D Cl S (H1 & H2 & H3) Hq. pose proof Hs as [P _ _ (N1 & N2 & N3) Nq Cr U].
  eapply (wlp_round_fin_received _ sd errno _ _ c p q).
  - eapply sock_ok_live; [exact Hon|exact Hs|by destruct client..|done|done].
  - rewrite Cr. by destruct client.
  - split; [done|]. split; [by eapply same_ends_accepts|done].
  - done.
  - rewrite S. by destruct client.
  - rewrite S. by destruct client.
  - intros c' ack base' D' S' Cl' s'. rewrite Cl.
    pose proof (ack_segment_header (network_state s) n2 ack base' (facing_sock _ _ _ _ _ _ _ _ _ Hf Hs)) as Hh.
    unfold turned. destruct client.
    + exists Ended, q, got, [sealed (network_state s) (ack_segment ack base')]. split; [done|]. split; [done|].
      split; [|split; [done|constructor; [exact Hh|constructor]]].
      eexists _, _. split; [reflexivity|]. split; [|done].
      eapply sock_ok_keep; [exact Hs|try done..]. by rewrite <- N3.
    + exists Told, q, got, [sealed (network_state s) (ack_segment ack base')]. split; [done|]. split; [done|].
      split; [|split; [done|constructor; [exact Hh|constructor]]].
      eexists _, _. split; [reflexivity|]. split; [|exists c'; by rewrite Cl'].
      destruct U as [U1 U2]. eapply sock_ok_keep. { exact Hs. } all: try done. { by rewrite <- N3. } split; [done|]. subst s'. cbn [app_send_queue set_app_send_queue set_network_recv_queue]. by rewrite U2.
Qed.

(** A round of the transport thread. *)
Lemma wlp_turn k q got st errno :
  fits client k = true -> k <> Freed -> end_at client sd base n0 k q i o st -> ok_headers n0 got q ->
  (q <> [] -> is_Some (turn client k got)) -> (turn client k got = None -> F Blocked) ->
  wlp F (transport_thread_func sd errno) (fun _ => turned k got) st.
Proof.
  intros Hk Hfr (s & t & -> & Hs & Ht) Hg Hex HF. destruct (decide (k = Ended)) as [->|Hke].
  { simpl in Ht. subst t. unfold transport_thread_func. wgo. apply wlp_the_context; [by destruct Hs|]. wgo.
    rewrite thread_lookup. wgo. apply HF. by destruct got. }
  assert (Hc : exists c, t = Running c /\ done c = false /\ is_client c = client /\ connection_state c = state_of client k) by by destruct k.
  destruct Hc as (c & -> & D & Cl & S). destruct Hg as [|fl p got q Hp Hg].
  - destruct (decide (k = Asked)) as [->|]; [by apply wlp_turn_asked|].
    eapply wlp_turn_waits; try done. apply HF. by destruct k.
  - destruct (Hex ltac:(done)) as [[k' got'] Ht']. clear Ht HF Hex.
    destruct k; simpl in Ht'; try done.
    + destruct (negb client && _) eqn:E; [|done]. apply andb_true_iff in E as [Ec%negb_true_iff ->%Z.eqb_eq].
      eapply wlp_turn_fin; try done. by rewrite Ec.
    + destruct (Z.eqb_spec fl TH_ACK) as [->|]; [|done]. by eapply wlp_turn_acked.
    + destruct (Z.eqb_spec fl TH_FIN) as [->|]; [|done]. eapply wlp_turn_fin; try done. by destruct client.
Qed.

(** The receive thread moves the next packet of the stream, once it is all there. *)
Lemma wlp_end_receive k q st p more rest (Q : bool -> stack -> Prop) :
  end_at client sd base n0 k q i o st -> header_to n0 n0 (get8 p Tcp.flags) p -> i ++ more = frame p ++ rest ->
  (more <> [] -> F Blocked) ->
  (forall i' st', i' ++ more = rest -> end_at client sd base n0 k (q ++ [p]) i' o st' -> Q true st') ->
  wlp F (network_recv_thread_round sd) Q st.
Proof.
  intros (s & t & -> & Hs & Ht) (_ & Hl & _) Hi HF HQ. pose proof Hs as [P (A1 & A2 & A3 & A4) _ (N1 & N2 & N3) Nq Cr U].
  destruct (same_ends_online _ _ N1 Hon) as (_ & _ & Hc & _).
  unfold network_recv_thread_round. wgo. apply wlp_at_sock. wgo. rewrite A1. apply wlp_at_sock, wlp_in_net.
  apply (wlp_recv_partial F p rest more); try done; try (unfold blen, MAX_IP_PAYLOAD_LEN; lia).
  { by rewrite N2. }
  intros i' Hin Hr. wgo. unfold blen, MAX_IP_PAYLOAD_LEN in *.
  rewrite (proj2 (Z.leb_gt _ _)), (proj2 (Z.leb_le _ _)) by lia. wgo. apply wlp_at_sock. wgo.
  cbn [listening set_network_state]. rewrite A1. wgo. apply wlp_at_sock. unfold enqueue_network_recv. wgo.
  apply (HQ i'); [done|]. eexists _, t. split; [reflexivity|]. split; [|done].
  eapply sock_ok_keep; [exact Hs|try done..]. cbn. by rewrite Nq.
Qed.

(** With nothing on its way it waits. *)
Lemma wlp_end_receive_waits k q st (Q : bool -> stack -> Prop) :
  end_at client sd base n0 k q [] o st -> F Blocked -> wlp F (network_recv_thread_round sd) Q st.
Proof.
  intros (s & t & -> & Hs & Ht) HF. pose proof Hs as [P (A1 & A2 & A3 & A4) _ (N1 & N2 & N3) Nq Cr U].
  destruct (same_ends_online _ _ N1 Hon) as (_ & _ & Hc & _).
  unfold network_recv_thread_round. wgo. apply wlp_at_sock. wgo. rewrite A1. apply wlp_at_sock, wlp_in_net.
  unfold _network_recv_packet. wgo.
  assert (Hgo : wlp F (if is_active s then _tcp_connect else mret 0) (fun rc c => rc = 0 /\ c = network_state s) (network_state s)).
  { destruct (is_active s); [|by wgo]. unfold _tcp_connect. wgo. rewrite Hc. by wgo. }
  eapply wlp_mono; [exact Hgo|]. intros rc c [-> ->]. cbn [Z.ltb Z.compare]. wgo.
  unfold recv_frame. wgo. apply wlp_tcp_read_any; [done|]. rewrite N2. simpl. lia.
Qed.

(** A read: the end of the stream once the FIN was taken, a wait before. *)
Lemma wlp_end_read k q st n (Q : ret_t * bytes -> stack -> Prop) :
  end_at client sd base n0 k q i o st -> app_of k = Open -> (k = Idle -> F Blocked) ->
  (forall st', k = Told -> end_at client sd base n0 Eof_taken q i o st' -> Q (inl 0, []) st') ->
  wlp F (myread sd n) Q st.
Proof.
  intros (s & t & -> & Hs & Ht) Hk HF HQ. pose proof Hs as [P (A1 & A2 & A3 & A4) _ (N1 & N2 & N3) Nq Cr U].
  assert (Ck : close_requested s = false /\ eof s = false) by by destruct k; destruct U.
  destruct Ck as [Ck He]. unfold myread. wgo. apply wlp_get_context; [done|]. wgo. rewrite A1, Ck. cbn [negb]. wgo. rewrite He.
  apply wlp_bind, wlp_at_sock. unfold dequeue_app_send, _mysock_dequeue_buffer. wgo.
  destruct k; try done; destruct U as [_ ->]; [by apply wlp_fail, HF|]. cbn [length Nat.ltb Nat.leb].
  replace (n <? 0)%nat with false by (symmetry; apply Nat.ltb_ge; lia). cbn [andb]. wgo.
  rewrite Nat.min_0_r. wif. apply wlp_at_sock. wgo. apply HQ; [done|].
  eexists _, t. split; [reflexivity|]. split; [|exact Ht]. by eapply sock_ok_keep; [exact Hs|..].
Qed.

(** The call of [myclose]. *)
Lemma wlp_end_call k q st (Q : unit -> stack -> Prop) :
  end_at client sd base n0 k q i o st -> k = (if client then Idle else Eof_taken) ->
  (forall st', end_at client sd base n0 Asked q i o st' -> Q tt st') ->
  wlp F (myclose_request sd) Q st.
Proof.
  intros (s & t & -> & Hs & Ht) Hk HQ. pose proof Hs as [P _ _ (N1 & N2 & N3) Nq _ _]. apply wlp_myclose_request; [done|]. apply HQ.
  eexists _, t. split; [reflexivity|]. split; [by eapply sock_ok_keep; [exact Hs|..]|]. rewrite Hk in Ht. by destruct client.
Qed.

(** Its return. *)
Lemma wlp_end_return k q st (Q : ret_t -> stack -> Prop) :
  end_at client sd base n0 k q i o st -> k <> Freed -> (k <> Ended -> F Blocked) -> (k = Ended -> Q (inl 0) (freed sd base)) ->
  wlp F (myclose 2 sd) Q st.
Proof.
  intros (s & t & -> & Hs & Ht) Hf' HF HQ. pose proof Hs as [P (A1 & A2 & A3 & A4) (B1 & B2) _ _ _ _].
  destruct (decide (k = Ended)) as [->|Hk].
  - simpl in Ht. subst t. apply wlp_myclose_finished; [done|done| |by apply HQ]. rewrite B1. by destruct B2; [left|right].
  - assert (Hc : exists c, t = Running c) by (destruct k; naive_solver). destruct Hc as [c ->].
    cbn [myclose]. wgo. apply wlp_get_context; [done|]. wgo. apply wlp_at_sock. wgo. rewrite A4, A1. cbn [negb]. wgo.
    replace (is_active s || negb (listen_sd s =? -1)) with true.
    2:{ rewrite B1. destruct B2 as [->|B2]; [done|]. by rewrite (proj2 (Z.eqb_neq _ _) B2), orb_true_r. }
    wgo. rewrite thread_lookup. by apply wlp_fail, HF.
Qed.
End one_end.

(* ------------------------------------------------------------------ *)
(** * Stages of both ends *)

(** [got] and [rest] are the flags of what end 1 has still to take. *)
Definition between (client : bool) (k1 k2 : stage) (got rest : list Z) : Prop :=
  fits client k1 = true /\ fits (negb client) k2 = true
  /\ (taken_by (negb client) k2 <= length (sent_by client k1))%nat
  /\ (taken_by client k1 <= length (sent_by (negb client) k2))%nat
  /\ drop (taken_by client k1) (sent_by (negb client) k2) = got ++ rest.

Ltac stages k1 k2 client := destruct client, k1, k2; simpl in *; try done; try lia.

Lemma got_one_of (got rest l : list Z) :
  (length l <= 2)%nat -> l = got ++ rest ->
  got = [] /\ rest = l \/ (exists a, got = [a] /\ l = a :: rest) \/ exists a b, got = [a; b] /\ rest = [] /\ l = [a; b].
Proof.
  intros Hl ->. destruct got as [|a [|b [|c got]]]; [by left|right; left; by eexists| |].
  - right; right. rewrite length_app in Hl. destruct rest; [by exists a, b|simpl in Hl; lia].
  - rewrite length_app in Hl. simpl in Hl. lia.
Qed.

Lemma sent_by_length client k : (length (sent_by client k) <= 2)%nat.
Proof. destruct client, k; simpl; lia. Qed.

Lemma taking_length client k n : (length (drop n (sent_by client k)) <= 2)%nat.
Proof. rewrite length_drop. pose proof (sent_by_length client k). lia. Qed.

(** Whatever waits is what the thread waits for. *)
Lemma between_turn client k1 k2 got rest : between client k1 k2 got rest -> got <> [] -> is_Some (turn client k1 got).
Proof.
  intros (H1 & H2 & H3 & H4 & H5) Hg.
  destruct (got_one_of got rest _ (taking_length _ _ _) H5)
    as [[-> _]|[(a & -> & E)|(a & b & -> & -> & E)]]; [done|stages k1 k2 client; simplify_eq..]; by eexists.
Qed.

Lemma between_turned client k1 k2 got rest k1' got' :
  between client k1 k2 got rest -> turn client k1 got = Some (k1', got') ->
  between client k1' k2 got' rest /\ left client k1 = Datatypes.S (left client k1')
  /\ sent_by client k1' = sent_by client k1 ++ drop (length (sent_by client k1)) (sent_by client k1').
Proof.
  intros (H1 & H2 & H3 & H4 & H5) Ht.
  destruct (got_one_of got rest _ (taking_length _ _ _) H5)
    as [[-> ->]|[(a & -> & E)|(a & b & -> & -> & E)]]; unfold between; clear H5; stages k1 k2 client; simplify_eq/=; split_and!; done || lia.
Qed.

(* ------------------------------------------------------------------ *)
(** * Both ends *)

Notation heads n := (Forall2 (header_to n n)).

(** The steps left: one for each stage, and for each segment its reception and at
    most one for each of its 22 bytes. *)
Definition todo (client : bool) (k1 k2 : stage) (o1 o2 : bytes) (w12 w21 : list bytes) : nat :=
  left client k1 + left (negb client) k2
  + 23 * (2 - length (sent_by client k1)) + 23 * (2 - length (sent_by (negb client) k2))
  + length o1 + length o2 + length w12 + length w21.

(** Both hosts, with the packets [w12] and [w21] on their way. *)
Definition both_at (client : bool) (sd1 sd2 : Z) (base1 base2 : stack) (n1 n2 : network_context_t) (m : nat)
    (h1 h2 : closer) : Prop :=
  exists k1 k2 q1 q2 i1 o1 i2 o2 w12 w21 got1 rest1 got2 rest2,
    host_at client sd1 base1 n1 k1 q1 i1 o1 h1 /\ host_at (negb client) sd2 base2 n2 k2 q2 i2 o2 h2
    /\ i2 ++ o1 = frames w12 /\ i1 ++ o2 = frames w21
    /\ between client k1 k2 got1 rest1 /\ heads n1 got1 q1 /\ heads n1 rest1 w21
    /\ between (negb client) k2 k1 got2 rest2 /\ heads n2 got2 q2 /\ heads n2 rest2 w12
    /\ m = todo client k1 k2 o1 o2 w12 w21.

Lemma both_sym client sd1 sd2 base1 base2 n1 n2 m h1 h2 :
  both_at client sd1 sd2 base1 base2 n1 n2 m h1 h2 -> both_at (negb client) sd2 sd1 base2 base1 n2 n1 m h2 h1.
Proof.
  intros (k1 & k2 & q1 & q2 & i1 & o1 & i2 & o2 & w12 & w21 & got1 & rest1 & got2 & rest2 & H1 & H2 & E1 & E2 & B1 & G1 & R1 & B2 & G2 & R2 & ->).
  exists k2, k1, q2, q1, i2, o2, i1, o1, w21, w12, got2, rest2, got1, rest1. unfold todo. rewrite !negb_involutive.
  do 10 (split; [done|]). lia.
Qed.

(** The other end, when end 1 takes what waits for it. *)
Lemma between_other client k1 k2 got1 rest1 got2 rest2 k1' got1' :
  between client k1 k2 got1 rest1 -> between (negb client) k2 k1 got2 rest2 -> turn client k1 got1 = Some (k1', got1') ->
  between (negb client) k2 k1' got2 (rest2 ++ drop (length (sent_by client k1)) (sent_by client k1')).
Proof.
  intros B1 (H1 & H2 & H3 & H4 & H5) Ht. destruct (between_turned _ _ _ _ _ _ _ B1 Ht) as ((A1 & A2 & A3 & A4 & A5) & _ & Hs).
  rewrite negb_involutive in *. split; [done|]. rewrite negb_involutive. split; [done|]. split; [done|]. split; [done|].
  rewrite Hs, drop_app_le, H5, <- app_assoc by done. f_equal. f_equal.
  rewrite <- Hs. done.
Qed.

Lemma heads_frame n fl l p w :
  heads n (fl :: l) (p :: w) -> length (frame p) = 22%nat /\ get8 p Tcp.flags = fl /\ heads n l w.
Proof.
  intros H. inversion H as [|? ? ? ? (_ & Hp & Hfl) Hw]; subst. split; [|done]. unfold frame. by rewrite length_app, Hp.
Qed.

Lemma length_frames n l w : heads n l w -> length (frames w) = (22 * length l)%nat.
Proof.
  intros H. induction H as [|fl p l w (_ & Hp & _) _ IH]; [done|]. change (frames (p :: w)) with (frame p ++ frames w).
  rewrite length_app, IH. unfold frame. rewrite length_app, Hp. simpl length. lia.
Qed.

(** A host's mysocket exists until it is freed. *)
Lemma freed_gone sd base : global_ctx (freed sd base) !! sd = None.
Proof. apply lookup_delete_eq. Qed.

Lemma gone_context {B} sd st (k : mysock_context -> M stack B) x :
  global_ctx st !! sd = None -> (the_context sd ≫= k) st <> Ok x.
Proof.
  intros Hn. unfold the_context, _mysock_get_context, verify_mysocket_descriptor, mbind, M_bind, get, mret, M_ret, deref, massert, fail, lift.
  destruct (_ && _); simpl; rewrite ?Hn; simpl; try done.
Qed.

(** An end not freed has its mysocket, a freed one has none. *)
Lemma host_stack client sd base n k q i o h : host_at client sd base n k q i o h -> k <> Freed ->
  end_at client sd base n k q i o (cl_stack h) /\ cl_app h = app_of k /\ cl_late h = [] /\ fits client k = true.
Proof. intros (H1 & H2 & H3) Hk. destruct k; destruct H3; done. Qed.

Lemma stack_host client sd base n k q i o st app :
  end_at client sd base n k q i o st -> app = app_of k -> fits client k = true -> k <> Freed ->
  host_at client sd base n k q i o (mk_closer st app []).
Proof. intros H1 -> H2 Hk. split; [done|]. split; [done|]. by destruct k. Qed.

Lemma host_freed client sd base n k q i o h :
  host_at client sd base n k q i o h -> is_Some (global_ctx (cl_stack h) !! sd) -> k <> Freed.
Proof. intros (_ & _ & H) [s Hs] ->. destruct H as (E & _). rewrite E in Hs. by rewrite freed_gone in Hs. Qed.

(** The bytes at its socket. *)
Lemma end_at_net client sd base n0 k q i o st s :
  end_at client sd base n0 k q i o st -> global_ctx st !! sd = Some s ->
  net_in (network_state s) = i /\ net_out (network_state s) = o
  /\ forall n', same_ends (network_state s) n' ->
       end_at client sd base n0 k q (net_in n') (net_out n') (sock_at st sd (set_network_state n' s)).
Proof.
  intros (s0 & t & -> & Hs & Ht) Hg. rewrite sock_at_lookup in Hg. injection Hg as <-.
  pose proof Hs as [P _ _ (_ & N2 & N3) Nq Cr U]. split; [done|]. split; [done|]. intros n' Hn. rewrite sock_at_twice.
  eexists _, t. split; [reflexivity|]. split; [|done]. by eapply sock_ok_keep; [exact Hs|..].
Qed.

Section both.
Context {K : Kernel} {KOk : KernelOk K}.
Context {client : bool} {sd1 sd2 : Z} {base1 base2 : stack} {n1 n2 : network_context_t}.
Context (Hon1 : online n1) (Hf : facing n1 n2).

Abbreviation both := (both_at client sd1 sd2 base1 base2 n1 n2).

Context {k1 k2 : stage} {q1 q2 : list bytes} {i1 o1 i2 o2 : bytes} {w12 w21 : list bytes} {got1 rest1 got2 rest2 : list Z}.
Context {h1 h2 : closer}.
Context (H1 : host_at client sd1 base1 n1 k1 q1 i1 o1 h1) (H2 : host_at (negb client) sd2 base2 n2 k2 q2 i2 o2 h2).
Context (E1 : i2 ++ o1 = frames w12) (E2 : i1 ++ o2 = frames w21).
Context (B1 : between client k1 k2 got1 rest1) (G1 : heads n1 got1 q1) (R1 : heads n1 rest1 w21).
Context (B2 : between (negb client) k2 k1 got2 rest2) (G2 : heads n2 got2 q2) (R2 : heads n2 rest2 w12).

(** These with less left to do. *)
Definition nearer (h1' h2' : closer) : Prop :=
  exists m', (m' < todo client k1 k2 o1 o2 w12 w21)%nat /\ both m' h1' h2'.

Section thread.
Context (F : fault -> Prop).

(** A round of the transport thread. *)
Lemma both_transport errno :
  k1 <> Freed -> (turn client k1 got1 = None -> F Blocked) ->
  wlp F (transport_thread_func sd1 errno) (fun _ st' => nearer (mk_closer st' (cl_app h1) (cl_late h1)) h2) (cl_stack h1).
Proof.
  intros Hk HF. destruct (host_stack _ _ _ _ _ _ _ _ _ H1 Hk) as (He & Ha & Hl & Hfit).
  assert (Hq : q1 <> [] -> is_Some (turn client k1 got1)).
  { intros Hne. apply (between_turn _ _ _ _ _ B1). intros ->. by inversion G1. }
  eapply wlp_mono; [exact (wlp_turn F client sd1 base1 n1 n2 Hon1 Hf i1 o1 k1 q1 got1 _ errno Hfit Hk He G1 Hq HF)|].
  intros _ st' (k & q & got & ps & Ht & Hfit' & He' & G' & P').
  destruct (between_turned _ _ _ _ _ _ _ B1 Ht) as (B1' & Hleft & Hs).
  pose proof (between_other _ _ _ _ _ _ _ _ _ B1 B2 Ht) as B2'.
  assert (Hnf : k <> Freed /\ app_of k = app_of k1).
  { clear -Ht. destruct k1, got1, client; simpl in Ht; repeat case_match; simplify_eq; done. }
  destruct Hnf as [Hnf Ha']. eexists. split.
  2:{ exists k, k2, q, q2, i1, (o1 ++ frames ps), i2, o2, (w12 ++ ps), w21, got, rest1, got2,
        (rest2 ++ drop (length (sent_by client k1)) (sent_by client k)).
      split; [rewrite Hl; apply stack_host; congruence|]. split; [done|]. split; [by rewrite app_assoc, E1, frames_app|].
      split; [done|]. split; [exact B1'|]. split; [done|]. split; [done|]. split; [exact B2'|]. split; [done|].
      split; [by apply Forall2_app|reflexivity]. }
  pose proof (length_frames _ _ _ P'). pose proof (Forall2_length _ _ _ P'). pose proof (sent_by_length client k).
  pose proof (f_equal length Hs) as Hsl. rewrite length_app in Hsl. unfold todo. rewrite !length_app. lia.
Qed.

(** A packet received. *)
Lemma both_receive :
  k1 <> Freed -> (w21 = [] \/ o2 <> [] -> F Blocked) ->
  wlp F (network_recv_thread_round sd1) (fun _ st' => nearer (mk_closer st' (cl_app h1) (cl_late h1)) h2) (cl_stack h1).
Proof.
  intros Hk HF. destruct (host_stack _ _ _ _ _ _ _ _ _ H1 Hk) as (He & Ha & Hl & Hfit).
  assert (Hc : w21 = [] \/ exists fl p rest w, rest1 = fl :: rest /\ w21 = p :: w /\ header_to n1 n1 fl p /\ heads n1 rest w).
  { destruct R1 as [|fl p rest w]; [by left|right]. by exists fl, p, rest, w. }
  destruct Hc as [Hw|(fl & p & rest & w & Er & Ew & (Hp & Hp1 & Hp2) & Hw)].
  { assert (i1 = []) as Hi by (rewrite Hw in E2; by destruct i1). rewrite Hi in He. eapply wlp_end_receive_waits; [done|exact He|]. apply HF. by left. }
  pose proof E2 as E2'. rewrite Ew in E2'.
  eapply (wlp_end_receive _ _ _ _ _ Hon1 _ _ _ _ _ p o2 (frames w)); [exact He|done|exact E2'|intros Ho; apply HF; by right|].
  intros i' st' Hi He'. eexists. split.
  2:{ exists k1, k2, (q1 ++ [p]), q2, i', o1, i2, o2, w12, w, (got1 ++ [fl]), rest, got2, rest2.
      split; [rewrite Hl; by apply stack_host|]. do 3 (split; [done|]).
      split. { destruct B1 as (? & ? & ? & ? & B). do 4 (split; [done|]). rewrite <- app_assoc. by rewrite B, Er. }
      split; [apply Forall2_app; [done|by constructor]|]. do 4 (split; [done|]). reflexivity. }
  unfold todo. rewrite Ew. simpl. lia.
Qed.
End thread.

(** The application reads the end of the stream. *)
Lemma both_read F n :
  cl_app h1 = Open -> (k1 = Idle -> F Blocked) ->
  wlp F (myread sd1 n) (fun x st' => x = (inl 0, []) /\ nearer (mk_closer st' Eof_read (cl_late h1)) h2) (cl_stack h1).
Proof.
  intros Hop HF. assert (Hk : k1 <> Freed) by (destruct H1 as [Ha _]; intros E; by rewrite E, Hop in Ha).
  destruct (host_stack _ _ _ _ _ _ _ _ _ H1 Hk) as (He & Ha & Hl & Hfit). eapply wlp_end_read; [exact He|congruence|exact HF|].
  intros st' Ek He'. split; [done|]. pose proof B1 as B. pose proof B2 as B'. rewrite Ek in B, B'.
  assert (Hc : client = false) by (destruct B as [B _]; by destruct client).
  eexists. split.
  2:{ exists Eof_taken, k2, q1, q2, i1, o1, i2, o2, w12, w21, got1, rest1, got2, rest2.
      split; [rewrite Hl; apply stack_host; [done..|by rewrite Hc|done]|]. do 3 (split; [done|]).
      split; [by rewrite Hc in *|]. do 2 (split; [done|]).
      split; [by rewrite Hc in *|]. do 2 (split; [done|]). reflexivity. }
  unfold todo. rewrite Ek, Hc. simpl. lia.
Qed.

(** The application calls [myclose]. *)
Lemma both_call F :
  k1 = (if client then Idle else Eof_taken) ->
  wlp F (myclose_request sd1) (fun _ st' => nearer (mk_closer st' Closing (cl_late h1)) h2) (cl_stack h1).
Proof.
  intros Ek. assert (Hk : k1 <> Freed) by (rewrite Ek; by destruct client).
  destruct (host_stack _ _ _ _ _ _ _ _ _ H1 Hk) as (He & Ha & Hl & Hfit). eapply wlp_end_call; [exact He|exact Ek|].
  intros st' He'. pose proof B1 as B. pose proof B2 as B'. rewrite Ek in B, B'. eexists. split.
  2:{ exists Asked, k2, q1, q2, i1, o1, i2, o2, w12, w21, got1, rest1, got2, rest2.
      split; [rewrite Hl; by apply stack_host|]. do 3 (split; [done|]).
      split; [by destruct client|]. do 2 (split; [done|]).
      split; [by destruct client|]. do 2 (split; [done|]). reflexivity. }
  unfold todo. rewrite Ek. destruct client; simpl; lia.
Qed.

(** [myclose] returns. *)
Lemma both_return F :
  k1 <> Freed -> (k1 <> Ended -> F Blocked) ->
  wlp F (myclose 2 sd1) (fun r st' => r = inl 0 /\ nearer (mk_closer st' Closed o1) h2) (cl_stack h1).
Proof.
  intros Hk HF. destruct (host_stack _ _ _ _ _ _ _ _ _ H1 Hk) as (He & Ha & Hl & Hfit).
  eapply wlp_end_return; [exact He|done|exact HF|]. intros Ek. split; [done|].
  pose proof B1 as B. pose proof B2 as B'. rewrite Ek in B, B'.
  (* all was taken *)
  assert (Hn : got1 = [] /\ rest1 = []).
  { apply app_nil. destruct B as (_ & B3 & _ & _ & <-). clear -B3. destruct client, k2; done. }
  destruct Hn as [Hn1 Hn2]. assert (Hq : q1 = []) by (pose proof G1 as G; rewrite Hn1 in G; by inversion G).
  assert (Hw : w21 = []) by (pose proof R1 as R; rewrite Hn2 in R; by inversion R).
  assert (Hi : i1 = []) by (pose proof E2 as E; rewrite Hw in E; by destruct i1).
  eexists. split.
  2:{ exists Freed, k2, q1, q2, i1, o1, i2, o2, w12, w21, got1, rest1, got2, rest2.
      split; [by split|]. do 3 (split; [done|]).
      split; [by destruct client|]. do 2 (split; [done|]).
      split; [by destruct client|]. do 2 (split; [done|]). reflexivity. }
  unfold todo. rewrite Ek. destruct client; simpl; lia.
Qed.

(** Bytes on their way to end 2 arrive there. *)
Lemma both_arrive k s2 h1' :
  (0 < k)%nat -> o1 <> [] -> global_ctx (cl_stack h2) !! sd2 = Some s2 ->
  host_at client sd1 base1 n1 k1 q1 i1 (drop k o1) h1' ->
  nearer h1' (mk_closer (sock_at (cl_stack h2) sd2
    (set_network_state (set_net_in (net_in (network_state s2) ++ take k o1) (network_state s2)) s2)) (cl_app h2) (cl_late h2)).
Proof.
  intros Hk Ho Hs Hh. assert (Hf2 : k2 <> Freed) by (eapply host_freed; [exact H2|by eexists]).
  destruct (host_stack _ _ _ _ _ _ _ _ _ H2 Hf2) as (He & Ha & Hl & Hfit).
  destruct (end_at_net _ _ _ _ _ _ _ _ _ _ He Hs) as (I2 & O2 & Hn). eexists. split.
  2:{ exists k1, k2, q1, q2, i1, (drop k o1), (i2 ++ take k o1), o2, w12, w21, got1, rest1, got2, rest2.
      split; [done|]. split.
      { rewrite Hl. apply stack_host; [|done..].
        specialize (Hn (set_net_in (net_in (network_state s2) ++ take k o1) (network_state s2)) (same_ends_in _ _)).
        cbn [net_in net_out set_net_in] in Hn. rewrite I2, O2 in Hn. by rewrite I2. }
      split; [by rewrite <- app_assoc, take_drop|]. do 7 (split; [done|]). reflexivity. }
  unfold todo. rewrite length_drop. destruct o1; [done|]. simpl. lia.
Qed.

Lemma both_deliver k s st1' st2' :
  (0 < k)%nat -> global_ctx (cl_stack h1) !! sd1 = Some s -> net_out (network_state s) <> [] ->
  deliver sd1 sd2 k (cl_stack h1) (cl_stack h2) = Some (st1', st2') ->
  nearer (mk_closer st1' (cl_app h1) (cl_late h1)) (mk_closer st2' (cl_app h2) (cl_late h2)).
Proof.
  intros Hk Hs Ho Hd. assert (Hf1 : k1 <> Freed) by (eapply host_freed; [exact H1|by eexists]).
  destruct (host_stack _ _ _ _ _ _ _ _ _ H1 Hf1) as (He & Ha & Hl & Hfit).
  destruct (end_at_net _ _ _ _ _ _ _ _ _ _ He Hs) as (I1 & O1 & Hn).
  unfold deliver in Hd. rewrite Hs in Hd. destruct (global_ctx (cl_stack h2) !! sd2) as [s2|] eqn:Hs2; [|done].
  injection Hd as <- <-. rewrite O1 in *. apply both_arrive; try done. rewrite Hl. apply stack_host; [|done..].
  specialize (Hn (set_net_out (drop k o1) (network_state s)) (same_ends_out _ _)).
  cbn [net_in net_out set_net_out] in Hn. by rewrite I1 in Hn.
Qed.

Lemma both_deliver_late k s2 :
  (0 < k)%nat -> cl_late h1 <> [] -> cl_app h1 = Closed -> global_ctx (cl_stack h2) !! sd2 = Some s2 ->
  nearer (mk_closer (cl_stack h1) Closed (drop k (cl_late h1)))
    (mk_closer (sock_at (cl_stack h2) sd2
      (set_network_state (set_net_in (net_in (network_state s2) ++ take k (cl_late h1)) (network_state s2)) s2)) (cl_app h2) (cl_late h2)).
Proof.
  intros Hk Ho Hc Hs. destruct H1 as (Ha & Hfit & Hh). rewrite Hc in Ha.
  assert (Hf1 : k1 = Freed) by by destruct k1. rewrite Hf1 in Hh. destruct Hh as (A1 & A2 & A3 & A4).
  rewrite A2 in *. apply both_arrive; try done. split; [done|]. split; [done|]. by rewrite Hf1.
Qed.
End both.

(* ------------------------------------------------------------------ *)
(** * Runs *)

Section runs.
Context {K : Kernel} {KOk : KernelOk K}.

(** What runs or can return at a host that has not closed: the threads go on or
    wait; a read finds the end of the stream or waits; [myclose] returns 0 or waits. *)
Definition fault_free (sd : Z) (h : closer) : Prop :=
  cl_app h <> Closed ->
  (forall errno f, transport_thread_func sd errno (cl_stack h) = Err f -> f = Blocked)
  /\ (forall f, network_recv_thread_round sd (cl_stack h) = Err f -> f = Blocked)
  /\ (forall n, cl_app h = Open ->
       match myread sd n (cl_stack h) with Ok (x, _) => x = (inl 0, []) | Err f => f = Blocked end)
  /\ match myclose 2 sd (cl_stack h) with Ok (r, _) => r = inl 0 | Err f => f = Blocked end.

Section one.
Context (client : bool) (sd1 sd2 : Z) (base1 base2 : stack) (n1 n2 : network_context_t).
Context (Hon1 : online n1) (Hf : facing n1 n2).

Lemma both_fault_free m h1 h2 : both_at client sd1 sd2 base1 base2 n1 n2 m h1 h2 -> fault_free sd1 h1.
Proof.
  intros (k1 & k2 & q1 & q2 & i1 & o1 & i2 & o2 & w12 & w21 & got1 & rest1 & got2 & rest2 & H1 & H2 & E1 & E2 & B1 & G1 & R1 & B2 & G2 & R2 & ->) Hc.
  assert (Hk : k1 <> Freed) by (intros ->; destruct H1 as [H1 _]; done). split; [|split; [|split]].
  - intros errno f Hr. pose proof (both_transport Hon1 Hf H1 H2 E1 E2 B1 G1 R1 B2 G2 R2 waits errno Hk ltac:(done)) as W.
    unfold wlp in W. by rewrite Hr in W.
  - intros f Hr. pose proof (both_receive Hon1 H1 H2 E1 E2 B1 G1 R1 B2 G2 R2 waits Hk ltac:(done)) as W.
    unfold wlp in W. by rewrite Hr in W.
  - intros n Ho. pose proof (both_read H1 H2 E1 E2 B1 G1 R1 B2 G2 R2 waits n Ho ltac:(done)) as W.
    unfold wlp in W. destruct (myread _ _ _) as [[x ?]|f]; [by destruct W|done].
  - pose proof (both_return H1 H2 E1 E2 B1 G1 R1 B2 G2 R2 waits Hk ltac:(done)) as W.
    unfold wlp in W. destruct (myclose _ _ _) as [[x ?]|f]; [by destruct W|done].
Qed.

(** Every step leaves less to do. *)
Lemma close_step_nearer m h1 h2 h1' h2' :
  both_at client sd1 sd2 base1 base2 n1 n2 m h1 h2 -> close_step client sd1 sd2 (h1, h2) (h1', h2') ->
  exists m', (m' < m)%nat /\ both_at client sd1 sd2 base1 base2 n1 n2 m' h1' h2'.
Proof.
  intros (k1 & k2 & q1 & q2 & i1 & o1 & i2 & o2 & w12 & w21 & got1 & rest1 & got2 & rest2 & H1 & H2 & E1 & E2 & B1 & G1 & R1 & B2 & G2 & R2 & ->) Hs.
  set (F := fun _ : fault => True).
  inversion Hs as [n r data st st' late h Hn Hr|app st st' late h Happ Hr|s st st' late h Hg Hr|errno st st' app late h Hr|b st st' app late h Hr
    |k s st st' app late st2 st2' app2 late2 Hk Hg Ho Hd|k s2 st late st2 app2 late2 Hk Hl Hg]; subst.
  - pose proof (both_read H1 H2 E1 E2 B1 G1 R1 B2 G2 R2 F n ltac:(done) ltac:(done)) as W.
    cbn [cl_stack] in W. unfold wlp in W. rewrite Hr in W. destruct W as ([= -> ->] & W). exact W.
  - assert (Ek : k1 = (if client then Idle else Eof_taken)) by (destruct H1 as (A & B & _); simpl in A; by destruct client, k1).
    pose proof (both_call H1 H2 E1 E2 B1 G1 R1 B2 G2 R2 F Ek) as W.
    cbn [cl_stack] in W. unfold wlp in W. rewrite Hr in W. exact W.
  - assert (Hk : k1 <> Freed) by (eapply host_freed; [exact H1|by eexists]).
    destruct (host_stack _ _ _ _ _ _ _ _ _ H1 Hk) as (He & _). destruct (end_at_net _ _ _ _ _ _ _ _ _ _ He Hg) as (_ & -> & _).
    pose proof (both_return H1 H2 E1 E2 B1 G1 R1 B2 G2 R2 F Hk ltac:(done)) as W.
    cbn [cl_stack] in W. unfold wlp in W. rewrite Hr in W. by destruct W.
  - assert (Hk : k1 <> Freed).
    { intros ->. destruct H1 as (_ & _ & A & _). cbn [cl_stack] in A. subst st. by eapply gone_context in Hr; [|apply freed_gone]. }
    pose proof (both_transport Hon1 Hf H1 H2 E1 E2 B1 G1 R1 B2 G2 R2 F errno Hk ltac:(done)) as W.
    cbn [cl_stack] in W. unfold wlp in W. rewrite Hr in W. exact W.
  - assert (Hk : k1 <> Freed).
    { intros ->. destruct H1 as (_ & _ & A & _). cbn [cl_stack] in A. subst st.
      unfold network_recv_thread_round, at_sock, mbind, M_bind in Hr. by rewrite freed_gone in Hr. }
    pose proof (both_receive Hon1 H1 H2 E1 E2 B1 G1 R1 B2 G2 R2 F Hk ltac:(done)) as W.
    cbn [cl_stack] in W. unfold wlp in W. rewrite Hr in W. exact W.
  - by eapply (both_deliver H1 H2 E1 E2 B1 G1 R1 B2 G2 R2).
  - by eapply (both_deliver_late H1 H2 E1 E2 B1 G1 R1 B2 G2 R2).
Qed.

(** End 1 can move: bytes to carry, a packet to receive or to handle, a call to
    make or to return. *)
Definition movable (k1 k2 : stage) (o1 o2 : bytes) (w21 : list bytes) (got1 : list Z) : Prop :=
  (o1 <> [] /\ k2 <> Freed) \/
  (k1 <> Freed /\ ((w21 <> [] /\ o2 = []) \/ is_Some (turn client k1 got1) \/ k1 = Told \/ k1 = Ended
                   \/ k1 = (if client then Idle else Eof_taken))).

Lemma movable_step k1 k2 q1 q2 i1 o1 i2 o2 w12 w21 got1 rest1 got2 rest2 h1 h2 :
  host_at client sd1 base1 n1 k1 q1 i1 o1 h1 -> host_at (negb client) sd2 base2 n2 k2 q2 i2 o2 h2 ->
  i2 ++ o1 = frames w12 -> i1 ++ o2 = frames w21 ->
  between client k1 k2 got1 rest1 -> heads n1 got1 q1 -> heads n1 rest1 w21 ->
  between (negb client) k2 k1 got2 rest2 -> heads n2 got2 q2 -> heads n2 rest2 w12 ->
  movable k1 k2 o1 o2 w21 got1 -> exists h1' h2', close_step client sd1 sd2 (h1, h2) (h1', h2').
Proof.
  intros H1 H2 E1 E2 B1 G1 R1 B2 G2 R2 Hm. destruct h1 as [st app late], h2 as [st2 app2 late2].
  destruct Hm as [[Ho Hk2]|[Hk1 Hm]].
  { destruct (host_stack _ _ _ _ _ _ _ _ _ H2 Hk2) as ((s2 & t2 & Es2 & _) & _). cbn [cl_stack] in Es2.
    assert (Hg2 : global_ctx st2 !! sd2 = Some s2) by (rewrite Es2; apply sock_at_lookup).
    destruct (decide (k1 = Freed)) as [->|Hk1].
    - destruct H1 as (Ha & _ & A1 & A2 & _). cbn in Ha, A2. subst app late.
      eexists _, _. eapply (close_deliver_late _ _ _ 1); [lia|done|exact Hg2].
    - destruct (host_stack _ _ _ _ _ _ _ _ _ H1 Hk1) as (He & _). pose proof He as (s & t & Es & _). cbn [cl_stack] in Es, He.
      assert (Hg : global_ctx st !! sd1 = Some s) by (rewrite Es; apply sock_at_lookup).
      destruct (end_at_net _ _ _ _ _ _ _ _ _ _ He Hg) as (_ & Eo & _).
      eexists _, _. eapply (close_deliver _ _ _ 1 s); [lia|exact Hg|by rewrite Eo|]. unfold deliver. by rewrite Hg, Hg2. }
  destruct Hm as [[Hw Ho]|[Ht|[->|[->| ->]]]].
  - pose proof (both_receive Hon1 H1 H2 E1 E2 B1 G1 R1 B2 G2 R2 (fun _ => False) Hk1 ltac:(naive_solver)) as W.
    apply wlp_total in W as (b & st' & Hr & _). eexists _, _. by eapply close_receive.
  - pose proof (both_transport Hon1 Hf H1 H2 E1 E2 B1 G1 R1 B2 G2 R2 (fun _ => False) 0 Hk1) as W.
    specialize (W ltac:(by destruct Ht as [? ->])). apply wlp_total in W as ([] & st' & Hr & _). eexists _, _. by eapply close_transport.
  - pose proof (both_read H1 H2 E1 E2 B1 G1 R1 B2 G2 R2 (fun _ => False) 1) as W. cbn in W.
    assert (app = Open) as -> by by destruct H1. apply wlp_total in W as ([r d] & st' & Hr & _); [|done..].
    eexists _, _. eapply (close_read _ _ _ 1); [lia|exact Hr].
  - pose proof (both_return H1 H2 E1 E2 B1 G1 R1 B2 G2 R2 (fun _ => False) Hk1 ltac:(done)) as W.
    assert (app = Closing) as -> by by destruct H1. apply wlp_total in W as (r & st' & Hr & -> & _).
    destruct (host_stack _ _ _ _ _ _ _ _ _ H1 Hk1) as ((s & t & Es & _) & _). cbn [cl_stack] in Es.
    eexists _, _. eapply (close_return _ _ _ s); [rewrite Es; apply sock_at_lookup|exact Hr].
  - pose proof (both_call H1 H2 E1 E2 B1 G1 R1 B2 G2 R2 (fun _ => False) eq_refl) as W.
    assert (app = if client then Open else Eof_read) as -> by (destruct H1 as [Ha _]; cbn in Ha; rewrite Ha; by destruct client).
    apply wlp_total in W as ([] & st' & Hr & _). eexists _, _. by eapply close_call.
Qed.
End one.

(** Unless both have closed, one of them can move. *)
Lemma between_movable client n1 n2 k1 k2 q1 q2 i1 o1 i2 o2 w12 w21 got1 rest1 got2 rest2 :
  i2 ++ o1 = frames w12 -> i1 ++ o2 = frames w21 ->
  between client k1 k2 got1 rest1 -> heads n1 got1 q1 -> heads n1 rest1 w21 ->
  between (negb client) k2 k1 got2 rest2 -> heads n2 got2 q2 -> heads n2 rest2 w12 ->
  movable client k1 k2 o1 o2 w21 got1 \/ movable (negb client) k2 k1 o2 o1 w12 got2
  \/ k1 = Freed /\ k2 = Freed /\ o1 = [] /\ o2 = [].
Proof.
  intros E1 E2 B1 G1 R1 B2 G2 R2.
  (* nothing is on its way to a freed end *)
  assert (Hfreed : forall cl k k' got rest n w i o, between cl k k' got rest -> heads n rest w -> i ++ o = frames w -> k = Freed -> w = [] /\ o = []).
  { intros cl k k' got rest n w i o (_ & _ & _ & _ & B) R E ->.
    assert (Hn : got ++ rest = []) by (rewrite <- B; by destruct cl, k'). apply app_nil in Hn as [_ ->]. inversion R; subst.
    split; [done|]. by destruct i, o. }
  destruct (decide (o1 = [])) as [->|Ho1].
  2:{ left. left. split; [done|]. intros Hk. by destruct (Hfreed _ _ _ _ _ _ _ _ _ B2 R2 E1 Hk). }
  destruct (decide (o2 = [])) as [->|Ho2].
  2:{ right; left. left. split; [done|]. intros Hk. by destruct (Hfreed _ _ _ _ _ _ _ _ _ B1 R1 E2 Hk). }
  destruct (decide (w21 = [])) as [->|Hw21].
  2:{ left. right. split; [intros Hk; by destruct (Hfreed _ _ _ _ _ _ _ _ _ B1 R1 E2 Hk)|by left]. }
  destruct (decide (w12 = [])) as [->|Hw12].
  2:{ right; left. right. split; [intros Hk; by destruct (Hfreed _ _ _ _ _ _ _ _ _ B2 R2 E1 Hk)|by left]. }
  inversion R1; subst. inversion R2; subst. clear E1 E2 R1 R2 G1 G2 Hfreed.
  destruct (decide (got1 = [])) as [->|Hg1].
  2:{ left. right. pose proof (between_turn _ _ _ _ _ B1 Hg1) as Ht. split; [|by right; left].
      intros ->. destruct got1; by destruct Ht. }
  destruct (decide (got2 = [])) as [->|Hg2].
  2:{ right; left. right. pose proof (between_turn _ _ _ _ _ B2 Hg2) as Ht. split; [|by right; left].
      intros ->. destruct got2; by destruct Ht. }
  destruct B1 as (F1 & F2 & _ & _ & D1), B2 as (_ & _ & _ & _ & D2). rewrite negb_involutive in D2.
  unfold movable. destruct client, k1, k2; simpl in *; try done; naive_solver eauto.
Qed.
End runs.

(* ------------------------------------------------------------------ *)
(** * Properties *)

Section thms.
Context {K : Kernel} {KOk : KernelOk K}.

Lemma quiet_host sd st s c client :
  runs sd st s c -> quiet sd s c client -> host_at client sd st (network_state s) Idle [] [] [] (mk_closer st Open []).
Proof.
  intros HR [L (C & E & T) (P & Kc & Ls) Se (N & U) (I & O)]. pose proof L as [Pl On [Li Bl] [D H] Pe].
  split; [done|]. split; [done|]. split; [done|]. exists s, (Running c). split; [by apply runs_shape|]. split.
  - by split.
  - exists c. by rewrite Kc.
Qed.

Lemma closing_step_nearer a b stA stB nA nB m w w' :
  online nA -> online nB -> facing nA nB -> both_at true a b stA stB nA nB m (fst w) (snd w) -> closing_step a b w w' ->
  exists m', (m' < m)%nat /\ both_at true a b stA stB nA nB m' (fst w') (snd w').
Proof.
  intros OA OB Hf Hb Hs. pose proof (facing_sym _ _ Hf) as Hf'. destruct w as [hA hB], w' as [hA' hB'], Hs as [Hs|Hs]; unfold swap in Hs; cbn [fst snd] in *.
  - exact (close_step_nearer _ _ _ _ _ _ _ OA Hf _ _ _ _ _ Hb Hs).
  - apply both_sym in Hb. destruct (close_step_nearer _ _ _ _ _ _ _ OB Hf' _ _ _ _ _ Hb Hs) as (m' & Hm & Hb'%both_sym). by exists m'.
Qed.

(** Unless both have closed, a step can be taken. *)
Lemma both_goes_on a b stA stB nA nB m w :
  online nA -> online nB -> facing nA nB -> both_at true a b stA stB nA nB m (fst w) (snd w) ->
  w = (mk_closer (freed a stA) Closed [], mk_closer (freed b stB) Closed []) \/ exists w', closing_step a b w w'.
Proof.
  intros OA OB Hf Hb. pose proof (facing_sym _ _ Hf) as Hf'. destruct w as [hA hB]. cbn [fst snd] in Hb.
  destruct Hb as (k1 & k2 & q1 & q2 & i1 & o1 & i2 & o2 & w12 & w21 & got1 & rest1 & got2 & rest2 & H1 & H2 & E1 & E2 & B1 & G1 & R1 & B2 & G2 & R2 & ->).
  destruct (between_movable _ _ _ _ _ _ _ _ _ _ _ _ _ _ _ _ _ E1 E2 B1 G1 R1 B2 G2 R2) as [Hm|[Hm|(-> & -> & -> & ->)]].
  - right. destruct (movable_step true a b stA stB nA nB OA Hf _ _ _ _ _ _ _ _ _ _ _ _ _ _ _ _ H1 H2 E1 E2 B1 G1 R1 B2 G2 R2 Hm) as (h1' & h2' & Hs). exists (h1', h2'). by left.
  - right. destruct (movable_step false b a stB stA nB nA OB Hf' _ _ _ _ _ _ _ _ _ _ _ _ _ _ _ _ H2 H1 E2 E1 B2 G2 R2 B1 G1 R1 Hm) as (h1' & h2' & Hs). exists (h2', h1'). by right.
  - left. destruct hA, hB. destruct H1 as (A1 & _ & A2 & A3 & _), H2 as (C1 & _ & C2 & C3 & _). cbn in *. by subst.
Qed.

(** C10: a connection whose client closes first is closed in order, whatever the
    order of steps. Both ends are established with nothing on its way, the
    client's application calls [myclose], the server's once it has read the end of
    the stream; the transport threads, the receive threads, the applications and
    the network, which moves any number of bytes at a time, take steps in any
    order, a socket's last bytes still being carried over after it was closed. No
    run has more than 103 steps (four segments of 22 bytes, each byte and each
    reception a step, and eleven calls and rounds); on the way no thread hits a fault, the server reads
    nothing but the end of the stream, and [myclose] waits or returns 0; and the
    only state where a run stops has both calls of [myclose] returned, both
    threads ended, both mysockets freed, the rest of either host untouched. *)
Theorem closing_completes stA stB a b sA sB cA cB n w :
  runs a stA sA cA -> runs b stB sB cB -> quiet a sA cA true -> quiet b sB cB false ->
  facing (network_state sA) (network_state sB) ->
  nsteps (closing_step a b) n (mk_closer stA Open [], mk_closer stB Open []) w ->
  (n <= 103)%nat /\ fault_free a (fst w) /\ fault_free b (snd w)
  /\ (w = (mk_closer (freed a stA) Closed [], mk_closer (freed b stB) Closed []) \/ exists w', closing_step a b w w').
Proof.
  intros RA RB QA QB Hf Hn. pose proof (live_online _ _ _ (quiet_live _ _ _ _ QA)) as OA.
  pose proof (live_online _ _ _ (quiet_live _ _ _ _ QB)) as OB. pose proof (facing_sym _ _ Hf) as Hf'.
  assert (Hb : exists m, (m + n <= 103)%nat /\ both_at true a b stA stB (network_state sA) (network_state sB) m (fst w) (snd w)).
  { assert (H0 : both_at true a b stA stB (network_state sA) (network_state sB) 103 (mk_closer stA Open []) (mk_closer stB Open [])).
    { exists Idle, Idle, [], [], [], [], [], [], [], [], [], [], [], []. split; [by eapply quiet_host|]. split; [by eapply quiet_host|].
      repeat (split; [done || constructor|]). done. }
    remember (mk_closer stA Open [], mk_closer stB Open []) as w0 eqn:E0.
    assert (H0' : both_at true a b stA stB (network_state sA) (network_state sB) 103 (fst w0) (snd w0)) by by subst.
    clear E0 H0. revert H0'. generalize 103%nat as m0. induction Hn as [w|n w0 w1 w Hs _ IH]; intros m0 H0.
    - exists m0. split; [lia|done].
    - destruct (closing_step_nearer _ _ _ _ _ _ _ _ _ OA OB Hf H0 Hs) as (m1 & Hm & H1). destruct (IH m1 H1) as (m & Hm' & H). exists m. split; [lia|done]. }
  destruct Hb as (m & Hm & Hb). split; [lia|]. split; [exact (both_fault_free true a b _ _ _ _ OA Hf _ _ _ Hb)|]. split.
  - pose proof (both_sym _ _ _ _ _ _ _ _ _ _ Hb) as Hb'. exact (both_fault_free false b a _ _ _ _ OB Hf' _ _ _ Hb').
  - exact (both_goes_on a b _ _ _ _ _ _ OA OB Hf Hb).
Qed.
End thms.

#[local] Existing Instance demo_kernel.
#[local] Existing Instance demo_kernel_ok.

(** The connection [demo_met] after the client's call. *)
Definition demo_called : closer * closer :=
  (mk_closer (default (fst demo_met) (snd <$> match myclose_request 0 (fst demo_met) with Ok x => Some x | Err _ => None end)) Closing [],
   mk_closer (snd demo_met) Open []).

Lemma closing_completes_witness :
  nsteps (closing_step 0 1) 1 (mk_closer (fst demo_met) Open [], mk_closer (snd demo_met) Open []) demo_called
  /\ exists w', closing_step 0 1 demo_called w'.
Proof.
  assert (Hn : nsteps (closing_step 0 1) 1 (mk_closer (fst demo_met) Open [], mk_closer (snd demo_met) Open []) demo_called).
  { eapply nsteps_l; [|apply nsteps_O]. left. apply close_call; [done|]. vm_compute. reflexivity. }
  split; [exact Hn|].
  destruct (closing_completes (fst demo_met) (snd demo_met) 0 1 demo_client demo_server (established_context true)
    (established_context false) 1 demo_called (proj1 demo_client_quiet) (proj1 demo_server_quiet) (proj2 demo_client_quiet)
    (proj2 demo_server_quiet)) as (_ & _ & _ & [Hw|Hw]).
  - repeat split; vm_compute; reflexivity.
  - exact Hn.
  - assert (Ho : cl_app (snd demo_called) = Open) by reflexivity. rewrite Hw in Ho. cbn [snd cl_app] in Ho. done.
  - exact Hw.
Defined.
