(* ===== verification/StcpThms.v ===== *)
(** What two applications that talk over STCP can rely on: the connection opens,
    the stream arrives in order and whole, nothing faults, the window holds. *)

From S2P Require Import Prelude.
From S2P Require Import Bytes.
From S2P Require Import MysockState.
From S2P Require Import Mysock.
From S2P Require Import NetworkIoTcp.
From S2P Require Import ConnectionDemux.
From S2P Require Import Transport.
From S2P Require Import MysockApi.
From S2P Require Import StcpFacts.
From S2P Require Import TransportFacts.
From S2P Require Import StcpSystem.
From S2P Require Import StcpInvariant.
From S2P Require Import StcpProgress.
From S2P Require Import StcpHandshake.
From S2P Require Import StcpSetup.
From S2P Require Import StcpDemo.

Section thms.
Context {K : Kernel} {KOk : KernelOk K}.

(** The transport thread of [sd] is in its control loop, the connection established. *)
Definition established (sd : Z) (client : bool) (st : stack) : Prop :=
  exists c, transports st !! sd = Some (Running c) /\ connection_state c = CSTATE_ESTABLISHED /\ is_client c = client
    /\ done c = false.

(** Every thread at [sd] waits: the transport thread for an event, the receive
    thread for a packet, the application for data; nothing is left to send. *)
Definition idle (sd : Z) (st : stack) : Prop :=
  transport_thread_func sd 0 st = Err Blocked /\ network_recv_thread_round sd st = Err Blocked
  /\ myread sd 1 st = Err Blocked
  /\ exists s, global_ctx st !! sd = Some s /\ net_out (network_state s) = [].

(** The operations at [sd] with [w] written: the threads go on or wait, all the
    bytes of a write are taken, and a read returns data or waits. *)
Definition sound_end (sd : Z) (w : bytes) (st : stack) : Prop :=
  (forall errno f, transport_thread_func sd errno st = Err f -> f = Blocked)
  /\ (forall f, network_recv_thread_round sd st = Err f -> f = Blocked)
  /\ (forall b st', network_recv_thread_round sd st = Ok (b, st') -> b = true)
  /\ (forall buf, wf_bytes buf -> within (w ++ buf) -> exists st', mywrite sd buf st = Ok (inl (blen buf), st'))
  /\ (forall n, (0 < n)%nat ->
       match myread sd n st with
       | Ok ((r, data), _) => r = inl (blen data) /\ 0 < blen data <= Z.of_nat n
       | Err f => f = Blocked
       end).

(** The window at [sd] with [w] written: bytes sent and not acknowledged fit the
    send window, which fits the receiver's; bytes not sent are all queued. *)
Definition window_holds (sd : Z) (w : bytes) (st : stack) : Prop :=
  exists s c, global_ctx st !! sd = Some s /\ transports st !! sd = Some (Running c)
    /\ 0 <= next_seqnum c - SendBase c <= SWND c /\ SWND c <= RECV_WIN c /\ RECV_WIN c = 3072
    /\ rem c = SWND c - (next_seqnum c - SendBase c) /\ blen (buffer c) = SWND c
    /\ next_seqnum c = 1 + blen w - blen (mjoin (app_recv_queue s)).

Lemma connection_prefix a b eA eB : connection a b eA eB -> ep_read eB `prefix_of` ep_written eA.
Proof.
  intros (s1 & c1 & s2 & c2 & _ & _ & w12 & w21 & _ & _ & _ & _ & _ & _ & _ & [H _ _ _] & _).
  rewrite H. by eexists.
Qed.

Lemma connection_sound a b eA eB : connection a b eA eB -> sound_end a (ep_written eA) (ep_stack eA).
Proof.
  intros (s1 & c1 & s2 & c2 & H1 & H2 & w12 & w21 & Hl). split; [|split; [|split; [|split]]].
  - intros errno f He. pose proof (wlp_transport_linked waits _ _ _ _ _ _ _ _ _ _ _ _ _ H1 Hl errno) as Hw.
    unfold wlp in Hw. rewrite He in Hw. by apply Hw.
  - intros f He. pose proof (wlp_receive_linked waits _ _ _ _ _ _ _ _ _ _ _ _ _ H1 Hl) as Hw.
    unfold wlp in Hw. rewrite He in Hw. by apply Hw.
  - intros x st' He. pose proof (wlp_receive_linked waits _ _ _ _ _ _ _ _ _ _ _ _ _ H1 Hl) as Hw.
    unfold wlp in Hw. rewrite He in Hw. by apply Hw.
  - intros buf Hb Hin. destruct (wlp_total _ _ _ (wlp_mywrite_linked _ _ _ _ _ _ _ _ _ _ _ _ _ _ H1 Hl buf Hb Hin))
      as (r & st' & He & -> & _). by exists st'.
  - intros n Hn. pose proof (wlp_myread_linked waits _ _ _ _ _ _ _ _ _ _ _ _ _ H1 Hl n Hn) as Hw.
    unfold wlp in Hw. destruct (myread a n (ep_stack eA)) as [[[r data] st']|f]; [|by apply Hw].
    destruct Hw as (Hr & Hd & _); done.
Qed.

Lemma connection_window a b eA eB : connection a b eA eB -> window_holds a (ep_written eA) (ep_stack eA).
Proof.
  intros (s1 & c1 & s2 & c2 & [H1 H1'] & _ & w12 & w21 & Hloc & _ & _ & _ & _ & _ & _ & [_ Hn _ _] & _).
  pose proof (local_window _ _ _ Hloc) as Hw. unfold window in Hw. exists s1, c1. split; [done|]. split; [done|]. lia.
Qed.

Lemma connection_established a b eA eB : connection a b eA eB -> exists c, established a c (ep_stack eA).
Proof.
  intros (s1 & c1 & s2 & c2 & [_ Ht] & _ & _ & _ & [_ _ _ Hp _ _ _] & _). injection Hp as Hd Hs.
  exists (is_client c1), c1. done.
Qed.

(** An end that waits cannot move. *)
Lemma idle_stuck sd1 sd2 st s1 c1 w1 r1 s2 c2 w2 r2 w12 w21 :
  runs sd1 st s1 c1 -> linked_at sd1 sd2 s1 c1 w1 r1 s2 c2 w2 r2 w12 w21 -> idle sd1 st -> ~ can_move s1 c1 s2 w21.
Proof.
  intros H1 Hl (A1 & A2 & A3 & s & A4 & A5) Hm. assert (s = s1) as -> by (destruct H1; congruence).
  pose proof (wlp_transport_linked (fun _ => False) _ _ _ _ _ _ _ _ _ _ _ _ _ H1 Hl 0) as T. unfold wlp in T. rewrite A1 in T.
  pose proof (wlp_receive_linked (fun _ => False) _ _ _ _ _ _ _ _ _ _ _ _ _ H1 Hl) as R. unfold wlp in R. rewrite A2 in R.
  pose proof (wlp_myread_linked (fun _ => False) _ _ _ _ _ _ _ _ _ _ _ _ _ H1 Hl 1) as D. unfold wlp in D. rewrite A3 in D.
  unfold can_move in Hm. specialize (D (le_n 1)). naive_solver.
Qed.

(** When all wait, all was read. *)
Lemma idle_read a b eA eB :
  connection a b eA eB -> idle a (ep_stack eA) -> idle b (ep_stack eB) -> ep_read eB = ep_written eA.
Proof.
  intros (s1 & c1 & s2 & c2 & H1 & H2 & w12 & w21 & Hl) HA HB.
  destruct (decide (load s1 s2 w12 w21 = 0%nat)) as [Hz|Hnz].
  { apply (unloaded_read a b). by exists s1, c1, s2, c2, w12, w21. }
  exfalso. destruct (loaded_moves _ _ _ _ _ _ _ _ _ _ _ _ Hl Hnz) as [Hm|Hm].
  - by eapply (idle_stuck a b (ep_stack eA)).
  - eapply (idle_stuck b a (ep_stack eB)); [exact H2|by apply linked_at_sym|done|done].
Qed.

(* ------------------------------------------------------------------ *)
(** * Properties *)

(** C9: a server that listens and a client that connects end up with an
    established STCP connection: both transport threads enter their control loops
    through the three-segment handshake, and [myaccept] on the listening
    mysocket returns the descriptor of the server's end and the client's address. *)
Theorem connection_opens bind_addr name addr backlog a l b errA errB stA stB :
  can_meet bind_addr name addr backlog a l b stA stB ->
  exists stA' stB', meet bind_addr name addr backlog a l b errA errB stA stB = Some (stA', stB')
    /\ (exists c, established a c stA') /\ (exists c, established b c stB')
    /\ (errB = 0 \/ errB = EINTR -> exists st, myaccept l stB' = Ok ((inl b, Some (addr, SOCKADDR_LEN)), st)).
Proof.
  intros Hm. destruct (meet_ok _ _ _ _ _ _ _ errA errB _ _ Hm) as (x & y & He & Hc & Hacc).
  exists x, y. split; [done|]. split; [exact (connection_established _ _ _ _ Hc)|]. split; [|done].
  exact (connection_established _ _ _ _ (connection_sym _ _ _ _ Hc)).
Qed.

(** C4: in every state the two ends reach, by any interleaving of writes, reads,
    transport threads, receive threads and network deliveries, what an
    application has read is a prefix of what the other has written. *)
Theorem stream_integrity a b eA eB :
  talking a b (eA, eB) -> ep_read eB `prefix_of` ep_written eA /\ ep_read eA `prefix_of` ep_written eB.
Proof.
  intros Hc%talking_connection. split; [by eapply connection_prefix|].
  by eapply connection_prefix, connection_sym.
Qed.

(** C5: from every such state the threads, the network and reads can finish the
    job without a further write: a state is reached where both streams were read
    completely. *)
Theorem stream_delivered a b eA eB :
  talking a b (eA, eB) ->
  exists eA' eB', reaches a b (eA, eB) (eA', eB')
    /\ ep_written eA' = ep_written eA /\ ep_written eB' = ep_written eB
    /\ ep_read eB' = ep_written eA /\ ep_read eA' = ep_written eB.
Proof.
  intros Hc%talking_connection. destruct (proj1 (loaded_connection _ _ _ _) Hc) as (n & Hn).
  destruct (finishes _ _ _ _ _ Hn) as (x & y & Hr & E1 & E2 & Hz). exists x, y. do 3 (split; [done|]).
  split; [simpl in *; rewrite <- E1; by eapply unloaded_read|]. simpl in *. rewrite <- E2. by eapply unloaded_read, loaded_sym.
Qed.

(** C16: the transfer has no deadlock: in a reached state where every thread and
    both readers wait and nothing is left on the sockets, each application has
    read all that the other wrote. *)
Theorem stream_no_deadlock a b eA eB :
  talking a b (eA, eB) -> idle a (ep_stack eA) -> idle b (ep_stack eB) ->
  ep_read eB = ep_written eA /\ ep_read eA = ep_written eB.
Proof.
  intros Hc%talking_connection HA HB. split; [by eapply idle_read|].
  eapply idle_read; [by apply connection_sym|done|done].
Qed.

(** C14: in every reached state no operation at either end hits undefined
    behaviour or fails an assertion: threads go on or wait, a write takes all its
    bytes, a read returns between 1 and [n] bytes or waits. *)
Theorem transfer_safe a b eA eB :
  talking a b (eA, eB) -> sound_end a (ep_written eA) (ep_stack eA) /\ sound_end b (ep_written eB) (ep_stack eB).
Proof.
  intros Hc%talking_connection. split; [by eapply connection_sound|].
  by eapply connection_sound, connection_sym.
Qed.

(** C15: in every reached state the bytes in flight of either end fit its send
    window, which is at most the receiver's 3072, [rem] is the room left in it,
    the retransmission buffer has its size, and the sequence number counts the
    bytes sent. *)
Theorem window_respected a b eA eB :
  talking a b (eA, eB) -> window_holds a (ep_written eA) (ep_stack eA) /\ window_holds b (ep_written eB) (ep_stack eB).
Proof.
  intros Hc%talking_connection. split; [by eapply connection_window|].
  by eapply connection_window, connection_sym.
Qed.
End thms.

(* ------------------------------------------------------------------ *)
(** * Instances *)

#[local] Existing Instance demo_kernel.
#[local] Existing Instance demo_kernel_ok.

Lemma connection_opens_witness :
  exists stA' stB', meet any_name server_name client_name 5 0 0 1 0 0 (new_host ipA) (new_host ipB) = Some (stA', stB')
    /\ exists st, myaccept 0 stB' = Ok ((inl 1, Some (client_name, SOCKADDR_LEN)), st).
Proof.
  destruct (connection_opens any_name server_name client_name 5 0 0 1 0 0 _ _ demo_can_meet) as (x & y & H1 & _ & _ & H2).
  exists x, y. split; [exact H1|]. apply H2. by left.
Defined.

Lemma stream_integrity_witness : ep_read (snd demo_world) `prefix_of` ep_written (fst demo_world).
Proof. exact (proj1 (stream_integrity 0 1 (fst demo_world) (snd demo_world) demo_talking)). Defined.

Lemma stream_delivered_witness :
  exists eA' eB', reaches 0 1 demo_world (eA', eB') /\ ep_read eB' = message.
Proof.
  destruct (stream_delivered 0 1 (fst demo_world) (snd demo_world) demo_talking) as (x & y & H1 & _ & _ & H2 & _).
  exists x, y. split; [exact H1|exact H2].
Defined.

Lemma stream_no_deadlock_witness :
  idle 0 (fst demo_met) /\ idle 1 (snd demo_met) /\ ep_read (mk_ep (snd demo_met) [] []) = [].
Proof.
  assert (HA : idle 0 (fst demo_met)).
  { split; [vm_compute; reflexivity|]. split; [vm_compute; reflexivity|]. split; [vm_compute; reflexivity|].
    eexists. split; vm_compute; reflexivity. }
  assert (HB : idle 1 (snd demo_met)).
  { split; [vm_compute; reflexivity|]. split; [vm_compute; reflexivity|]. split; [vm_compute; reflexivity|].
    eexists. split; vm_compute; reflexivity. }
  split; [exact HA|]. split; [exact HB|].
  exact (proj1 (stream_no_deadlock 0 1 _ _ demo_met_talking HA HB)).
Defined.

Lemma transfer_safe_witness : sound_end 1 [] demo_read.
Proof. exact (proj2 (transfer_safe 0 1 (fst demo_world) (snd demo_world) demo_talking)). Defined.

Lemma window_respected_witness : window_holds 0 message (fst demo_delivered).
Proof. exact (proj1 (window_respected 0 1 (fst demo_world) (snd demo_world) demo_talking)). Defined.
