(* ===== verification/AppSystem.v ===== *)
(** Two programs that talk over an STCP connection: the system of the programs,
    the two stacks, their threads and the network. A script says which bytes the
    programs exchange and in which order; programs that play the two roles of a
    script cannot be led astray or stuck by any interleaving. *)

From S2P Require Import Prelude.
From S2P Require Import Bytes.
From S2P Require Import MysockState.
From S2P Require Import Mysock.
From S2P Require Import MysockApi.
From S2P Require Import App.
From S2P Require Import StcpSystem.
From S2P Require Import StcpInvariant.
From S2P Require Import StcpProgress.
From S2P Require Import StcpHandshake.
From S2P Require Import StcpSetup.
From S2P Require Import StcpThms.

(* ------------------------------------------------------------------ *)
(** * The system *)

Section system.
Context {K : Kernel}.

(** A program at mysocket [sd] makes a call. *)
Inductive acts {A} (sd : Z) : prog A * endpoint -> prog A * endpoint -> Prop :=
  | acts_write buf k e r st' :
      mywrite sd buf (ep_stack e) = Ok (r, st') ->
      acts sd (Mywrite sd buf k, e) (k (int_of r), mk_ep st' (ep_written e ++ buf) (ep_read e))
  | acts_read n k e r data st' :
      myread sd n (ep_stack e) = Ok ((r, data), st') ->
      acts sd (Myread sd n k, e) (k (int_of r) data, mk_ep st' (ep_written e) (ep_read e ++ data)).

(** Programs [p] at mysocket [a] and [q] at [b]. *)
Record world (A B : Type) := mk_world { w_left : prog A; w_right : prog B; w_ends : endpoint * endpoint }.
Arguments mk_world {A B} _ _ _.
Arguments w_left {A B} _.
Arguments w_right {A B} _.
Arguments w_ends {A B} _.

Inductive sys_step {A B} (a b : Z) : world A B -> world A B -> Prop :=
  | sys_left p p' q eA eA' eB :
      acts a (p, eA) (p', eA') -> sys_step a b (mk_world p q (eA, eB)) (mk_world p' q (eA', eB))
  | sys_right p q q' eA eB eB' :
      acts b (q, eB) (q', eB') -> sys_step a b (mk_world p q (eA, eB)) (mk_world p q' (eA, eB'))
  | sys_env p q w w' :
      env_step a b w w' \/ env_step b a (swap w) (swap w') ->
      sys_step a b (mk_world p q w) (mk_world p q w').
Definition sys_reaches {A B} (a b : Z) : world A B -> world A B -> Prop := rtc (sys_step a b).
End system.

Arguments mk_world {A B} _ _ _.
Arguments w_left {A B} _.
Arguments w_right {A B} _.
Arguments w_ends {A B} _.

(* ------------------------------------------------------------------ *)
(** * Scripts *)

(** The bytes of a conversation in order, each with the side that sends it: [true]
    for the left one. *)
Abbreviation script := (list (bool * Z)).
Definition says (side : bool) (b : bytes) : script := pair side <$> b.
Fixpoint bytes_of (side : bool) (T : script) : bytes :=
  match T with
  | [] => []
  | (s, x) :: T' => if Bool.eqb s side then x :: bytes_of side T' else bytes_of side T'
  end.

Lemma bytes_of_app side T U : bytes_of side (T ++ U) = bytes_of side T ++ bytes_of side U.
Proof. induction T as [|[s x] T IH]; [done|]. cbn [bytes_of app]. destruct (Bool.eqb s side); cbn [app]; by rewrite IH. Qed.
Lemma bytes_of_says side b : bytes_of side (says side b) = b.
Proof.
  induction b as [|x b IH]; [done|]. change (says side (x :: b)) with ((side, x) :: says side b). cbn [bytes_of].
  by rewrite Bool.eqb_reflx, IH.
Qed.
Lemma bytes_of_other side b : bytes_of side (says (negb side) b) = [].
Proof.
  induction b as [|x b IH]; [done|]. change (says (negb side) (x :: b)) with ((negb side, x) :: says (negb side) b). cbn [bytes_of].
  rewrite IH. by destruct side.
Qed.
Lemma bytes_of_length T : length T = (length (bytes_of true T) + length (bytes_of false T))%nat.
Proof. induction T as [|[[] x] T IH]; cbn [bytes_of length Bool.eqb]; lia. Qed.
Lemma says_app side b c : says side (b ++ c) = says side b ++ says side c.
Proof. apply fmap_app. Qed.
Lemma length_says side b : length (says side b) = length b.
Proof. apply length_fmap. Qed.

(** [plays side sd post T p]: the program [p] at [sd], as the given side, reads and
    writes what [T] says and is then in [post]; a read may return less than asked. *)
Inductive plays {A} (side : bool) (sd : Z) (post : prog A -> Prop) : script -> prog A -> Prop :=
  | plays_end p : post p -> plays side sd post [] p
  | plays_write buf T k :
      buf <> [] -> plays side sd post T (k (blen buf)) -> plays side sd post (says side buf ++ T) (Mywrite sd buf k)
  | plays_read n b T k :
      (0 < n <= length b)%nat ->
      (forall i, (0 < i <= n)%nat -> plays side sd post (says (negb side) (drop i b) ++ T) (k (Z.of_nat i) (take i b))) ->
      plays side sd post (says (negb side) b ++ T) (Myread sd n k).

(** Before the end of its script a program writes or reads, in its turn. *)
Lemma plays_head {A} side sd (post : prog A -> Prop) T p : plays side sd post T p ->
  (T = [] /\ post p)
  \/ (exists buf k, p = Mywrite sd buf k /\ buf <> [] /\ exists U, T = says side buf ++ U /\ plays side sd post U (k (blen buf)))
  \/ (exists n k b, p = Myread sd n k /\ (0 < n <= length b)%nat /\ exists U, T = says (negb side) b ++ U /\
        forall i, (0 < i <= n)%nat -> plays side sd post (says (negb side) (drop i b) ++ U) (k (Z.of_nat i) (take i b))).
Proof.
  intros H. destruct H as [p Hp|buf T k Hb Hp|n b T k Hn Hk].
  - by left.
  - right. left. exists buf, k. split; [done|]. split; [done|]. by exists T.
  - right. right. exists n, k, b. split; [done|]. split; [done|]. by exists T.
Qed.

Lemma plays_mono {A} side sd (post post' : prog A -> Prop) T p :
  (forall p, post p -> post' p) -> plays side sd post T p -> plays side sd post' T p.
Proof. intros Hi. induction 1; constructor; auto. Qed.

(** A longer program plays its parts one after the other. *)
Lemma plays_bind {A B} side sd (post : prog B -> Prop) T U (p : prog A) (f : A -> prog B) :
  plays side sd (fun p' => plays side sd post U (prog_bind f p')) T p -> plays side sd post (T ++ U) (prog_bind f p).
Proof.
  induction 1 as [p Hp|buf T k Hb _ IH|n b T k Hn _ IH]; [exact Hp| |]; rewrite <- app_assoc; cbn [prog_bind].
  - by constructor.
  - constructor; [done|]. intros i Hi. rewrite app_assoc. by apply IH.
Qed.

(* ------------------------------------------------------------------ *)
(** * The invariant *)

Lemma within_prefix (w v : bytes) : v `prefix_of` w -> within w -> within v.
Proof. intros [u ->]. unfold within, blen. rewrite length_app. lia. Qed.

Section session.
Context {K : Kernel} {KOk : KernelOk K}.
Context (T0 : script) (Hbytes : Forall (fun x => is_byte x.2) T0).
Context (Hwithin : forall side, within (bytes_of side T0)).

(** One side has played the part [X] of the script and will play the rest. *)
Record half {A} (side : bool) (sd : Z) (post : prog A -> Prop) (X TX : script) (p : prog A) (e : endpoint) : Prop := {
  half_script : T0 = X ++ TX;
  half_plays : plays side sd post TX p;
  half_written : ep_written e = bytes_of side X;
  half_read : ep_read e = bytes_of (negb side) X;
}.

Lemma bytes_of_prefix side X TX : T0 = X ++ TX -> bytes_of side X `prefix_of` bytes_of side T0.
Proof. intros ->. rewrite bytes_of_app. by eexists. Qed.

Lemma says_wf side buf X U : T0 = X ++ says side buf ++ U -> wf_bytes buf.
Proof.
  intros H. rewrite H in Hbytes. apply Forall_app in Hbytes as [_ Hb]. apply Forall_app in Hb as [Hb _].
  unfold says in Hb. by rewrite Forall_fmap in Hb.
Qed.

(** What [read] returned is what the script says. *)
Lemma read_follows side (X U : script) (b data : bytes) (w : bytes) :
  T0 = X ++ says side b ++ U -> w `prefix_of` bytes_of side T0 -> bytes_of side X ++ data `prefix_of` w ->
  (length data <= length b)%nat -> data = take (length data) b.
Proof.
  intros H Hw Hd Hl. assert (Hp : bytes_of side X ++ data `prefix_of` bytes_of side X ++ b ++ bytes_of side U).
  { transitivity w; [done|]. rewrite H, !bytes_of_app, bytes_of_says in Hw. done. }
  apply prefix_app_inv in Hp as [v Hv]. apply (f_equal (take (length data))) in Hv.
  rewrite take_app_length, take_app_le in Hv by done. done.
Qed.

(** A program whose script is over does not write; it may wait for more. *)
Definition rests {A} (post : prog A -> Prop) : Prop :=
  (forall sd buf k, ~ post (Mywrite sd buf k)) /\ (forall sd n k, post (Myread sd n k) -> (0 < n)%nat).

Lemma half_write {A} side sd1 sd2 (post : prog A -> Prop) X TX buf k e1 e2 :
  half side sd1 post X TX (Mywrite sd1 buf k) e1 -> rests post -> connection sd1 sd2 e1 e2 ->
  exists st', mywrite sd1 buf (ep_stack e1) = Ok (inl (blen buf), st')
    /\ connection sd1 sd2 (mk_ep st' (ep_written e1 ++ buf) (ep_read e1)) e2
    /\ exists TX', half side sd1 post (X ++ says side buf) TX' (k (blen buf)) (mk_ep st' (ep_written e1 ++ buf) (ep_read e1))
         /\ (length TX' < length TX)%nat.
Proof.
  intros [HT Hp Hw Hr] [Hnw _] Hc. pose proof (connection_sound _ _ _ _ Hc) as (_ & _ & _ & Sw & _).
  destruct (plays_head _ _ _ _ _ Hp) as [[-> Hq]|[(buf' & k' & [= <- <-] & Hb & U & -> & HU)|(n' & k' & b & [=] & _)]].
  { by apply Hnw in Hq. }
  assert (Hwf : wf_bytes buf) by (by eapply says_wf).
  assert (Hin : within (ep_written e1 ++ buf)).
  { apply (within_prefix (bytes_of side T0)); [|done]. rewrite HT, !bytes_of_app, bytes_of_says, Hw, app_assoc. by eexists. }
  destruct (Sw buf Hwf Hin) as [st' He]. exists st'. split; [done|]. split.
  { eapply host_step_connection; [|exact Hc]. by eapply step_write. }
  exists U. split.
  - split; [by rewrite HT, <- app_assoc|done| |]; cbn [ep_written ep_read]; rewrite bytes_of_app.
    + by rewrite bytes_of_says, Hw.
    + replace (says side buf) with (says (negb (negb side)) buf) by by rewrite negb_involutive.
      by rewrite bytes_of_other, app_nil_r.
  - rewrite length_app, length_says. destruct buf; [done|]. simpl. lia.
Qed.

Lemma half_read_ok {A} side sd1 sd2 (post : prog A -> Prop) X TX n k e1 e2 Y TY r data st' :
  half side sd1 post X TX (Myread sd1 n k) e1 -> rests post -> connection sd1 sd2 e1 e2 ->
  T0 = Y ++ TY -> ep_written e2 = bytes_of (negb side) Y ->
  myread sd1 n (ep_stack e1) = Ok ((r, data), st') ->
  connection sd1 sd2 (mk_ep st' (ep_written e1) (ep_read e1 ++ data)) e2
  /\ exists X' TX', half side sd1 post X' TX' (k (int_of r) data) (mk_ep st' (ep_written e1) (ep_read e1 ++ data))
       /\ (length TX' < length TX)%nat.
Proof.
  intros [HT Hp Hw Hr] [_ Hrest] Hc HY Hw2 He. pose proof (connection_sound _ _ _ _ Hc) as (_ & _ & _ & _ & Sr).
  assert (Hn : (0 < n)%nat).
  { destruct (plays_head _ _ _ _ _ Hp) as [[_ Hq]|[(? & ? & [=] & _)|(n' & k' & b & [= <- <-] & Hn & _)]]; [by eapply Hrest|lia]. }
  specialize (Sr n Hn). rewrite He in Sr. destruct Sr as [-> Hd].
  assert (Hc' : connection sd1 sd2 (mk_ep st' (ep_written e1) (ep_read e1 ++ data)) e2).
  { eapply host_step_connection; [|exact Hc]. by eapply step_read. }
  split; [exact Hc'|]. apply connection_sym, connection_prefix in Hc'. cbn [ep_read] in Hc'. rewrite Hr, Hw2 in Hc'.
  pose proof (bytes_of_prefix (negb side) _ _ HY) as Hpre.
  destruct (plays_head _ _ _ _ _ Hp) as [[-> Hq]|[(? & ? & [=] & _)|(n' & k' & b & [= <- <-] & Hn' & U & -> & HU)]].
  { exfalso. rewrite app_nil_r in HT. subst X. apply prefix_length in Hc', Hpre. rewrite length_app in Hc'. unfold blen in Hd. lia. }
  assert (Hdata : data = take (length data) b) by (eapply read_follows; [exact HT|exact Hpre|exact Hc'|unfold blen in Hd; lia]).
  exists (X ++ says (negb side) data), (says (negb side) (drop (length data) b) ++ U). split.
  - split.
    + rewrite HT, <- app_assoc. f_equal. rewrite app_assoc, <- says_app. rewrite Hdata at 1. by rewrite take_drop.
    + specialize (HU (length data)). cbn [int_of]. unfold blen in *. rewrite <- Hdata in HU. apply HU. lia.
    + cbn [ep_written]. by rewrite bytes_of_app, bytes_of_other, app_nil_r.
    + cbn [ep_read]. by rewrite bytes_of_app, bytes_of_says, Hr.
  - rewrite !length_app, !length_says, length_drop. unfold blen in Hd. lia.
Qed.

(** A call of the program keeps to the script. *)
Lemma half_acts {A} side sd1 sd2 (post : prog A -> Prop) X TX p p' e1 e1' e2 Y TY :
  half side sd1 post X TX p e1 -> rests post -> connection sd1 sd2 e1 e2 ->
  T0 = Y ++ TY -> ep_written e2 = bytes_of (negb side) Y ->
  acts sd1 (p, e1) (p', e1') ->
  connection sd1 sd2 e1' e2 /\ exists X' TX', half side sd1 post X' TX' p' e1' /\ (length TX' < length TX)%nat.
Proof.
  intros Hh Hrest Hc HY Hw2 Ha. inversion Ha as [buf k e r st' He|n k e r data st' He]; subst.
  - destruct (half_write _ _ _ _ _ _ _ _ _ _ Hh Hrest Hc) as (st2 & He2 & Hc2 & TX' & Hh2).
    rewrite He in He2. injection He2 as -> ->.
    split; [done|]. by exists (X ++ says side buf), TX'.
  - by eapply half_read_ok.
Qed.

(** Data that waits at a side is data the script has for it, and its program is
    ready to read. *)
Lemma half_ready {A} side sd1 sd2 (post : prog A -> Prop) X TX p e1 e2 Y TY s1 c1 s2 c2 w12 w21 :
  half side sd1 post X TX p e1 -> rests post ->
  runs sd1 (ep_stack e1) s1 c1 -> runs sd2 (ep_stack e2) s2 c2 ->
  linked_at sd1 sd2 s1 c1 (ep_written e1) (ep_read e1) s2 c2 (ep_written e2) (ep_read e2) w12 w21 ->
  T0 = Y ++ TY -> ep_written e2 = bytes_of (negb side) Y ->
  app_send_queue s1 <> [] \/ (exists buf k, p = Mywrite sd1 buf k) -> exists p' e1', acts sd1 (p, e1) (p', e1').
Proof.
  intros Hh Hrest H1 H2 Hl HY Hw2 Hor. assert (Hc : connection sd1 sd2 e1 e2).
  { exists s1, c1, s2, c2. do 2 (split; [done|]). by exists w12, w21. }
  assert (Hwr : forall buf k, p = Mywrite sd1 buf k -> exists p' e1', acts sd1 (p, e1) (p', e1')).
  { intros buf k ->. destruct (half_write _ _ _ _ _ _ _ _ _ _ Hh Hrest Hc) as (st' & He & _). eexists _, _. by eapply acts_write. }
  destruct Hor as [Hq|(buf & k & Hp)]; [|by eapply Hwr]. pose proof Hh as [HT Hp Hw Hr].
  destruct (plays_head _ _ _ _ _ Hp) as [[-> _]|[(buf & k & Hpk & _)|(n & k & b & -> & Hn & _)]]; [|by eapply Hwr|].
  - exfalso. rewrite app_nil_r in HT. subst X. pose proof (bytes_of_prefix (negb side) _ _ HY) as Hpre. rewrite <- Hw2 in Hpre.
    destruct Hl as ([_ _ _ _ _ _ Hup] & _ & _ & _ & _ & _ & _ & _ & [Hfl _ _ _]). apply prefix_length in Hpre.
    rewrite Hfl, Hr, !length_app in Hpre. destruct (app_send_queue s1) as [|d q]; [done|]. apply Forall_inv in Hup.
    rewrite mjoin_cons, length_app in Hpre. destruct d; [done|]. simpl in Hpre. lia.
  - destruct (wlp_total _ _ _ (wlp_myread_linked _ _ _ _ _ _ _ _ _ _ _ _ _ _ H1 Hl n ltac:(lia) ltac:(done)))
      as ([r data] & st' & He & _). eexists _, _. by eapply acts_read.
Qed.

(** Both sides wait and nothing is on its way: the script is over. *)
Lemma all_played {A B} sdA sdB (postA : prog A -> Prop) (postB : prog B -> Prop) X TX Y TY p q eA eB :
  half true sdA postA X TX p eA -> half false sdB postB Y TY q eB ->
  ep_read eB = ep_written eA -> ep_read eA = ep_written eB ->
  (forall buf k, p <> Mywrite sdA buf k) -> (forall buf k, q <> Mywrite sdB buf k) -> TX = [] /\ TY = [].
Proof.
  intros [HX Hp Hw1 Hr1] [HY Hq Hw2 Hr2] E1 E2 Np Nq. cbn in *.
  assert (Hlen : length X = length Y).
  { rewrite (bytes_of_length X), (bytes_of_length Y), <- Hw1, <- Hr1, <- Hw2, <- Hr2, E1, E2. lia. }
  assert (Heq : TX = TY) by (rewrite HX in HY; by apply app_inj_1 in HY as [_ HY]). subst TY.
  destruct (plays_head _ _ _ _ _ Hp) as [[-> _]|[(buf & k & -> & _)|(n & k & b & -> & Hn & U & -> & _)]]; [done|by destruct (Np buf k)|].
  destruct (plays_head _ _ _ _ _ Hq) as [[E _]|[(buf & k' & -> & _)|(n' & k' & b' & -> & Hn' & U' & E & _)]]; [|by destruct (Nq buf k')|].
  - destruct b; [simpl in Hn; lia|done].
  - destruct b, b'; simpl in *; (lia || done).
Qed.

(** The two sides and what joins them; [n] bytes of the script are left to play. *)
Context {A B : Type} (a b : Z) (postA : prog A -> Prop) (postB : prog B -> Prop).
Context (HrA : rests postA) (HrB : rests postB).
Definition in_play (n : nat) (s : world A B) : Prop :=
  exists X TX Y TY, half true a postA X TX (w_left s) (fst (w_ends s)) /\ half false b postB Y TY (w_right s) (snd (w_ends s))
    /\ connection a b (fst (w_ends s)) (snd (w_ends s)) /\ n = (length TX + length TY)%nat.

Lemma half_same {A'} side sd (post : prog A' -> Prop) X TX p e e' :
  half side sd post X TX p e -> ep_written e' = ep_written e -> ep_read e' = ep_read e -> half side sd post X TX p e'.
Proof. intros [H1 H2 H3 H4] E1 E2. split; [done|done|congruence|congruence]. Qed.

Lemma in_play_env n p q eA eB eA' eB' :
  in_play n (mk_world p q (eA, eB)) -> connection a b eA' eB' ->
  ep_written eA' = ep_written eA -> ep_read eA' = ep_read eA -> ep_written eB' = ep_written eB -> ep_read eB' = ep_read eB ->
  in_play n (mk_world p q (eA', eB')).
Proof.
  intros (X & TX & Y & TY & HA & HB & _ & Hn) Hc E1 E2 E3 E4. exists X, TX, Y, TY. cbn in *.
  split; [by eapply half_same|]. split; [by eapply half_same|]. done.
Qed.

(** Every step keeps to the script. *)
Lemma in_play_step n s s' : in_play n s -> sys_step a b s s' -> exists n', (n' <= n)%nat /\ in_play n' s'.
Proof.
  intros Hi Hs. pose proof Hi as (X & TX & Y & TY & HA & HB & Hc & ->). destruct Hs as [p p' q eA eA' eB Ha|p q q' eA eB eB' Ha|p q w w' He]; cbn in *.
  - pose proof HB as [HY _ Hw2 _]. destruct (half_acts _ _ _ _ _ _ _ _ _ _ _ _ _ HA HrA Hc HY Hw2 Ha) as (Hc' & X' & TX' & HA' & Hlt).
    exists (length TX' + length TY)%nat. split; [lia|]. by exists X', TX', Y, TY.
  - pose proof HA as [HX _ Hw1 _]. destruct (half_acts _ _ _ _ _ _ _ _ _ _ _ _ _ HB HrB (connection_sym _ _ _ _ Hc) HX Hw1 Ha) as (Hc' & Y' & TY' & HB' & Hlt).
    exists (length TX + length TY')%nat. split; [lia|]. exists X, TX, Y', TY'. do 2 (split; [done|]). split; [by apply connection_sym|done].
  - eexists. split; [reflexivity|]. destruct w as [eA eB], w' as [eA' eB']. destruct He as [He|He]; cbn in *.
    + destruct (env_step_connection _ _ _ _ _ _ He Hc) as (Hc' & E1 & E2 & E3 & E4). by eapply in_play_env.
    + destruct (env_step_connection _ _ _ _ _ _ He (connection_sym _ _ _ _ Hc)) as (Hc' & E1 & E2 & E3 & E4).
      eapply in_play_env; [exact Hi|by apply connection_sym|done..].
Qed.

Lemma in_play_reaches n s s' : in_play n s -> sys_reaches a b s s' -> exists n', in_play n' s'.
Proof.
  intros Hi Hr. revert n Hi. induction Hr as [s|s1 s2 s3 Hs _ IH]; intros n Hi; [by exists n|].
  destruct (in_play_step _ _ _ Hi Hs) as (n' & _ & Hi'). by eapply IH.
Qed.

(** One of the programs, the threads or the network can move, until the script is
    over. *)
Lemma in_play_moves m l s :
  in_play m s -> loaded a b l (fst (w_ends s)) (snd (w_ends s)) -> m <> 0%nat ->
  exists s', sys_step a b s s' /\
    ((exists m', (m' < m)%nat /\ in_play m' s')
     \/ (in_play m s' /\ exists l', (l' < l)%nat /\ loaded a b l' (fst (w_ends s')) (snd (w_ends s')))).
Proof.
  destruct s as [p q [eA eB]]. intros Hi Hl Hm. pose proof Hi as (X & TX & Y & TY & HA & HB & Hc & ->). cbn in *.
  pose proof HA as [HX _ HwA _]. pose proof HB as [HY _ HwB _].
  pose proof Hl as (s1 & c1 & s2 & c2 & w12 & w21 & H1 & H2 & Hlk & <-).
  assert (HactA : (exists p' eA', acts a (p, eA) (p', eA')) -> exists s', sys_step a b (mk_world p q (eA, eB)) s' /\
    ((exists m', (m' < length TX + length TY)%nat /\ in_play m' s') \/ False)).
  { intros (p' & eA' & Ha). eexists. split; [by apply sys_left|]. left.
    destruct (half_acts _ _ _ _ _ _ _ _ _ _ _ _ _ HA HrA Hc HY HwB Ha) as (Hc' & X' & TX' & HA' & Hlt).
    exists (length TX' + length TY)%nat. split; [lia|]. by exists X', TX', Y, TY. }
  assert (HactB : (exists q' eB', acts b (q, eB) (q', eB')) -> exists s', sys_step a b (mk_world p q (eA, eB)) s' /\
    ((exists m', (m' < length TX + length TY)%nat /\ in_play m' s') \/ False)).
  { intros (q' & eB' & Ha). eexists. split; [by apply sys_right|]. left.
    destruct (half_acts _ _ _ _ _ _ _ _ _ _ _ _ _ HB HrB (connection_sym _ _ _ _ Hc) HX HwA Ha) as (Hc' & Y' & TY' & HB' & Hlt).
    exists (length TX + length TY')%nat. split; [lia|]. exists X, TX, Y', TY'. do 2 (split; [done|]). split; [by apply connection_sym|done]. }
  assert (Hleft : app_send_queue s1 <> [] \/ (exists buf k, p = Mywrite a buf k) -> exists p' eA', acts a (p, eA) (p', eA')).
  { intros Hor. by eapply (half_ready true a b). }
  assert (Hright : app_send_queue s2 <> [] \/ (exists buf k, q = Mywrite b buf k) -> exists q' eB', acts b (q, eB) (q', eB')).
  { intros Hor. eapply (half_ready false b a); [exact HB|done|exact H2|exact H1|by apply linked_at_sym|exact HX|done|done]. }
  destruct (decide (load s1 s2 w12 w21 = 0%nat)) as [Hz|Hnz].
  - (* everything was read *)
    rewrite Hz in Hl. pose proof (unloaded_read _ _ _ _ Hl) as E1. pose proof (unloaded_read _ _ _ _ (loaded_sym _ _ _ _ _ Hl)) as E2.
    assert (Hw : forall C sd (r : prog C), {x | r = Mywrite sd x.1 x.2} + {forall buf k, r <> Mywrite sd buf k}).
    { intros C sd r. destruct r; try (right; by intros ? ?). destruct (decide (sd = sd0)) as [->|Hne].
      - left. by exists (buf, k).
      - right. intros ? ? [=]. congruence. }
    destruct (Hw _ a p) as [[[buf k] Hp]|Np].
    { destruct HactA as (s' & Hs & [?|[]]); [apply Hleft; right; by exists buf, k|]. exists s'. split; [done|by left]. }
    destruct (Hw _ b q) as [[[buf k] Hq]|Nq].
    { destruct HactB as (s' & Hs & [?|[]]); [apply Hright; right; by exists buf, k|]. exists s'. split; [done|by left]. }
    destruct (all_played _ _ _ _ _ _ _ _ _ _ _ _ HA HB E1 E2 Np Nq) as [-> ->]. simpl in Hm. lia.
  - destruct (loaded_moves _ _ _ _ _ _ _ _ _ _ _ _ Hlk Hnz) as [Hmv|Hmv].
    + destruct (can_move_env _ _ _ _ _ _ _ _ _ _ H1 H2 Hlk Hmv) as [Hq|(x & y & Hs & _ & _ & l' & Hlt & Hl')].
      { destruct HactA as (s' & Hs & [?|[]]); [apply Hleft; by left|]. exists s'. split; [done|by left]. }
      exists (mk_world p q (x, y)). split; [apply sys_env; by left|]. right. split; [|by exists l'].
      destruct (env_step_connection _ _ _ _ _ _ Hs Hc) as (Hc' & E1 & E2 & E3 & E4). by eapply in_play_env.
    + destruct (can_move_env _ _ _ _ _ _ _ _ _ _ H2 H1 (linked_at_sym _ _ _ _ _ _ _ _ _ _ _ _ Hlk) Hmv) as [Hq|(y & x & Hs & _ & _ & l' & Hlt & Hl')].
      { destruct HactB as (s' & Hs & [?|[]]); [apply Hright; by left|]. exists s'. split; [done|by left]. }
      exists (mk_world p q (x, y)). split; [apply sys_env; by right|]. right. split.
      * destruct (env_step_connection _ _ _ _ _ _ Hs (connection_sym _ _ _ _ Hc)) as (Hc' & E1 & E2 & E3 & E4).
        eapply in_play_env; [exact Hi|by apply connection_sym|done..].
      * exists l'. rewrite load_sym. split; [done|]. by apply loaded_sym.
Qed.

(** So the conversation can always be brought to its end. *)
Lemma in_play_finishes m s :
  in_play m s -> exists s', sys_reaches a b s s' /\ in_play 0 s'.
Proof.
  revert s. induction (lt_wf m) as [m _ IHm]. intros s Hi.
  assert (Hl : exists l, loaded a b l (fst (w_ends s)) (snd (w_ends s))).
  { destruct Hi as (? & ? & ? & ? & _ & _ & Hc & _). by apply loaded_connection. }
  destruct Hl as [l Hl]. revert s Hi Hl. induction (lt_wf l) as [l _ IHl]. intros s Hi Hl.
  destruct (decide (m = 0%nat)) as [->|Hm]; [exists s; split; [apply rtc_refl|done]|].
  destruct (in_play_moves _ _ _ Hi Hl Hm) as (s1 & Hs & [(m' & Hlt & Hi')|(Hi' & l' & Hlt & Hl')]).
  - destruct (IHm _ Hlt _ Hi') as (s' & Hr & H0). exists s'. split; [by eapply rtc_l|done].
  - destruct (IHl _ Hlt _ Hi' Hl') as (s' & Hr & H0). exists s'. split; [by eapply rtc_l|done].
Qed.

(** Once it is over the threads and the network come to rest. *)
Lemma in_play_drains l s :
  in_play 0 s -> loaded a b l (fst (w_ends s)) (snd (w_ends s)) ->
  exists s', sys_reaches a b s s' /\ in_play 0 s' /\ w_left s' = w_left s /\ w_right s' = w_right s
    /\ loaded a b 0 (fst (w_ends s')) (snd (w_ends s')).
Proof.
  revert s. induction (lt_wf l) as [l _ IH]. intros [p q [eA eB]] Hi Hl. destruct (decide (l = 0%nat)) as [->|Hnz].
  { exists (mk_world p q (eA, eB)). split; [apply rtc_refl|done]. }
  assert (Hgo : forall eA' eB', env_step a b (eA, eB) (eA', eB') \/ env_step b a (eB, eA) (eB', eA') ->
    in_play 0 (mk_world p q (eA', eB')) -> forall l', (l' < l)%nat -> loaded a b l' eA' eB' ->
    exists s', sys_reaches a b (mk_world p q (eA, eB)) s' /\ in_play 0 s' /\ w_left s' = p /\ w_right s' = q
      /\ loaded a b 0 (fst (w_ends s')) (snd (w_ends s'))).
  { intros eA' eB' He Hi' l' Hlt Hl'. destruct (IH l' Hlt _ Hi' Hl') as (s' & Hr & H). exists s'. split; [|exact H].
    eapply rtc_l; [|exact Hr]. by apply sys_env. }
  pose proof Hi as (X & TX & Y & TY & HA & HB & Hc & Hz). cbn in *. pose proof HA as [HX _ HwA _]. pose proof HB as [HY _ HwB _].
  pose proof Hl as (s1 & c1 & s2 & c2 & w12 & w21 & H1 & H2 & Hlk & <-).
  assert (Hstop : (exists p' eA', acts a (p, eA) (p', eA')) \/ (exists q' eB', acts b (q, eB) (q', eB')) -> False).
  { intros [(p' & e' & Ha)|(q' & e' & Ha)].
    - destruct (half_acts _ _ _ _ _ _ _ _ _ _ _ _ _ HA HrA Hc HY HwB Ha) as (_ & X' & TX' & _ & Hlt). lia.
    - destruct (half_acts _ _ _ _ _ _ _ _ _ _ _ _ _ HB HrB (connection_sym _ _ _ _ Hc) HX HwA Ha) as (_ & X' & TX' & _ & Hlt). lia. }
  destruct (loaded_moves _ _ _ _ _ _ _ _ _ _ _ _ Hlk Hnz) as [Hmv|Hmv].
  - destruct (can_move_env _ _ _ _ _ _ _ _ _ _ H1 H2 Hlk Hmv) as [Hq|(x & y & Hs & _ & _ & l' & Hlt & Hl')].
    { destruct Hstop. left. eapply (half_ready true a b); [exact HA|done|exact H1|exact H2|exact Hlk|exact HY|done|by left]. }
    destruct (env_step_connection _ _ _ _ _ _ Hs Hc) as (Hc' & E1 & E2 & E3 & E4).
    eapply Hgo; [by left| |exact Hlt|exact Hl']. by eapply in_play_env.
  - destruct (can_move_env _ _ _ _ _ _ _ _ _ _ H2 H1 (linked_at_sym _ _ _ _ _ _ _ _ _ _ _ _ Hlk) Hmv) as [Hq|(y & x & Hs & _ & _ & l' & Hlt & Hl')].
    { destruct Hstop. right. eapply (half_ready false b a); [exact HB|done|exact H2|exact H1|by apply linked_at_sym|exact HX|done|by left]. }
    destruct (env_step_connection _ _ _ _ _ _ Hs (connection_sym _ _ _ _ Hc)) as (Hc' & E1 & E2 & E3 & E4).
    eapply Hgo; [by right| |rewrite load_sym; exact Hlt|by apply loaded_sym].
    eapply in_play_env; [exact Hi|by apply connection_sym|done..].
Qed.

Lemma in_play_over s : in_play 0 s -> postA (w_left s) /\ postB (w_right s).
Proof.
  intros (X & TX & Y & TY & [_ HA _ _] & [_ HB _ _] & _ & Hz).
  destruct TX; [|simpl in Hz; lia]. destruct TY; [|simpl in Hz; lia].
  split.
  - destruct (plays_head _ _ _ _ _ HA) as [[_ ?]|[(buf & k & _ & Hb & U & E & _)|(n & k & c & _ & Hn & U & E & _)]]; [done| |].
    + by destruct buf.
    + destruct c; [simpl in Hn; lia|done].
  - destruct (plays_head _ _ _ _ _ HB) as [[_ ?]|[(buf & k & _ & Hb & U & E & _)|(n & k & c & _ & Hn & U & E & _)]]; [done| |].
    + by destruct buf.
    + destruct c; [simpl in Hn; lia|done].
Qed.
End session.
