(* ===== verification/FtFacts.v ===== *)
(** The file client and the file server play the two roles of the same script. *)

From S2P Require Import Prelude.
From S2P Require Import Bytes.
From S2P Require Import Stdio.
From S2P Require Import MysockState.
From S2P Require Import Mysock.
From S2P Require Import App.
From S2P Require Import FtServer.
From S2P Require Import FtClient.
From S2P Require Import StcpSystem.
From S2P Require Import AppSystem.
From Stdlib Require Import (notations) String.

(* ------------------------------------------------------------------ *)
(** * The conversation *)

Section conversation.
Context {FS : FileSystem}.

(** One file: the request, the response line and the content. *)
Definition exchange (name : bytes) : script :=
  says true (name ++ crlf) ++ says false (fst (response name) ++ default [] (snd (response name))).
Definition conversation (names : list bytes) : script := mjoin (exchange <$> names).

(** What the client can ask for, and what it can be sent. *)
Definition name_ok (name : bytes) : Prop :=
  name <> [] /\ Forall (fun c => is_byte c /\ c <> 0 /\ c <> 10) name /\ (length name < LINE_SIZE)%nat.
Definition file_ok (name : bytes) : Prop :=
  forall content, snd (response name) = Some content -> wf_bytes content /\ blen content < 2 ^ 31.

(** "rcvd" after the files were asked for one after the other. *)
Definition rcvd_after (quiet : bool) (rcvd : option bytes) (names : list bytes) : option bytes :=
  fold_left (fun rcvd name => match snd (response name) with Some c => Some (if quiet then [] else c) | None => rcvd end) names rcvd.
End conversation.

(* ------------------------------------------------------------------ *)
(** * Lines *)

Lemma plays_char {A} side sd (post : prog A -> Prop) c T k :
  plays side sd post T (k 1 [c]) -> plays side sd post (says (negb side) [c] ++ T) (Myread sd 1 k).
Proof. intros H. apply plays_read; [simpl; lia|]. intros i Hi. by replace i with 1%nat by lia. Qed.

Lemma plays_nvt_char side sd (post : prog (option bytes) -> Prop) room last acc c T :
  plays side sd post T
    (if (last =? 13) && (c =? 10) then Done (Some (cstr (removelast acc)))
     else match room with O => Crash OutOfBounds | Datatypes.S room' => nvt_loop sd room' c (acc ++ [c]) end) ->
  plays side sd post (says (negb side) [c] ++ T) (nvt_loop sd room last acc).
Proof. intros H. destruct room; by apply plays_char. Qed.

Lemma plays_nvt_loop side sd (post : prog (option bytes) -> Prop) w room last acc :
  Forall (fun c => c <> 10) w -> (length w < room)%nat -> post (Done (Some (cstr (acc ++ w)))) ->
  plays side sd post (says (negb side) (w ++ crlf)) (nvt_loop sd room last acc).
Proof.
  intros Hw. revert room last acc. induction Hw as [|c w Hc _ IH]; intros room last acc Hr Hp; cbn [length] in Hr;
    (destruct room as [|room]; [lia|]).
  - apply (plays_nvt_char _ _ _ _ _ _ 13 (says (negb side) [10])). rewrite andb_false_r.
    apply (plays_nvt_char _ _ _ _ _ _ 10 []), plays_end. cbv iota. change ((13 =? 13) && (10 =? 10)) with true. cbv iota.
    rewrite removelast_last. by rewrite app_nil_r in Hp.
  - apply (plays_nvt_char _ _ _ _ _ _ c (says (negb side) (w ++ crlf))).
    rewrite (proj2 (Z.eqb_neq c 10)), andb_false_r by done. apply IH; [lia|]. by rewrite <- app_assoc.
Qed.

(** A line that is read, and what is done with it. *)
Lemma plays_nvt {B} side sd (post : prog B -> Prop) size w T (f : option bytes -> prog B) :
  Forall (fun c => c <> 0 /\ c <> 10) w -> (length w < size)%nat -> plays side sd post T (f (Some w)) ->
  plays side sd post (says (negb side) (w ++ crlf) ++ T) (prog_bind f (get_nvt_line sd size)).
Proof.
  intros Hw Hs Hf. apply plays_bind, plays_nvt_loop; [eapply Forall_impl; [exact Hw|]; by intros c [_ H]|done|].
  cbn [app prog_bind]. rewrite cstr_id; [done|]. eapply Forall_impl; [exact Hw|]. by intros c [H _].
Qed.

(* ------------------------------------------------------------------ *)
(** * The server *)

Section server.
Context {FS : FileSystem} {FSOk : FileSystemOk FS}.

Definition text (c : Z) : Prop := c <> 0 /\ c <> 10 /\ is_byte c.

Lemma text_digits n : 0 <= n < 2 ^ 64 ->
  Forall text (print_u n) /\ Forall (fun c => c <> 44) (print_u n) /\ (length (print_u n) <= 20)%nat.
Proof.
  intros Hn. destruct (digits_ok 20 n ltac:(lia)) as (H1 & _ & _ & H4). split; [|split; [|exact H4]].
  all: eapply Forall_impl; [exact H1|]; intros c Hc; pose proof (isdigit_plain _ Hc) as (Hs & _ & _ & H44 & H0 & _ & Hb).
  - split; [done|]. split; [by intros ->|done].
  - done.
Qed.

(** A response line, and how the client takes it apart. *)
Lemma length_field_ok name lenstr resp :
  Forall (fun c => c <> 44) lenstr -> Forall (fun c => c <> 44) resp ->
  length_field (name ++ 44 :: lenstr ++ 44 :: resp) = Some lenstr.
Proof.
  intros H1 H2. unfold length_field. rewrite (app_comm_cons lenstr), app_assoc, rsplit_last by done. by rewrite rsplit_last.
Qed.

Lemma response_ok name : name_ok name -> file_ok name ->
  exists line lenstr, fst (response name) = line ++ crlf /\ Forall text line /\ (length line < 400)%nat
    /\ length_field line = Some lenstr
    /\ scan_int lenstr = Some (match snd (response name) with Some c => blen c | None => -1 end).
Proof.
  intros (Hne & Hn & Hl) Hf.
  assert (Hn' : Forall text name) by (eapply Forall_impl; [exact Hn|]; unfold text; tauto).
  assert (Hd : forall lenstr resp, Forall text lenstr -> Forall text resp -> Forall (fun c => c <> 44) lenstr -> Forall (fun c => c <> 44) resp ->
    (length lenstr <= 20)%nat -> (length resp <= 50)%nat ->
    let line := name ++ 44 :: lenstr ++ 44 :: resp in
    Forall text line /\ (length line < 400)%nat /\ length_field line = Some lenstr).
  { intros lenstr resp T1 T2 N1 N2 L1 L2 line. split; [|split; [|by apply length_field_ok]].
    - subst line. repeat (apply Forall_app; split; [done|]; constructor; [by repeat split|]). done.
    - subst line. unfold LINE_SIZE in Hl. rewrite length_app. cbn [length]. rewrite length_app. cbn [length]. lia. }
  unfold response in *. rewrite bool_decide_eq_false_2 by done. cbn [orb].
  assert (Hbad : forall resp, Forall text resp -> Forall (fun c => c <> 44) resp -> (length resp <= 50)%nat ->
    exists line lenstr, name ++ str ",-1," ++ resp ++ crlf = line ++ crlf /\ Forall text line /\ (length line < 400)%nat
      /\ length_field line = Some lenstr /\ scan_int lenstr = Some (-1)).
  { intros resp T N L. destruct (Hd (str "-1") resp ltac:(by repeat constructor) T ltac:(by repeat constructor) N ltac:(vm_compute; lia) L) as (X1 & X2 & X3).
    eexists _, _. split; [|split; [exact X1|split; [exact X2|split; [exact X3|done]]]]. by rewrite <- app_assoc. }
  destruct (fs_access name) eqn:Hacc; cbn [negb] in *.
  2:{ apply (Hbad (str "File does not exist or access denied")); [by repeat constructor|by repeat constructor|vm_compute; lia]. }
  destruct (fs_open name) as [c|] eqn:Ho.
  2:{ apply (Hbad (str "File could not be opened")); [by repeat constructor|by repeat constructor|vm_compute; lia]. }
  unfold file_ok, response in Hf. rewrite bool_decide_eq_false_2, Hacc, Ho in Hf by done. destruct (Hf c eq_refl) as [_ Hc].
  assert (Hb : 0 <= blen c < 2 ^ 64) by (unfold blen in *; lia). destruct (text_digits (blen c) Hb) as (T & N & L).
  destruct (Hd (print_u (blen c)) (str "Ok") T ltac:(by repeat constructor) N ltac:(by repeat constructor) L ltac:(vm_compute; lia)) as (X1 & X2 & X3).
  eexists _, _. split; [|split; [exact X1|split; [exact X2|split; [exact X3|by apply scan_print]]]].
  cbn [fst]. rewrite <- app_assoc. f_equal. change (str ",") with [44]. cbn [app]. f_equal. by rewrite <- app_assoc.
Qed.

Lemma plays_send_file sd post fuel content :
  (length content < fuel)%nat -> post (Done 0) -> plays false sd post (says false content) (send_file sd fuel content).
Proof.
  intros Hf Hp. revert content Hf. induction fuel as [|fuel IH]; intros content Hf; [lia|]. cbn [send_file].
  destruct (decide (content = [])) as [->|Hne]; [rewrite fs_read_end; by apply plays_end|].
  pose proof (fs_read_some content RESP_SIZE Hne ltac:(unfold RESP_SIZE; lia)) as Hr. set (r := fs_read content RESP_SIZE) in *.
  rewrite (proj2 (Z.eqb_neq _ _)), (proj2 (Z.eqb_neq _ _)) by lia.
  assert (Hlt : length (take (Z.to_nat r) content) = Z.to_nat r) by (rewrite length_take; lia).
  rewrite <- (take_drop (Z.to_nat r) content) at 1. rewrite says_app. apply plays_write.
  - intros E. rewrite E in Hlt. simpl in Hlt. lia.
  - rewrite (proj2 (Z.ltb_ge _ _)) by (unfold blen; lia). apply IH. rewrite length_drop. lia.
Qed.

Lemma plays_process_line sd post name :
  name_ok name -> file_ok name -> post (Done 0) ->
  plays false sd post (says false (fst (response name) ++ default [] (snd (response name)))) (process_line sd name).
Proof.
  intros Hn Hf Hp. destruct (response_ok _ Hn Hf) as (line & lenstr & Hr & _ & Hl & _).
  unfold process_line. destruct (response name) as [resp fd]. cbn [fst snd] in *. subst resp.
  rewrite (proj2 (Nat.leb_gt _ _)) by (rewrite length_app; unfold RESP_SIZE; simpl; lia).
  rewrite says_app. apply plays_write; [by destruct line|]. rewrite (proj2 (Z.ltb_ge _ _)) by (unfold blen; lia).
  destruct fd as [content|]; cbn [default]; [apply plays_send_file; [lia|done]|by apply plays_end].
Qed.

(** The server answers the requests and waits for the next. *)
Definition awaits (sd : Z) {A} (p : prog A) : Prop := exists k, p = Myread sd 1 k.

Lemma plays_serve_requests sd names fuel :
  Forall (fun n => name_ok n /\ file_ok n) names -> (length names < fuel)%nat ->
  plays false sd (fun p => exists fuel', p = serve_requests sd (Datatypes.S fuel')) (conversation names) (serve_requests sd fuel).
Proof.
  intros Hn. revert fuel. induction Hn as [|name names [Hname Hfile] _ IH]; intros fuel Hf; (destruct fuel as [|fuel]; [simpl in Hf; lia|]).
  - apply plays_end. by eexists.
  - change (conversation (name :: names)) with (exchange name ++ conversation names). unfold exchange. rewrite <- !app_assoc.
    pose proof Hname as (Hne & Ht & Hl). cbn [serve_requests].
    apply (plays_nvt false); [eapply Forall_impl; [exact Ht|]; by intros c (_ & ? & ?)|done|]. destruct name as [|x w]; [done|].
    apply plays_bind, plays_process_line; [done|done|]. cbn [prog_bind]. apply IH. simpl in Hf. lia.
Qed.

(** It is then back at the top of its loop, whatever follows the connection. *)
Lemma plays_do_connection_then {B} (g : unit -> prog B) sd names fuel :
  Forall (fun n => name_ok n /\ file_ok n) names -> (length names < fuel)%nat ->
  plays false sd (fun p => exists fuel', p = prog_bind g (do_connection sd (Datatypes.S fuel'))) (conversation names)
    (prog_bind g (do_connection sd fuel)).
Proof.
  intros Hn Hf. rewrite <- (app_nil_r (conversation names)). apply plays_bind. rewrite <- (app_nil_r (conversation names)). apply plays_bind.
  eapply plays_mono; [|by apply plays_serve_requests]. intros p (f & ->). apply plays_end, plays_end. by exists f.
Qed.

Lemma plays_do_connection sd names fuel :
  Forall (fun n => name_ok n /\ file_ok n) names -> (length names < fuel)%nat ->
  plays false sd (awaits sd) (conversation names) (do_connection sd fuel).
Proof.
  intros Hn Hf. rewrite <- (app_nil_r (conversation names)). apply plays_bind.
  eapply plays_mono; [|by apply plays_serve_requests]. intros p (f & ->). apply plays_end. by eexists.
Qed.
End server.

(* ------------------------------------------------------------------ *)
(** * The client *)

Section client.
Context {FS : FileSystem} (quiet : bool) (fwrite : bytes -> nat) (fwrite_all : forall b, fwrite b = length b).

Lemma plays_receive_file sd (post : prog (Z * bytes) -> Prop) fuel content file :
  (length content < fuel)%nat -> blen content < 2 ^ 31 ->
  post (Done (0, if quiet then file else file ++ content)) ->
  plays true sd post (says false content) (receive_file quiet fwrite sd fuel (blen content) file).
Proof.
  revert content file. induction fuel as [|fuel IH]; intros content file Hf Hc Hp; [lia|]. cbn [receive_file].
  destruct (decide (content = [])) as [->|Hne].
  { apply plays_end. replace (if quiet then file else file ++ []) with file in Hp by (destruct quiet; [done|by rewrite app_nil_r]). done. }
  assert (Hl : 0 < blen content) by (unfold blen; destruct content; [done|simpl; lia]).
  rewrite (proj2 (Z.eqb_neq _ _)) by lia. unfold u64. rewrite Z.mod_small by (unfold CLIENT_LINE; lia).
  rewrite <- (app_nil_r (says false content)). apply (plays_read true); [unfold blen, CLIENT_LINE in *; lia|].
  intros i Hi. unfold blen, CLIENT_LINE in Hi. assert (Hti : length (take i content) = i) by (rewrite length_take; lia).
  rewrite (proj2 (Z.leb_gt _ _)), Hti, (proj2 (Nat.ltb_ge _ _)) by (unfold CLIENT_LINE; lia). cbv zeta.
  replace (if Z.of_nat i <? Z.min (blen content) (Z.of_nat CLIENT_LINE) then Z.of_nat i else Z.min (blen content) (Z.of_nat CLIENT_LINE))
    with (Z.of_nat i) by (destruct (Z.ltb_spec (Z.of_nat i) (Z.min (blen content) (Z.of_nat CLIENT_LINE))); [done|unfold blen, CLIENT_LINE in *; lia]).
  assert (Hd : blen content - Z.of_nat i = blen (drop i content)) by (unfold blen; rewrite length_drop; lia).
  rewrite app_nil_r, Hd. assert (Hlt : (length (drop i content) < fuel)%nat) by (rewrite length_drop; lia).
  destruct quiet.
  - apply IH; [done|lia|done].
  - rewrite (proj2 (Z.ltb_ge _ _)), Nat2Z.id, (take_ge (take i content)), fwrite_all, (take_ge (take i content)) by lia.
    apply IH; [done|lia|]. by rewrite <- app_assoc, take_drop.
Qed.

Context (filename : option bytes).

(** One file asked for, on its way to what the rest does with the answer. *)
Lemma plays_ask {B} sd (post : prog B -> Prop) name T len rcvd (f : loop_end + Z * option bytes -> prog B) :
  name_ok name -> file_ok name ->
  (forall n, plays true sd post T
     (f (match filename with
         | None => inr (n, rcvd_after quiet rcvd [name])
         | Some _ => inl (Left (rcvd_after quiet rcvd [name]))
         end))) ->
  plays true sd post (exchange name ++ T) (prog_bind f (ask quiet filename true fwrite sd name len rcvd)).
Proof.
  intros Hn Hf Hp. destruct (response_ok _ Hn Hf) as (line & lenstr & Hr & Ht & Hl & Hfield & Hscan).
  pose proof Hn as (Hne & _ & Hlen). apply plays_bind. unfold exchange, ask, request.
  rewrite Hr, (says_app false (line ++ crlf)).
  rewrite (proj2 (Nat.ltb_ge _ _)) by (unfold CLIENT_LINE, LINE_SIZE in *; lia).
  cbn [mbind prog_mbind prog_bind]. apply plays_write; [by destruct name|].
  rewrite (proj2 (Z.ltb_ge _ _)) by (unfold blen; lia).
  apply (plays_nvt true); [eapply Forall_impl; [exact Ht|]; by intros c (? & ? & _)|unfold CLIENT_LINE; lia|].
  change (Some line ≫= length_field) with (length_field line). rewrite Hfield. unfold scan_length. rewrite Hscan.
  unfold rcvd_after in Hp. cbn [fold_left] in Hp. specialize (Hp (match snd (response name) with Some _ => 0 | None => -1 end)).
  destruct (snd (response name)) as [content|] eqn:Hc.
  - destruct (Hf content Hc) as [_ Hsz]. assert (H0 : 0 <= blen content) by (unfold blen; lia).
    rewrite (proj2 (Z.leb_le _ _)), (proj2 (Z.ltb_lt _ _)) by lia. cbn [andb mbind prog_mbind prog_bind].
    rewrite (proj2 (Z.eqb_neq _ _)) by lia. cbn [negb]. change (default [] (Some content)) with content. rewrite <- (app_nil_r (says false content)).
    apply plays_bind, plays_receive_file; [unfold blen in *; lia|done|]. apply plays_end. cbn. destruct quiet; exact Hp.
  - cbn [mbind prog_mbind prog_bind]. apply plays_end. exact Hp.
Qed.
End client.

(* ------------------------------------------------------------------ *)
(** * What is typed *)

Lemma strip_snoc l c : isspace c = true -> strip (l ++ [c]) = strip l.
Proof. intros Hc. induction l as [|x l IH]; cbn [strip app]; [by rewrite Hc|]. by rewrite IH. Qed.
Lemma strip_prefix l : strip l `prefix_of` l.
Proof.
  induction l as [|x l [u IH]]; [done|]. cbn [strip]. destruct (strip l) as [|y t] eqn:E.
  - destruct (isspace x); [apply prefix_nil|]. by exists l.
  - exists u. by rewrite IH at 1.
Qed.

(** The lines typed at the prompt; the names they ask for, a name of one character
    being ignored; and with the option [-f] that file alone. *)
Definition typed (lines : list bytes) : bytes := mjoin ((fun l => l ++ [10]) <$> lines).
Definition asked (filename : option bytes) (lines : list bytes) : list bytes :=
  match filename with Some name => [name] | None => filter (fun n => (1 < length n)%nat) (strip <$> lines) end.
Definition line_ok (l : bytes) : Prop := Forall (fun c => is_byte c /\ c <> 0 /\ c <> 10) l /\ (length l < LINE_SIZE)%nat.

Lemma strip_name_ok l : line_ok l -> strip l <> [] -> name_ok (strip l).
Proof.
  intros [Hc Hl] Hne. destruct (strip_prefix l) as [u Hu]. split; [done|]. rewrite Hu in Hc, Hl. apply Forall_app in Hc as [Hc _].
  rewrite length_app in Hl. split; [done|lia].
Qed.

Section loop.
Context {FS : FileSystem} (quiet : bool) (fwrite : bytes -> nat) (fwrite_all : forall b, fwrite b = length b).

Lemma plays_loop_lines sd lines fuel len rcvd :
  Forall line_ok lines -> Forall file_ok (asked None lines) -> (length lines < fuel)%nat ->
  plays true sd (fun p => p = Done (Left (rcvd_after quiet rcvd (asked None lines)))) (conversation (asked None lines))
    (loop_until_end quiet None true fwrite sd fuel (typed lines) len rcvd).
Proof.
  intros Hl. revert fuel len rcvd. induction Hl as [|l lines Hl _ IH]; intros fuel len rcvd Hf Hn;
    (destruct fuel as [|fuel]; [simpl in Hn; lia|]); [by apply plays_end|].
  cbn [loop_until_end]. pose proof Hl as [Hc Hlen].
  change (typed (l :: lines)) with ((l ++ [10]) ++ typed lines). rewrite <- app_assoc. change ([10] ++ typed lines) with (10 :: typed lines).
  rewrite fgets_whole; [|eapply Forall_impl; [exact Hc|]; by intros c (_ & _ & H)|unfold LINE_SIZE, CLIENT_LINE in *; lia].
  rewrite cstr_id by (apply Forall_app; split; [eapply Forall_impl; [exact Hc|]; by intros c (_ & H & _)|by constructor]).
  rewrite strip_snoc by done. cbn [asked fmap list_fmap filter list_filter] in *. simpl in Hn.
  destruct (decide (1 < length (strip l))%nat) as [H1|H1].
  - rewrite (proj2 (Nat.leb_gt _ _)) by done. apply Forall_cons in Hf as [Hf1 Hf].
    assert (Hne : strip l <> []) by (intros E; rewrite E in H1; simpl in H1; lia).
    change (conversation (strip l :: ?x)) with (exchange (strip l) ++ conversation x).
    apply plays_ask; [done|by apply strip_name_ok|done|]. intros n. apply IH; [done|lia].
  - rewrite (proj2 (Nat.leb_le _ _)) by lia. apply IH; [done|lia].
Qed.

Lemma plays_loop_file sd name lines fuel len rcvd :
  name_ok name -> file_ok name -> (0 < fuel)%nat ->
  plays true sd (fun p => p = Done (Left (rcvd_after quiet rcvd [name]))) (conversation [name])
    (loop_until_end quiet (Some name) true fwrite sd fuel (typed lines) len rcvd).
Proof.
  intros Hn Hf Hfuel. destruct fuel as [|fuel]; [lia|]. cbn [loop_until_end]. pose proof Hn as (_ & Hc & Hlen).
  rewrite cstr_id by (eapply Forall_impl; [exact Hc|]; by intros c (_ & H & _)).
  rewrite (proj2 (Nat.leb_gt _ _)) by (unfold LINE_SIZE, CLIENT_LINE in *; lia).
  change (conversation [name]) with (exchange name ++ []). apply plays_ask; [done|done|done|]. intros n. by apply plays_end.
Qed.

(** The bytes of a conversation. *)
Lemma conversation_bytes names : Forall (fun n => name_ok n /\ file_ok n) names -> Forall (fun x => is_byte x.2) (conversation names).
Proof.
  induction 1 as [|name names [Hn Hf] _ IH]; [done|]. change (conversation (name :: names)) with (exchange name ++ conversation names).
  apply Forall_app. split; [|done]. destruct (response_ok _ Hn Hf) as (line & lenstr & Hr & Ht & _). unfold exchange. rewrite Hr.
  destruct Hn as (_ & Hc & _). apply Forall_app. split; unfold says; rewrite Forall_fmap; repeat (apply Forall_app; split).
  - eapply Forall_impl; [exact Hc|]. by intros c (H & _).
  - by repeat constructor.
  - eapply Forall_impl; [exact Ht|]. by intros c (_ & _ & H).
  - by repeat constructor.
  - destruct (snd (response name)) as [content|] eqn:E; [|done]. by destruct (Hf content E).
Qed.
End loop.
