(* ===== verification/FtThms.v ===== *)
(** The file transfer from end to end: client.c asks server.c for files over an
    STCP connection. *)

From S2P Require Import Prelude.
From S2P Require Import Bytes.
From S2P Require Import MysockState.
From S2P Require Import Mysock.
From S2P Require Import NetworkIoTcp.
From S2P Require Import App.
From S2P Require Import FtServer.
From S2P Require Import FtClient.
From S2P Require Import StcpSystem.
From S2P Require Import StcpHandshake.
From S2P Require Import StcpSetup.
From S2P Require Import StcpDemo.
From S2P Require Import AppSystem.
From S2P Require Import FtFacts.
From Stdlib Require Import (notations) String.

Section transfer.
Context {K : Kernel} {KOk : KernelOk K} {FS : FileSystem} {FSOk : FileSystemOk FS}.

Lemma rests_done {A} (r : A) : rests (fun p => p = Done r).
Proof. by split. Qed.
Lemma rests_awaits {A} b : rests (fun p : prog A => awaits b p).
Proof. split; [by intros sd buf k [k' [=]]|]. intros sd n k [k' [= _ -> _]]. lia. Qed.

(** The client's loop, on the options, and the lines typed. *)
Lemma plays_client quiet filename fwrite sd lines fuel :
  (forall b, fwrite b = length b) -> Forall (fun n => name_ok n /\ file_ok n) (asked filename lines) -> Forall line_ok lines ->
  (length lines < fuel)%nat ->
  plays true sd (fun p => p = Done (Left (rcvd_after quiet None (asked filename lines)))) (conversation (asked filename lines))
    (loop_until_end quiet filename true fwrite sd fuel (typed lines) None None).
Proof.
  intros Hw Hn Hl Hf. destruct filename as [name|].
  - apply Forall_inv in Hn as [Hn Hfile]. apply plays_loop_file; [done|done|done|lia].
  - apply plays_loop_lines; [done|done| |done]. eapply Forall_impl; [exact Hn|]. by intros n [_ H].
Qed.

Lemma plays_not_crash {A} side sd (post : prog A -> Prop) T f : (forall f, ~ post (Crash f)) -> ~ plays side sd post T (Crash f).
Proof.
  intros Hp H. destruct (plays_head _ _ _ _ _ H) as [[_ ?]|[(? & ? & [=] & _)|(? & ? & ? & [=] & _)]]. by eapply Hp.
Qed.
Lemma plays_done {A} side sd (post : prog A -> Prop) T r : plays side sd post T (Done r) -> post (Done r).
Proof. intros H. by destruct (plays_head _ _ _ _ _ H) as [[_ ?]|[(? & ? & [=] & _)|(? & ? & ? & [=] & _)]]. Qed.

(** C2: the file transfer works from end to end. A client that connected to a
    server asks it for one file or for those named at its prompt; whatever way
    the two programs, the transport and receive threads of both hosts and the
    network take turns, neither program crashes, the client's loop can end in no
    other way than with the last file that exists, byte for byte, in "rcvd", and
    from every state on the way it can be brought to that end, the server then
    waiting for the next request. *)
Theorem file_transfer bind_addr name addr backlog a l b errA errB stA stB stA' stB' quiet filename fwrite lines cfuel sfuel w :
  can_meet bind_addr name addr backlog a l b stA stB ->
  meet bind_addr name addr backlog a l b errA errB stA stB = Some (stA', stB') ->
  let names := asked filename lines in
  Forall (fun n => name_ok n /\ file_ok n) names -> Forall line_ok lines ->
  (forall side, within (bytes_of side (conversation names))) -> (forall d, fwrite d = length d) ->
  (length lines < cfuel)%nat -> (length names < sfuel)%nat ->
  sys_reaches a b
    (mk_world (loop_until_end quiet filename true fwrite a cfuel (typed lines) None None) (do_connection b sfuel)
       (mk_ep stA' [] [], mk_ep stB' [] [])) w ->
  let result := Done (Left (rcvd_after quiet None names)) in
  (forall f, w_left w <> Crash f /\ w_right w <> Crash f)
  /\ (forall r, w_left w = Done r -> w_left w = result)
  /\ exists w', sys_reaches a b w w' /\ w_left w' = result /\ awaits b (w_right w').
Proof.
  intros Hm He names Hn Hl Hwi Hfw Hc Hs Hr result. destruct (meet_ok _ _ _ _ _ _ _ errA errB _ _ Hm) as (x & y & He' & Hconn & _).
  rewrite He in He'. injection He' as <- <-. set (T0 := conversation names).
  assert (Hb : Forall (fun x => is_byte x.2) T0) by by apply conversation_bytes.
  set (postA := fun p : prog loop_end => p = result). set (postB := fun p : prog unit => awaits b p).
  assert (Hi : in_play T0 a b postA postB (length T0 + length T0)
    (mk_world (loop_until_end quiet filename true fwrite a cfuel (typed lines) None None) (do_connection b sfuel)
       (mk_ep stA' [] [], mk_ep stB' [] []))).
  { exists [], T0, [], T0. split; [split; [done|by apply plays_client|done|done]|].
    split; [split; [done|by apply plays_do_connection|done|done]|done]. }
  destruct (in_play_reaches T0 Hb Hwi a b postA postB (rests_done _) (rests_awaits _) _ _ _ Hi Hr) as [n Hiw].
  pose proof Hiw as (X & TX & Y & TY & [_ HA _ _] & [_ HB _ _] & _ & _). split; [|split].
  - intros f. split; intros E; [rewrite E in HA|rewrite E in HB].
    + eapply plays_not_crash; [|exact HA]. by intros f' [=].
    + eapply plays_not_crash; [|exact HB]. by intros f' [k [=]].
  - intros r E. rewrite E in HA |- *. exact (plays_done _ _ _ _ _ HA).
  - destruct (in_play_finishes T0 Hb Hwi a b postA postB (rests_done _) (rests_awaits _) _ _ Hiw) as (w' & Hr' & H0).
    exists w'. split; [done|]. exact (in_play_over T0 a b postA postB w' H0).
Qed.
End transfer.

(* ------------------------------------------------------------------ *)
(** * Instance *)

(** One file, and a [read] that returns what there is. *)
#[local] Instance demo_files : FileSystem := {
  fs_access n := bool_decide (n = str "notes");
  fs_open n := if bool_decide (n = str "notes") then Some (str "abc") else None;
  fs_read rest n := Z.of_nat (n `min` length rest);
}.
#[local] Instance demo_files_ok : FileSystemOk demo_files.
Proof.
  split; [intros n; cbn; lia|]. intros rest n Hr Hn. cbn. destruct rest; [done|simpl; lia].
Qed.
#[local] Existing Instance demo_kernel.
#[local] Existing Instance demo_kernel_ok.

Lemma file_transfer_witness :
  exists w, sys_reaches 0 1
    (mk_world (loop_until_end false (Some (str "notes")) true length 0 1 (typed []) None None) (do_connection 1 2)
       (mk_ep (fst demo_met) [] [], mk_ep (snd demo_met) [] [])) w
    /\ w_left w = Done (Left (Some (str "abc"))) /\ awaits 1 (w_right w).
Proof.
  refine (proj2 (proj2 (file_transfer any_name server_name client_name 5 0 0 1 0 0 (new_host ipA) (new_host ipB)
    (fst demo_met) (snd demo_met) false (Some (str "notes")) length [] 1 2 _ demo_can_meet _ _ _ _ _ _ _ (rtc_refl _ _)))).
  - rewrite demo_meet. by destruct demo_met.
  - apply Forall_cons. split; [|done]. split.
    + split; [done|]. split; [by repeat constructor|vm_compute; lia].
    + intros content [= <-]. split; [by repeat constructor|done].
  - done.
  - by intros [].
  - done.
  - cbn. lia.
  - cbn. lia.
Defined.
