(* ===== verification/Session.v ===== *)
(** Whole sessions: the two applications from their first call on, the stacks of
    their hosts, every thread of both, and what the network does. *)

From S2P Require Import Prelude.
From S2P Require Import Bytes.
From S2P Require Import MysockState.
From S2P Require Import PacketQueue.
From S2P Require Import NetworkIoTcp.
From S2P Require Import Mysock.
From S2P Require Import Transport.
From S2P Require Import MysockApi.
From S2P Require Import App.
From S2P Require Import StcpFacts.
From S2P Require Import TransportFacts.
From S2P Require Import StcpSystem.
From S2P Require Import StcpInvariant.
From S2P Require Import StcpProgress.
From S2P Require Import StcpHandshake.
From S2P Require Import StcpSetup.
From S2P Require Import StcpClose.
From S2P Require Import AppSystem.

(* ------------------------------------------------------------------ *)
(** * Applications *)

(** An application at a call of its program, in the wait of [myconnect] for the
    handshake, or in that of [myclose] for the end of the thread. *)
Inductive app (A : Type) :=
  | Calling (p : prog A)
  | Connecting (sd : Z) (k : Z -> prog A)
  | Closing (sd : Z) (k : Z -> prog A).
Arguments Calling {A} p.
Arguments Connecting {A} sd k.
Arguments Closing {A} sd k.

Section applications.
Context {K : Kernel}.

(** One call, or the end of a wait; [Blocked] when there is nothing to do yet, or
    any more. A mysocket that waits on a listening one does not listen: closing
    takes a depth of two. *)
Definition app_step {A} (x : app A) : M stack (app A) :=
  match x with
  | Calling (Done _) => fail Blocked
  | Calling (Crash f) => fail f
  | Calling (Mysocket reliable k) => r ← mysocket reliable; mret (Calling (k (int_of r)))
  | Calling (Mybind sd addr k) => r ← mybind sd addr; mret (Calling (k (int_of r)))
  | Calling (Mylisten sd backlog k) => r ← mylisten sd backlog; mret (Calling (k (int_of r)))
  | Calling (Myaccept sd k) =>
      '(r, peer) ← myaccept sd; mret (Calling (k (int_of r) (default sockaddr0 (fst <$> peer))))
  | Calling (Myconnect sd addr k) =>
      r ← myconnect_start sd addr SOCKADDR_LEN;
      mret (match r with inl 0 => Connecting sd k | _ => Calling (k (int_of r)) end)
  | Calling (Mygetsockname sd k) => '(r, addr) ← mygetsockname sd; mret (Calling (k (int_of r) addr))
  | Calling (Mywrite sd buf k) => r ← mywrite sd buf; mret (Calling (k (int_of r)))
  | Calling (Myread sd n k) => '(r, data) ← myread sd n; mret (Calling (k (int_of r) data))
  | Calling (Myclose sd k) =>
      c ← _mysock_get_context sd;
      match c with
      | None => mret (Calling (k (-1)))
      | Some _ => _ ← myclose_request sd; mret (Closing sd k)
      end
  | Connecting sd k => r ← _mysock_wait_for_connection sd; mret (Calling (k (int_of r)))
  | Closing sd k => r ← myclose 2 sd; mret (Calling (k (int_of r)))
  end.
End applications.

(* ------------------------------------------------------------------ *)
(** * Steps *)

(** The TCP connection between the two hosts: not yet asked for, asked for and
    not yet accepted, joined to mysocket [b] of the server's host. *)
Inductive link := Unconnected | Waiting | Joined (b : Z).

Record session (A B : Type) := mk_session {
  left_app : app A; right_app : app B;
  left_host : stack; right_host : stack;
  tcp_link : link;
}.
Arguments mk_session {A B} _ _ _ _ _.
Arguments left_app {A B} _.
Arguments right_app {A B} _.
Arguments left_host {A B} _.
Arguments right_host {A B} _.
Arguments tcp_link {A B} _.

(** The socket of mysocket [a] connects to the one that mysocket [l] of the other
    host listens on. *)
Definition connects_to (stA : stack) (a : Z) (stB : stack) (l : Z) : Prop :=
  exists sa ls, global_ctx stA !! a = Some sa /\ global_ctx stB !! l = Some ls
    /\ connected (network_state sa) = true /\ listening ls = true
    /\ s_addr (peer_addr (network_state sa)) = host_ip stB /\ sin_port (peer_addr (network_state sa)) = net_port (network_state ls).

Section steps.
Context {K : Kernel} {A B : Type} (a l : Z).

(** An application makes a call or ends its wait; a transport thread or a receive
    thread of any mysocket goes a round; the connection of mysocket [a] arrives
    at the listener [l], under an address the client's kernel chose; the
    listener's round makes the mysocket [b] for it; the network moves bytes. *)
Inductive session_step : session A B -> session A B -> Prop :=
  | left_calls x x' y st st' stB n :
      app_step x st = Ok (x', st') -> session_step (mk_session x y st stB n) (mk_session x' y st' stB n)
  | right_calls x y y' stA st st' n :
      app_step y st = Ok (y', st') -> session_step (mk_session x y stA st n) (mk_session x y' stA st' n)
  | left_thread sd errno x y st st' stB n :
      transport_thread_func sd errno st = Ok (tt, st') -> session_step (mk_session x y st stB n) (mk_session x y st' stB n)
  | right_thread sd errno x y stA st st' n :
      transport_thread_func sd errno st = Ok (tt, st') -> session_step (mk_session x y stA st n) (mk_session x y stA st' n)
  | left_receives sd r x y st st' stB n :
      network_recv_thread_round sd st = Ok (r, st') -> session_step (mk_session x y st stB n) (mk_session x y st' stB n)
  | right_receives sd r x y stA st st' n :
      n <> Waiting \/ sd <> l -> network_recv_thread_round sd st = Ok (r, st') ->
      session_step (mk_session x y stA st n) (mk_session x y stA st' n)
  | net_connects addr x y stA stB stA' stB' :
      connects_to stA a stB l -> inet addr -> s_addr addr = host_ip stA -> arrive a l addr stA stB = Some (stA', stB') ->
      session_step (mk_session x y stA stB Unconnected) (mk_session x y stA' stB' Waiting)
  | right_accepts b r x y stA st st' :
      network_recv_thread_round l st = Ok (r, st') -> global_ctx st !! b = None -> is_Some (global_ctx st' !! b) ->
      session_step (mk_session x y stA st Waiting) (mk_session x y stA st' (Joined b))
  | net_to_right b k x y stA stB stA' stB' :
      deliver a b k stA stB = Some (stA', stB') ->
      session_step (mk_session x y stA stB (Joined b)) (mk_session x y stA' stB' (Joined b))
  | net_to_left b k x y stA stB stA' stB' :
      deliver b a k stB stA = Some (stB', stA') ->
      session_step (mk_session x y stA stB (Joined b)) (mk_session x y stA' stB' (Joined b)).

(** [R] can be reached from [s]. *)
Definition leads (s : session A B) (R : session A B -> Prop) : Prop := exists s', rtc session_step s s' /\ R s'.

Lemma leads_here s (R : session A B -> Prop) : R s -> leads s R.
Proof. intros H. exists s. split; [apply rtc_refl|done]. Qed.
Lemma leads_step s s' R : session_step s s' -> leads s' R -> leads s R.
Proof. intros Hs (t & Hr & H). exists t. split; [by eapply rtc_l|done]. Qed.
Lemma leads_trans s (P R : session A B -> Prop) : leads s P -> (forall s', P s' -> leads s' R) -> leads s R.
Proof. intros (t & Hr & H) Hk. destruct (Hk t H) as (u & Hu & HR). exists u. split; [by etrans|done]. Qed.

(** A call that must succeed. *)
Lemma leads_left x y stA stB n R :
  wlp (fun _ => False) (app_step x) (fun x' st' => leads (mk_session x' y st' stB n) R) stA ->
  leads (mk_session x y stA stB n) R.
Proof. intros (x' & st' & He & Hl)%wlp_total. eapply leads_step; [by apply left_calls|done]. Qed.
Lemma leads_right x y stA stB n R :
  wlp (fun _ => False) (app_step y) (fun y' st' => leads (mk_session x y' stA st' n) R) stB ->
  leads (mk_session x y stA stB n) R.
Proof. intros (y' & st' & He & Hl)%wlp_total. eapply leads_step; [by apply right_calls|done]. Qed.

(* ------------------------------------------------------------------ *)
(** * A connection within a session *)

(** A state of the two programs and of the connection between [a] and [b]. *)
Definition conversing (b : Z) (w : world A B) : session A B :=
  mk_session (Calling (w_left w)) (Calling (w_right w)) (ep_stack (fst (w_ends w))) (ep_stack (snd (w_ends w))) (Joined b).

Lemma acts_app_step {C} sd p p' e e' : acts (A := C) sd (p, e) (p', e') ->
  app_step (Calling p) (ep_stack e) = Ok (Calling p', ep_stack e').
Proof.
  intros H. inversion H as [buf k e0 r st' He|n k e0 r data st' He]; subst; cbn [app_step]; unfold mbind, M_bind; by rewrite He.
Qed.

Lemma sys_step_session b w w' : sys_step a b w w' -> session_step (conversing b w) (conversing b w').
Proof.
  intros H. destruct H as [p p' q eA eA' eB Ha|p q q' eA eB eB' Ha|p q w w' [He|He]].
  - apply left_calls. by eapply acts_app_step.
  - apply right_calls. by eapply acts_app_step.
  - inversion He; subst; cbn.
    + by eapply left_thread.
    + by eapply left_receives.
    + by eapply net_to_right.
  - destruct w as [eA eB], w' as [eA' eB']. unfold swap in He. cbn in He. inversion He; subst; cbn.
    + by eapply right_thread.
    + eapply right_receives; [by left|done].
    + by eapply net_to_left.
Qed.

Lemma sys_reaches_session b w w' : sys_reaches a b w w' -> rtc session_step (conversing b w) (conversing b w').
Proof. induction 1 as [w|w1 w2 w3 Hs _ IH]; [apply rtc_refl|]. eapply rtc_l; [by apply sys_step_session|done]. Qed.
End steps.

(* ------------------------------------------------------------------ *)
(** * Opening and closing within a session *)

Lemma run_bind {S' T} (m : M stack T) st (k : stack -> option S') r :
  run m st ≫= k = Some r -> exists v st', m st = Ok (v, st') /\ k st' = Some r.
Proof. unfold run. destruct (m st) as [[v st']|]; [|done]. by exists v, st'. Qed.

Lemma option_bind {X Y} (o : option X) (k : X -> option Y) r : o ≫= k = Some r -> exists x, o = Some x /\ k x = Some r.
Proof. destruct o as [x|]; [|done]. by exists x. Qed.

Section phases.
Context {K : Kernel} {KOk : KernelOk K} {A B : Type} (a l b : Z).

Lemma get_context_ok sd st c st' : _mysock_get_context sd st = Ok (c, st') -> st' = st /\ exists s, c = Some s /\ global_ctx st !! sd = Some s.
Proof.
  intros H. assert (W : wlp (fun _ => True) (_mysock_get_context sd)
    (fun c st' => st' = st /\ exists s, c = Some s /\ global_ctx st !! sd = Some s) st).
  { unfold _mysock_get_context, verify_mysocket_descriptor. wgo. apply wlp_massert. destruct (_ && _); [|done]. wgo.
    destruct (global_ctx st !! sd) as [s|] eqn:Hg; [|by wgo]. apply wlp_massert. destruct (my_sd s =? sd); [|done]. wgo.
    split; [reflexivity|by exists s]. }
  unfold wlp in W. by rewrite H in W.
Qed.

Lemma thread_has_sock sd errno st r : transport_thread_func sd errno st = Ok r -> is_Some (global_ctx st !! sd).
Proof.
  unfold transport_thread_func, the_context, mbind, M_bind. intros H.
  destruct (_mysock_get_context sd st) as [[c st']|] eqn:E; [|done].
  apply get_context_ok in E as (_ & s & _ & E). by exists s.
Qed.

(** The client's thread may start at once. *)
Lemma leads_open x y addr eA eB stA stB stA' stB' (R : session A B -> Prop) :
  open_connection a l b eA eB addr stA stB = Some (stA', stB') ->
  (forall st, run (transport_thread_func a eA) stA = Some st -> connects_to st a stB l /\ inet addr /\ s_addr addr = host_ip st) ->
  global_ctx stB !! b = None -> b <> l ->
  leads a l (mk_session x y stA' stB' (Joined b)) R -> leads a l (mk_session x y stA stB Unconnected) R.
Proof.
  intros Ho Hc Hb Hne HR. unfold open_connection in Ho.
  pose proof (run_bind _ _ _ _ Ho) as ([] & st1 & H1 & Ho1). destruct (Hc st1) as (C1 & C2 & C3); [unfold run; by rewrite H1|].
  apply option_bind in Ho1 as ([st2 stB1] & H2 & Ho2). apply run_bind in Ho2 as (r2 & stB2 & H3 & Ho2).
  unfold finish_opening in Ho2. apply run_bind in Ho2 as ([] & stB3 & H4 & Ho2). apply run_bind in Ho2 as ([] & stB4 & H5 & Ho2).
  apply option_bind in Ho2 as ([stB5 st3] & H6 & Ho2). apply run_bind in Ho2 as (r7 & st4 & H7 & Ho2).
  apply run_bind in Ho2 as ([] & st5 & H8 & Ho2). apply option_bind in Ho2 as ([st6 stB6] & H9 & Ho2).
  apply run_bind in Ho2 as (r10 & stB7 & H10 & Ho2). apply run_bind in Ho2 as ([] & stB8 & H11 & [= -> ->]).
  eapply leads_step; [by eapply left_thread|]. eapply leads_step; [by eapply net_connects|].
  assert (Hb1 : global_ctx stB1 !! b = None).
  { unfold arrive in H2. destruct (global_ctx st1 !! a), (global_ctx stB !! l) as [ls|]; [|done..]. injection H2 as <- <-.
    simpl. by rewrite lookup_insert_ne. }
  eapply leads_step; [eapply (right_accepts _ _ b); [done|done|by eapply thread_has_sock]|].
  eapply leads_step; [by eapply right_thread|]. eapply leads_step; [by eapply right_thread|].
  eapply leads_step; [by eapply net_to_left|]. eapply leads_step; [by eapply left_receives|].
  eapply leads_step; [by eapply left_thread|]. eapply leads_step; [by eapply net_to_right|].
  eapply leads_step; [eapply right_receives; [by left|done]|]. eapply leads_step; [by eapply right_thread|]. exact HR.
Qed.

Lemma app_step_close {C} sd k st st' :
  myclose_request sd st = Ok (tt, st') -> app_step (A := C) (Calling (Myclose sd k)) st = Ok (Closing sd k, st').
Proof.
  unfold myclose_request, the_context, mbind, M_bind, deref. intros H. cbn [app_step]. unfold mbind, M_bind.
  destruct (_mysock_get_context sd st) as [[c st1]|] eqn:E; [|done].
  pose proof (get_context_ok _ _ _ _ E) as (-> & s & -> & _). unfold myclose_request, the_context, mbind, M_bind, deref.
  rewrite E. cbn in *. by rewrite H.
Qed.

(** The client closes, the server's application reads the end of the stream and
    closes. *)
Lemma leads_close (r : A) eA eB kr (q : prog B) stA stB stA' stB' (R : session A B -> Prop) :
  orderly_close a b eA eB 1 stA stB = Some (stA', stB') ->
  kr 0 [] = Myclose b (fun _ => q) ->
  leads a l (mk_session (Calling (Done r)) (Calling q) stA' stB' (Joined b)) R ->
  leads a l (mk_session (Calling (Myclose a (fun _ => Done r))) (Calling (Myread b 1 kr)) stA stB (Joined b)) R.
Proof.
  intros Ho Hk HR. unfold orderly_close in Ho.
  apply run_bind in Ho as ([] & st1 & H1 & Ho). apply run_bind in Ho as ([] & st2 & H2 & Ho).
  apply option_bind in Ho as ([st3 stB1] & H3 & Ho). apply run_bind in Ho as (r4 & stB2 & H4 & Ho).
  apply run_bind in Ho as ([] & stB3 & H5 & Ho). apply option_bind in Ho as (stB4 & H6 & Ho).
  apply option_bind in Ho as ([stB5 st4] & H7 & Ho). apply run_bind in Ho as (r8 & st5 & H8 & Ho).
  apply run_bind in Ho as ([] & st6 & H9 & Ho). apply run_bind in Ho as ([] & stB6 & H10 & Ho).
  apply run_bind in Ho as ([] & stB7 & H11 & Ho). apply option_bind in Ho as ([stB8 st7] & H12 & Ho).
  apply run_bind in Ho as (r13 & st8 & H13 & Ho). apply run_bind in Ho as ([] & st9 & H14 & Ho).
  apply option_bind in Ho as ([st10 stB9] & H15 & Ho). apply run_bind in Ho as (r16 & stB10 & H16 & Ho).
  apply run_bind in Ho as ([] & stB11 & H17 & Ho). apply run_bind in Ho as (r18 & st11 & H18 & Ho).
  apply run_bind in Ho as (r19 & stB12 & H19 & [= -> ->]).
  eapply leads_step; [apply left_calls, app_step_close, H1|]. eapply leads_step; [by eapply left_thread|].
  eapply leads_step; [by eapply net_to_right|]. eapply leads_step; [eapply right_receives; [by left|done]|].
  eapply leads_step; [by eapply right_thread|].
  eapply (leads_step _ _ _ (mk_session _ (Calling (Myclose b (fun _ => q))) _ stB4 _)).
  { apply right_calls. rewrite <- Hk. cbn [app_step]. unfold read_eof in H6. unfold mbind, M_bind.
    destruct (myread b 1 stB3) as [[[[z|] [|]] st]|]; try done; destruct z; try done. by injection H6 as ->. }
  eapply leads_step; [by eapply net_to_left|]. eapply leads_step; [by eapply left_receives|].
  eapply leads_step; [by eapply left_thread|]. eapply leads_step; [apply right_calls, app_step_close, H10|].
  eapply leads_step; [by eapply right_thread|]. eapply leads_step; [by eapply net_to_left|].
  eapply leads_step; [by eapply left_receives|]. eapply leads_step; [by eapply left_thread|].
  eapply leads_step; [by eapply net_to_right|]. eapply leads_step; [eapply right_receives; [by left|done]|].
  eapply leads_step; [by eapply right_thread|].
  eapply (leads_step _ _ _ (mk_session (Calling (Done r)) _ stA' _ _)).
  { apply left_calls. cbn [app_step]. unfold mbind, M_bind. by rewrite H18. }
  eapply (leads_step _ _ _ (mk_session _ (Calling q) _ stB' _)).
  { apply right_calls. cbn [app_step]. unfold mbind, M_bind. by rewrite H19. }
  exact HR.
Qed.
End phases.

(* ------------------------------------------------------------------ *)
(** * What a conversation leaves as it is *)

(** Mysocket [sd] keeps its role, and nothing else of the host changes. *)
Definition stays (sd : Z) (st st' : stack) : Prop :=
  elsewhere sd st st' /\ forall s c, runs sd st s c -> exists s' c', runs sd st' s' c' /\ role s' c' = role s c.

Lemma stays_refl sd st : stays sd st st.
Proof. split; [apply elsewhere_refl|]. intros s c H. by exists s, c. Qed.
Lemma stays_trans sd st1 st2 st3 : stays sd st1 st2 -> stays sd st2 st3 -> stays sd st1 st3.
Proof.
  intros [E1 H1] [E2 H2]. split; [by eapply elsewhere_trans|]. intros s c (s' & c' & Hr & Ho)%H1.
  destruct (H2 _ _ Hr) as (s'' & c'' & Hr' & Ho'). exists s'', c''. split; [done|congruence].
Qed.

Lemma runs_unique sd st s c s' c' : runs sd st s c -> runs sd st s' c' -> s' = s /\ c' = c.
Proof. intros [H1 H2] [H3 H4]. split; congruence. Qed.

Lemma stays_intro sd st s c st' s' c' :
  runs sd st s c -> elsewhere sd st st' -> runs sd st' s' c' -> role s' c' = role s c -> stays sd st st'.
Proof. intros Hr He Hr' Ho. split; [done|]. intros s0 c0 H0. destruct (runs_unique _ _ _ _ _ _ Hr H0) as [-> ->]. by exists s', c'. Qed.

(** A function of the mysocket that keeps what [role] looks at. *)
Lemma stays_sock sd st s c s' : runs sd st s c -> (forall c, role s' c = role s c) -> stays sd st (sock_at st sd s').
Proof.
  intros Hr Ho. eapply stays_intro; [exact Hr|apply elsewhere_sock| |apply Ho]. split; [apply lookup_insert_eq|by destruct Hr].
Qed.

Section staying.
Context {K : Kernel} {KOk : KernelOk K}.

Lemma env_step_stays sd1 sd2 e1 e2 e1' e2' :
  env_step sd1 sd2 (e1, e2) (e1', e2') -> connection sd1 sd2 e1 e2 ->
  stays sd1 (ep_stack e1) (ep_stack e1') /\ stays sd2 (ep_stack e2) (ep_stack e2').
Proof.
  intros Hs (s1 & c1 & s2 & c2 & H1 & H2 & w12 & w21 & Hl). inversion Hs; subst; clear Hs; cbn [ep_stack].
  - split; [|apply stays_refl].
    pose proof (wlp_transport_linked waits _ _ _ _ _ _ _ _ _ _ _ _ _ H1 Hl errno) as Hw. unfold wlp in Hw.
    match goal with H : transport_thread_func _ _ _ = _ |- _ => rewrite H in Hw end.
    destruct Hw as (s' & c' & _ & _ & Hr & He & Ho & _); [done|]. by eapply stays_intro.
  - split; [|apply stays_refl].
    pose proof (wlp_receive_linked waits _ _ _ _ _ _ _ _ _ _ _ _ _ H1 Hl) as Hw. unfold wlp in Hw.
    match goal with H : network_recv_thread_round _ _ = _ |- _ => rewrite H in Hw end.
    destruct Hw as (_ & s' & c' & _ & _ & Hr & He & Ho & _); [done|]. by eapply stays_intro.
  - match goal with H : deliver _ _ _ _ _ = _ |- _ =>
      destruct (deliver_linked _ _ _ _ _ _ _ _ _ _ _ _ _ H1 Hl _ _ _ _ H2 H) as (s1' & s2' & H1' & H2' & [E1 O1] & [E2 O2] & _) end.
    split; by eapply stays_intro.
Qed.

Lemma acts_stays {A} sd1 sd2 (p p' : prog A) e1 e1' e2 :
  acts sd1 (p, e1) (p', e1') -> connection sd1 sd2 e1 e2 -> stays sd1 (ep_stack e1) (ep_stack e1').
Proof.
  intros Ha (s1 & c1 & s2 & c2 & H1 & _ & w12 & w21 & Hl). pose proof H1 as [Hs _].
  pose proof Hl as ([P1 (P2 & P3 & P4 & _) _ _ _ _ _] & _).
  inversion Ha as [buf k e0 r st' He|n k e0 r data st' He]; subst; cbn [ep_stack].
  - assert (W : wlp (fun _ => True) (mywrite sd1 buf) (fun _ st' => stays sd1 (ep_stack e1) st') (ep_stack e1)).
    2:{ unfold wlp in W. by rewrite He in W. }
    set (P := stays sd1 (ep_stack e1)). rewrite <- (sock_at_same _ _ _ Hs). unfold mywrite. wgo. apply wlp_get_context; [done|]. wgo. rewrite P2, P3. cbn [negb]. wgo.
    apply wlp_at_sock. unfold enqueue_app_recv. wgo. by eapply stays_sock.
  - assert (W : wlp (fun _ => True) (myread sd1 n) (fun _ st' => stays sd1 (ep_stack e1) st') (ep_stack e1)).
    2:{ unfold wlp in W. by rewrite He in W. }
    set (P := stays sd1 (ep_stack e1)). rewrite <- (sock_at_same _ _ _ Hs). unfold myread. wgo. apply wlp_get_context; [done|]. wgo. rewrite P2, P3, P4. cbn [negb]. wgo.
    apply wlp_at_sock. unfold dequeue_app_send, _mysock_dequeue_buffer. wgo.
    destruct (app_send_queue s1) as [|d q]; [done|]. destruct (_ && _); wgo; (destruct (_ =? 0)%nat; wgo; [apply wlp_at_sock; wgo|]); by eapply stays_sock.
Qed.

(** One side's connection and everything else, through any conversation that keeps
    to a script. *)
Context (T0 : script) (Hbytes : Forall (fun x => is_byte x.2) T0) (Hwithin : forall side, within (bytes_of side T0)).
Context {A B : Type} (a b : Z) (postA : prog A -> Prop) (postB : prog B -> Prop) (HrA : rests postA) (HrB : rests postB).

Definition both_stay (w w' : world A B) : Prop :=
  stays a (ep_stack (fst (w_ends w))) (ep_stack (fst (w_ends w'))) /\ stays b (ep_stack (snd (w_ends w))) (ep_stack (snd (w_ends w'))).

Lemma sys_step_stays n w w' : in_play T0 a b postA postB n w -> sys_step a b w w' -> both_stay w w'.
Proof.
  intros (X & TX & Y & TY & _ & _ & Hc & _) Hs. unfold both_stay.
  destruct Hs as [p p' q eA eA' eB Ha|p q q' eA eB eB' Ha|p q [eA eB] [eA' eB'] [He|He]]; cbn in *.
  - split; [by eapply acts_stays|apply stays_refl].
  - split; [apply stays_refl|]. eapply acts_stays; [exact Ha|by apply connection_sym].
  - by eapply env_step_stays.
  - apply connection_sym in Hc. destruct (env_step_stays _ _ _ _ _ _ He Hc). done.
Qed.

Lemma sys_reaches_stays n w w' : in_play T0 a b postA postB n w -> sys_reaches a b w w' -> both_stay w w'.
Proof.
  intros Hi Hr. revert n Hi. induction Hr as [w|w1 w2 w3 Hs _ IH]; intros n Hi; [split; apply stays_refl|].
  destruct (in_play_step T0 Hbytes Hwithin a b postA postB HrA HrB _ _ _ Hi Hs) as (n' & _ & Hi'). specialize (IH _ Hi').
  pose proof (sys_step_stays _ _ _ Hi Hs) as [H1 H2]. destruct IH as [H3 H4]. split; by eapply stays_trans.
Qed.
End staying.

(** With nothing left to do an end is quiet. *)
Lemma drained_quiet sd1 sd2 s1 c1 w1 r1 s2 c2 w2 r2 w12 w21 active lsd :
  linked_at sd1 sd2 s1 c1 w1 r1 s2 c2 w2 r2 w12 w21 -> load s1 s2 w12 w21 = 0%nat ->
  role s1 c1 = (active, lsd, true, active) -> active = true \/ lsd <> -1 -> quiet sd1 s1 c1 active.
Proof.
  intros (H1 & H2 & _ & H4 & H5 & _) Hz Ho Hlsd. unfold role in Ho. injection Ho as O1 O2 O3 O4. unfold load in Hz.
  destruct (work_zero s1) as (_ & Q2 & Q3 & Q4); [lia|]. rewrite (carrying_zero w21) in H5 by lia. apply app_eq_nil in H5 as [Hin _].
  assert (Hout : net_out (network_state s1) = []).
  { assert (Hw : work s1 = 0%nat) by lia. unfold work in Hw. by destruct (net_out (network_state s1)); [|lia]. }
  destruct H1 as [P1 (P2 & P3 & P4 & P5) P6 P7 _ _ _]. unfold phase in P7. injection P7 as D1 D2.
  split; [|done| |done|done|done].
  - split; [done|done|done| |done]. split; [done|]. unfold in_handshake. by rewrite D2.
  - split; [done|]. split; [done|]. by rewrite O2.
Qed.
