(* ===== verification/SessionThms.v ===== *)
(** The file server and its clients from their first calls to their last: the
    server starts, and clients come one after the other, connect, are sent their
    files and close; the server is then where it was before. *)

From S2P Require Import Prelude.
From S2P Require Import Bytes.
From S2P Require Import Stdio.
From S2P Require Import MysockHash.
From S2P Require Import MysockState.
From S2P Require Import NetworkIoTcp.
From S2P Require Import TcpSum.
From S2P Require Import Mysock.
From S2P Require Import ConnectionDemux.
From S2P Require Import Transport.
From S2P Require Import MysockApi.
From S2P Require Import App.
From S2P Require Import FtServer.
From S2P Require Import FtClient.
From S2P Require Import DemuxFacts.
From S2P Require Import StcpFacts.
From S2P Require Import StcpSystem.
From S2P Require Import StcpInvariant.
From S2P Require Import StcpProgress.
From S2P Require Import StcpHandshake.
From S2P Require Import StcpSetup.
From S2P Require Import StcpDemo.
From S2P Require Import StcpClose.
From S2P Require Import AppSystem.
From S2P Require Import FtFacts.
From S2P Require Import FtThms.
From S2P Require Import Session.
From Stdlib Require Import (notations) String.

(* ------------------------------------------------------------------ *)
(** * A server that waits for clients *)

(** The listener [l], at port [p], has no connection; the next mysocket is [b]. *)
Record serving (st : stack) (l b p : Z) (ls : mysock_context) (m : gmap Z listen_queue_t) (q : listen_queue_t) : Prop := {
  serving_sock : has_sock st l ls;
  serving_flags : listening ls = true /\ bound ls = true /\ is_active ls = false;
  serving_net : is_reliable (network_state ls) = true /\ accept_queue (network_state ls) = []
    /\ new_socket (network_state ls) = None /\ net_port (network_state ls) = p;
  serving_table : listens st m /\ m !! l = Some q /\ queue_ok q /\ 0 < max_len q;
  serving_idle : cur_len q = 0 /\ completed_queue q = [] /\ Forall (fun r => r = INVALIDATE_CONNECT_REQUEST) (connection_queue q);
  serving_next : first_free (global_ctx st) 0 MAX_NUM_CONNECTIONS = Some b;
}.

Lemma serving_ready st l b p ls m q na addr :
  serving st l b p ls m q -> inet addr -> s_addr addr = net_interface_ip na -> s_addr (peer_addr na) = host_ip st ->
  server_ready st l b ls m q na addr.
Proof.
  intros [H1 H2 (N1 & N2 & N3 & _) (T1 & T2 & T3 & T4) (I1 & I2 & I3) H6] (A1 & A2 & A3) Ha Hp.
  pose proof (first_free_spec (global_ctx st) 0 MAX_NUM_CONNECTIONS) as Hs. rewrite H6 in Hs.
  split; [done|done|done| | |done].
  - split; [done|]. split; [done|]. split; [done|lia].
  - split; [done|]. eapply Forall_impl; [exact I3|]. simpl. intros r ->. simpl. split; [|lia]. intros <-. simpl in A2. lia.
Qed.

(** A connection that came, was accepted and is closed again. *)
Lemma serving_again st l b p ls m q addr k tbl tbl2 st' tr :
  serving st l b p ls m q -> pending_at q k addr b ->
  hash_repr MAX_NUM_CONNECTIONS tbl2 (<[l := queue_accepted (queue_taken q k addr b) k []]> m) ->
  elsewhere b (set_listen_table tbl2 (thread_at (accepting st l ls addr tbl) b tr)) st' ->
  serving (thread_at (set_global_ctx (delete b (global_ctx st')) st') b Finished) l b p (listener_after ls addr) m q.
Proof.
  intros [[Hg Hpl] H2 (N1 & N2 & N3 & N4) (T1 & T2 & T3 & T4) (I1 & I2 & I3) H6] (_ & _ & r & Hr & _) Hr2 (E1 & E2 & E3 & _).
  pose proof (first_free_spec (global_ctx st) 0 MAX_NUM_CONNECTIONS) as Hs. rewrite H6 in Hs. destruct Hs as (Hb & Hbn & _).
  assert (Hne : b <> l) by congruence. cbn in E2, E3.
  assert (Hctx : delete b (global_ctx st') = <[l := listener_after ls addr]> (global_ctx st)).
  { rewrite E3. apply delete_id. simpl. by rewrite lookup_insert_ne. }
  assert (Hq : queue_accepted (queue_taken q k addr b) k [] = q).
  { rewrite Forall_forall in I3. pose proof (I3 r (list_elem_of_lookup_2 _ _ _ Hr)) as ->.
    clear - I1 I2 Hr. unfold queue_accepted, queue_taken. destruct q as [port mx cl bk cq cp]. cbn in *. subst cl cp.
    transitivity (mk_listen port mx 0 bk (<[k := INVALIDATE_CONNECT_REQUEST]> (<[k := mk_request addr SOCKADDR_LEN b]> cq)) []); [reflexivity|].
    f_equal. rewrite list_insert_insert_eq. by apply list_insert_id. }
  rewrite Hq, insert_id in Hr2 by done. split; try done.
  - split; [|exact Hpl]. simpl. rewrite Hctx. apply lookup_insert_eq.
  - split; [|done]. unfold listens. simpl. by rewrite E2.
  - rewrite <- H6. apply first_free_dom. simpl. rewrite Hctx. apply dom_insert_lookup_L. by eexists.
Qed.

(* ------------------------------------------------------------------ *)
(** * The server starts *)

Section server.
Context {K : Kernel} {KOk : KernelOk K} {FS : FileSystem} (hostname : option bytes).

Lemma wlp_mygetsockname F sd st s (Q : ret_t * sockaddr -> stack -> Prop) :
  placed sd s -> sa_family (local_addr (network_state s)) = AF_INET ->
  (forall a, sin_port a = net_port (network_state s) -> Q (inl 0, a) (sock_at st sd s)) ->
  wlp F (mygetsockname sd) Q (sock_at st sd s).
Proof.
  intros Hp Hf HQ. unfold mygetsockname. wgo. apply wlp_get_context; [done|]. wgo. rewrite Hf, Z.eqb_refl, orb_true_r. wgo. by apply HQ.
Qed.

(** A host on which the server can start: the listener will be [l], the first
    connection [b], the port [p]. *)
Record server_host (st : stack) (l b p : Z) : Prop := {
  host_listener : first_free (global_ctx st) 0 MAX_NUM_CONNECTIONS = Some l;
  host_end : forall s, first_free (<[l := s]> (global_ctx st)) 0 MAX_NUM_CONNECTIONS = Some b;
  host_listens : exists m, listens st m /\ m !! l = None;
  host_port : bind_port 0 = Some p /\ 0 < ntohs p;
  host_name : exists h, hostname = Some h /\ (length (cstr h ++ str ":" ++ print_u (ntohs p)) < 256)%nat;
}.

Lemma server_starts {A} (x : app A) stA n stB l b p conns fuel a (R : session A Z -> Prop) :
  server_host stB l b p ->
  (forall st ls m q, serving st l b p ls m q -> host_ip st = host_ip stB ->
     leads a l (mk_session x (Calling (accept_loop l conns fuel)) stA st n) R) ->
  leads a l (mk_session x (Calling (server_main hostname true conns fuel)) stA stB n) R.
Proof.
  intros [Hl Hb (m & Hm & Hnone) [Hp Hp0] (h & -> & Hlen)] HR. unfold server_main.
  apply leads_right. cbn [app_step]. wgo. apply (wlp_mysocket _ l); [done|]. intros Hpl _. wgo.
  pose proof Hpl as [_ Hl0]. cbn [int_of]. rewrite (proj2 (Z.ltb_ge l 0)) by lia.
  apply leads_right. cbn [app_step]. wgo. eapply wlp_mybind; [done|done|done|exact Hp|]. wgo.
  change (int_of (inl 0) <? 0) with false. cbv iota.
  apply leads_right. cbn [app_step]. wgo. eapply (wlp_mylisten _ stB m); [done..|]. intros tbl Hr. wgo.
  change (int_of (inl 0) <? 0) with false. cbv iota.
  apply leads_right. cbn [app_step local_name mbind prog_mbind prog_bind]. wgo. apply wlp_mygetsockname; [done|done|].
  intros sin Hsin. wgo. change (int_of (inl 0) <? 0) with false. cbv iota.
  cbn [network_state listening_on bound_to set_network_state net_port set_recv_thread_started set_net_port] in Hsin.
  rewrite Hsin, (proj2 (Nat.leb_gt _ _)) by done. cbn [prog_bind].
  eapply HR; [|done]. split.
  - split; [apply sock_at_lookup|exact Hpl].
  - done.
  - done.
  - split; [exact Hr|]. split; [apply lookup_insert_eq|]. split; [by apply empty_queue_ok|done].
  - split; [done|]. split; [done|]. by apply Forall_replicate.
  - apply Hb.
Qed.
End server.

(* ------------------------------------------------------------------ *)
(** * A client is served *)

(** A client: the options, the address and the lines it is given, how [fwrite]
    behaves, the bound of its loop, and its host. *)
Record client := mk_client {
  cl_quiet : bool; cl_filename : option bytes; cl_address : bytes; cl_lines : list bytes;
  cl_fwrite : bytes -> nat; cl_fuel : nat; cl_host : stack;
}.
Definition cl_names (c : client) : list bytes := asked (cl_filename c) (cl_lines c).

Section clients.
Context {K : Kernel} {KOk : KernelOk K} {FS : FileSystem} {FSOk : FileSystemOk FS}.
Context (inet_addr gethostbyname : bytes -> option Z).

Definition cl_prog (c : client) : prog (Z * option bytes) :=
  client_main (cl_quiet c) (cl_filename c) true (cl_fwrite c) inet_addr gethostbyname true (cl_address c) (cl_fuel c) (typed (cl_lines c)).

(** What it ends with: status 0 and the last file asked for that exists. *)
Definition cl_result (c : client) : Z * option bytes := (0, rcvd_after (cl_quiet c) None (cl_names c)).

(** A client of the server at port [p] of [ip]: its host gives it mysocket 0, its
    address resolves, and it asks for names and files within the limits. *)
Record client_ok (c : client) (ip p : Z) : Prop := {
  client_host : first_free (global_ctx (cl_host c)) 0 MAX_NUM_CONNECTIONS = Some 0;
  client_ip : 0 < host_ip (cl_host c) < 4294967296;
  client_server : exists name, parse_address inet_addr gethostbyname (cl_address c) = Done (Some name)
    /\ inet name /\ s_addr name = ip /\ sin_port name = p;
  client_names : Forall (fun n => name_ok n /\ file_ok n) (cl_names c);
  client_lines : Forall line_ok (cl_lines c) /\ (length (cl_lines c) < cl_fuel c)%nat;
  client_within : forall side, within (bytes_of side (conversation (cl_names c)));
  client_fwrite : forall d, cl_fwrite c d = length d;
}.

(** The client and the server at work. *)
Definition cl_work (c : client) : prog (Z * option bytes) :=
  e ← loop_until_end (cl_quiet c) (cl_filename c) true (cl_fwrite c) 0 (cl_fuel c) (typed (cl_lines c)) None None;
  match e with
  | Exited rcvd => Done (255, rcvd)
  | Left rcvd => Myclose 0 (fun _ => Done (0, rcvd))
  end.
Definition sv_work (l b : Z) (conns fuel : nat) : prog Z := _ ← do_connection b fuel; accept_loop l conns fuel.

(** The server's host [st] once it accepted a client as [b], but for [b] itself. *)
Definition has_accepted (st : stack) (l b : Z) (ls : mysock_context) (m : gmap Z listen_queue_t) (q : listen_queue_t)
    (addr : sockaddr) (st' : stack) : Prop :=
  exists k tbl tbl2 tr, pending_at q k addr b
    /\ hash_repr MAX_NUM_CONNECTIONS tbl2 (<[l := queue_accepted (queue_taken q k addr b) k []]> m)
    /\ elsewhere b (set_listen_table tbl2 (thread_at (accepting st l ls addr tbl) b tr)) st'.

(** An end in its role. *)
Definition in_role (sd : Z) (st : stack) (active : bool) : Prop :=
  exists s c lsd, runs sd st s c /\ role s c = (active, lsd, true, active) /\ (active = true \/ lsd <> -1).

Lemma in_role_stays sd st st' active : in_role sd st active -> stays sd st st' -> in_role sd st' active.
Proof. intros (s & c & lsd & Hr & Ho & Hl) [_ H]. destruct (H s c Hr) as (s' & c' & Hr' & Ho'). exists s', c', lsd. by rewrite Ho'. Qed.

(** The thread of a client calls the listener its peer is. *)
Lemma syn_connects stA a s e (Hcl : client_ready stA a s) st l ls st1 :
  global_ctx st !! l = Some ls -> listening ls = true ->
  run (transport_thread_func a e) stA = Some st1 -> s_addr (peer_addr (network_state s)) = host_ip st ->
  sin_port (peer_addr (network_state s)) = net_port (network_state ls) ->
  connects_to st1 a st l /\ host_ip st1 = host_ip stA.
Proof.
  intros Hl Hlis H1 Ha Hp. destruct Hcl as [[Hg Hps] [Ht _] (Hact & _) _ [Hcall _]].
  assert (Hst : stA = sock_at (thread_at stA a Starting) a s).
  { unfold sock_at, thread_at, set_transports, set_global_ctx. simpl. rewrite !insert_id by done. by destruct stA. }
  set (P := fun st1 => st1 = sock_at (thread_at stA a (Running (set_connection_state CSTATE_SYN_SENT new_context))) a
    (sent [sealed (network_state s) SYN] (connects s))).
  destruct (wlp_total (transport_thread_func a e) (fun _ => P) stA) as ([] & ? & W & ->).
  { rewrite Hst. by apply wlp_start_active. }
  unfold run in H1. rewrite W in H1. injection H1 as <-. split; [|done].
  eexists _, ls. split; [apply sock_at_lookup|]. done.
Qed.

(** The client connects and is accepted. *)
Lemma client_connects c st l b p ls m q conns fuel addr (R : session (Z * option bytes) Z -> Prop) :
  serving st l b p ls m q -> client_ok c (host_ip st) p -> is_Some (bind_port 0) ->
  inet addr -> s_addr addr = host_ip (cl_host c) ->
  (forall stA stB, connection 0 b (mk_ep stA [] []) (mk_ep stB [] []) -> in_role 0 stA true -> in_role b stB false ->
     has_accepted st l b ls m q addr stB ->
     leads 0 l (mk_session (Calling (cl_work c)) (Calling (sv_work l b conns fuel)) stA stB (Joined b)) R) ->
  leads 0 l (mk_session (Calling (cl_prog c)) (Calling (accept_loop l (S conns) fuel)) (cl_host c) st Unconnected) R.
Proof.
  intros Hsv Hc [p0 Hp0] Hi Hia HR. pose proof Hc as [C1 C2 (name & Hpa & Hname & Hn1 & Hn2) _ _ _ _].
  pose proof Hsv as [Hsock (Hlis & _) (_ & _ & _ & Hport) _ (_ & Hcq & _) Hfree].
  pose proof (first_free_spec (global_ctx st) 0 MAX_NUM_CONNECTIONS) as Hs. rewrite Hfree in Hs. destruct Hs as (Hb & Hbn & _).
  assert (Hne : b <> l) by (destruct Hsock; congruence).
  unfold cl_prog, client_main. rewrite Hpa. cbn [mbind prog_mbind prog_bind].
  rewrite (proj2 (Z.eqb_neq _ _)) by (destruct Hname as (_ & ? & _); lia).
  apply leads_left. cbn [app_step]. wgo. apply (wlp_mysocket _ 0); [done|]. intros Hpl _. wgo. change (int_of (inl 0) <? 0) with false. cbv iota.
  apply leads_left. cbn [app_step]. wgo. eapply wlp_myconnect_start; [done|exact Hp0|done|done|]. intros s stA1 Hcl Hpe Hif. wgo.
  destruct (open_connection_ok stA1 0 s l b ls m q addr st 0 0 Hcl) as (stA2 & stB2 & Ho & Hcon & Hop).
  { eapply serving_ready; [exact Hsv|done|by rewrite Hif|by rewrite Hpe]. }
  eapply leads_open; [exact Ho| |done|done|].
  { intros st1 H1. destruct Hsock as [Hgl _]. 
    destruct (syn_connects _ _ _ _ Hcl _ _ _ _ Hgl Hlis H1) as [Hto Hip]; [by rewrite Hpe|by rewrite Hpe, Hport|].
    split; [done|]. split; [done|]. by rewrite Hip. }
  destruct (opened_accept stA1 0 s st l b ls m q addr 0 0 stA2 stB2 (network_state s)) as (tbl2 & k & Hacc & Hpend & Hr2);
    [eapply serving_ready; [exact Hsv|done|by rewrite Hif|by rewrite Hpe]|exact Hop|done|by left|].
  destruct Hop as (-> & tbl & k' & Hpend' & _ & ->).
  (* the client's wait is over *)
  apply leads_left. cbn [app_step]. unfold _mysock_wait_for_connection. wgo. apply wlp_at_sock. wgo.
  change (blocking (client_end 0 s)) with false. cbv iota. wgo. change (stcp_errno (client_end 0 s)) with 0.
  change (int_of (if 0 =? 0 then inl 0 else inr 0) <? 0) with false. cbv iota.
  change (int_of (if 0 =? 0 then inl 0 else inr 0)) with 0.
  (* the server accepts *)
  cbn [accept_loop]. eapply leads_step.
  { apply right_calls. cbn [app_step]. unfold mbind, M_bind. rewrite Hacc. reflexivity. }
  cbn [int_of fst fmap option_fmap option_map default]. rewrite (proj2 (Z.ltb_ge b 0)) by lia.
  change (id addr) with addr. destruct Hi as (Hfam & _ & _). rewrite Hfam, Z.eqb_refl. cbn [negb].
  apply HR.
  - destruct Hcon as (s1 & c1 & s2 & c2 & Hr1 & Hr2' & Hl). by exists s1, c1, s2, c2.
  - pose proof Hcl as [_ [_ Hst] (Hact & _) _ _]. eexists _, _, (listen_sd s). split; [split; [apply sock_at_lookup|apply thread_lookup]|].
    split; [|by left]. unfold role. cbn. by rewrite Hact, Hst.
  - eexists _, _, l. split; [split; apply lookup_insert_eq|]. split; [done|]. right. destruct Hsock as [_ [_ ?]]. lia.
  - exists k, tbl, tbl2, (Running (established_context false)). split; [done|]. split; [done|].
    exact (elsewhere_sock b (set_listen_table tbl2 (thread_at (accepting st l ls addr tbl) b _)) _).
Qed.

(** What the two are about to do when the files were sent. *)
Definition done_asking (c : client) (p : prog (Z * option bytes)) : Prop := p = Myclose 0 (fun _ => Done (cl_result c)).
Definition awaits_request (l b : Z) (conns : nat) (fuel : nat) (p : prog Z) : Prop :=
  exists fuel', p = prog_bind (fun _ => accept_loop l conns fuel) (do_connection b (S fuel')).

Lemma rests_done_asking c : rests (done_asking c).
Proof. by split. Qed.
Lemma awaits_request_reads l b conns fuel p : awaits_request l b conns fuel p ->
  exists k, p = Myread b 1 k /\ k 0 [] = Myclose b (fun _ => accept_loop l conns fuel).
Proof. intros (f & ->). by eexists. Qed.
Lemma rests_awaits_request l b conns fuel : rests (awaits_request l b conns fuel).
Proof.
  split; [intros sd buf k (k' & [=] & _)%awaits_request_reads|]. intros sd n k (k' & [= _ -> _] & _)%awaits_request_reads. lia.
Qed.

(** A conversation between a client and the server it connected to. *)
Record conversation_with (c : client) (st : stack) (l b : Z) (ls : mysock_context) (m : gmap Z listen_queue_t) (q : listen_queue_t)
    (addr : sockaddr) (conns fuel n : nat) (w : world (Z * option bytes) Z) : Prop := {
  with_script : in_play (conversation (cl_names c)) 0 b (done_asking c) (awaits_request l b conns fuel) n w;
  with_client : in_role 0 (ep_stack (fst (w_ends w))) true;
  with_server : in_role b (ep_stack (snd (w_ends w))) false;
  with_host : has_accepted st l b ls m q addr (ep_stack (snd (w_ends w)));
}.

Lemma conversation_starts c ip p st l b ls m q addr conns fuel stA stB :
  client_ok c ip p -> (length (cl_names c) < fuel)%nat ->
  connection 0 b (mk_ep stA [] []) (mk_ep stB [] []) -> in_role 0 stA true -> in_role b stB false ->
  has_accepted st l b ls m q addr stB ->
  exists n, conversation_with c st l b ls m q addr conns fuel n
    (mk_world (cl_work c) (sv_work l b conns fuel) (mk_ep stA [] [], mk_ep stB [] [])).
Proof.
  intros [_ _ _ Hn [Hl Hf] _ Hw] Hfu Hc HA HB Hh. eexists. split; [|done|done|done].
  exists [], (conversation (cl_names c)), [], (conversation (cl_names c)). split; [|split; [|done]]; (split; [done| |done|done]).
  - unfold cl_work. rewrite <- (app_nil_r (conversation (cl_names c))). apply plays_bind.
    eapply plays_mono; [|by apply plays_client]. intros p' ->. by apply plays_end.
  - by apply plays_do_connection_then.
Qed.

(** It goes on being one whatever happens, *)
Lemma conversation_goes_on c ip p st l b ls m q addr conns fuel n w w' :
  client_ok c ip p -> conversation_with c st l b ls m q addr conns fuel n w -> sys_reaches 0 b w w' ->
  exists n', conversation_with c st l b ls m q addr conns fuel n' w'.
Proof.
  intros [_ _ _ Hn _ Hwi _] [H1 H2 H3 (k & tbl & tbl2 & tr & K1 & K2 & K3)] Hr.
  pose proof (conversation_bytes _ Hn) as Hb.
  destruct (in_play_reaches _ Hb Hwi 0 b _ _ (rests_done_asking _) (rests_awaits_request _ _ _ _) _ _ _ H1 Hr) as [n' H1'].
  destruct (sys_reaches_stays _ Hb Hwi 0 b _ _ (rests_done_asking _) (rests_awaits_request _ _ _ _) _ _ _ H1 Hr) as [S1 S2].
  exists n'. split; [done|by eapply in_role_stays|by eapply in_role_stays|].
  exists k, tbl, tbl2, tr. split; [done|]. split; [done|]. eapply elsewhere_trans; [exact K3|apply S2].
Qed.

(** and can be brought to its end, with nothing left to do. *)
Lemma conversation_ends c ip p st l b ls m q addr conns fuel n w :
  client_ok c ip p -> conversation_with c st l b ls m q addr conns fuel n w ->
  exists w', sys_reaches 0 b w w' /\ conversation_with c st l b ls m q addr conns fuel 0 w'
    /\ loaded 0 b 0 (fst (w_ends w')) (snd (w_ends w')).
Proof.
  intros Hc Hw. pose proof Hc as [_ _ _ Hn _ Hwi _]. pose proof (conversation_bytes _ Hn) as Hb.
  destruct (in_play_finishes _ Hb Hwi 0 b _ _ (rests_done_asking _) (rests_awaits_request _ _ _ _) _ _ (with_script _ _ _ _ _ _ _ _ _ _ _ _ Hw))
    as (w1 & Hr1 & H1).
  assert (Hl : exists l, loaded 0 b l (fst (w_ends w1)) (snd (w_ends w1))).
  { destruct H1 as (? & ? & ? & ? & _ & _ & Hcon & _). by apply loaded_connection. }
  destruct Hl as [l1 Hl1].
  destruct (in_play_drains _ Hb Hwi 0 b _ _ (rests_done_asking _) (rests_awaits_request _ _ _ _) _ _ H1 Hl1) as (w2 & Hr2 & H2 & _ & _ & Hl2).
  assert (Hr : sys_reaches 0 b w w2) by by etrans.
  exists w2. split; [done|]. split; [|done].
  destruct (conversation_goes_on _ _ _ _ _ _ _ _ _ _ _ _ _ _ _ Hc Hw Hr) as (n' & [_ W2 W3 W4]). by split.
Qed.

(** The connection is then closed, and the server waits for the next client. *)
Definition served (c : client) (ip l b p : Z) (m : gmap Z listen_queue_t) (q : listen_queue_t) (conns fuel : nat)
    (s : session (Z * option bytes) Z) : Prop :=
  left_app s = Calling (Done (cl_result c)) /\ right_app s = Calling (accept_loop l conns fuel)
  /\ (exists ls, serving (right_host s) l b p ls m q) /\ host_ip (right_host s) = ip.

Lemma conversation_closes c st l b p ls m q addr conns fuel w :
  serving st l b p ls m q -> conversation_with c st l b ls m q addr conns fuel 0 w ->
  loaded 0 b 0 (fst (w_ends w)) (snd (w_ends w)) ->
  leads 0 l (conversing b w) (served c (host_ip st) l b p m q conns fuel).
Proof.
  intros Hsv [H1 (sA & cA & lA & RA & OA & LA) (sB & cB & lB & RB & OB & LB) (k & tbl & tbl2 & tr & K1 & K2 & K3)]
    (s1 & c1 & s2 & c2 & w12 & w21 & R1 & R2 & Hlk & Hz).
  destruct (runs_unique _ _ _ _ _ _ R1 RA) as [-> ->]. destruct (runs_unique _ _ _ _ _ _ R2 RB) as [-> ->].
  pose proof (drained_quiet _ _ _ _ _ _ _ _ _ _ _ _ _ _ Hlk Hz OA LA) as QA.
  pose proof Hlk as (_ & _ & Hfac & _).
  apply linked_at_sym in Hlk. rewrite load_sym in Hz. pose proof (drained_quiet _ _ _ _ _ _ _ _ _ _ _ _ _ _ Hlk Hz OB LB) as QB.
  destruct (in_play_over _ 0 b _ _ _ H1) as [PA (kr & PB & Hkr)%awaits_request_reads].
  destruct w as [p0 q0 [eA eB]]. cbn in *. rewrite PA, PB.
  eapply leads_close; [exact (orderly_close_ok _ _ _ _ 0 0 1 _ _ _ _ RA RB QA QB Hfac)|exact Hkr|].
  apply leads_here. split; [done|]. split; [done|]. cbn [right_host]. split; [|by destruct K3 as (K3 & _)].
  eexists. by eapply serving_again.
Qed.

(** [serves cs y st]: the server [y] on host [st] can take the clients one after
    the other. Each connects, and however its conversation with the server goes,
    it can end with what it asked for and with the server on its host taking the
    next; after the last the server waits for another. *)
Fixpoint serves (l : Z) (conns fuel : nat) (cs : list client) (y : app Z) (st : stack) : Prop :=
  match cs with
  | [] => y = Calling (accept_loop l conns fuel)
  | c :: cs =>
      leads 0 l (mk_session (Calling (cl_prog c)) y (cl_host c) st Unconnected) (fun s =>
        exists b w, s = conversing b w /\ forall w', sys_reaches 0 b w w' ->
          leads 0 l (conversing b w') (fun s =>
            left_app s = Calling (Done (cl_result c)) /\ serves l conns fuel cs (right_app s) (right_host s)))
  end.

(** One client of a server that waits. *)
Lemma serving_next_client c st l b p ls m q conns fuel :
  serving st l b p ls m q -> client_ok c (host_ip st) p -> (length (cl_names c) < fuel)%nat -> is_Some (bind_port 0) ->
  leads 0 l (mk_session (Calling (cl_prog c)) (Calling (accept_loop l (S conns) fuel)) (cl_host c) st Unconnected) (fun s =>
    exists w, s = conversing b w /\ forall w', sys_reaches 0 b w w' ->
      leads 0 l (conversing b w') (served c (host_ip st) l b p m q conns fuel)).
Proof.
  intros Hs Hc Hf Hp. set (addr := mk_sockaddr AF_INET 1 (host_ip (cl_host c))).
  apply (client_connects c st l b p ls m q conns fuel addr); [done|done|done| |done|].
  { pose proof (client_ip _ _ _ Hc). done. }
  intros stA stB Hcon HA HB Hh. apply leads_here. destruct (conversation_starts _ _ _ _ _ _ _ _ _ _ conns _ _ _ Hc Hf Hcon HA HB Hh) as [n Hw].
  exists (mk_world (cl_work c) (sv_work l b conns fuel) (mk_ep stA [] [], mk_ep stB [] [])).
  split; [reflexivity|]. intros w' Hr. destruct (conversation_goes_on _ _ _ _ _ _ _ _ _ _ _ _ _ _ _ Hc Hw Hr) as [n' Hw'].
  destruct (conversation_ends _ _ _ _ _ _ _ _ _ _ _ _ _ _ Hc Hw') as (w2 & Hr2 & Hw2 & Hl2).
  pose proof (sys_reaches_session 0 l b _ _ Hr2) as Hr3.
  destruct (conversation_closes _ _ _ _ _ _ _ _ _ _ _ _ Hs Hw2 Hl2) as (s' & Hr4 & Hsv). exists s'. split; [by etrans|done].
Qed.

Lemma serving_serves l b p conns fuel m q cs st ls :
  is_Some (bind_port 0) -> serving st l b p ls m q ->
  Forall (fun c => client_ok c (host_ip st) p /\ (length (cl_names c) < fuel)%nat) cs ->
  serves l conns fuel cs (Calling (accept_loop l (length cs + conns) fuel)) st.
Proof.
  intros Hp. revert st ls. induction cs as [|c cs IH]; intros st ls Hs Hcs; [done|].
  apply Forall_cons in Hcs as [[Hc Hf] Hcs]. cbn [serves length Nat.add].
  eapply leads_trans; [exact (serving_next_client _ _ _ _ _ _ _ _ (length cs + conns) _ Hs Hc Hf Hp)|].
  intros s (w & -> & Hw). apply leads_here. exists b, w. split; [done|]. intros w' Hr.
  eapply leads_trans; [by apply Hw|]. intros s (E1 & E2 & (ls' & Hs') & E3). apply leads_here. split; [done|].
  rewrite E2. eapply IH; [exact Hs'|]. by rewrite E3.
Qed.

(** C1: the file server serves its clients one after the other, from their first
    calls to their last. On a fresh host server.c makes its mysocket, binds it,
    listens and waits; each client makes a mysocket and connects, the transport
    threads and the network open the connection, and [myconnect] and [myaccept]
    return. Then, whatever way the programs, threads and network take turns
    while files are asked for and sent, the session can be brought to where the
    client has exited with status 0 and the last file it asked for that exists,
    byte for byte, both ends are closed, their descriptors free, and the server is
    back in [myaccept], ready for the next. *)
Theorem server_serves_clients hostname l b p conns fuel c cs st :
  server_host hostname st l b p ->
  Forall (fun c => client_ok c (host_ip st) p /\ (length (cl_names c) < fuel)%nat) (c :: cs) ->
  serves l conns fuel (c :: cs) (Calling (server_main hostname true (length (c :: cs) + conns) fuel)) st.
Proof.
  intros Hh Hcs. pose proof (host_port _ _ _ _ _ Hh) as [Hp _].
  assert (Hp' : is_Some (bind_port 0)) by by eexists.
  cbn [serves]. eapply server_starts; [exact Hh|]. intros st1 ls m q Hs Hip.
  rewrite <- Hip in Hcs. exact (serving_serves l b p conns fuel m q (c :: cs) st1 ls Hp' Hs Hcs).
Qed.
End clients.

(* ------------------------------------------------------------------ *)
(** * Instance *)

#[local] Existing Instance demo_files.
#[local] Existing Instance demo_files_ok.
#[local] Existing Instance demo_kernel.
#[local] Existing Instance demo_kernel_ok.

(** One client asks for a file with [-f], the next for two at its prompt, one of
    which does not exist. *)
Definition demo_clients : list client :=
  [mk_client false (Some (str "notes")) (str "10.0.0.2:40000") [] length 1 (new_host ipA);
   mk_client false None (str "10.0.0.2:40000") [str "nosuch"; str "notes"] length 3 (new_host ipA)].

Lemma server_serves_clients_witness :
  serves (fun _ => Some ipB) (fun _ => None) 0 1 3 demo_clients (Calling (server_main (Some (str "server")) true 3 3)) (new_host ipB)
  /\ Forall (fun c => cl_result c = (0, Some (str "abc"))) demo_clients.
Proof.
  split; [|by repeat constructor].
  apply (server_serves_clients (fun _ => Some ipB) (fun _ => None) (Some (str "server")) 0 1 (htons 40000) 1 3).
  - split; [done|done| |done|].
    + exists ∅. split; [apply new_host_listens|done].
    + eexists. split; [reflexivity|]. vm_compute. lia.
  - assert (Hn : forall n, n = str "notes" \/ n = str "nosuch" -> name_ok n /\ file_ok n).
    { intros n [->| ->]; (split; [split; [done|split; [by repeat constructor|vm_compute; lia]]|]); intros content H; [|done].
      injection H as <-. split; [by repeat constructor|done]. }
    assert (Hc : forall q f ls fuel, Forall (fun n => n = str "notes" \/ n = str "nosuch") (asked f ls) -> Forall line_ok ls ->
      (length ls < fuel)%nat -> (forall side, within (bytes_of side (conversation (asked f ls)))) ->
      client_ok (fun _ => Some ipB) (fun _ => None) (mk_client q f (str "10.0.0.2:40000") ls length fuel (new_host ipA)) ipB (htons 40000)).
    { intros q f ls fuel H1 H2 H3 H4. split; try done. { eexists. split; [reflexivity|done]. }
      eapply Forall_impl; [exact H1|]. apply Hn. }
    apply Forall_cons; split; [|apply Forall_cons; split; [|done]]; (split; [apply Hc|vm_compute; lia]).
    + apply Forall_singleton. by left.
    + done.
    + cbn. lia.
    + by intros [].
    + apply Forall_cons. split; [by right|]. apply Forall_singleton. by left.
    + apply Forall_cons. split; [|apply Forall_singleton]; (split; [by repeat constructor|vm_compute; lia]).
    + cbn. lia.
    + by intros [].
Defined.
